(* ===== verification/_CoqProject ===== *)
-Q . S2P
Prelude.v
GoInt.v
GoStrings.v
Sha256.v
Json.v
JsonDecode.v
JsonRoundtrip.v
Schema.v
Prog.v
Sql.v
Wp.v
Events.v
Ledger.v
WellFormed.v
Preserve.v
Money.v
Recharge.v
Gift.v
GiftSpec.v
Invariants.v
InternalEvents.v
Decode.v
ReadModels.v
Settlement.v
Reconcile.v
System.v
Points.v
Redis.v
Wp2.v
Relay.v
Queries.v
Announce.v
Consumers.v
Leaderboard.v
Api.v
Board.v
Rebuild.v
BoardEvents.v
Runs.v
Lab.v
Rankings.v
ApiSpec.v
Integrity.v
Sessions.v
Pipeline.v
ApiClaims.v
Workers.v
Projection.v
Delivery.v
EndToEnd.v
