(* ===== verification/Prelude.v ===== *)
(** * live-revenue-integrity-lab: a verification library

    The program takes gifts and recharges over HTTP, moves coins in a double-entry ledger in MySQL,
    announces every committed change in an outbox, relays the outbox to Kafka, and projects the
    announcements into points (MySQL) and leaderboards (Redis); sessions are closed, settled and
    reconciled against the ledger. This library models its Go code under src/ and proves what makes
    it trustworthy: money is neither lost nor made, retries and redeliveries do no harm, and what the
    projections show is what was paid.

    ** Parts, files and sources

    - Go and its libraries: [GoInt] (fixed-width integers in [Z], wrapping written out), [GoStrings]
      (UTF-8, strings, strconv), [Sha256], [Json] (json.Marshal), [JsonDecode], [Decode]
      (json.Unmarshal, Decoder.Decode) and [JsonRoundtrip].
    - The database: [Schema] (the tables of src/migrations and the rows of internal/store/sqlcgen/
      models.go), [Prog] (programs as trees of effects, and the interface [Handler] of a provider),
      [Sql] (statements, transactions, the clock, failures of the connection at any call),
      [Wp] and [Wp2] (a weakest-precondition calculus, with and without failures, for the database
      alone and next to a second provider), [Queries] (internal/store/sqlcgen).
    - The service (internal/service): [Events], [Ledger], [Recharge], [Gift], [InternalEvents],
      [ReadModels], [Settlement] hold one program per operation, statement by statement in the order
      of the source, with the error of every call; next to them the atomic operation each one refines
      ([GiftSpec] for gifts). [WellFormed] is what the schema guarantees, [Preserve], [Money] and
      [Invariants] the ledger invariant and its preservation, [Reconcile] the join of the settlement,
      [System] the service as a transition system.
    - The event path: [Relay] (internal/outbox), [Points] (internal/projector/points), [Consumers]
      (ConsumeClaim of cmd/points-projector and cmd/settlement-worker), [Announce] (outbox rows and
      accepted gifts), [Pipeline] and [Projection] (service, relay and consumers as one system).
    - The leaderboards: [Redis] (commands and the interface of a server), [Leaderboard]
      (internal/projector/leaderboard), [Board], [Rebuild] and [BoardEvents] (what its keys hold).
    - The API: [Api] (internal/app/api, internal/httpx), [ApiSpec].
    - The processes: [Workers] (internal/config, the main functions of cmd).
    - [Lab]: the seed of src/migrations/00002_seed.sql as a database, and an instance of every
      interface, on which each theorem with hypotheses is applied.

    State is explicit: a program runs on a [Db] (committed tables, AUTO_INCREMENT counters, the writes
    of the open transaction) and, where it has one, on the state of a second provider (the log of
    Kafka, the marks of a consumer session, the values of Redis). Errors are values: [res] for Go
    errors, [outcome] for the triple of result, application error and error.

    ** What is proved

    - [Integrity] (C1 to C16): gifts and recharges refine atomic operations under any failures; each
      transaction has two cancelling entries and each balance is the sum of its entries; orders and
      debits match one to one; repeated requests are answered from the stored result and charge once;
      who can give what to whom, and what a refusal or an error leaves behind.
    - [Sessions] (C17 to C24): settlements reconcile and are repeatable, rankings are exact, sessions
      close once and take no money afterwards, every change has its outbox row, and the loop over
      watch minutes ends except for 65535.
    - [Delivery] (C25 to C31): the relay loses nothing and drains the outbox; the projector applies an
      event once and keeps its caps; a gift above 2147483647 coins cannot be projected.
    - [EndToEnd] (C32 to C34): an event survives the JSON column and the decoder, a claim marks only
      what it has applied, and along every interleaving of operations, relay runs and claims the gift
      points are bounded by the coins, and equal to them when everything is consumed.
    - [Rankings] (C35 to C37): a rebuild is exact, deliveries and a rebuild agree, and a gift whose
      first Redis command fails is lost to the leaderboards until a rebuild.
    - [ApiClaims] (C38 to C40): HTTP requests are service operations on values of their Go types, the
      contributors page shows the board, and a gift answered with 201 is answered the same way, without
      a second charge, after any further traffic.

    ** Interfaces and their laws

    What is outside src/ is a parameter with the documented behaviour the code relies on: [MySQL] with
    [MySQLLaws] (collation, VARCHAR, LIKE and JSON columns on the texts the program stores),
    [OutboxOrderLaws] (ORDER BY created_at with ties in any order), [Redis] with [RedisLaws] (a command
    has its effect or fails with or without it), [MapOrderLaws] (the order of range over a map),
    [Unicode] (case folding beyond ASCII), [ErrorText] (the text of an error), [FloatToInt] (the
    conversion of a float64 out of range), and [Env] and [KafkaEnv] (clock and failures).

    ** Fuel and bounds

    Loops that are not structural run on fuel: the JSON parser on two units per rune of
    its input ([parse_enough]: more fuel never changes a result), decimal formatting on the number of binary
    digits, the loop over watch minutes on a number the caller chooses, with [None] for a loop that has
    not ended (C23 gives the fuel that is enough, C24 shows that none is for 65535). The exactness of
    the leaderboards needs totals up to 2^53, the integers of a float64 score ([countable]).

    ** Not modelled

    Transactions of different connections do not overlap: every run of an operation is atomic in time,
    interleaved with others only between operations; [Sql] records the rows each statement locks, but
    no scheduler uses them. Connecting (internal/db), the listener and signals (cmd/api), the consumer
    group protocol, metrics histograms and logging are I/O without logic. The redirects of the HTTP mux
    and its own answers are left to net/http. *)

From Stdlib Require Export Ascii String ZArith Lia.
From stdpp Require Export prelude list gmap strings.

#[global] Open Scope Z_scope.

(** ** Sums over rows: the aggregate functions of SQL *)

Section sums.
Context {A : Type}.
Implicit Types (f g : A → Z) (p q : A → bool) (l : list A).

(** [SUM(f)] over a list of rows; the empty sum is 0, as [COALESCE(SUM(f), 0)]. *)
Fixpoint sum_of f l : Z :=
  match l with
  | [] => 0
  | x :: l' => f x + sum_of f l'
  end.

(** [WHERE p]. *)
Definition where_ p l : list A := List.filter p l.

(** [COUNT] of the rows that satisfy [p]. *)
Definition count_where p l : Z := Z.of_nat (length (where_ p l)).

Lemma sum_of_app f l1 l2 : sum_of f (l1 ++ l2) = sum_of f l1 + sum_of f l2.
Proof. induction l1 as [|x l1 IH]; simpl; lia. Qed.

Lemma sum_of_ext f g l : (∀ x, In x l → f x = g x) → sum_of f l = sum_of g l.
Proof.
  induction l as [|x l IH]; intros H; simpl; [done|].
  rewrite (H x), IH; simpl; auto.
  intros y Hy. apply H. by right.
Qed.

Lemma sum_of_perm f l1 l2 : l1 ≡ₚ l2 → sum_of f l1 = sum_of f l2.
Proof. induction 1; simpl; lia. Qed.

Lemma sum_of_nonneg f l : (∀ x, In x l → 0 ≤ f x) → 0 ≤ sum_of f l.
Proof.
  induction l as [|x l IH]; intros H; simpl; [lia|].
  assert (0 ≤ f x) by (apply H; by left).
  assert (0 ≤ sum_of f l) by (apply IH; intros y Hy; apply H; by right). lia.
Qed.

Lemma where_app p l1 l2 : where_ p (l1 ++ l2) = where_ p l1 ++ where_ p l2.
Proof. apply List.filter_app. Qed.

Lemma where_In p x l : In x (where_ p l) ↔ In x l ∧ p x = true.
Proof. apply List.filter_In. Qed.

Lemma where_none p l : (∀ x, In x l → p x = false) → where_ p l = [].
Proof.
  induction l as [|x l IH]; intros H; simpl; [done|].
  rewrite (H x) by (by left). apply IH. intros y Hy. apply H. by right.
Qed.

Lemma where_ext p q l : (∀ x, In x l → p x = q x) → where_ p l = where_ q l.
Proof.
  induction l as [|x l IH]; intros H; simpl; [done|].
  rewrite (H x) by (by left).
  destruct (q x); [f_equal|]; apply IH; intros y Hy; apply H; by right.
Qed.

Lemma where_perm p l l' : l ≡ₚ l' → where_ p l ≡ₚ where_ p l'.
Proof.
  unfold where_. induction 1 as [|x l l' _ IH|x y l|]; simpl; [done|..|by etrans];
    repeat case_match; try done; [by constructor|constructor].
Qed.

Lemma where_where p q l : where_ p (where_ q l) = where_ (λ x, q x && p x) l.
Proof.
  induction l as [|x l IH]; simpl; [done|]. destruct (q x) eqn:E; simpl; rewrite ?IH; done.
Qed.

Lemma sum_where_le f p l : (∀ x, In x l → 0 ≤ f x) → sum_of f (where_ p l) ≤ sum_of f l.
Proof.
  induction l as [|x l IH]; intros Hf; simpl; [done|].
  assert (0 ≤ f x) by (apply Hf; by left).
  specialize (IH ltac:(intros y Hy; apply Hf; by right)). destruct (p x); simpl; lia.
Qed.

Lemma find_none_iff p l : List.find p l = None ↔ ∀ x, In x l → p x = false.
Proof.
  split; [apply List.find_none|].
  intros H. destruct (List.find p l) as [x|] eqn:E; [|done].
  apply List.find_some in E as [Hin Hp]. by rewrite (H x Hin) in Hp.
Qed.

Lemma find_app p l1 l2 :
  List.find p (l1 ++ l2) =
  match List.find p l1 with Some x => Some x | None => List.find p l2 end.
Proof. induction l1 as [|x l1 IH]; simpl; [done|]. by destruct (p x). Qed.

Lemma existsb_find p l :
  List.existsb p l = match List.find p l with Some _ => true | None => false end.
Proof. induction l as [|x l IH]; simpl; [done|]. by destruct (p x). Qed.

Lemma existsb_false p l : List.existsb p l = false ↔ ∀ x, In x l → p x = false.
Proof.
  induction l as [|x l IH]; simpl; [by split|].
  rewrite orb_false_iff, IH. split.
  - intros [Hx Hl] y [<-|Hy]; auto.
  - intros H. split; auto.
Qed.
End sums.

(** ** Uniqueness of a key over a table *)

Section keys.
Context {A K : Type}.
Implicit Types (k : A → K) (l : list A).

(** [UNIQUE KEY k]: no two rows of the table share a key. *)
Definition unique_key k l : Prop := List.NoDup (map k l).

Lemma unique_key_app k l x :
  unique_key k l → (∀ y, In y l → k y ≠ k x) → unique_key k (l ++ [x]).
Proof.
  unfold unique_key. intros Hl Hx. rewrite map_app. simpl.
  apply NoDup_ListNoDup. apply NoDup_app. split_and!.
  - by apply NoDup_ListNoDup.
  - intros y Hy Hy'. apply list_elem_of_singleton in Hy' as ->.
    apply list_elem_of_In, in_map_iff in Hy as (z & Hz & Hin).
    by apply (Hx z).
  - apply NoDup_singleton.
Qed.

Lemma unique_key_inj k l x y :
  unique_key k l → In x l → In y l → k x = k y → x = y.
Proof.
  unfold unique_key. induction l as [|z l IH]; simpl; [done|].
  intros Hnd Hx Hy Heq. inversion Hnd as [|? ? Hnin Hnd']; subst.
  destruct Hx as [->|Hx], Hy as [->|Hy]; auto.
  - exfalso. apply Hnin. rewrite Heq. by apply in_map.
  - exfalso. apply Hnin. rewrite <- Heq. by apply in_map.
Qed.

(** A boolean test that decides equality with one key selects at most the row with that key. *)
Lemma unique_key_where k l (p : A → bool) x :
  unique_key k l → In x l → (∀ y, In y l → p y = true ↔ k y = k x) →
  where_ p l = [x].
Proof.
  unfold unique_key. induction l as [|z l IH]; simpl; [done|].
  intros Hnd Hx Hp. inversion Hnd as [|? ? Hnin Hnd']; subst.
  destruct Hx as [->|Hx].
  - rewrite (proj2 (Hp x (or_introl eq_refl)) eq_refl). f_equal.
    apply where_none. intros y Hy. apply not_true_iff_false. intros Hpy.
    apply Hp in Hpy; [|by right]. apply Hnin. rewrite <- Hpy. by apply in_map.
  - destruct (p z) eqn:E.
    + apply Hp in E; [|by left]. exfalso. apply Hnin. rewrite E. by apply in_map.
    + apply IH; auto.
Qed.
End keys.

(** ** Automation *)

(** Splits the boolean tests the code makes into propositions. *)
Ltac bool_to_prop :=
  repeat match goal with
  | H : _ && _ = true |- _ => apply andb_true_iff in H; destruct H
  | H : _ || _ = false |- _ => apply orb_false_iff in H; destruct H
  | H : negb _ = true |- _ => apply negb_true_iff in H
  | H : negb _ = false |- _ => apply negb_false_iff in H
  | H : (_ =? _)%Z = true |- _ => apply Z.eqb_eq in H
  | H : (_ =? _)%Z = false |- _ => apply Z.eqb_neq in H
  | H : (_ <? _)%Z = true |- _ => apply Z.ltb_lt in H
  | H : (_ <? _)%Z = false |- _ => apply Z.ltb_ge in H
  | H : (_ <=? _)%Z = true |- _ => apply Z.leb_le in H
  | H : (_ <=? _)%Z = false |- _ => apply Z.leb_gt in H
  | H : String.eqb _ _ = true |- _ => apply String.eqb_eq in H
  | H : String.eqb _ _ = false |- _ => apply String.eqb_neq in H
  end.

(** Case analysis on the innermost scrutinee of a [match] or [if], in the goal or a hypothesis. *)
Ltac split_match :=
  match goal with
  | |- context [match ?x with _ => _ end] =>
      lazymatch x with context [match _ with _ => _ end] => fail | _ => destruct x eqn:? end
  | H : context [match ?x with _ => _ end] |- _ =>
      lazymatch x with context [match _ with _ => _ end] => fail | _ => destruct x eqn:? end
  end.

Create HintDb revenue.
Create Rewrite HintDb revenue.
#[export] Hint Resolve in_or_app : revenue.
#[export] Hint Rewrite @sum_of_app @where_app : revenue.
