(* ===== verification/GoInt.v ===== *)
(** * Go's fixed-width integers

    A Go integer is a [Z] kept inside the range of its type; arithmetic that can leave the range is
    wrapped explicitly. Models the conversions of src/internal/service/gift.go and
    src/internal/projector/leaderboard/projector.go. *)

From S2P Require Import Prelude.

Definition max_uint8 : Z := 255.
Definition max_uint16 : Z := 65535.
Definition max_uint32 : Z := 4294967295.
Definition max_int32 : Z := 2147483647.
Definition max_int64 : Z := 9223372036854775807.
Definition max_uint64 : Z := 18446744073709551615.

Definition is_uint16 (v : Z) : Prop := 0 ≤ v ≤ max_uint16.
Definition is_uint32 (v : Z) : Prop := 0 ≤ v ≤ max_uint32.
Definition is_int32 (v : Z) : Prop := - max_int32 - 1 ≤ v ≤ max_int32.
Definition is_int64 (v : Z) : Prop := - max_int64 - 1 ≤ v ≤ max_int64.
Definition is_uint64 (v : Z) : Prop := 0 ≤ v ≤ max_uint64.

(** A *uint64. *)
Definition is_uint64_ptr (p : option Z) : Prop := match p with Some v => is_uint64 v | None => True end.

(** Two's complement wrap-around of int64 arithmetic. *)
Definition int64 (v : Z) : Z := (v + (max_int64 + 1)) mod (max_uint64 + 1) - (max_int64 + 1).

(** Wrap-around of the unsigned conversions. *)
Definition uint16 (v : Z) : Z := v mod (max_uint16 + 1).
Definition uint32 (v : Z) : Z := v mod (max_uint32 + 1).
Definition uint64 (v : Z) : Z := v mod (max_uint64 + 1).

Ltac int_bounds :=
  unfold is_uint64_ptr, is_uint16, is_uint32, is_int32, is_int64, is_uint64, int64, uint16, uint32, uint64,
    max_uint8, max_uint16, max_uint32, max_int32, max_int64, max_uint64 in *.

Lemma int64_id v : is_int64 v → int64 v = v.
Proof. int_bounds. intros H. rewrite Z.mod_small; lia. Qed.

Lemma int64_0 : int64 0 = 0.
Proof. apply int64_id. int_bounds. lia. Qed.

Lemma int64_range v : is_int64 (int64 v).
Proof.
  int_bounds. pose proof (Z.mod_pos_bound (v + (9223372036854775807 + 1)) (18446744073709551615 + 1)).
  lia.
Qed.

Lemma uint32_id v : is_uint32 v → uint32 v = v.
Proof. int_bounds. intros H. apply Z.mod_small. lia. Qed.

Lemma uint64_id v : is_uint64 v → uint64 v = v.
Proof. int_bounds. intros H. apply Z.mod_small. lia. Qed.

Lemma uint64_int64 v : is_uint64 v → uint64 (int64 v) = v.
Proof.
  int_bounds. intros H.
  rewrite <- (Z.mod_small v (18446744073709551615 + 1)) at 2 by lia.
  rewrite Zminus_mod_idemp_l. f_equal. lia.
Qed.

Lemma int64_add_idemp a b : int64 (int64 a + b) = int64 (a + b).
Proof.
  int_bounds. f_equal.
  replace ((a + (9223372036854775807 + 1)) mod (18446744073709551615 + 1) -
           (9223372036854775807 + 1) + b + (9223372036854775807 + 1))
    with ((a + (9223372036854775807 + 1)) mod (18446744073709551615 + 1) + b) by lia.
  rewrite Zplus_mod_idemp_l. f_equal. lia.
Qed.

#[export] Hint Resolve int64_range : revenue.

#[global] Arguments int64 : simpl never.
#[global] Arguments uint16 : simpl never.
#[global] Arguments uint32 : simpl never.
#[global] Arguments uint64 : simpl never.

(** A generated id read as an int64 is below 1 exactly when it is out of the int64 range. *)
Lemma int64_id_test n : 1 ≤ n ≤ max_uint64 → (int64 n <? 1) = (max_int64 <? n).
Proof.
  intros Hn. destruct (max_int64 <? n) eqn:E; bool_to_prop.
  - apply Z.ltb_lt. int_bounds.
    replace (n + (9223372036854775807 + 1))
      with (n - (9223372036854775807 + 1) + 1 * (18446744073709551615 + 1)) by lia.
    rewrite Z_mod_plus_full, Z.mod_small; lia.
  - apply Z.ltb_ge. rewrite int64_id; int_bounds; lia.
Qed.
