(* ===== verification/GoStrings.v ===== *)
(** * Go strings: UTF-8 runes, [strings] and [strconv]

    A Go string is a sequence of bytes: here a [string] whose [ascii] characters are the bytes.
    The file models what the sources use of [unicode/utf8], [strings] and [strconv]. *)

From S2P Require Import Prelude GoInt.

(** ** Bytes *)

Definition byte_of (a : Ascii.ascii) : Z := Z.of_N (Ascii.N_of_ascii a).
Definition char_of (b : Z) : Ascii.ascii := Ascii.ascii_of_N (Z.to_N b).

Fixpoint bytes_of (s : string) : list Z :=
  match s with
  | EmptyString => []
  | String a s' => byte_of a :: bytes_of s'
  end.

Lemma byte_of_range a : 0 ≤ byte_of a ≤ 255.
Proof.
  unfold byte_of. destruct a as [b0 b1 b2 b3 b4 b5 b6 b7].
  destruct b0, b1, b2, b3, b4, b5, b6, b7; vm_compute; split; discriminate.
Qed.

Lemma char_of_byte_of a : char_of (byte_of a) = a.
Proof. unfold char_of, byte_of. rewrite N2Z.id. apply Ascii.ascii_N_embedding. Qed.

Lemma byte_of_char_of b : 0 ≤ b ≤ 255 → byte_of (char_of b) = b.
Proof.
  intros H. unfold char_of, byte_of. rewrite Ascii.N_ascii_embedding by lia. lia.
Qed.

Lemma byte_of_inj a b : byte_of a = byte_of b → a = b.
Proof. intros H. rewrite <- (char_of_byte_of a), H. apply char_of_byte_of. Qed.

Lemma length_string_app s t :
  String.length (s +:+ t) = (String.length s + String.length t)%nat.
Proof.
  induction s as [|a s IH]; [done|].
  change (S (String.length (s +:+ t)) = S (String.length s + String.length t)). by rewrite IH.
Qed.

(** ** Runes: [utf8.DecodeRuneInString] applied until the string is empty *)

Record Rune := { r_code : Z; r_size : Z; r_text : string }.

Definition RuneError : Z := 65533.
Definition RuneSelf : Z := 128.

Definition in_range (lo hi b : Z) : bool := (lo <=? b) && (b <=? hi).

(** The number of bytes a lead byte announces and the range of its second byte; [None] for the
    bytes that cannot start a sequence. *)
Definition utf8_lead (b : Z) : option (Z * (Z * Z)) :=
  if in_range 194 223 b then Some (2, (128, 191))
  else if b =? 224 then Some (3, (160, 191))
  else if in_range 225 236 b then Some (3, (128, 191))
  else if b =? 237 then Some (3, (128, 159))
  else if in_range 238 239 b then Some (3, (128, 191))
  else if b =? 240 then Some (4, (144, 191))
  else if in_range 241 243 b then Some (4, (128, 191))
  else if b =? 244 then Some (4, (128, 143))
  else None.

Definition bad_rune (a : Ascii.ascii) : Rune :=
  {| r_code := RuneError; r_size := 1; r_text := String a EmptyString |}.

Fixpoint runes (s : string) : list Rune :=
  match s with
  | EmptyString => []
  | String a s1 =>
      let b0 := byte_of a in
      if b0 <? RuneSelf then
        {| r_code := b0; r_size := 1; r_text := String a EmptyString |} :: runes s1
      else
        match utf8_lead b0, s1 with
        | Some (sz, (lo, hi)), String b s2 =>
            let b1 := byte_of b in
            if negb (in_range lo hi b1) then bad_rune a :: runes s1
            else if sz =? 2 then
              {| r_code := (b0 - 192) * 64 + (b1 - 128); r_size := 2;
                 r_text := String a (String b EmptyString) |} :: runes s2
            else match s2 with
              | String c s3 =>
                  let b2 := byte_of c in
                  if negb (in_range 128 191 b2) then bad_rune a :: runes s1
                  else if sz =? 3 then
                    {| r_code := (b0 - 224) * 4096 + (b1 - 128) * 64 + (b2 - 128); r_size := 3;
                       r_text := String a (String b (String c EmptyString)) |} :: runes s3
                  else match s3 with
                    | String d s4 =>
                        let b3 := byte_of d in
                        if negb (in_range 128 191 b3) then bad_rune a :: runes s1
                        else
                          {| r_code := (b0 - 240) * 262144 + (b1 - 128) * 4096
                                       + (b2 - 128) * 64 + (b3 - 128);
                             r_size := 4;
                             r_text := String a (String b (String c (String d EmptyString))) |}
                          :: runes s4
                    | EmptyString => bad_rune a :: runes s1
                    end
              | EmptyString => bad_rune a :: runes s1
              end
        | _, _ => bad_rune a :: runes s1
        end
  end.

Fixpoint text_of (rs : list Rune) : string :=
  match rs with
  | [] => EmptyString
  | r :: rs' => r_text r +:+ text_of rs'
  end.

(** ** Package [strings] *)

(** [unicode.IsSpace]. *)
Definition IsSpace (r : Z) : bool :=
  in_range 9 13 r || (r =? 32) || (r =? 133) || (r =? 160) || (r =? 5760)
  || in_range 8192 8202 r || (r =? 8232) || (r =? 8233) || (r =? 8239) || (r =? 8287)
  || (r =? 12288).

Fixpoint drop_spaces (rs : list Rune) : list Rune :=
  match rs with
  | [] => []
  | r :: rs' => if IsSpace (r_code r) then drop_spaces rs' else rs
  end.

Definition TrimSpace (s : string) : string :=
  text_of (reverse (drop_spaces (reverse (drop_spaces (runes s))))).

(** [strings.EqualFold] compares rune by rune. Below [RuneSelf] it is ASCII case folding; for the
    other pairs Go follows the orbits of [unicode.SimpleFold], whose tables are the parameter
    [same_fold]. *)
Class Unicode := { same_fold : Z → Z → bool }.

Definition fold_eq `{Unicode} (x y : Z) : bool :=
  (x =? y) ||
  (let sr := Z.min x y in
   let tr := Z.max x y in
   if tr <? RuneSelf then in_range 65 90 sr && (tr =? sr + 32) else same_fold sr tr).

Fixpoint fold_eq_all `{Unicode} (xs ys : list Rune) : bool :=
  match xs, ys with
  | [], [] => true
  | x :: xs', y :: ys' => fold_eq (r_code x) (r_code y) && fold_eq_all xs' ys'
  | _, _ => false
  end.

Definition EqualFold `{Unicode} (s t : string) : bool := fold_eq_all (runes s) (runes t).

(** [strings.ToLower] on ASCII text. *)
Definition lower_byte (a : Ascii.ascii) : Ascii.ascii :=
  if in_range 65 90 (byte_of a) then char_of (byte_of a + 32) else a.

Fixpoint ToLower (s : string) : string :=
  match s with
  | EmptyString => EmptyString
  | String a s' => String (lower_byte a) (ToLower s')
  end.

(** [strings.ReplaceAll] with one-byte arguments. *)
Fixpoint ReplaceAll (s : string) (old new : Ascii.ascii) : string :=
  match s with
  | EmptyString => EmptyString
  | String a s' =>
      String (if Ascii.eqb a old then new else a) (ReplaceAll s' old new)
  end.

(** [strings.Trim] with a one-byte cutset. *)
Fixpoint trim_left (c : Ascii.ascii) (s : string) : string :=
  match s with
  | EmptyString => EmptyString
  | String a s' => if Ascii.eqb a c then trim_left c s' else s
  end.

Fixpoint rev_string (s acc : string) : string :=
  match s with
  | EmptyString => acc
  | String a s' => rev_string s' (String a acc)
  end.

Definition Trim (s : string) (c : Ascii.ascii) : string :=
  rev_string (trim_left c (rev_string (trim_left c s) EmptyString)) EmptyString.

(** [strings.Split] with a one-byte separator. *)
Fixpoint Split (s : string) (sep : Ascii.ascii) : list string :=
  match s with
  | EmptyString => [EmptyString]
  | String a s' =>
      if Ascii.eqb a sep then EmptyString :: Split s' sep
      else match Split s' sep with
           | x :: xs => String a x :: xs
           | [] => [String a EmptyString]
           end
  end.

(** ** Package [strconv] and the [%d] verb *)

Fixpoint string_of_bytes (bs : list Z) : string :=
  match bs with
  | [] => EmptyString
  | b :: bs' => String (char_of b) (string_of_bytes bs')
  end.

Definition digit (d : Z) : Ascii.ascii := char_of (48 + d).

Fixpoint dec_go (fuel : nat) (n : Z) (acc : string) : string :=
  match fuel with
  | O => acc
  | S fuel' =>
      let acc' := String (digit (n mod 10)) acc in
      if n / 10 =? 0 then acc' else dec_go fuel' (n / 10) acc'
  end.

(** The decimal text of a non-negative integer: [fmt.Sprintf] with the d verb, and
    [strconv.FormatUint] in base 10. The fuel is the number of binary digits, which no decimal
    text exceeds. *)
Definition FormatUint (n : Z) : string := dec_go (S (Z.to_nat (Z.log2 n))) n EmptyString.

(** The d verb on a signed integer. *)
Definition FormatInt (n : Z) : string :=
  if n <? 0 then String "-"%char (FormatUint (- n)) else FormatUint n.

(** The loop of [strconv.ParseUint] in base 10: [None] is its error result. *)
Fixpoint parse_digits (limit acc : Z) (s : string) : option Z :=
  match s with
  | EmptyString => Some acc
  | String a s' =>
      let d := byte_of a - 48 in
      if in_range 0 9 d then
        if acc * 10 + d <=? limit then parse_digits limit (acc * 10 + d) s' else None
      else None
  end.

Definition ParseUint (s : string) : option Z :=
  match s with
  | EmptyString => None
  | _ => parse_digits max_uint64 0 s
  end.

(** [strconv.Atoi]: an optional sign, then decimal digits, in the range of int. *)
Definition Atoi (s : string) : option Z :=
  match s with
  | EmptyString => None
  | String a s' =>
      if Ascii.eqb a "-"%char then
        match s' with EmptyString => None | _ => Z.opp <$> parse_digits (max_int64 + 1) 0 s' end
      else if Ascii.eqb a "+"%char then
        match s' with EmptyString => None | _ => parse_digits max_int64 0 s' end
      else parse_digits max_int64 0 s
  end.

Lemma digit_byte d : 0 ≤ d < 10 → byte_of (digit d) = 48 + d.
Proof. intros H. unfold digit. apply byte_of_char_of. lia. Qed.

(** The number of decimal digits fits in the fuel [FormatUint] gives itself. *)
Lemma dec_fuel_step n fuel :
  10 ≤ n → n < 2 ^ Z.of_nat (S fuel) → n / 10 < 2 ^ Z.of_nat fuel.
Proof.
  intros Hn Hlt. apply Z.div_lt_upper_bound; [lia|].
  rewrite Nat2Z.inj_succ, Z.pow_succ_r in Hlt by lia.
  pose proof (Z.pow_pos_nonneg 2 (Z.of_nat fuel)). lia.
Qed.

Lemma parse_dec_go limit fuel : ∀ n acc,
  0 ≤ n → n < 2 ^ Z.of_nat (S fuel) →
  ∃ k : Z, 1 ≤ k ∧ ∀ a, 0 ≤ a → a * 10 ^ k + n ≤ limit →
    parse_digits limit a (dec_go (S fuel) n acc) = parse_digits limit (a * 10 ^ k + n) acc.
Proof.
  induction fuel as [|fuel IH]; intros n acc Hn Hlt; cbn [dec_go].
  - assert (n < 2) by (simpl in Hlt; lia).
    exists 1. split; [lia|]. intros a Ha Hlim.
    rewrite Z.div_small, Z.eqb_refl, Z.mod_small by lia.
    cbn [parse_digits]. rewrite digit_byte by lia.
    replace (48 + n - 48) with n by lia. unfold in_range.
    rewrite (proj2 (Z.leb_le 0 n)), (proj2 (Z.leb_le n 9)) by lia. simpl.
    replace (a * 10 + n) with (a * 10 ^ 1 + n) by lia.
    by rewrite (proj2 (Z.leb_le _ limit)) by lia.
  - pose proof (Z.mod_pos_bound n 10). pose proof (Z_div_mod_eq_full n 10).
    assert (Hstep : ∀ a, 0 ≤ a → a * 10 + n mod 10 ≤ limit →
      parse_digits limit a (String (digit (n mod 10)) acc)
      = parse_digits limit (a * 10 + n mod 10) acc).
    { intros a Ha Hlim. cbn [parse_digits]. rewrite digit_byte by lia.
      replace (48 + n mod 10 - 48) with (n mod 10) by lia. unfold in_range.
      rewrite (proj2 (Z.leb_le 0 (n mod 10))), (proj2 (Z.leb_le (n mod 10) 9)) by lia. simpl.
      by rewrite (proj2 (Z.leb_le _ limit)) by lia. }
    destruct (n / 10 =? 0) eqn:E; bool_to_prop.
    + exists 1. split; [lia|]. intros a Ha Hlim. rewrite Hstep by lia. f_equal. lia.
    + assert (0 ≤ n / 10) by (apply Z.div_pos; lia).
      destruct (IH (n / 10) (String (digit (n mod 10)) acc)) as (k & Hk & IH'); [lia| |].
      { apply dec_fuel_step; [|done].
        destruct (Z_lt_le_dec n 10); [rewrite Z.div_small in E by lia; lia|lia]. }
      exists (k + 1). split; [lia|]. intros a Ha Hlim.
      assert (Hpow : a * 10 ^ (k + 1) + n = (a * 10 ^ k + n / 10) * 10 + n mod 10).
      { rewrite Z.pow_add_r by lia. lia. }
      pose proof (Z.pow_pos_nonneg 10 k).
      cbn [dec_go] in IH'. rewrite IH' by nia. rewrite Hstep by nia. f_equal. lia.
Qed.

Lemma log2_fuel n : 0 ≤ n → n < 2 ^ Z.of_nat (S (Z.to_nat (Z.log2 n))).
Proof.
  intros H. rewrite Nat2Z.inj_succ, Z2Nat.id by apply Z.log2_nonneg.
  destruct (Z.eq_dec n 0) as [->|]; [simpl; lia|]. apply Z.log2_spec. lia.
Qed.

Lemma FormatUint_nonempty n : FormatUint n ≠ EmptyString.
Proof.
  unfold FormatUint. cbn [dec_go]. destruct (n / 10 =? 0); [done|].
  assert (H : ∀ fuel m a acc, dec_go fuel m (String a acc) ≠ EmptyString).
  { induction fuel as [|fuel IH]; intros m a acc; cbn [dec_go]; [done|].
    destruct (m / 10 =? 0); [done|apply IH]. }
  apply H.
Qed.

(** Round trip of the decimal text through [strconv.ParseUint]. *)
Lemma ParseUint_FormatUint n : is_uint64 n → ParseUint (FormatUint n) = Some n.
Proof.
  intros H. unfold ParseUint.
  destruct (FormatUint n) as [|a s] eqn:E; [by apply FormatUint_nonempty in E|].
  rewrite <- E. unfold FormatUint.
  destruct (parse_dec_go max_uint64 (Z.to_nat (Z.log2 n)) n EmptyString) as (k & _ & Hk).
  - int_bounds. lia.
  - apply log2_fuel. int_bounds. lia.
  - rewrite Hk by (int_bounds; lia). simpl. f_equal.
Qed.

Lemma FormatUint_inj m n :
  is_uint64 m → is_uint64 n → FormatUint m = FormatUint n → m = n.
Proof.
  intros Hm Hn E. apply (f_equal ParseUint) in E.
  rewrite !ParseUint_FormatUint in E by done. congruence.
Qed.

#[global] Arguments FormatUint : simpl never.
#[global] Arguments TrimSpace : simpl never.
#[global] Arguments runes : simpl never.
