(* ===== verification/Sha256.v ===== *)
(** * SHA-256 and hexadecimal text

    [crypto/sha256.Sum256] and [encoding/hex.EncodeToString], which [BodyHashHex] of
    src/internal/service/service.go applies to the JSON text of a request. Words are 32-bit
    integers in [Z]; bytes are integers below 256. *)

From S2P Require Import Prelude GoInt GoStrings.

Definition rotr (n x : Z) : Z :=
  Z.lor (Z.shiftr x n) (uint32 (Z.shiftl x (32 - n))).

(** The constants of the algorithm are the first 32 bits of the fractional parts of the cube roots
    (of the first 64 primes, for the rounds) and of the square roots (of the first 8, for the
    initial state). *)
Definition is_prime (p : nat) : bool :=
  forallb (λ d, negb (Nat.eqb (p mod d) 0)) (seq 2 (p - 2)).

Definition primes : list nat := filter is_prime (seq 2 310).

(** [floor (x^(1/k))] by its bits, from bit [n - 1] down. *)
Fixpoint root_bits (k x : Z) (n : nat) (acc : Z) : Z :=
  match n with
  | O => acc
  | S n' =>
      let acc' := acc + Z.shiftl 1 (Z.of_nat n') in
      root_bits k x n' (if Z.pow acc' k <=? x then acc' else acc)
  end.

Definition root_word (k : Z) (p : nat) : Z :=
  uint32 (root_bits k (Z.shiftl (Z.of_nat p) (32 * k)) 40 0).

Definition round_constants : list Z := Eval vm_compute in map (root_word 3) (take 64 primes).

Definition initial_state : list Z := Eval vm_compute in map (root_word 2) (take 8 primes).

Definition small_sigma0 (x : Z) : Z := Z.lxor (Z.lxor (rotr 7 x) (rotr 18 x)) (Z.shiftr x 3).
Definition small_sigma1 (x : Z) : Z := Z.lxor (Z.lxor (rotr 17 x) (rotr 19 x)) (Z.shiftr x 10).
Definition big_sigma0 (x : Z) : Z := Z.lxor (Z.lxor (rotr 2 x) (rotr 13 x)) (rotr 22 x).
Definition big_sigma1 (x : Z) : Z := Z.lxor (Z.lxor (rotr 6 x) (rotr 11 x)) (rotr 25 x).

(** The message schedule, newest word first: [n] more words after those of [ws]. *)
Fixpoint schedule (n : nat) (ws : list Z) : list Z :=
  match n with
  | O => ws
  | S n' =>
      let w := uint32 (small_sigma1 (nth 1 ws 0) + nth 6 ws 0 + small_sigma0 (nth 14 ws 0)
                       + nth 15 ws 0) in
      schedule n' (w :: ws)
  end.

Definition sha_round (st : list Z) (kw : Z * Z) : list Z :=
  match st with
  | [a; b; c; d; e; f; g; h] =>
      let ch := Z.lxor (Z.land e f) (Z.land (Z.lxor e max_uint32) g) in
      let maj := Z.lxor (Z.lxor (Z.land a b) (Z.land a c)) (Z.land b c) in
      let t1 := h + big_sigma1 e + ch + kw.1 + kw.2 in
      let t2 := big_sigma0 a + maj in
      [uint32 (t1 + t2); a; b; c; uint32 (d + t1); e; f; g]
  | _ => st
  end.

Definition compress (st : list Z) (block : list Z) : list Z :=
  let ws := reverse (schedule 48 (reverse block)) in
  zip_with (λ x y, uint32 (x + y)) st (foldl sha_round st (zip round_constants ws)).

Definition be_word (b0 b1 b2 b3 : Z) : Z := b0 * 16777216 + b1 * 65536 + b2 * 256 + b3.

Fixpoint words (bs : list Z) : list Z :=
  match bs with
  | b0 :: b1 :: b2 :: b3 :: bs' => be_word b0 b1 b2 b3 :: words bs'
  | _ => []
  end.

Fixpoint be_bytes (n : nat) (v : Z) : list Z :=
  match n with
  | O => []
  | S n' => be_bytes n' (v / 256) ++ [v mod 256]
  end.

Definition sha_pad (msg : list Z) : list Z :=
  let len := Z.of_nat (length msg) in
  let zeros := (55 - len) mod 64 in
  msg ++ [128] ++ replicate (Z.to_nat zeros) 0 ++ be_bytes 8 (8 * len).

Fixpoint blocks (n : nat) (ws : list Z) : list (list Z) :=
  match n with
  | O => []
  | S n' => take 16 ws :: blocks n' (drop 16 ws)
  end.

Definition Sum256 (msg : list Z) : list Z :=
  let ws := words (sha_pad msg) in
  List.flat_map (be_bytes 4) (foldl compress initial_state (blocks (length ws / 16)%nat ws)).

Definition hex_digit (d : Z) : Ascii.ascii := if d <? 10 then digit d else char_of (87 + d).

Fixpoint EncodeToString (bs : list Z) : string :=
  match bs with
  | [] => EmptyString
  | b :: bs' => String (hex_digit (b / 16)) (String (hex_digit (b mod 16)) (EncodeToString bs'))
  end.

(** Published test vectors of FIPS 180-4. *)
Example Sum256_empty :
  EncodeToString (Sum256 []) = "e3b0c44298fc1c149afbf4c8996fb92427ae41e4649b934ca495991b7852b855".
Proof. vm_compute. reflexivity. Qed.

Example Sum256_abc :
  EncodeToString (Sum256 (bytes_of "abc"))
  = "ba7816bf8f01cfea414140de5dae2223b00361a396177a9cb410ff61f20015ad".
Proof. vm_compute. reflexivity. Qed.

Example Sum256_two_blocks :
  EncodeToString (Sum256 (bytes_of "abcdbcdecdefdefgefghfghighijhijkijkljklmklmnlmnomnopnopq"))
  = "248d6a61d20638b8e5c026930c3e6039a33ce45964ff2167f6ecedd419db06c1".
Proof. vm_compute. reflexivity. Qed.

Lemma sha_round_length st kw : length (sha_round st kw) = length st.
Proof. unfold sha_round. by repeat (destruct st as [|? st]; try done). Qed.

Lemma compress_length st block : length (compress st block) = length st.
Proof.
  unfold compress. rewrite length_zip_with.
  assert (H : ∀ l st, length (foldl sha_round st l) = length st).
  { induction l as [|kw l IH]; intros st'; simpl; [done|]. by rewrite IH, sha_round_length. }
  rewrite H. lia.
Qed.

Lemma be_bytes_length n : ∀ v, length (be_bytes n v) = n.
Proof. induction n as [|n IH]; intros v; simpl; [done|]. rewrite length_app, IH. simpl. lia. Qed.

(** A digest has 32 bytes. *)
Lemma Sum256_length msg : length (Sum256 msg) = 32%nat.
Proof.
  unfold Sum256.
  assert (H : ∀ l st, length (foldl compress st l) = length st).
  { induction l as [|b l IH]; intros st; simpl; [done|]. by rewrite IH, compress_length. }
  assert (H4 : ∀ ws, length (List.flat_map (be_bytes 4) ws) = (4 * length ws)%nat).
  { induction ws as [|w ws IH]; [done|]. cbn [flat_map]. rewrite length_app, IH, be_bytes_length.
    simpl. lia. }
  by rewrite H4, H.
Qed.

#[global] Arguments Sum256 : simpl never.
