(* ===== verification/Json.v ===== *)
(** * JSON text as [encoding/json] writes it

    [json.Marshal] of the structs of src/internal/events/events.go and of the request structs of
    src/internal/service: a struct becomes an object whose members are its fields in declaration
    order, written without spaces; strings are escaped as the encoder does with HTML escaping on.
    The decoder is in [JsonDecode] and [Decode]. *)

From S2P Require Import Prelude GoInt GoStrings Sha256.

Inductive json :=
| JNull
| JBool (b : bool)
| JNum (n : Z)
| JStr (s : string)
| JArr (l : list json)
| JObj (l : list (string * json)).

Definition quote : Ascii.ascii := char_of 34.
Definition backslash : Ascii.ascii := char_of 92.

(** A [\u] escape with four lower-case hexadecimal digits. *)
Definition u_escape (n : Z) : string :=
  String backslash (String "u"%char
    (String (hex_digit (n / 4096 mod 16)) (String (hex_digit (n / 256 mod 16))
      (String (hex_digit (n / 16 mod 16)) (String (hex_digit (n mod 16)) EmptyString))))).

(** The two-byte escapes of the encoder. *)
Definition short_escape (c : Ascii.ascii) : string := String backslash (String c EmptyString).

(** The body of the loop of [appendString] (escapeHTML = true) for one rune. *)
Definition encode_rune (r : Rune) : string :=
  let c := r_code r in
  if c <? RuneSelf then
    if (c =? 92) || (c =? 34) then short_escape (char_of c)
    else if c =? 8 then short_escape "b"%char
    else if c =? 12 then short_escape "f"%char
    else if c =? 10 then short_escape "n"%char
    else if c =? 13 then short_escape "r"%char
    else if c =? 9 then short_escape "t"%char
    else if (c <? 32) || (c =? 60) || (c =? 62) || (c =? 38) then u_escape c
    else r_text r
  else if (c =? RuneError) && (r_size r =? 1) then u_escape RuneError
  else if (c =? 8232) || (c =? 8233) then u_escape c
  else r_text r.

Fixpoint encode_runes (rs : list Rune) : string :=
  match rs with
  | [] => EmptyString
  | r :: rs' => encode_rune r +:+ encode_runes rs'
  end.

Definition encode_string (s : string) : string :=
  String quote (encode_runes (runes s) +:+ String quote EmptyString).

(** [json.Marshal] on the values the program builds; it has no error case on them. *)
Fixpoint marshal (j : json) : string :=
  match j with
  | JNull => "null"
  | JBool b => if b then "true" else "false"
  | JNum n => FormatInt n
  | JStr s => encode_string s
  | JArr l =>
      "[" +:+ (fix elems (first : bool) (l : list json) : string :=
        match l with
        | [] => EmptyString
        | x :: l' => (if first then EmptyString else ",") +:+ marshal x +:+ elems false l'
        end) true l +:+ "]"
  | JObj l =>
      "{" +:+ (fix members (first : bool) (l : list (string * json)) : string :=
        match l with
        | [] => EmptyString
        | (k, x) :: l' =>
            (if first then EmptyString else ",") +:+ encode_string k +:+ ":" +:+ marshal x
            +:+ members false l'
        end) true l +:+ "}"
  end.

(** A pointer field: [null] when nil. *)
Definition json_ptr (p : option Z) : json :=
  match p with Some v => JNum v | None => JNull end.

(** A pointer field with [omitempty]: no member when nil. *)
Definition json_omitempty (name : string) (p : option Z) : list (string * json) :=
  match p with Some v => [(name, JNum v)] | None => [] end.

Example marshal_demo :
  marshal (JObj [("a", JStr "x<y"); ("b", JNum (-5)); ("c", JArr [JNull; JBool true])])
  = "{" +:+ encode_string "a" +:+ ":" +:+ String quote ("x\u003cy" +:+ String quote ",")
    +:+ encode_string "b" +:+ ":-5," +:+ encode_string "c" +:+ ":[null,true]}".
Proof. vm_compute. reflexivity. Qed.

#[global] Arguments marshal : simpl never.
