(* ===== verification/JsonDecode.v ===== *)
(** * JSON text as [encoding/json] reads it

    [json.Unmarshal] (the consumers of src/cmd) and [json.Decoder.Decode] (the handlers of
    src/internal/app/api/server.go) up to the value: the grammar of the scanner with its nesting
    limit and the unquoting of strings. The input is read rune by rune: outside string literals only
    ASCII is accepted, and inside them the decoder works on runes. The parser runs on fuel; two
    units per rune are enough for every input. *)

From S2P Require Import Prelude GoInt GoStrings Sha256 Json.

(** A decoded value; a number keeps its literal. *)
Inductive jval :=
| VNull
| VBool (b : bool)
| VNum (lit : string)
| VStr (s : string)
| VArr (l : list jval)
| VObj (l : list (string * jval)).

(** ** Scanner *)

(** [isSpace] of the scanner. *)
Definition is_ws (c : Z) : bool := (c =? 32) || (c =? 9) || (c =? 13) || (c =? 10).

Fixpoint skip_ws (rs : list Rune) : list Rune :=
  match rs with
  | r :: rs' => if is_ws (r_code r) then skip_ws rs' else rs
  | [] => []
  end.

(** [utf8.EncodeRune]. *)
Definition EncodeRune (c : Z) : string :=
  if c <? 128 then string_of_bytes [c]
  else if c <? 2048 then string_of_bytes [192 + c / 64; 128 + c mod 64]
  else if c <? 65536 then string_of_bytes [224 + c / 4096; 128 + c / 64 mod 64; 128 + c mod 64]
  else string_of_bytes
         [240 + c / 262144; 128 + c / 4096 mod 64; 128 + c / 64 mod 64; 128 + c mod 64].

Definition replacement : string := EncodeRune RuneError.

(** A rune of a string literal: an invalid byte becomes the replacement character. *)
Definition clean_rune (r : Rune) : string :=
  if (r_code r =? RuneError) && (r_size r =? 1) then replacement else r_text r.

Fixpoint clean_runes (rs : list Rune) : string :=
  match rs with
  | [] => EmptyString
  | r :: rs' => clean_rune r +:+ clean_runes rs'
  end.

(** The text a string has after it went through the encoder and the decoder. *)
Definition clean (s : string) : string := clean_runes (runes s).

(** The escapes of two characters. *)
Definition simple_escape (c : Z) : option Z :=
  if (c =? 34) || (c =? 92) || (c =? 47) then Some c
  else if c =? 98 then Some 8
  else if c =? 102 then Some 12
  else if c =? 110 then Some 10
  else if c =? 114 then Some 13
  else if c =? 116 then Some 9
  else None.

Definition hex_value (c : Z) : option Z :=
  if in_range 48 57 c then Some (c - 48)
  else if in_range 97 102 c then Some (c - 87)
  else if in_range 65 70 c then Some (c - 55)
  else None.

Definition hex4 (a b c d : Rune) : option Z :=
  match hex_value (r_code a), hex_value (r_code b), hex_value (r_code c), hex_value (r_code d) with
  | Some x, Some y, Some z, Some w => Some (x * 4096 + y * 256 + z * 16 + w)
  | _, _, _, _ => None
  end.

(** The second half of a surrogate pair: a [\u] escape of a low surrogate. *)
Definition low_half (b u h1 h2 h3 h4 : Rune) : option Z :=
  if (r_code b =? 92) && (r_code u =? 117) then
    match hex4 h1 h2 h3 h4 with
    | Some v => if in_range 56320 57343 v then Some v else None
    | None => None
    end
  else None.

Definition push {A} (s : string) (o : option (string * A)) : option (string * A) :=
  match o with Some (s', x) => Some (s +:+ s', x) | None => None end.

(** The rest of a string literal after its opening quote: its value and what follows it. *)
Fixpoint parse_string (rs : list Rune) : option (string * list Rune) :=
  match rs with
  | [] => None
  | r :: rs1 =>
      if r_code r =? 34 then Some (EmptyString, rs1)
      else if r_code r =? 92 then
        match rs1 with
        | [] => None
        | e :: rs2 =>
            match simple_escape (r_code e) with
            | Some c => push (EncodeRune c) (parse_string rs2)
            | None =>
                if negb (r_code e =? 117) then None
                else
                match rs2 with
                | h1 :: h2 :: h3 :: h4 :: rs3 =>
                    match hex4 h1 h2 h3 h4 with
                    | None => None
                    | Some u =>
                        if in_range 55296 57343 u then
                          match rs3 with
                          | b :: v :: g1 :: g2 :: g3 :: g4 :: rs4 =>
                              match low_half b v g1 g2 g3 g4 with
                              | Some lo =>
                                  if u <? 56320 then
                                    push (EncodeRune ((u - 55296) * 1024 + (lo - 56320) + 65536))
                                      (parse_string rs4)
                                  else push replacement (parse_string rs3)
                              | None => push replacement (parse_string rs3)
                              end
                          | _ => push replacement (parse_string rs3)
                          end
                        else push (EncodeRune u) (parse_string rs3)
                    end
                | _ => None
                end
            end
        end
      else if r_code r <? 32 then None
      else push (clean_rune r) (parse_string rs1)
  end.

Definition is_digit (c : Z) : bool := in_range 48 57 c.

Fixpoint digits (rs : list Rune) : string * list Rune :=
  match rs with
  | r :: rs' =>
      if is_digit (r_code r) then let '(s, rest) := digits rs' in (r_text r +:+ s, rest)
      else (EmptyString, rs)
  | [] => (EmptyString, [])
  end.

(** One digit or more. *)
Definition digits1 (rs : list Rune) : option (string * list Rune) :=
  match digits rs with (EmptyString, _) => None | (s, rest) => Some (s, rest) end.

(** The integer part: 0, or digits that do not start with 0. *)
Definition int_part (rs : list Rune) : option (string * list Rune) :=
  match rs with
  | r :: rs' => if r_code r =? 48 then Some (r_text r, rs') else digits1 rs
  | [] => None
  end.

Definition frac_part (rs : list Rune) : option (string * list Rune) :=
  match rs with
  | r :: rs' => if r_code r =? 46 then push (r_text r) (digits1 rs') else Some (EmptyString, rs)
  | [] => Some (EmptyString, [])
  end.

Definition exp_part (rs : list Rune) : option (string * list Rune) :=
  match rs with
  | r :: rs' =>
      if (r_code r =? 101) || (r_code r =? 69) then
        match rs' with
        | s :: rs'' =>
            if (r_code s =? 43) || (r_code s =? 45)
            then push (r_text r +:+ r_text s) (digits1 rs'')
            else push (r_text r) (digits1 rs')
        | [] => None
        end
      else Some (EmptyString, rs)
  | [] => Some (EmptyString, [])
  end.

Definition unsigned_number (rs : list Rune) : option (string * list Rune) :=
  match int_part rs with
  | None => None
  | Some (i, rs1) =>
      match frac_part rs1 with
      | None => None
      | Some (f, rs2) => push (i +:+ f) (exp_part rs2)
      end
  end.

Definition parse_number (rs : list Rune) : option (string * list Rune) :=
  match rs with
  | r :: rs' => if r_code r =? 45 then push (r_text r) (unsigned_number rs') else unsigned_number rs
  | [] => None
  end.

(** The literals. *)
Fixpoint expect (codes : list Z) (rs : list Rune) : option (list Rune) :=
  match codes, rs with
  | [], _ => Some rs
  | c :: codes', r :: rs' => if r_code r =? c then expect codes' rs' else None
  | _ :: _, [] => None
  end.

Definition parse_literal (rs : list Rune) : option (jval * list Rune) :=
  match expect [110; 117; 108; 108] rs, expect [116; 114; 117; 101] rs,
        expect [102; 97; 108; 115; 101] rs with
  | Some rest, _, _ => Some (VNull, rest)
  | _, Some rest, _ => Some (VBool true, rest)
  | _, _, Some rest => Some (VBool false, rest)
  | _, _, _ => None
  end.

Definition max_nesting : Z := 10000.

(** A value, the members of an object after its brace, the elements of an array after its bracket.
    [depth] is the number of open objects and arrays. Of two nested calls one consumes a rune, so
    that two units of fuel per rune of the input are enough ([parse_enough]). *)
Fixpoint parse_value (fuel : nat) (depth : Z) (rs : list Rune) : option (jval * list Rune) :=
  match fuel with
  | O => None
  | S fuel' =>
      match skip_ws rs with
      | [] => None
      | r :: rs1 =>
          if r_code r =? 34 then
            match parse_string rs1 with Some (s, rs2) => Some (VStr s, rs2) | None => None end
          else if r_code r =? 123 then
            if max_nesting <=? depth then None
            else
            match skip_ws rs1 with
            | [] => None
            | e :: rs2 =>
                if r_code e =? 125 then Some (VObj [], rs2)
                else match parse_members fuel' (depth + 1) rs1 with
                     | Some (l, rs3) => Some (VObj l, rs3)
                     | None => None
                     end
            end
          else if r_code r =? 91 then
            if max_nesting <=? depth then None
            else
            match skip_ws rs1 with
            | [] => None
            | e :: rs2 =>
                if r_code e =? 93 then Some (VArr [], rs2)
                else match parse_elems fuel' (depth + 1) rs1 with
                     | Some (l, rs3) => Some (VArr l, rs3)
                     | None => None
                     end
            end
          else if (r_code r =? 45) || is_digit (r_code r) then
            match parse_number (r :: rs1) with Some (s, rs2) => Some (VNum s, rs2) | None => None end
          else parse_literal (r :: rs1)
      end
  end
with parse_members (fuel : nat) (depth : Z) (rs : list Rune)
    : option (list (string * jval) * list Rune) :=
  match fuel with
  | O => None
  | S fuel' =>
      match skip_ws rs with
      | [] => None
      | q :: rs1 =>
          if negb (r_code q =? 34) then None
          else
          match parse_string rs1 with
          | None => None
          | Some (key, rs2) =>
              match expect [58] (skip_ws rs2) with
              | None => None
              | Some rs3 =>
                  match parse_value fuel' depth rs3 with
                  | None => None
                  | Some (v, rs4) =>
                      match skip_ws rs4 with
                      | [] => None
                      | e :: rs5 =>
                          if r_code e =? 125 then Some ([(key, v)], rs5)
                          else if r_code e =? 44 then
                            match parse_members fuel' depth rs5 with
                            | Some (l, rs6) => Some ((key, v) :: l, rs6)
                            | None => None
                            end
                          else None
                      end
                  end
              end
          end
      end
  end
with parse_elems (fuel : nat) (depth : Z) (rs : list Rune) : option (list jval * list Rune) :=
  match fuel with
  | O => None
  | S fuel' =>
      match parse_value fuel' depth rs with
      | None => None
      | Some (v, rs1) =>
          match skip_ws rs1 with
          | [] => None
          | e :: rs2 =>
              if r_code e =? 93 then Some ([v], rs2)
              else if r_code e =? 44 then
                match parse_elems fuel' depth rs2 with
                | Some (l, rs3) => Some (v :: l, rs3)
                | None => None
                end
              else None
          end
      end
  end.

(** The first value of a stream and the runes after it: what [Decoder.Decode] reads. *)
Definition parse_first (s : string) : option (jval * list Rune) :=
  parse_value (S (2 * length (runes s))) 0 (runes s).

(** A text that is one value and spaces: what [Unmarshal] accepts. *)
Definition json_parse (s : string) : option jval :=
  match parse_first s with
  | Some (v, rest) => match skip_ws rest with [] => Some v | _ => None end
  | None => None
  end.

Example json_parse_demo :
  json_parse (" {" +:+ encode_string "a\b" +:+ " : [1, -2.5e3,true] , " +:+ encode_string "k" +:+ ":null}")
  = Some (VObj [("a\b", VArr [VNum "1"; VNum "-2.5e3"; VBool true]); ("k", VNull)]).
Proof. vm_compute. reflexivity. Qed.

Example json_parse_refuses :
  map json_parse ["01"; "{,}"; "[1,]"; "1 2"; "tru"; "-"; "1."; ""] = repeat None 8.
Proof. vm_compute. reflexivity. Qed.

(** ** The fuel is enough *)

Lemma skip_ws_length rs : (length (skip_ws rs) ≤ length rs)%nat.
Proof. induction rs as [|r rs IH]; simpl; [done|]. destruct (is_ws _); simpl; lia. Qed.

Lemma push_Some {A} s (o : option (string * A)) s' x :
  push s o = Some (s', x) → ∃ s'', o = Some (s'', x).
Proof. destruct o as [[s'' y]|]; simpl; [|done]. intros [= _ <-]. by exists s''. Qed.

Lemma expect_length codes : ∀ rs rest,
  expect codes rs = Some rest → length rs = (length codes + length rest)%nat.
Proof.
  induction codes as [|c codes IH]; intros rs rest; simpl; [by intros [= <-]|].
  destruct rs as [|r rs]; [done|]. destruct (r_code r =? c); [|done]. intros H. apply IH in H. simpl. lia.
Qed.

Lemma digits_length rs : ∀ s rest, digits rs = (s, rest) → (length rest ≤ length rs)%nat.
Proof.
  induction rs as [|r rs IH]; simpl; [by intros s rest [= <- <-]|]. intros s rest.
  destruct (is_digit _); [|by intros [= <- <-]].
  destruct (digits rs) as [s' rest'] eqn:E. intros [= <- <-]. specialize (IH _ _ eq_refl). lia.
Qed.

Lemma parse_string_shorter n : ∀ rs s rest,
  (length rs ≤ n)%nat → parse_string rs = Some (s, rest) → (length rest < length rs)%nat.
Proof.
  induction n as [|n IH]; intros [|r rs1] s rest Hn; try done; [simpl in Hn; lia|].
  simpl in Hn |- *.
  destruct (r_code r =? 34); [intros [= <- <-]; lia|].
  assert (Hstep : ∀ p rs', (length rs' ≤ length rs1)%nat → push p (parse_string rs') = Some (s, rest) →
    (length rest < S (length rs1))%nat).
  { intros p rs' Hl Hp. apply push_Some in Hp as [s'' Hp]. apply IH in Hp; lia. }
  destruct (r_code r =? 92); [|destruct (_ <? _); [done|by apply Hstep]].
  destruct rs1 as [|e rs2]; [done|]. simpl in *.
  destruct (simple_escape _); [apply Hstep; simpl; lia|]. destruct (negb _); [done|].
  destruct rs2 as [|h1 [|h2 [|h3 [|h4 rs3]]]]; try done. destruct (hex4 _ _ _ _); [|done].
  repeat case_match; subst; try (apply Hstep; simpl; lia).
Qed.

Lemma parse_string_length rs s rest :
  parse_string rs = Some (s, rest) → (length rest < length rs)%nat.
Proof. by apply (parse_string_shorter (length rs)). Qed.

Lemma digits1_length rs s rest : digits1 rs = Some (s, rest) → (length rest ≤ length rs)%nat.
Proof.
  unfold digits1. destruct (digits rs) as [[|a s'] rest'] eqn:E; [done|]. intros [= <- <-].
  by eapply digits_length.
Qed.

Lemma parse_number_length rs s rest : parse_number rs = Some (s, rest) → (length rest ≤ length rs)%nat.
Proof.
  assert (Hexp : ∀ rs s rest, exp_part rs = Some (s, rest) → (length rest ≤ length rs)%nat).
  { clear. intros [|r [|q rs]] s rest; simpl; repeat case_match; try (by intros [= <- <-]); try done;
      intros Hp; apply push_Some in Hp as [? Hp]; apply digits1_length in Hp; simpl in *; lia. }
  assert (Hun : ∀ rs s rest, unsigned_number rs = Some (s, rest) → (length rest ≤ length rs)%nat).
  { clear -Hexp. intros rs s rest. unfold unsigned_number.
    destruct (int_part rs) as [[i rs1]|] eqn:Ei; [|done].
    destruct (frac_part rs1) as [[f rs2]|] eqn:Ef; [|done]. intros Hp.
    apply push_Some in Hp as [? Hp]. apply Hexp in Hp.
    assert (length rs2 ≤ length rs1)%nat.
    { destruct rs1 as [|r rs1]; simpl in Ef; [by injection Ef as <- <-|].
      destruct (r_code r =? 46); [|by injection Ef as <- <-].
      apply push_Some in Ef as [? Ef]. apply digits1_length in Ef. simpl. lia. }
    assert (length rs1 ≤ length rs)%nat; [|lia].
    destruct rs as [|r rs]; simpl in Ei; [done|].
    destruct (r_code r =? 48); [injection Ei as <- <-; simpl; lia|]. by apply digits1_length in Ei. }
  destruct rs as [|r rs]; simpl; [done|]. destruct (r_code r =? 45); [|apply Hun].
  intros Hp. apply push_Some in Hp as [? Hp]. apply Hun in Hp. lia.
Qed.

Lemma parse_literal_length rs v rest : parse_literal rs = Some (v, rest) → (length rest ≤ length rs)%nat.
Proof.
  unfold parse_literal. repeat case_match; intros [= <- <-];
    match goal with H : expect _ _ = Some _ |- _ => apply expect_length in H end; simpl in *; lia.
Qed.

(** The lengths of what is left, from the equations in the context. *)
Ltac rest_lengths :=
  repeat match goal with
  | H : parse_string _ = Some (_, _) |- _ => apply parse_string_length in H
  | H : parse_number _ = Some (_, _) |- _ => apply parse_number_length in H
  | H : parse_literal _ = Some (_, _) |- _ => apply parse_literal_length in H
  | H : expect _ _ = Some _ |- _ => apply expect_length in H
  | H : skip_ws ?rs = _ |- _ => pose proof (skip_ws_length rs); rewrite H in *; clear H
  | |- context [skip_ws ?rs] =>
      lazymatch goal with H : (length (skip_ws rs) <= _)%nat |- _ => fail | _ => pose proof (skip_ws_length rs) end
  end; cbn [length] in *.

(** What is left after a value is no longer than the input. *)
Lemma parse_length fuel : ∀ depth rs rest,
  (∀ v, parse_value fuel depth rs = Some (v, rest) → (length rest ≤ length rs)%nat)
  ∧ (∀ l, parse_members fuel depth rs = Some (l, rest) → (length rest ≤ length rs)%nat)
  ∧ (∀ l, parse_elems fuel depth rs = Some (l, rest) → (length rest ≤ length rs)%nat).
Proof.
  induction fuel as [|fuel IH]; [done|]. intros depth rs rest.
  assert (IHv := λ d r s, proj1 (IH d r s)). assert (IHm := λ d r s, proj1 (proj2 (IH d r s))).
  assert (IHe := λ d r s, proj2 (proj2 (IH d r s))). clear IH.
  split_and!; [intros v|intros l..];
    cbn [parse_value parse_members parse_elems];
    repeat case_match; intros Hp; try done; simplify_eq;
    repeat match goal with
    | H : parse_value _ _ _ = _ |- _ => apply IHv in H
    | H : parse_members _ _ _ = _ |- _ => apply IHm in H
    | H : parse_elems _ _ _ = _ |- _ => apply IHe in H
    | H : skip_ws ?rs = _ |- _ => pose proof (skip_ws_length rs); rewrite H in *; clear H
    | H : expect _ (skip_ws ?rs) = _ |- _ => pose proof (skip_ws_length rs); apply expect_length in H
    end; rest_lengths; try lia.
Qed.

(** Unfolds a call with fuel [S (S n)] and one with [S n] one level each. *)
Ltac unfold_once g n :=
  match goal with
  | |- _ = g (S n) ?d ?rs =>
      let f := fresh "f" in let Ef := fresh "Ef" in
      remember (S n) as f eqn:Ef in |- *; cbn [parse_value parse_members parse_elems];
      replace (g f d rs) with (g (S n) d rs) by (by rewrite Ef);
      cbn [parse_value parse_members parse_elems]; rewrite Ef; clear f Ef
  end.

(** More fuel changes nothing. *)
Lemma parse_more fuel : ∀ depth rs,
  ((2 * length rs < fuel)%nat → parse_value (S fuel) depth rs = parse_value fuel depth rs)
  ∧ ((2 * length rs + 1 < fuel)%nat → parse_members (S fuel) depth rs = parse_members fuel depth rs)
  ∧ ((2 * length rs + 1 < fuel)%nat → parse_elems (S fuel) depth rs = parse_elems fuel depth rs).
Proof.
  induction fuel as [|fuel IH]; [intros; split_and!; lia|]. intros depth rs.
  assert (IHv := λ d r, proj1 (IH d r)). assert (IHm := λ d r, proj1 (proj2 (IH d r))).
  assert (IHe := λ d r, proj2 (proj2 (IH d r))). clear IH.
  split_and!; intros Hf;
    [unfold_once parse_value fuel|unfold_once parse_members fuel|unfold_once parse_elems fuel].
  - pose proof (skip_ws_length rs). destruct (skip_ws rs) as [|r rs1]; [done|]. cbn [length] in *.
    rewrite (IHm (depth + 1) rs1), (IHe (depth + 1) rs1) by lia. done.
  - pose proof (skip_ws_length rs). destruct (skip_ws rs) as [|q rs1]; [done|]. cbn [length] in *.
    destruct (negb _); [done|]. destruct (parse_string rs1) as [[key rs2]|] eqn:Es; [|done].
    pose proof (skip_ws_length rs2).
    destruct (expect [58] (skip_ws rs2)) as [rs3|] eqn:Ex; [|done]. rest_lengths.
    rewrite IHv by lia. destruct (parse_value fuel depth rs3) as [[v rs4]|] eqn:Ev; [|done].
    apply parse_length in Ev. pose proof (skip_ws_length rs4). destruct (skip_ws rs4) as [|e rs5]; [done|].
    cbn [length] in *. by rewrite IHm by lia.
  - rewrite IHv by lia. destruct (parse_value fuel depth rs) as [[v rs1]|] eqn:Ev; [|done].
    apply parse_length in Ev. pose proof (skip_ws_length rs1). destruct (skip_ws rs1) as [|e rs2]; [done|].
    cbn [length] in *. by rewrite IHe by lia.
Qed.

(** The fuel of [parse_first] gives the result of any larger fuel. *)
Lemma parse_enough s n : parse_value (S (2 * length (runes s)) + n) 0 (runes s) = parse_first s.
Proof.
  unfold parse_first. induction n as [|n IH]; [by rewrite Nat.add_0_r|].
  rewrite Nat.add_succ_r, (proj1 (parse_more _ _ _)) by lia. exact IH.
Qed.
