(* ===== verification/JsonRoundtrip.v ===== *)
(** * The decoder reads what the encoder writes

    [json_parse] of [marshal]: for an object of scalars the decoded value is the written one, with
    each invalid byte of a text replaced, as [json.Marshal] does. *)

From S2P Require Import Prelude GoInt GoStrings Sha256 Json JsonDecode.

(** ** Runes of a text put together from pieces *)

(** [utf8.DecodeRuneInString]: the first rune of a text and what follows it. *)
Definition decode_rune (a : Ascii.ascii) (s1 : string) : Rune * string :=
  let b0 := byte_of a in
  if b0 <? RuneSelf then ({| r_code := b0; r_size := 1; r_text := String a EmptyString |}, s1)
  else
    match utf8_lead b0, s1 with
    | Some (sz, (lo, hi)), String b s2 =>
        let b1 := byte_of b in
        if negb (in_range lo hi b1) then (bad_rune a, s1)
        else if sz =? 2 then
          ({| r_code := (b0 - 192) * 64 + (b1 - 128); r_size := 2;
              r_text := String a (String b EmptyString) |}, s2)
        else match s2 with
          | String c s3 =>
              let b2 := byte_of c in
              if negb (in_range 128 191 b2) then (bad_rune a, s1)
              else if sz =? 3 then
                ({| r_code := (b0 - 224) * 4096 + (b1 - 128) * 64 + (b2 - 128); r_size := 3;
                    r_text := String a (String b (String c EmptyString)) |}, s3)
              else match s3 with
                | String d s4 =>
                    let b3 := byte_of d in
                    if negb (in_range 128 191 b3) then (bad_rune a, s1)
                    else
                      ({| r_code := (b0 - 240) * 262144 + (b1 - 128) * 4096
                                    + (b2 - 128) * 64 + (b3 - 128);
                          r_size := 4;
                          r_text := String a (String b (String c (String d EmptyString))) |}, s4)
                | EmptyString => (bad_rune a, s1)
                end
          | EmptyString => (bad_rune a, s1)
          end
    | _, _ => (bad_rune a, s1)
    end.

Lemma runes_cons a s : runes (String a s) = (decode_rune a s).1 :: runes (decode_rune a s).2.
Proof.
  unfold runes at 1. fold runes. unfold decode_rune. cbv zeta. repeat case_match; done.
Qed.

Definition ascii_rune (a : Ascii.ascii) : Rune :=
  {| r_code := byte_of a; r_size := 1; r_text := String a EmptyString |}.

Lemma runes_ascii a s : byte_of a < 128 → runes (String a s) = ascii_rune a :: runes s.
Proof.
  intros Ha. rewrite runes_cons. unfold decode_rune, RuneSelf. by rewrite (proj2 (Z.ltb_lt _ _)).
Qed.

(** A rune that is read back from its text, whatever follows it. *)
Definition whole (r : Rune) : Prop :=
  (∀ s, runes (r_text r +:+ s) = r :: runes s) ∧ EncodeRune (r_code r) = r_text r ∧ 0 ≤ r_code r.

(** An invalid byte. *)
Definition broken (r : Rune) : bool := (r_code r =? RuneError) && (r_size r =? 1).

Lemma base64 x y : 0 ≤ y < 64 → (x * 64 + y) / 64 = x ∧ (x * 64 + y) mod 64 = y.
Proof.
  intros Hy. split; [rewrite Z.div_add_l, Z.div_small by lia; lia|].
  rewrite Z.add_comm, Z_mod_plus_full. by apply Z.mod_small.
Qed.

Lemma base64_div4096 c : c / 4096 = c / 64 / 64.
Proof. by rewrite Z.div_div by lia. Qed.

Lemma base64_div262144 c : c / 262144 = c / 64 / 64 / 64.
Proof. by rewrite !Z.div_div by lia. Qed.

Lemma encode_two b0 b1 : 194 ≤ b0 ≤ 223 → 128 ≤ b1 ≤ 191 →
  EncodeRune ((b0 - 192) * 64 + (b1 - 128)) = string_of_bytes [b0; b1].
Proof.
  intros H0 H1. unfold EncodeRune.
  destruct (base64 (b0 - 192) (b1 - 128)) as [-> ->]; [lia|].
  rewrite (proj2 (Z.ltb_ge _ 128)), (proj2 (Z.ltb_lt _ 2048)) by lia. do 3 f_equal; lia.
Qed.

Lemma encode_three b0 b1 b2 :
  224 ≤ b0 ≤ 239 → 128 ≤ b1 ≤ 191 → 128 ≤ b2 ≤ 191 → (b0 = 224 → 160 ≤ b1) →
  EncodeRune ((b0 - 224) * 4096 + (b1 - 128) * 64 + (b2 - 128)) = string_of_bytes [b0; b1; b2].
Proof.
  intros H0 H1 H2 H3. unfold EncodeRune.
  set (c := (b0 - 224) * 4096 + (b1 - 128) * 64 + (b2 - 128)).
  rewrite (proj2 (Z.ltb_ge c 128)), (proj2 (Z.ltb_ge c 2048)), (proj2 (Z.ltb_lt c 65536)) by lia.
  rewrite base64_div4096.
  replace c with (((b0 - 224) * 64 + (b1 - 128)) * 64 + (b2 - 128)) by lia.
  destruct (base64 ((b0 - 224) * 64 + (b1 - 128)) (b2 - 128)) as [-> ->]; [lia|].
  destruct (base64 (b0 - 224) (b1 - 128)) as [-> ->]; [lia|]. do 4 f_equal; lia.
Qed.

Lemma encode_four b0 b1 b2 b3 :
  240 ≤ b0 ≤ 244 → 128 ≤ b1 ≤ 191 → 128 ≤ b2 ≤ 191 → 128 ≤ b3 ≤ 191 → (b0 = 240 → 144 ≤ b1) →
  EncodeRune ((b0 - 240) * 262144 + (b1 - 128) * 4096 + (b2 - 128) * 64 + (b3 - 128))
  = string_of_bytes [b0; b1; b2; b3].
Proof.
  intros H0 H1 H2 H3 H4. unfold EncodeRune.
  set (c := (b0 - 240) * 262144 + (b1 - 128) * 4096 + (b2 - 128) * 64 + (b3 - 128)).
  rewrite (proj2 (Z.ltb_ge c 128)), (proj2 (Z.ltb_ge c 2048)), (proj2 (Z.ltb_ge c 65536)) by lia.
  rewrite base64_div4096, base64_div262144.
  replace c with ((((b0 - 240) * 64 + (b1 - 128)) * 64 + (b2 - 128)) * 64 + (b3 - 128)) by lia.
  destruct (base64 (((b0 - 240) * 64 + (b1 - 128)) * 64 + (b2 - 128)) (b3 - 128)) as [-> ->]; [lia|].
  destruct (base64 ((b0 - 240) * 64 + (b1 - 128)) (b2 - 128)) as [-> ->]; [lia|].
  destruct (base64 (b0 - 240) (b1 - 128)) as [-> ->]; [lia|]. do 5 f_equal; lia.
Qed.

(** What the lead byte says of the bytes after it. *)
Lemma utf8_lead_spec b sz lo hi : utf8_lead b = Some (sz, (lo, hi)) →
  128 ≤ lo ∧ hi ≤ 191 ∧
  (sz = 2 ∧ 194 ≤ b ≤ 223
   ∨ sz = 3 ∧ 224 ≤ b ≤ 239 ∧ (b = 224 → lo = 160)
   ∨ sz = 4 ∧ 240 ≤ b ≤ 244 ∧ (b = 240 → lo = 144)).
Proof.
  unfold utf8_lead, in_range. intros H.
  repeat case_match; simplify_eq; bool_to_prop; (split; [lia|split; [lia|]]); lia.
Qed.

Lemma decode_rune_text a s :
  let r := (decode_rune a s).1 in
  broken r = true ∨ EncodeRune (r_code r) = r_text r ∧ 0 ≤ r_code r.
Proof.
  unfold decode_rune. cbv zeta. pose proof (byte_of_range a) as Ha.
  destruct (byte_of a <? RuneSelf) eqn:E0.
  { right. simpl. unfold EncodeRune. change 128 with RuneSelf. rewrite E0. simpl.
    rewrite char_of_byte_of. split; [done|lia]. }
  destruct (utf8_lead (byte_of a)) as [[sz [lo hi]]|] eqn:El; [|by left].
  apply utf8_lead_spec in El as (Hlo & Hhi & Hsz).
  destruct s as [|b s2]; [by left|]. destruct (in_range lo hi (byte_of b)) eqn:E1; [|by left].
  unfold in_range in E1. bool_to_prop. cbn [negb].
  destruct (sz =? 2) eqn:E2; bool_to_prop.
  { right. cbn [fst r_code r_text]. split; [|lia]. rewrite encode_two by lia. simpl.
    by rewrite !char_of_byte_of. }
  destruct s2 as [|d s3]; [by left|]. destruct (in_range 128 191 (byte_of d)) eqn:E3; [|by left].
  unfold in_range in E3. bool_to_prop. cbn [negb].
  destruct (sz =? 3) eqn:E4; bool_to_prop.
  { right. cbn [fst r_code r_text]. split; [|lia]. rewrite encode_three by lia. simpl.
    by rewrite !char_of_byte_of. }
  destruct s3 as [|e s4]; [by left|]. destruct (in_range 128 191 (byte_of e)) eqn:E5; [|by left].
  unfold in_range in E5. bool_to_prop. cbn [negb].
  right. cbn [fst r_code r_text]. split; [|lia]. rewrite encode_four by lia. simpl.
  by rewrite !char_of_byte_of.
Qed.

(** The first rune is an invalid byte, or the text starts with it and it is whole. *)
Lemma decode_rune_spec a s :
  let '(r, rest) := decode_rune a s in
  (broken r = true ∧ rest = s) ∨ (whole r ∧ String a s = r_text r +:+ rest ∧ r_text r ≠ EmptyString).
Proof.
  pose proof (decode_rune_text a s) as Ht. revert Ht. unfold decode_rune. cbv zeta.
  destruct (byte_of a <? RuneSelf) eqn:E0.
  { intros [Hb|Ht].
    - exfalso. unfold broken, RuneError, RuneSelf in *. simpl in Hb. bool_to_prop. lia.
    - right. split; [|done]. split; [|exact Ht]. intros s'. apply runes_ascii. by apply Z.ltb_lt. }
  assert (Hw : ∀ r s', r_text r = String a s' → (∀ t, decode_rune a (s' +:+ t) = (r, t)) →
     ∀ s, runes (r_text r +:+ s) = r :: runes s).
  { intros r s' Hr Hd t. rewrite Hr. change (String a s' +:+ t) with (String a (s' +:+ t)).
    by rewrite runes_cons, Hd. }
  unfold decode_rune in Hw. cbv zeta in Hw. rewrite E0 in Hw.
  repeat case_match; simplify_eq; intros Ht; cbn [fst] in Ht; try (by left); right;
    (split; [|done]);
    (destruct Ht as [Ht|Ht]; [unfold broken in Ht; simpl in Ht; by rewrite andb_false_r in Ht|]);
    (split; [|exact Ht]);
    (eapply Hw; [done|]); intros t; simpl;
    repeat match goal with H : ?x = _ |- context [?x] => rewrite H end; done.
Qed.

Definition readable (r : Rune) : Prop := broken r = true ∨ whole r.

Lemma runes_readable n : ∀ s, (String.length s ≤ n)%nat → Forall readable (runes s).
Proof.
  induction n as [|n IH]; intros [|a s1] Hn; simpl in Hn; try constructor; [lia|].
  rewrite runes_cons. pose proof (decode_rune_spec a s1) as Hs.
  destruct (decode_rune a s1) as [r rest]. cbn [fst snd].
  destruct Hs as [[Hb ->]|(Hw & Heq & Hne)].
  - constructor; [by left|]. apply IH. lia.
  - constructor; [by right|]. apply IH.
    apply (f_equal String.length) in Heq. rewrite length_string_app in Heq. simpl in Heq.
    destruct (r_text r); [done|]. simpl in Heq. lia.
Qed.

(** ** String literals *)

Lemma hex_value_digit d : 0 ≤ d < 16 → hex_value (byte_of (hex_digit d)) = Some d.
Proof.
  intros Hd. unfold hex_digit, hex_value, in_range. destruct (d <? 10) eqn:E; bool_to_prop.
  - rewrite digit_byte by lia. rewrite !(proj2 (Z.leb_le _ _)) by lia. simpl. f_equal. lia.
  - rewrite byte_of_char_of by lia.
    rewrite (proj2 (Z.leb_gt (87 + d) 57)), andb_false_r by lia.
    rewrite !(proj2 (Z.leb_le _ _)) by lia. simpl. f_equal. lia.
Qed.

Lemma hex_digit_ascii d : 0 ≤ d < 16 → byte_of (hex_digit d) < 128.
Proof.
  intros Hd. unfold hex_digit. destruct (d <? 10) eqn:E; bool_to_prop.
  - rewrite digit_byte; lia.
  - rewrite byte_of_char_of; lia.
Qed.

Lemma parse_u_escape n s :
  0 ≤ n < 65536 → in_range 55296 57343 n = false →
  parse_string (runes (u_escape n +:+ s)) = push (EncodeRune n) (parse_string (runes s)).
Proof.
  intros Hn Hsur. unfold u_escape. 
  assert (Hm : ∀ x, 0 ≤ x mod 16 < 16) by (intros; by apply Z.mod_pos_bound).
  repeat match goal with |- context [String ?a ?t +:+ ?s'] => change (String a t +:+ s') with (String a (t +:+ s')) end.
  change (EmptyString +:+ s) with s.
  rewrite !runes_ascii by (first [by apply hex_digit_ascii|done]).
  cbn [parse_string]. 
  change (r_code (ascii_rune backslash)) with 92. change (r_code (ascii_rune "u"%char)) with 117.
  cbn [Z.eqb Pos.eqb negb].
  change (simple_escape 117) with (@None Z). cbv iota.
  unfold hex4, ascii_rune at 1 2 3 4. cbn [r_code]. rewrite !hex_value_digit by done.
  assert (Hv : n / 4096 mod 16 * 4096 + n / 256 mod 16 * 256 + n / 16 mod 16 * 16 + n mod 16 = n).
  { rewrite (Z.mod_small (n / 4096)) by (split; [by apply Z.div_pos; lia|apply Z.div_lt_upper_bound; lia]).
    replace (n / 4096) with (n / 16 / 16 / 16) by (rewrite !Z.div_div by lia; done).
    replace (n / 256) with (n / 16 / 16) by (rewrite !Z.div_div by lia; done).
    pose proof (Z_div_mod_eq_full n 16). pose proof (Z_div_mod_eq_full (n / 16) 16).
    pose proof (Z_div_mod_eq_full (n / 16 / 16) 16). lia. }
  rewrite Hv, Hsur. done.
Qed.

Lemma string_app_cons a s t : String a s +:+ t = String a (s +:+ t).
Proof. done. Qed.

Lemma string_app_assoc s t u : s +:+ (t +:+ u) = (s +:+ t) +:+ u.
Proof. induction s as [|a s IH]; [done|]. rewrite !string_app_cons. by f_equal. Qed.

Lemma string_app_nil_r s : s +:+ EmptyString = s.
Proof. induction s as [|a s IH]; [done|]. rewrite string_app_cons. by f_equal. Qed.

Lemma parse_short_escape e c s :
  byte_of e < 128 → simple_escape (byte_of e) = Some c →
  parse_string (runes (short_escape e +:+ s)) = push (EncodeRune c) (parse_string (runes s)).
Proof.
  intros He Hc. unfold short_escape. rewrite !string_app_cons, !runes_ascii by done.
  cbn [parse_string]. change (r_code (ascii_rune backslash)) with 92. cbn [Z.eqb Pos.eqb].
  change (r_code (ascii_rune e)) with (byte_of e). by rewrite Hc.
Qed.

(** The decoder reads back what the encoder wrote for a rune. *)
Lemma parse_encode_rune r s :
  readable r →
  parse_string (runes (encode_rune r +:+ s)) = push (clean_rune r) (parse_string (runes s)).
Proof.
  intros Hr. unfold encode_rune, clean_rune. fold (broken r).
  destruct (r_code r <? RuneSelf) eqn:Ec.
  - assert (Hb : broken r = false).
    { unfold broken, RuneError, RuneSelf in *. bool_to_prop. by rewrite (proj2 (Z.eqb_neq _ _)) by lia. }
    rewrite Hb. destruct Hr as [Hr|(Hw & Ht & H0)]; [congruence|]. bool_to_prop. unfold RuneSelf in Ec.
    rewrite <- Ht. unfold in_range.
    destruct ((r_code r =? 92) || (r_code r =? 34)) eqn:E1.
    { apply parse_short_escape; rewrite byte_of_char_of by lia; [lia|].
      apply orb_true_iff in E1 as [E1|E1]; bool_to_prop; by rewrite E1. }
    apply orb_false_iff in E1 as [E1 E1'].
    destruct (r_code r =? 8) eqn:E2; [bool_to_prop; rewrite E2; by apply parse_short_escape|].
    destruct (r_code r =? 12) eqn:E3; [bool_to_prop; rewrite E3; by apply parse_short_escape|].
    destruct (r_code r =? 10) eqn:E4; [bool_to_prop; rewrite E4; by apply parse_short_escape|].
    destruct (r_code r =? 13) eqn:E5; [bool_to_prop; rewrite E5; by apply parse_short_escape|].
    destruct (r_code r =? 9) eqn:E6; [bool_to_prop; rewrite E6; by apply parse_short_escape|].
    destruct (_ || _) eqn:E7.
    { apply parse_u_escape; [lia|]. unfold in_range. apply andb_false_iff. left. lia. }
    rewrite Ht, Hw. cbn [parse_string]. rewrite E1, E1'.
    apply orb_false_iff in E7 as [E7 _]. apply orb_false_iff in E7 as [E7 _].
    apply orb_false_iff in E7 as [E7 _]. rewrite E7. unfold clean_rune. fold (broken r). by rewrite Hb.
  - destruct (broken r) eqn:Hb; [by apply parse_u_escape|].
    destruct Hr as [Hr|(Hw & Ht & H0)]; [congruence|]. bool_to_prop. unfold RuneSelf in Ec.
    destruct ((r_code r =? 8232) || (r_code r =? 8233)) eqn:E1.
    { rewrite <- Ht. apply orb_true_iff in E1 as [E1|E1]; bool_to_prop; rewrite E1;
        by apply parse_u_escape. }
    rewrite Hw. cbn [parse_string].
    rewrite !(proj2 (Z.eqb_neq _ _)), (proj2 (Z.ltb_ge _ _)) by lia.
    unfold clean_rune. fold (broken r). by rewrite Hb.
Qed.

Lemma push_push {A} s1 s2 (o : option (string * A)) : push s1 (push s2 o) = push (s1 +:+ s2) o.
Proof. destruct o as [[s3 x]|]; simpl; [|done]. by rewrite string_app_assoc. Qed.

Lemma parse_encode_string s t :
  parse_string (runes (encode_runes (runes s) +:+ String quote t)) = Some (clean s, runes t).
Proof.
  unfold clean. assert (Hr := runes_readable (String.length s) s (le_n _)).
  induction Hr as [|r rs Hr _ IH]; cbn [encode_runes clean_runes].
  - change (EmptyString +:+ String quote t) with (String quote t). by rewrite runes_ascii.
  - rewrite <- string_app_assoc, parse_encode_rune, IH by done. done.
Qed.

(** ** Numbers *)

Definition digit_text (s : string) : Prop := Forall (λ b, is_digit b = true) (bytes_of s).

(** What may not follow a number. *)
Definition ends_number (s : string) : bool :=
  match s with
  | EmptyString => true
  | String a _ =>
      let c := byte_of a in
      (c <? 128) && negb (is_digit c) && negb (c =? 46) && negb (c =? 101) && negb (c =? 69)
  end.

Lemma is_digit_ascii b : is_digit b = true → 48 ≤ b ≤ 57.
Proof. unfold is_digit, in_range. intros. bool_to_prop. lia. Qed.

Lemma runes_end s : ends_number s = true →
  runes s = [] ∨ ∃ r rs, runes s = r :: rs ∧ is_digit (r_code r) = false ∧ r_code r ≠ 46
                         ∧ r_code r ≠ 101 ∧ r_code r ≠ 69.
Proof.
  destruct s as [|a s]; [by left|]. simpl. intros He. bool_to_prop. right.
  rewrite runes_ascii by lia. eexists _, _. split; [done|]. simpl. split_and!; done.
Qed.

Lemma digits_text s t : digit_text s → ends_number t = true → digits (runes (s +:+ t)) = (s, runes t).
Proof.
  unfold digit_text. induction s as [|a s IH]; intros Hd Ht.
  - change (EmptyString +:+ t) with t.
    destruct (runes_end t Ht) as [->|(r & rs & -> & Hr & _)]; simpl; [done|]. by rewrite Hr.
  - cbn [bytes_of] in Hd. inversion Hd as [|? ? Ha Hs]; subst.
    rewrite string_app_cons, runes_ascii by (apply is_digit_ascii in Ha; lia).
    cbn [digits]. change (r_code (ascii_rune a)) with (byte_of a). by rewrite Ha, IH.
Qed.

Lemma dec_go_digits fuel : ∀ n acc, 0 ≤ n → digit_text acc → digit_text (dec_go fuel n acc).
Proof.
  induction fuel as [|fuel IH]; intros n acc Hn Hacc; cbn [dec_go]; [done|].
  pose proof (Z.mod_pos_bound n 10).
  assert (Hd : digit_text (String (digit (n mod 10)) acc)).
  { constructor; [|done]. rewrite digit_byte by lia. unfold is_digit, in_range.
    by rewrite !(proj2 (Z.leb_le _ _)) by lia. }
  destruct (n / 10 =? 0); [done|]. apply IH; [|done]. apply Z.div_pos; lia.
Qed.

(** The decimal text of a positive number does not start with 0. *)
Lemma dec_go_first fuel : ∀ n acc, 0 < n → n < 2 ^ Z.of_nat (S fuel) →
  ∃ a s, dec_go (S fuel) n acc = String a s ∧ 49 ≤ byte_of a ≤ 57.
Proof.
  induction fuel as [|fuel IH]; intros n acc Hn Hlt; cbn [dec_go]; pose proof (Z.mod_pos_bound n 10).
  - assert (n = 1) as -> by (simpl in Hlt; lia). by exists "1"%char, acc.
  - destruct (n / 10 =? 0) eqn:E; bool_to_prop.
    + eexists _, _. split; [done|]. pose proof (Z_div_mod_eq_full n 10). rewrite digit_byte; lia.
    + assert (0 ≤ n / 10) by (apply Z.div_pos; lia). apply IH; [lia|].
      apply dec_fuel_step; [|done].
      destruct (Z_lt_le_dec n 10); [rewrite Z.div_small in E by lia; lia|lia].
Qed.

Lemma unsigned_FormatUint n t :
  0 ≤ n → ends_number t = true →
  unsigned_number (runes (FormatUint n +:+ t)) = Some (FormatUint n, runes t).
Proof.
  intros Hn Ht. unfold unsigned_number.
  assert (Hint : int_part (runes (FormatUint n +:+ t)) = Some (FormatUint n, runes t)).
  { destruct (Z.eq_dec n 0) as [->|].
    { change (FormatUint 0) with "0". change ("0" +:+ t) with (String "0"%char t).
      by rewrite runes_ascii. }
    destruct (dec_go_first (Z.to_nat (Z.log2 n)) n EmptyString) as (a & s & Heq & Ha);
      [lia|apply log2_fuel; lia|].
    assert (Hd : digit_text (FormatUint n)) by (apply dec_go_digits; [done|constructor]).
    pose proof (digits_text _ t Hd Ht) as Hds. revert Hds.
    unfold FormatUint. rewrite Heq. rewrite string_app_cons, runes_ascii by lia.
    intros Hds. unfold int_part. change (r_code (ascii_rune a)) with (byte_of a).
    rewrite (proj2 (Z.eqb_neq _ _)) by lia. unfold digits1. by rewrite Hds. }
  rewrite Hint. unfold frac_part, exp_part.
  destruct (runes_end t Ht) as [->|(r & rs & -> & _ & H1 & H2 & H3)]; simpl.
  - by rewrite !string_app_nil_r.
  - rewrite !(proj2 (Z.eqb_neq _ _)) by done. simpl. by rewrite !string_app_nil_r.
Qed.

Lemma parse_FormatInt n t :
  ends_number t = true →
  parse_number (runes (FormatInt n +:+ t)) = Some (FormatInt n, runes t)
  ∧ ∃ r rs, runes (FormatInt n +:+ t) = r :: rs ∧ (r_code r =? 45) || is_digit (r_code r) = true.
Proof.
  intros Ht. unfold FormatInt. destruct (n <? 0) eqn:E; bool_to_prop.
  - rewrite string_app_cons, runes_ascii by done. unfold parse_number.
    change (r_code (ascii_rune "-"%char)) with 45. cbn [Z.eqb Pos.eqb].
    rewrite unsigned_FormatUint by (done || lia). split; [done|]. by eexists _, _.
  - pose proof (unsigned_FormatUint n t ltac:(lia) Ht) as Hu.
    assert (Hd : digit_text (FormatUint n)) by (apply dec_go_digits; [lia|constructor]).
    destruct (FormatUint n) as [|a s] eqn:Ef; [by apply FormatUint_nonempty in Ef|].
    inversion Hd as [|? ? Ha _]; subst. pose proof (is_digit_ascii _ Ha).
    rewrite string_app_cons, runes_ascii in * by lia. unfold parse_number.
    change (r_code (ascii_rune a)) with (byte_of a).
    rewrite (proj2 (Z.eqb_neq (byte_of a) 45)) by lia. split; [done|].
    eexists _, _. split; [done|]. simpl. by rewrite Ha, orb_true_r.
Qed.

(** ** Objects *)

(** The value the decoder reads for a document. *)
Fixpoint jval_of (j : json) : jval :=
  match j with
  | JNull => VNull
  | JBool b => VBool b
  | JNum n => VNum (FormatInt n)
  | JStr s => VStr (clean s)
  | JArr l => VArr (map jval_of l)
  | JObj l => VObj (map (λ m, (clean m.1, jval_of m.2)) l)
  end.

(** The members of an object as [marshal] writes them. *)
Fixpoint members_text (first : bool) (l : list (string * json)) : string :=
  match l with
  | [] => EmptyString
  | (k, x) :: l' =>
      (if first then EmptyString else ",") +:+ encode_string k +:+ ":" +:+ marshal x
      +:+ members_text false l'
  end.

Lemma marshal_object l : marshal (JObj l) = "{" +:+ members_text true l +:+ "}".
Proof. reflexivity. Qed.

Definition scalar (j : json) : bool := match j with JArr _ | JObj _ => false | _ => true end.

Lemma runes_string k t :
  runes (encode_string k +:+ t)
  = ascii_rune quote :: runes (encode_runes (runes k) +:+ String quote t).
Proof.
  unfold encode_string. rewrite string_app_cons, runes_ascii, <- string_app_assoc by done. done.
Qed.

Lemma parse_scalar j fuel depth t :
  scalar j = true → ends_number t = true →
  parse_value (S fuel) depth (runes (marshal j +:+ t)) = Some (jval_of j, runes t).
Proof.
  intros Hj Ht. destruct j as [|[]|n|s|l|l]; try done; cbn [parse_value].
  - change (marshal (JNum n)) with (FormatInt n).
    destruct (parse_FormatInt n t Ht) as (Hp & r & rs & Hr & Hc). rewrite Hr in *.
    assert (Hcode : r_code r = 45 ∨ 48 ≤ r_code r ≤ 57).
    { apply orb_true_iff in Hc as [Hc|Hc]; [left; by apply Z.eqb_eq|right; by apply is_digit_ascii]. }
    cbn [skip_ws]. unfold is_ws. rewrite !(proj2 (Z.eqb_neq _ _)) by lia. cbn [orb].
    rewrite (proj2 (Z.eqb_neq (r_code r) 34)), (proj2 (Z.eqb_neq (r_code r) 123)),
      (proj2 (Z.eqb_neq (r_code r) 91)), Hc by lia. by rewrite Hp.
  - change (marshal (JStr s)) with (encode_string s). rewrite runes_string.
    change (skip_ws (ascii_rune quote :: ?rs)) with (ascii_rune quote :: rs).
    cbn [r_code ascii_rune]. change (byte_of quote =? 34) with true. cbv iota.
    by rewrite parse_encode_string.
Qed.

Lemma parse_members_flat t l : ∀ fuel depth,
  l ≠ [] → forallb (λ m, scalar m.2) l = true → (length l < fuel)%nat →
  parse_members fuel depth (runes (members_text true l +:+ "}" +:+ t))
  = Some (map (λ m, (clean m.1, jval_of m.2)) l, runes t).
Proof.
  induction l as [|[k x] l IH]; intros fuel depth Hne Hs Hf; [done|].
  cbn [forallb snd length] in *. bool_to_prop. destruct fuel as [|[|fuel]]; [lia..|].
  cbn [members_text]. change (EmptyString +:+ ?s) with s. rewrite <- !string_app_assoc, runes_string.
  remember (S fuel) as f eqn:Ef. cbn [parse_members].
  change (skip_ws (ascii_rune quote :: ?rs)) with (ascii_rune quote :: rs). cbn [negb].
  change (r_code (ascii_rune quote) =? 34) with true. cbn [negb].
  rewrite parse_encode_string.
  change (":" +:+ ?s) with (String ":"%char s). rewrite runes_ascii by done.
  change (expect [58] (skip_ws (ascii_rune ":"%char :: ?rs))) with (Some rs). cbv iota.
  destruct l as [|[k' x'] l].
  - cbn [members_text map]. change (EmptyString +:+ ?s) with s.
    rewrite Ef, parse_scalar by done. change ("}" +:+ t) with (String "}"%char t).
    by rewrite runes_ascii.
  - set (l2 := (k', x') :: l) in *.
    assert (Htext : members_text false l2 = "," +:+ members_text true l2) by done.
    rewrite Htext, <- string_app_assoc, Ef, parse_scalar by done. rewrite <- Ef.
    change ("," +:+ ?s) with (String ","%char s). rewrite runes_ascii by done.
    change (skip_ws (ascii_rune ","%char :: ?rs)) with (ascii_rune ","%char :: rs). cbv iota.
    change (r_code (ascii_rune ","%char) =? 125) with false.
    change (r_code (ascii_rune ","%char) =? 44) with true. cbv iota.
    rewrite IH; [done..|]. simpl in *. lia.
Qed.

(** An object of scalars is read back as it was written, up to invalid bytes in its texts. *)
Lemma json_parse_flat l :
  forallb (λ m, scalar m.2) l = true →
  json_parse (marshal (JObj l)) = Some (jval_of (JObj l)).
Proof.
  intros Hs. unfold json_parse. rewrite <- (parse_enough _ (S (length l))), marshal_object.
  destruct l as [|m l].
  { done. }
  set (text := "{" +:+ _ +:+ "}"). rewrite Nat.add_succ_l. cbn [parse_value].
  set (fuel := (2 * length (runes text) + S _)%nat).
  unfold text. rewrite string_app_cons, runes_ascii by done.
  change (skip_ws (ascii_rune "{"%char :: ?rs)) with (ascii_rune "{"%char :: rs). cbv iota.
  change (r_code (ascii_rune "{"%char) =? 34) with false.
  change (r_code (ascii_rune "{"%char) =? 123) with true. cbv iota.
  change (max_nesting <=? 0) with false. cbv iota. change (EmptyString +:+ ?s) with s.
  pose proof (parse_members_flat EmptyString (m :: l) fuel (0 + 1) ltac:(done) Hs) as Hm.
  change ("}" +:+ EmptyString) with "}" in Hm. rewrite Hm by (unfold fuel; lia).
  destruct m as [k x]. cbn [members_text]. change (EmptyString +:+ ?s) with s.
  rewrite <- string_app_assoc, runes_string. done.
Qed.
