(* ===== verification/Schema.v ===== *)
(** * The MySQL schema

    The tables of src/migrations (00001_init.sql and later) with the row types of
    src/internal/store/sqlcgen/models.go. ENUM columns are inductive types with the declared
    values. A table with a natural primary key that is only looked up by that key is a finite map;
    a table that is scanned, joined or aggregated is the list of its rows in insertion order.
    Timestamp columns filled by a DEFAULT and read by no statement (users.created_at,
    wallet_accounts.updated_at and the like) are left out. *)

From S2P Require Import Prelude GoInt GoStrings Json JsonDecode JsonRoundtrip.

(** ** ENUM columns *)

Inductive CampaignPointLedgerReason := CampaignPointLedgerReasonGIFT.

Inductive FanPointLedgerReason :=
| FanPointLedgerReasonGIFT
| FanPointLedgerReasonCOMMENT
| FanPointLedgerReasonWATCHMINUTE.

Inductive GiftOrdersStatus := GiftOrdersStatusACCEPTED | GiftOrdersStatusREJECTED.

Inductive LiveMatchesMode := LiveMatchesModeALLGIFTS | LiveMatchesModeSPECIFICGIFT.

Inductive LiveMatchesStatus := LiveMatchesStatusOPEN | LiveMatchesStatusCLOSED.

Inductive LiveSessionsStatus := LiveSessionsStatusOPEN | LiveSessionsStatusCLOSED.

Inductive ReconciliationResultsStatus :=
| ReconciliationResultsStatusPASS
| ReconciliationResultsStatusFAIL.

Inductive UsersAccountStanding :=
| UsersAccountStandingGOOD
| UsersAccountStandingRESTRICTED
| UsersAccountStandingBANNED.

Inductive UsersAccountType :=
| UsersAccountTypeNORMAL
| UsersAccountTypeGOVERNMENT
| UsersAccountTypePOLITICIAN
| UsersAccountTypePOLITICALPARTY
| UsersAccountTypePUBLICINTEREST.

Inductive WalletAccountsCurrency := WalletAccountsCurrencyCOIN.

Inductive WalletTransactionsTxType :=
| WalletTransactionsTxTypeRECHARGE
| WalletTransactionsTxTypeGIFTDEBIT.

(** An ENUM column as the driver reads and writes it: by the text of its value. *)
Class Enum (A : Type) := {
  enum_text : A → string;
  enum_values : list A;
  enum_values_all : ∀ x, In x enum_values;
  enum_text_inj : ∀ x y, enum_text x = enum_text y → x = y
}.

(** The value an ENUM column stores for a text; [None] is the data error of strict mode. *)
Definition enum_of_text {A} `{Enum A} (s : string) : option A :=
  List.find (λ x, String.eqb (enum_text x) s) enum_values.

Lemma enum_of_text_text {A} `{Enum A} (x : A) : enum_of_text (enum_text x) = Some x.
Proof.
  unfold enum_of_text. destruct (List.find _ _) as [y|] eqn:E.
  - apply List.find_some in E as [_ E]. bool_to_prop. f_equal. by apply enum_text_inj.
  - exfalso. pose proof (List.find_none _ _ E x (enum_values_all x)) as Hx. simpl in Hx.
    by rewrite String.eqb_refl in Hx.
Qed.

Ltac solve_enum := solve [intros []; simpl; tauto | intros [] []; simpl; congruence].

#[export, refine] Instance CampaignPointLedgerReason_enum : Enum CampaignPointLedgerReason := {
  enum_text r := match r with CampaignPointLedgerReasonGIFT => "GIFT" end;
  enum_values := [CampaignPointLedgerReasonGIFT]
}.
Proof. all: solve_enum. Defined.

#[export, refine] Instance FanPointLedgerReason_enum : Enum FanPointLedgerReason := {
  enum_text r :=
    match r with
    | FanPointLedgerReasonGIFT => "GIFT"
    | FanPointLedgerReasonCOMMENT => "COMMENT"
    | FanPointLedgerReasonWATCHMINUTE => "WATCH_MINUTE"
    end;
  enum_values :=
    [FanPointLedgerReasonGIFT; FanPointLedgerReasonCOMMENT; FanPointLedgerReasonWATCHMINUTE]
}.
Proof. all: solve_enum. Defined.

#[export, refine] Instance GiftOrdersStatus_enum : Enum GiftOrdersStatus := {
  enum_text s :=
    match s with GiftOrdersStatusACCEPTED => "ACCEPTED" | GiftOrdersStatusREJECTED => "REJECTED" end;
  enum_values := [GiftOrdersStatusACCEPTED; GiftOrdersStatusREJECTED]
}.
Proof. all: solve_enum. Defined.

#[export, refine] Instance LiveMatchesMode_enum : Enum LiveMatchesMode := {
  enum_text m :=
    match m with
    | LiveMatchesModeALLGIFTS => "ALL_GIFTS"
    | LiveMatchesModeSPECIFICGIFT => "SPECIFIC_GIFT"
    end;
  enum_values := [LiveMatchesModeALLGIFTS; LiveMatchesModeSPECIFICGIFT]
}.
Proof. all: solve_enum. Defined.

#[export, refine] Instance LiveMatchesStatus_enum : Enum LiveMatchesStatus := {
  enum_text s :=
    match s with LiveMatchesStatusOPEN => "OPEN" | LiveMatchesStatusCLOSED => "CLOSED" end;
  enum_values := [LiveMatchesStatusOPEN; LiveMatchesStatusCLOSED]
}.
Proof. all: solve_enum. Defined.

#[export, refine] Instance LiveSessionsStatus_enum : Enum LiveSessionsStatus := {
  enum_text s :=
    match s with LiveSessionsStatusOPEN => "OPEN" | LiveSessionsStatusCLOSED => "CLOSED" end;
  enum_values := [LiveSessionsStatusOPEN; LiveSessionsStatusCLOSED]
}.
Proof. all: solve_enum. Defined.

#[export, refine] Instance ReconciliationResultsStatus_enum : Enum ReconciliationResultsStatus := {
  enum_text s :=
    match s with
    | ReconciliationResultsStatusPASS => "PASS"
    | ReconciliationResultsStatusFAIL => "FAIL"
    end;
  enum_values := [ReconciliationResultsStatusPASS; ReconciliationResultsStatusFAIL]
}.
Proof. all: solve_enum. Defined.

#[export, refine] Instance UsersAccountStanding_enum : Enum UsersAccountStanding := {
  enum_text s :=
    match s with
    | UsersAccountStandingGOOD => "GOOD"
    | UsersAccountStandingRESTRICTED => "RESTRICTED"
    | UsersAccountStandingBANNED => "BANNED"
    end;
  enum_values := [UsersAccountStandingGOOD; UsersAccountStandingRESTRICTED; UsersAccountStandingBANNED]
}.
Proof. all: solve_enum. Defined.

#[export, refine] Instance UsersAccountType_enum : Enum UsersAccountType := {
  enum_text s :=
    match s with
    | UsersAccountTypeNORMAL => "NORMAL"
    | UsersAccountTypeGOVERNMENT => "GOVERNMENT"
    | UsersAccountTypePOLITICIAN => "POLITICIAN"
    | UsersAccountTypePOLITICALPARTY => "POLITICAL_PARTY"
    | UsersAccountTypePUBLICINTEREST => "PUBLIC_INTEREST"
    end;
  enum_values :=
    [UsersAccountTypeNORMAL; UsersAccountTypeGOVERNMENT; UsersAccountTypePOLITICIAN;
     UsersAccountTypePOLITICALPARTY; UsersAccountTypePUBLICINTEREST]
}.
Proof. all: solve_enum. Defined.

#[export, refine] Instance WalletAccountsCurrency_enum : Enum WalletAccountsCurrency := {
  enum_text c := match c with WalletAccountsCurrencyCOIN => "COIN" end;
  enum_values := [WalletAccountsCurrencyCOIN]
}.
Proof. all: solve_enum. Defined.

#[export, refine] Instance WalletTransactionsTxType_enum : Enum WalletTransactionsTxType := {
  enum_text t :=
    match t with
    | WalletTransactionsTxTypeRECHARGE => "RECHARGE"
    | WalletTransactionsTxTypeGIFTDEBIT => "GIFT_DEBIT"
    end;
  enum_values := [WalletTransactionsTxTypeRECHARGE; WalletTransactionsTxTypeGIFTDEBIT]
}.
Proof. all: solve_enum. Defined.

#[export] Instance FanPointLedgerReason_eq_dec : EqDecision FanPointLedgerReason.
Proof. solve_decision. Defined.
#[export] Instance GiftOrdersStatus_eq_dec : EqDecision GiftOrdersStatus.
Proof. solve_decision. Defined.
#[export] Instance WalletTransactionsTxType_eq_dec : EqDecision WalletTransactionsTxType.
Proof. solve_decision. Defined.
#[export] Instance LiveSessionsStatus_eq_dec : EqDecision LiveSessionsStatus.
Proof. solve_decision. Defined.

(** ** Rows *)

Record User := {
  u_UserID : Z; u_AgeYears : Z; u_RegionCode : string; u_AccountStanding : UsersAccountStanding;
  u_CanGoLive : bool; u_LiveGiftsEnabled : bool; u_AccountType : UsersAccountType }.

Record LiveSession := {
  ls_LiveSessionID : Z; ls_CreatorID : Z; ls_CampaignID : option Z; ls_Status : LiveSessionsStatus;
  ls_StartedAt : Z; ls_ClosedAt : option Z }.

Record LiveMatch := {
  lm_MatchID : Z; lm_LiveSessionID : Z; lm_Mode : LiveMatchesMode;
  lm_SpecificGiftID : option string; lm_Status : LiveMatchesStatus }.

Record GiftCatalog := {
  gc_GiftID : string; gc_DisplayName : string; gc_CoinPrice : Z; gc_MatchPoints : Z;
  gc_DiamondReward : Z; gc_Enabled : bool }.

(** The key of wallet_accounts is (user_id, currency), and currency has the one value COIN. *)
Record WalletAccount := {
  wa_UserID : Z; wa_Currency : WalletAccountsCurrency; wa_AvailableBalance : Z }.

Record WalletTransaction := {
  wt_TxID : Z; wt_TxType : WalletTransactionsTxType; wt_ActorUserID : Z; wt_RequestID : string;
  wt_BodyHash : option (list Z); wt_CreatedAt : Z }.

Record WalletEntry := { we_TxID : Z; we_AccountCode : string; we_Amount : Z }.

(** [sqlcgen.RechargeRequest]: the stored request, not the request payload. *)
Record RechargeRequestRow := {
  rq_ViewerID : Z; rq_RequestID : string; rq_BodyHash : list Z; rq_Coins : Z;
  rq_PaymentRef : string; rq_ResultingBalance : Z; rq_TxID : Z; rq_CreatedAt : Z }.

Record GiftOrder := {
  go_GiftOrderID : Z; go_ViewerID : Z; go_CreatorID : Z; go_LiveSessionID : Z;
  go_MatchID : option Z; go_GiftID : string; go_Quantity : Z; go_ChargedCoins : Z;
  go_MatchPointsAdded : Z; go_DiamondReward : Z; go_PostBalance : option Z;
  go_Status : GiftOrdersStatus; go_RejectCode : option string; go_RequestID : string;
  go_BodyHash : list Z; go_CreatedAt : Z }.

Record OutboxEvent := {
  ob_EventID : Z; ob_Topic : string; ob_EventKey : string; ob_PayloadJson : string;
  ob_PublishedAt : option Z; ob_CreatedAt : Z }.

Record ConsumerDedupe := { cd_ConsumerName : string; cd_EventID : Z; cd_AppliedAt : Z }.

Record FanPointLedger := {
  fp_EventID : Z; fp_ViewerID : Z; fp_CreatorID : Z; fp_LiveSessionID : Z; fp_Points : Z;
  fp_Reason : FanPointLedgerReason }.

Record CampaignPointLedger := {
  cp_EventID : Z; cp_CampaignID : Z; cp_CreatorID : Z; cp_Points : Z;
  cp_Reason : CampaignPointLedgerReason }.

Record StreamSettlement := {
  ss_LiveSessionID : Z; ss_GrossCoinSpend : Z; ss_AcceptedGiftCount : Z;
  ss_DiamondRewardTotal : Z; ss_GeneratedAt : Z }.

Record ReconciliationResult := {
  rr_LiveSessionID : Z; rr_Status : ReconciliationResultsStatus; rr_WalletGiftDebitTotal : Z;
  rr_GiftOrderCoinTotal : Z; rr_MismatchCount : Z; rr_DetailsJson : string; rr_GeneratedAt : Z }.

(** ** The database *)

Record Tables := {
  users : gmap Z User;
  live_sessions : gmap Z LiveSession;
  live_matches : gmap Z LiveMatch;
  gift_catalog : list GiftCatalog;
  wallet_accounts : gmap Z WalletAccount;
  wallet_transactions : list WalletTransaction;
  wallet_entries : list WalletEntry;
  recharge_requests : list RechargeRequestRow;
  gift_orders : list GiftOrder;
  outbox_events : list OutboxEvent;
  consumer_dedupe : list ConsumerDedupe;
  fan_point_ledger : list FanPointLedger;
  campaign_point_ledger : list CampaignPointLedger;
  stream_settlements : gmap Z StreamSettlement;
  reconciliation_results : gmap Z ReconciliationResult }.

(** Replacing one table; the tables that no statement writes have no such function. *)
Definition set_live_sessions (f : gmap Z LiveSession → gmap Z LiveSession) (t : Tables) : Tables :=
  {| users := users t; live_sessions := f (live_sessions t); live_matches := live_matches t;
     gift_catalog := gift_catalog t; wallet_accounts := wallet_accounts t;
     wallet_transactions := wallet_transactions t; wallet_entries := wallet_entries t;
     recharge_requests := recharge_requests t; gift_orders := gift_orders t;
     outbox_events := outbox_events t; consumer_dedupe := consumer_dedupe t;
     fan_point_ledger := fan_point_ledger t;
     campaign_point_ledger := campaign_point_ledger t;
     stream_settlements := stream_settlements t;
     reconciliation_results := reconciliation_results t |}.

Definition set_wallet_accounts (f : gmap Z WalletAccount → gmap Z WalletAccount) (t : Tables) : Tables :=
  {| users := users t; live_sessions := live_sessions t; live_matches := live_matches t;
     gift_catalog := gift_catalog t; wallet_accounts := f (wallet_accounts t);
     wallet_transactions := wallet_transactions t; wallet_entries := wallet_entries t;
     recharge_requests := recharge_requests t; gift_orders := gift_orders t;
     outbox_events := outbox_events t; consumer_dedupe := consumer_dedupe t;
     fan_point_ledger := fan_point_ledger t;
     campaign_point_ledger := campaign_point_ledger t;
     stream_settlements := stream_settlements t;
     reconciliation_results := reconciliation_results t |}.

Definition set_wallet_transactions (f : list WalletTransaction → list WalletTransaction) (t : Tables) : Tables :=
  {| users := users t; live_sessions := live_sessions t; live_matches := live_matches t;
     gift_catalog := gift_catalog t; wallet_accounts := wallet_accounts t;
     wallet_transactions := f (wallet_transactions t); wallet_entries := wallet_entries t;
     recharge_requests := recharge_requests t; gift_orders := gift_orders t;
     outbox_events := outbox_events t; consumer_dedupe := consumer_dedupe t;
     fan_point_ledger := fan_point_ledger t;
     campaign_point_ledger := campaign_point_ledger t;
     stream_settlements := stream_settlements t;
     reconciliation_results := reconciliation_results t |}.

Definition set_wallet_entries (f : list WalletEntry → list WalletEntry) (t : Tables) : Tables :=
  {| users := users t; live_sessions := live_sessions t; live_matches := live_matches t;
     gift_catalog := gift_catalog t; wallet_accounts := wallet_accounts t;
     wallet_transactions := wallet_transactions t; wallet_entries := f (wallet_entries t);
     recharge_requests := recharge_requests t; gift_orders := gift_orders t;
     outbox_events := outbox_events t; consumer_dedupe := consumer_dedupe t;
     fan_point_ledger := fan_point_ledger t;
     campaign_point_ledger := campaign_point_ledger t;
     stream_settlements := stream_settlements t;
     reconciliation_results := reconciliation_results t |}.

Definition set_recharge_requests (f : list RechargeRequestRow → list RechargeRequestRow) (t : Tables) : Tables :=
  {| users := users t; live_sessions := live_sessions t; live_matches := live_matches t;
     gift_catalog := gift_catalog t; wallet_accounts := wallet_accounts t;
     wallet_transactions := wallet_transactions t; wallet_entries := wallet_entries t;
     recharge_requests := f (recharge_requests t); gift_orders := gift_orders t;
     outbox_events := outbox_events t; consumer_dedupe := consumer_dedupe t;
     fan_point_ledger := fan_point_ledger t;
     campaign_point_ledger := campaign_point_ledger t;
     stream_settlements := stream_settlements t;
     reconciliation_results := reconciliation_results t |}.

Definition set_gift_orders (f : list GiftOrder → list GiftOrder) (t : Tables) : Tables :=
  {| users := users t; live_sessions := live_sessions t; live_matches := live_matches t;
     gift_catalog := gift_catalog t; wallet_accounts := wallet_accounts t;
     wallet_transactions := wallet_transactions t; wallet_entries := wallet_entries t;
     recharge_requests := recharge_requests t; gift_orders := f (gift_orders t);
     outbox_events := outbox_events t; consumer_dedupe := consumer_dedupe t;
     fan_point_ledger := fan_point_ledger t;
     campaign_point_ledger := campaign_point_ledger t;
     stream_settlements := stream_settlements t;
     reconciliation_results := reconciliation_results t |}.

Definition set_outbox_events (f : list OutboxEvent → list OutboxEvent) (t : Tables) : Tables :=
  {| users := users t; live_sessions := live_sessions t; live_matches := live_matches t;
     gift_catalog := gift_catalog t; wallet_accounts := wallet_accounts t;
     wallet_transactions := wallet_transactions t; wallet_entries := wallet_entries t;
     recharge_requests := recharge_requests t; gift_orders := gift_orders t;
     outbox_events := f (outbox_events t); consumer_dedupe := consumer_dedupe t;
     fan_point_ledger := fan_point_ledger t;
     campaign_point_ledger := campaign_point_ledger t;
     stream_settlements := stream_settlements t;
     reconciliation_results := reconciliation_results t |}.

Definition set_consumer_dedupe (f : list ConsumerDedupe → list ConsumerDedupe) (t : Tables) : Tables :=
  {| users := users t; live_sessions := live_sessions t; live_matches := live_matches t;
     gift_catalog := gift_catalog t; wallet_accounts := wallet_accounts t;
     wallet_transactions := wallet_transactions t; wallet_entries := wallet_entries t;
     recharge_requests := recharge_requests t; gift_orders := gift_orders t;
     outbox_events := outbox_events t; consumer_dedupe := f (consumer_dedupe t);
     fan_point_ledger := fan_point_ledger t;
     campaign_point_ledger := campaign_point_ledger t;
     stream_settlements := stream_settlements t;
     reconciliation_results := reconciliation_results t |}.

Definition set_fan_point_ledger (f : list FanPointLedger → list FanPointLedger) (t : Tables) : Tables :=
  {| users := users t; live_sessions := live_sessions t; live_matches := live_matches t;
     gift_catalog := gift_catalog t; wallet_accounts := wallet_accounts t;
     wallet_transactions := wallet_transactions t; wallet_entries := wallet_entries t;
     recharge_requests := recharge_requests t; gift_orders := gift_orders t;
     outbox_events := outbox_events t; consumer_dedupe := consumer_dedupe t;
     fan_point_ledger := f (fan_point_ledger t);
     campaign_point_ledger := campaign_point_ledger t;
     stream_settlements := stream_settlements t;
     reconciliation_results := reconciliation_results t |}.

Definition set_campaign_point_ledger (f : list CampaignPointLedger → list CampaignPointLedger) (t : Tables) : Tables :=
  {| users := users t; live_sessions := live_sessions t; live_matches := live_matches t;
     gift_catalog := gift_catalog t; wallet_accounts := wallet_accounts t;
     wallet_transactions := wallet_transactions t; wallet_entries := wallet_entries t;
     recharge_requests := recharge_requests t; gift_orders := gift_orders t;
     outbox_events := outbox_events t; consumer_dedupe := consumer_dedupe t;
     fan_point_ledger := fan_point_ledger t;
     campaign_point_ledger := f (campaign_point_ledger t);
     stream_settlements := stream_settlements t;
     reconciliation_results := reconciliation_results t |}.

Definition set_stream_settlements (f : gmap Z StreamSettlement → gmap Z StreamSettlement) (t : Tables) : Tables :=
  {| users := users t; live_sessions := live_sessions t; live_matches := live_matches t;
     gift_catalog := gift_catalog t; wallet_accounts := wallet_accounts t;
     wallet_transactions := wallet_transactions t; wallet_entries := wallet_entries t;
     recharge_requests := recharge_requests t; gift_orders := gift_orders t;
     outbox_events := outbox_events t; consumer_dedupe := consumer_dedupe t;
     fan_point_ledger := fan_point_ledger t;
     campaign_point_ledger := campaign_point_ledger t;
     stream_settlements := f (stream_settlements t);
     reconciliation_results := reconciliation_results t |}.

Definition set_reconciliation_results (f : gmap Z ReconciliationResult → gmap Z ReconciliationResult) (t : Tables) : Tables :=
  {| users := users t; live_sessions := live_sessions t; live_matches := live_matches t;
     gift_catalog := gift_catalog t; wallet_accounts := wallet_accounts t;
     wallet_transactions := wallet_transactions t; wallet_entries := wallet_entries t;
     recharge_requests := recharge_requests t; gift_orders := gift_orders t;
     outbox_events := outbox_events t; consumer_dedupe := consumer_dedupe t;
     fan_point_ledger := fan_point_ledger t;
     campaign_point_ledger := campaign_point_ledger t;
     stream_settlements := stream_settlements t;
     reconciliation_results := f (reconciliation_results t) |}.

(** The counters behind the AUTO_INCREMENT columns. InnoDB takes a value for every attempted
    insert and does not give it back on rollback, so they are not part of the tables. *)
Record Counters := { next_tx_id : Z; next_gift_order_id : Z; next_event_id : Z }.

(** What the sources leave to the MySQL server: the comparison key of the default collation of
    utf8mb4 text, whether a text is stored unchanged in a VARCHAR(n) column, the normalised text a
    JSON column holds for a document ([None]: not a JSON document), and the LIKE operator (pattern
    first). *)
Class MySQL := {
  coll_key : string → string;
  varchar_fits : Z → string → bool;
  json_store : string → option string;
  like : string → string → bool
}.

(** Comparison of text columns: equality of collation keys. *)
Definition coll_eq `{MySQL} (s t : string) : bool := String.eqb (coll_key s) (coll_key t).

Lemma coll_eq_spec `{MySQL} s t : coll_eq s t = true ↔ coll_key s = coll_key t.
Proof. apply String.eqb_eq. Qed.

Lemma coll_eq_refl `{MySQL} s : coll_eq s s = true.
Proof. by apply coll_eq_spec. Qed.

(** Text of the printable ASCII characters. *)
Fixpoint printable (s : string) : bool :=
  match s with
  | EmptyString => true
  | String a s' => in_range 32 126 (byte_of a) && printable s'
  end.

(** The shape of every document the program stores: an object of scalars. *)
Definition flat_object (j : json) : bool :=
  match j with
  | JObj l =>
      forallb (λ m : string * json, match m.2 with JArr _ | JObj _ => false | _ => true end) l
  | _ => false
  end.

(** The integers a JSON column keeps exactly. *)
Definition json_int (j : json) : bool :=
  match j with JNum n => (- max_int64 - 1 <=? n) && (n <=? max_uint64) | _ => true end.

(** LIKE on ASCII text: [%] is any text, [_] any character, a letter matches in either case. *)
Fixpoint like_match (pat s : string) : bool :=
  match pat with
  | EmptyString => match s with EmptyString => true | _ => false end
  | String a pat' =>
      if Ascii.eqb a "%" then
        (fix any (s : string) : bool :=
           like_match pat' s || match s with EmptyString => false | String _ s' => any s' end) s
      else
        match s with
        | EmptyString => false
        | String b s' =>
            (Ascii.eqb a "_" || String.eqb (ToLower (String a EmptyString)) (ToLower (String b EmptyString)))
            && like_match pat' s'
        end
  end.

(** Documented behaviour of the default collation and of VARCHAR columns on printable ASCII text:
    comparison ignores the case of letters and nothing else, and the length is the number of
    characters; of LIKE with a pattern of the same kind that has no escape; and of JSON columns: an
    object of scalars is accepted, and the stored document has its members, in some order and with
    the same texts and integers, when the names differ and the integers fit in 64 bits. *)
Class MySQLLaws `{MySQL} := {
  coll_ascii : ∀ s t, printable s = true → printable t = true →
    coll_key s = coll_key t ↔ ToLower s = ToLower t;
  varchar_ascii : ∀ n s, printable s = true → Z.of_nat (String.length s) ≤ n →
    varchar_fits n s = true;
  like_ascii : ∀ p s, printable p = true → printable s = true →
    (∀ p1 p2, p ≠ p1 +:+ "\" +:+ p2) → like p s = like_match p s;
  json_flat : ∀ j, flat_object j = true → ∃ t, json_store (marshal j) = Some t;
  json_kept : ∀ l doc, flat_object (JObj l) = true → unique_key (λ m, clean m.1) l →
    forallb (λ m, json_int m.2) l = true → json_store (marshal (JObj l)) = Some doc →
    ∃ l', json_parse doc = Some (VObj l') ∧ l' ≡ₚ map (λ m, (clean m.1, jval_of m.2)) l
}.
