(* ===== verification/Prog.v ===== *)
(** * Programs with effects

    A handler is a program over a signature of effects: it returns, or it performs an effect and
    continues with its result. The same program can be run against one state (a sequential run) or
    stepped together with others (an interleaving), because its effects are explicit. *)

From S2P Require Import Prelude.

Inductive prog (E : Type → Type) (A : Type) : Type :=
| Ret (a : A)
| Vis {R : Type} (e : E R) (k : R → prog E A).
Arguments Ret {E A} a.
Arguments Vis {E A R} e k.

Fixpoint pbind {E A B} (p : prog E A) (f : A → prog E B) : prog E B :=
  match p with
  | Ret a => f a
  | Vis e k => Vis e (λ r, pbind (k r) f)
  end.

(** One effect as a program. *)
Definition perform {E R} (e : E R) : prog E R := Vis e Ret.

Declare Scope prog_scope.
Delimit Scope prog_scope with prog.
Bind Scope prog_scope with prog.

Notation "'let!' x := p 'in' k" := (pbind p (λ x, k))
  (at level 10, x pattern, p at level 100, k at level 200,
   format "'[v' 'let!'  x  :=  p  'in' '/' k ']'") : prog_scope.
Notation "p ;;; k" := (pbind p (λ _, k))
  (at level 199, k at level 200, right associativity) : prog_scope.

(** ** Interpretation *)

(** What a component that provides the effects [E] promises: how each effect acts on its state. *)
Class Handler (E : Type → Type) (S : Type) := handle : ∀ R, E R → S → R * S.
Arguments handle {E S _ R} e s.

Fixpoint run {E S A} `{Handler E S} (p : prog E A) (s : S) : A * S :=
  match p with
  | Ret a => (a, s)
  | Vis e k => let rs := handle e s in run (k rs.1) rs.2
  end.

Lemma run_bind {E S A B} `{Handler E S} (p : prog E A) (f : A → prog E B) (s : S) :
  run (pbind p f) s = run (f (run p s).1) (run p s).2.
Proof. revert s. induction p as [a|R e k IH]; intros s; simpl; [done|]. apply IH. Qed.

Lemma run_perform {E S R} `{Handler E S} (e : E R) (s : S) : run (perform e) s = handle e s.
Proof. unfold perform. simpl. by destruct (handle e s). Qed.

(** ** Equivalence of programs: the same run under every handler *)

Definition prog_equiv {E A} (p q : prog E A) : Prop :=
  ∀ (S : Type) (H : Handler E S) (s : S), run p s = run q s.

#[export] Instance prog_equiv_equivalence {E A} : Equivalence (@prog_equiv E A).
Proof. split; unfold prog_equiv; repeat intro; congruence. Qed.

#[export] Instance pbind_proper {E A B} :
  Proper (prog_equiv ==> pointwise_relation A prog_equiv ==> prog_equiv) (@pbind E A B).
Proof.
  intros p q Hpq f g Hfg S H s. rewrite !run_bind, (Hpq S H s). apply Hfg.
Qed.

Lemma pbind_ret_r {E A} (p : prog E A) : prog_equiv (pbind p Ret) p.
Proof. intros S H s. rewrite run_bind. simpl. by destruct (run p s). Qed.

Lemma pbind_assoc {E A B C} (p : prog E A) (f : A → prog E B) (g : B → prog E C) :
  prog_equiv (pbind (pbind p f) g) (pbind p (λ a, pbind (f a) g)).
Proof. intros S H s. by rewrite !run_bind. Qed.

(** ** Two providers side by side *)

Variant sum_eff (E F : Type → Type) (R : Type) : Type :=
| EffL (e : E R)
| EffR (f : F R).
Arguments EffL {E F R} e.
Arguments EffR {E F R} f.

#[export] Instance sum_handler {E F S T} `{Handler E S, Handler F T} : Handler (sum_eff E F) (S * T) :=
  λ R e s,
    match e with
    | EffL e => let r := handle e s.1 in (r.1, (r.2, s.2))
    | EffR f => let r := handle f s.2 in (r.1, (s.1, r.2))
    end.

(** A program of one provider inside a pair. *)
Fixpoint inl_prog {E F A} (p : prog E A) : prog (sum_eff E F) A :=
  match p with
  | Ret a => Ret a
  | Vis e k => Vis (EffL e) (λ r, inl_prog (k r))
  end.

Lemma run_inl {E F S T A} `{Handler E S, Handler F T} (p : prog E A) (s : S * T) :
  run (inl_prog (F:=F) p) s = let r := run p s.1 in (r.1, (r.2, s.2)).
Proof.
  revert s. induction p as [a|R e k IH]; intros s; simpl; [by destruct s|].
  by rewrite IH.
Qed.

(** A loop over a list that stops at the first error. *)
Fixpoint for_each {E X Err} (xs : list X) (body : X → prog E (option Err)) : prog E (option Err) :=
  match xs with
  | [] => Ret None
  | x :: xs' =>
      pbind (body x) (λ r, match r with Some e => Ret (Some e) | None => for_each xs' body end)
  end.

#[global] Arguments pbind : simpl never.
#[global] Arguments perform : simpl never.
#[global] Arguments inl_prog : simpl never.
