(* ===== verification/Sql.v ===== *)
(** * database/sql over MySQL

    Statements, transactions and the errors a Go caller of [database/sql] sees. A statement is
    given by what it does on the tables it can see; a transaction collects the writes of its
    statements and [Commit] applies them. The transactions of the
    program ask for READ COMMITTED: a statement sees the committed tables and the writes of its own
    transaction. One asks for the default level of the server ([BeginTx(ctx, nil)] in
    EnqueueWatchMinuteEvents); it only inserts, so that no snapshot is read and the level makes no
    difference. The connection can fail at any call. *)

From S2P Require Import Prelude GoInt GoStrings Schema Prog.

(** ** Errors *)

Inductive go_err :=
| ErrNoRows                    (* sql.ErrNoRows *)
| MySQLError (number : Z)      (* *mysql.MySQLError *)
| ErrConn                      (* the connection or the server failed, or the context was cancelled *)
| ErrTxDone                    (* sql.ErrTxDone *)
| ErrScan                      (* a column does not fit the destination of Scan *)
| ErrText (msg : string).      (* fmt.Errorf *)

Inductive res (A : Type) := ROk (a : A) | RErr (e : go_err).
Arguments ROk {A} a.
Arguments RErr {A} e.

(** Error numbers of the server. *)
Definition ER_DUP_ENTRY : Z := 1062.
Definition ER_NO_REFERENCED_ROW : Z := 1452.
Definition ER_DATA_TOO_LONG : Z := 1406.
Definition ER_OUT_OF_RANGE : Z := 1264.
Definition ER_INVALID_JSON : Z := 3140.
Definition ER_AUTOINC_READ_FAILED : Z := 1467.

(** ** Statements *)

(** The rows a statement can wait for. *)
Inductive LockKey :=
| KWallet (user : Z)
| KWalletTx (actor : Z) (ty : WalletTransactionsTxType) (request : string)
| KWalletEntry (tx_id : Z) (account : string)
| KRecharge (viewer : Z) (request : string)
| KGiftOrder (viewer : Z) (request : string)
| KSession (live_session : Z)
| KOutbox (event : Z)
| KDedupe (consumer : string) (event : Z)
| KFanPoint (event : Z)
| KCampaignPoint (event : Z)
| KSettlement (live_session : Z)
| KReconciliation (live_session : Z).

#[export] Instance LockKey_eq_dec : EqDecision LockKey.
Proof. solve_decision. Defined.

Definition write : Type := Tables → Tables.

(** [s_waits]: the rows it must lock, so that it waits while another transaction holds one of
    them; [s_holds]: those it keeps locked until the end of its transaction, given what it saw;
    [s_exec]: its result, its writes, and the AUTO_INCREMENT counters after it. *)
Record stmt (R : Type) := {
  s_waits : list LockKey;
  s_holds : Tables → list LockKey;
  s_exec : Tables → Counters → res R * write * Counters }.
Arguments s_waits {R}.
Arguments s_holds {R}.
Arguments s_exec {R}.

(** A consistent read. *)
Definition query {R} (f : Tables → res R) : stmt R :=
  {| s_waits := []; s_holds _ := []; s_exec t c := (f t, id, c) |}.

(** [SELECT ... FOR UPDATE] of one row. *)
Definition query_for_update {R} (key : LockKey) (f : Tables → res R) : stmt R :=
  {| s_waits := [key];
     s_holds t := match f t with ROk _ => [key] | RErr _ => [] end;
     s_exec t c := (f t, id, c) |}.

(** A statement that writes: [fails] gives the error number of the constraint it violates. *)
Definition modify {R} (keys : list LockKey) (fails : Tables → option Z)
    (result : Tables → R) (w : write) : stmt R :=
  {| s_waits := keys;
     s_holds _ := keys;
     s_exec t c :=
       match fails t with
       | Some n => (RErr (MySQLError n), id, c)
       | None => (ROk (result t), w, c)
       end |}.

(** An insert into a table with an AUTO_INCREMENT key: the counter moves whether or not the row is
    inserted, and the result is [LastInsertId], an int64. The column is BIGINT UNSIGNED. *)
Definition insert_auto (keys : list LockKey) (fails : Tables → option Z)
    (next : Counters → Z) (bump : Counters → Counters) (w : Z → write) : stmt Z :=
  {| s_waits := keys;
     s_holds _ := keys;
     s_exec t c :=
       if max_uint64 <? next c then (RErr (MySQLError ER_AUTOINC_READ_FAILED), id, c)
       else match fails t with
            | Some n => (RErr (MySQLError n), id, bump c)
            | None => (ROk (int64 (next c)), w (next c), bump c)
            end |}.

(** The first violated constraint of a list of (violated, error number). *)
Fixpoint first_violation (cs : list (bool * Z)) : option Z :=
  match cs with
  | [] => None
  | (true, n) :: _ => Some n
  | (false, _) :: cs' => first_violation cs'
  end.

(** [Scan] of an integer column into an int64. *)
Definition scan_int64 (v : Z) : res Z :=
  if (v <? - max_int64 - 1) || (max_int64 <? v) then RErr ErrScan else ROk v.

(** [Scan] into a [sql.NullInt64]. *)
Definition scan_null_int64 (v : option Z) : res (option Z) :=
  match v with
  | None => ROk None
  | Some x => match scan_int64 x with ROk y => ROk (Some y) | RErr e => RErr e end
  end.

(** ** Effects *)

Inductive SqlE : Type → Type :=
| ENow : SqlE Z                                  (* time.Now().UTC(), see [clock] *)
| EBegin : SqlE (res unit)                       (* db.BeginTx *)
| EStmt {R} (s : stmt R) : SqlE (res R)          (* tx.ExecContext, tx.QueryContext *)
| ECommit : SqlE (res unit)                      (* tx.Commit *)
| ERollback : SqlE unit                          (* tx.Rollback, its error ignored *)
| EAuto {R} (s : stmt R) : SqlE (res R).         (* db.ExecContext, db.QueryContext *)

Definition now : prog SqlE Z := perform ENow.

(** [t.UnixMilli()] of a reading of the clock. *)
Definition UnixMilli (t : Z) : Z := t / 1000.

Definition tx_exec {R} (s : stmt R) : prog SqlE (res R) := perform (EStmt s).
Definition db_exec {R} (s : stmt R) : prog SqlE (res R) := perform (EAuto s).
Definition commit : prog SqlE (res unit) := perform ECommit.

(** [tx, err := db.BeginTx(...)]; an error returns [on_err]; [defer tx.Rollback()]. *)
Definition with_tx {A} (on_err : go_err → A) (body : prog SqlE A) : prog SqlE A :=
  (let! b := perform EBegin in
   match b with
   | RErr e => Ret (on_err e)
   | ROk _ =>
       let! a := body in
       perform ERollback ;;; Ret a
   end)%prog.

(** [x, err := p]; [if err != nil] returns [h err]. *)
Definition try_ {E A B} (h : go_err → B) (p : prog E (res A)) (k : A → prog E B) : prog E B :=
  pbind p (λ r, match r with ROk x => k x | RErr e => Ret (h e) end).

Notation "'try!' x := p 'or' h 'in' k" := (try_ h p (λ x, k))
  (at level 10, x pattern, p at level 100, h at level 9, k at level 200,
   format "'[v' 'try!'  x  :=  p  'or'  h  'in' '/' k ']'") : prog_scope.

(** ** One connection, run on its own *)

(** A call goes through, fails with no effect, or has its effect and loses the answer. *)
Inductive Fault := FaultNone | FaultFail | FaultAckLost.

(** What the environment decides at each call, numbered by [tick]. The clock reads microseconds since
    the Unix epoch, the resolution of the DATETIME(6) columns. *)
Class Env := { clock : nat → Z; fault : nat → Fault }.

Definition quiet (env : Env) : Prop := ∀ n, @fault env n = FaultNone.

Record Db := {
  tables : Tables; counters : Counters; tick : nat; tx : option (list write) }.

(** The tables a transaction sees: the committed ones and its own writes. *)
Definition view (t : Tables) (log : list write) : Tables := foldl (λ t w, w t) t log.

Lemma view_app t log w : view t (log ++ [w]) = w (view t log).
Proof. unfold view. by rewrite foldl_app. Qed.

#[export] Instance sql_handler `{Env} : Handler SqlE Db :=
  λ R e d,
    let n := S (tick d) in
    let stay := {| tables := tables d; counters := counters d; tick := n; tx := tx d |} in
    let close t := {| tables := t; counters := counters d; tick := n; tx := None |} in
    match e in SqlE R return R * Db with
    | ENow => (clock (tick d), stay)
    | EBegin =>
        match fault (tick d) with
        | FaultNone =>
            (ROk tt, {| tables := tables d; counters := counters d; tick := n; tx := Some [] |})
        | _ => (RErr ErrConn, stay)
        end
    | EStmt s =>
        match tx d with
        | None => (RErr ErrTxDone, stay)
        | Some log =>
            match fault (tick d) with
            | FaultFail => (RErr ErrConn, stay)
            | f =>
                let '(r, w, c) := s_exec s (view (tables d) log) (counters d) in
                let d' :=
                  {| tables := tables d; counters := c; tick := n; tx := Some (log ++ [w]) |} in
                match f with FaultAckLost => (RErr ErrConn, d') | _ => (r, d') end
            end
        end
    | ECommit =>
        match tx d with
        | None => (RErr ErrTxDone, stay)
        | Some log =>
            match fault (tick d) with
            | FaultNone => (ROk tt, close (view (tables d) log))
            | FaultFail => (RErr ErrConn, close (tables d))
            | FaultAckLost => (RErr ErrConn, close (view (tables d) log))
            end
        end
    | ERollback => (tt, close (tables d))
    | EAuto s =>
        match fault (tick d) with
        | FaultFail => (RErr ErrConn, stay)
        | f =>
            let '(r, w, c) := s_exec s (tables d) (counters d) in
            let d' := {| tables := w (tables d); counters := c; tick := n; tx := tx d |} in
            match f with FaultAckLost => (RErr ErrConn, d') | _ => (r, d') end
        end
    end.
