(* ===== verification/Wp.v ===== *)
(** * Reasoning about one connection

    A weakest-precondition calculus for the programs of [Sql]: a rule per effect, so that the
    behaviour of a handler is proved by following its code once. [F] says whether calls may fail:
    with [F = true] a rule asks for the error continuation too, with [F = false] the environment is
    quiet and only the successful one remains. The clock is arbitrary in both. *)

From S2P Require Import Prelude GoInt GoStrings Schema Prog Sql.

(** Postconditions speak of the result, the committed tables, the counters, and the tables the open
    transaction sees ([None]: no open transaction). *)
Definition wp (F : bool) {A} (p : prog SqlE A)
    (Q : A → Tables → Counters → option Tables → Prop)
    (t : Tables) (c : Counters) (v : option Tables) : Prop :=
  ∀ (env : Env) (d : Db),
    (F = false → quiet env) → tables d = t → counters d = c → (view t <$> tx d) = v →
    let d' := (run p d).2 in
    Q (run p d).1 (tables d') (counters d') (view (tables d') <$> tx d').

Section rules.
Context {F : bool}.
Implicit Types (t v : Tables) (c : Counters).

Lemma wp_ret {A} (a : A) (Q : A → Tables → Counters → option Tables → Prop) t c o :
  Q a t c o → wp F (Ret a) Q t c o.
Proof. intros H env d _ <- <- <-. apply H. Qed.

Lemma wp_bind {A B} (p : prog SqlE A) (k : A → prog SqlE B) Q t c o :
  wp F p (λ a, wp F (k a) Q) t c o → wp F (pbind p k) Q t c o.
Proof.
  intros H env d Hq Ht Hc Hv. rewrite run_bind.
  exact (H env d Hq Ht Hc Hv env (run p d).2 Hq eq_refl eq_refl eq_refl).
Qed.

Lemma wp_mono {A} (p : prog SqlE A) (Q Q' : A → Tables → Counters → option Tables → Prop) t c o :
  wp F p Q t c o → (∀ a t' c' o', Q a t' c' o' → Q' a t' c' o') → wp F p Q' t c o.
Proof. intros H HQ env d Hq Ht Hc Hv. apply HQ. by apply H. Qed.

Lemma wp_now (Q : Z → Tables → Counters → option Tables → Prop) t c o :
  (∀ n, Q n t c o) → wp F now Q t c o.
Proof. intros H env d _ <- <- <-. apply H. Qed.

Lemma faulty_only `{env : Env} n :
  (F = false → quiet env) → fault n ≠ FaultNone → F = true.
Proof. destruct F; [done|]. intros Hq Hn. by rewrite (Hq eq_refl n) in Hn. Qed.

Lemma wp_begin (Q : res unit → Tables → Counters → option Tables → Prop) t c o :
  (F = true → Q (RErr ErrConn) t c o) → Q (ROk tt) t c (Some t) →
  wp F (perform EBegin) Q t c o.
Proof.
  intros Hf Hok env d Hq <- <- <-. rewrite run_perform. unfold handle, sql_handler.
  destruct (fault (tick d)) eqn:E; simpl; [done|..];
    (apply Hf, (faulty_only (tick d)); [done|congruence]).
Qed.

Lemma wp_stmt {R} (s : stmt R) (Q : res R → Tables → Counters → option Tables → Prop) t c v :
  (F = true → ∀ c' v', c' = c ∨ c' = (s_exec s v c).2 → Q (RErr ErrConn) t c' (Some v')) →
  (let '(r, w, c') := s_exec s v c in Q r t c' (Some (w v))) →
  wp F (tx_exec s) Q t c (Some v).
Proof.
  intros Hf Hok env d Hq <- <- Hv. unfold tx_exec. rewrite run_perform.
  destruct (tx d) as [log|] eqn:Etx; simplify_eq/=. unfold handle, sql_handler. rewrite Etx.
  destruct (s_exec s _ _) as [[r w] c'] eqn:Es. simpl in *.
  destruct (fault (tick d)) eqn:E; simpl; rewrite ?Etx; simpl; rewrite ?view_app; [done|..];
    (apply Hf; [apply (faulty_only (tick d)); [done|congruence]|auto]).
Qed.

Lemma wp_commit (Q : res unit → Tables → Counters → option Tables → Prop) t c v :
  (F = true → Q (RErr ErrConn) t c None) → (F = true → Q (RErr ErrConn) v c None) →
  Q (ROk tt) v c None →
  wp F commit Q t c (Some v).
Proof.
  intros Hf Hl Hok env d Hq <- <- Hv. unfold commit. rewrite run_perform.
  destruct (tx d) as [log|] eqn:Etx; simplify_eq/=. unfold handle, sql_handler. rewrite Etx.
  destruct (fault (tick d)) eqn:E; simpl; [done|apply Hf|apply Hl];
    (apply (faulty_only (tick d)); [done|congruence]).
Qed.

(** Outside a transaction a statement commits at once. *)
Lemma wp_auto {R} (s : stmt R) (Q : res R → Tables → Counters → option Tables → Prop) t c :
  (F = true → Q (RErr ErrConn) t c None) →
  (let '(r, w, c') := s_exec s t c in
   (F = true → Q (RErr ErrConn) (w t) c' None) ∧ Q r (w t) c' None) →
  wp F (db_exec s) Q t c None.
Proof.
  intros Hf Hok env d Hq <- <- Hv. unfold db_exec. rewrite run_perform.
  destruct (tx d) as [log|] eqn:Etx; simplify_eq/=. unfold handle, sql_handler.
  destruct (s_exec s _ _) as [[r w] c'] eqn:Es. destruct Hok as [Hl Hok].
  destruct (fault (tick d)) eqn:E; simpl; rewrite Etx; simpl; [done|apply Hf|apply Hl];
    (apply (faulty_only (tick d)); [done|congruence]).
Qed.

(** The body runs in a fresh transaction; whatever it did not commit is rolled back. *)
Lemma wp_with_tx {A} (on_err : go_err → A) (body : prog SqlE A) Q t c :
  (F = true → Q (on_err ErrConn) t c None) →
  wp F body (λ a t' c' _, Q a t' c' None) t c (Some t) →
  wp F (with_tx on_err body) Q t c None.
Proof.
  intros Hf Hbody. apply wp_bind, wp_begin.
  - intros HF. apply wp_ret. auto.
  - apply wp_bind. eapply wp_mono; [exact Hbody|]. intros a t' c' v' HQ.
    intros env d _ <- <- _. exact HQ.
Qed.
End rules.

(** ** Derived rules for the kinds of statement *)

Section statements.
Context {F : bool} {R : Type}.
Implicit Types (t v : Tables) (c : Counters) (Q : res R → Tables → Counters → option Tables → Prop).

Lemma wp_query (f : Tables → res R) Q t c v :
  (F = true → ∀ v', Q (RErr ErrConn) t c (Some v')) → Q (f v) t c (Some v) →
  wp F (tx_exec (query f)) Q t c (Some v).
Proof. intros Hf Hok. apply wp_stmt; [|done]. intros HF c' v' [->| ->]; auto. Qed.

Lemma wp_query_for_update key (f : Tables → res R) Q t c v :
  (F = true → ∀ v', Q (RErr ErrConn) t c (Some v')) → Q (f v) t c (Some v) →
  wp F (tx_exec (query_for_update key f)) Q t c (Some v).
Proof. intros Hf Hok. apply wp_stmt; [|done]. intros HF c' v' [->| ->]; auto. Qed.

Lemma wp_modify keys fails (result : Tables → R) w Q t c v :
  (F = true → ∀ v', Q (RErr ErrConn) t c (Some v')) →
  (∀ n, fails v = Some n → Q (RErr (MySQLError n)) t c (Some v)) →
  (fails v = None → Q (ROk (result v)) t c (Some (w v))) →
  wp F (tx_exec (modify keys fails result w)) Q t c (Some v).
Proof.
  intros Hf Hbad Hok. apply wp_stmt; simpl.
  - intros HF c' v' Hc'. destruct (fails v); simpl in Hc'; destruct Hc' as [->| ->]; auto.
  - destruct (fails v) eqn:E; auto.
Qed.
End statements.

Lemma wp_insert_auto {F} keys fails next bump w
    (Q : res Z → Tables → Counters → option Tables → Prop) t c v :
  (F = true → ∀ c' v', c' = c ∨ c' = bump c → Q (RErr ErrConn) t c' (Some v')) →
  (max_uint64 < next c → Q (RErr (MySQLError ER_AUTOINC_READ_FAILED)) t c (Some v)) →
  (∀ n, next c ≤ max_uint64 → fails v = Some n → Q (RErr (MySQLError n)) t (bump c) (Some v)) →
  (next c ≤ max_uint64 → fails v = None →
   Q (ROk (int64 (next c))) t (bump c) (Some (w (next c) v))) →
  wp F (tx_exec (insert_auto keys fails next bump w)) Q t c (Some v).
Proof.
  intros Hf Hmax Hbad Hok. apply wp_stmt; simpl; destruct (max_uint64 <? next c) eqn:E;
    bool_to_prop; simpl.
  - intros HF c' v' [->| ->]; auto.
  - intros HF c' v' Hc'. apply Hf; [done|]. destruct (fails v); simpl in Hc'; auto.
  - auto.
  - destruct (fails v) eqn:E'; auto.
Qed.

Lemma wp_try {F A B} (h : go_err → B) (p : prog SqlE (res A)) (k : A → prog SqlE B) Q t c v :
  wp F p (λ r t c v, match r with ROk x => wp F (k x) Q t c v | RErr e => Q (h e) t c v end) t c v →
  wp F (try_ h p k) Q t c v.
Proof.
  intros H. apply wp_bind. eapply wp_mono; [exact H|]. intros [x|e] t' c' v' HQ; [done|].
  by apply wp_ret.
Qed.

(** ** Refinement of an atomic operation *)

(** The result, the tables and the counters of an operation that runs in one step. *)
Definition atomic (A : Type) : Type := A * Tables * Counters.

Definition counters_le (c c' : Counters) : Prop :=
  next_tx_id c ≤ next_tx_id c' ∧ next_gift_order_id c ≤ next_gift_order_id c'
  ∧ next_event_id c ≤ next_event_id c'.

#[export] Instance counters_le_preorder : PreOrder counters_le.
Proof. split; unfold counters_le; repeat intro; lia. Qed.

(** A run settles on the operation [a]: it has exactly its effect and result; or, if calls may fail,
    it reports [failed] and has either none of its effect or all of it. Counters may skip values. *)
Definition settles (F : bool) {A} (failed : A) (t : Tables) (c : Counters) (a : atomic A)
    (x : A) (t' : Tables) (c' : Counters) : Prop :=
  (x = a.1.1 ∧ t' = a.1.2 ∧ counters_le a.2 c')
  ∨ (F = true ∧ x = failed ∧
     ((t' = t ∧ counters_le c c') ∨ (t' = a.1.2 ∧ counters_le a.2 c'))).

Lemma settles_done F {A} (failed : A) t c a c' :
  counters_le a.2 c' → settles F failed t c a a.1.1 a.1.2 c'.
Proof. left. auto. Qed.

Lemma settles_failed {A} (failed : A) t c a c' :
  counters_le c c' → settles true failed t c a failed t c'.
Proof. right. auto. Qed.

(** The effect is there; the answer may have been lost. *)
Lemma settles_effect F {A} (failed : A) t c a x c' :
  x = a.1.1 ∨ F = true ∧ x = failed → counters_le a.2 c' →
  settles F failed t c a x a.1.2 c'.
Proof. intros [->|[HF ->]] Hc; [by left|]. right. auto. Qed.

(** ** From the calculus to runs *)

(** A connection with no open transaction. *)
Definition idle (d : Db) : Prop := tx d = None.

Lemma wp_run {A} (F : bool) (env : Env) (p : prog SqlE A)
    (Q : A → Tables → Counters → option Tables → Prop) (d : Db) :
  (F = false → quiet env) → idle d → wp F p Q (tables d) (counters d) None →
  Q (run p d).1 (tables (run p d).2) (counters (run p d).2)
    (view (tables (run p d).2) <$> tx (run p d).2).
Proof. intros Hq Hi H. apply H; [done..|]. by rewrite Hi. Qed.

Lemma wp_elim {A} (F : bool) (env : Env) (p : prog SqlE A)
    (Q : A → Tables → Counters → option Tables → Prop) (d : Db) t c v :
  wp F p Q t c v → (F = false → quiet env) → tables d = t → counters d = c → (view t <$> tx d) = v →
  let r := run p d in Q r.1 (tables r.2) (counters r.2) (view (tables r.2) <$> tx r.2).
Proof. intros H Hq Ht Hc Hv. by apply H. Qed.

Lemma wp_rollback {F} (Q : unit → Tables → Counters → option Tables → Prop) t c v :
  Q tt t c None → wp F (perform ERollback) Q t c v.
Proof. intros HQ env d _ <- <- _. exact HQ. Qed.

#[global] Opaque wp.
