(* ===== verification/Events.v ===== *)
(** * Event payloads

    The structs of src/internal/events/events.go and their JSON documents. A uint64, uint32, uint16
    or int64 field is a [Z]; a pointer field is an [option]. *)

From S2P Require Import Prelude GoInt GoStrings Json Schema Sql.

Record WalletTransactionPostedV1 := {
  ev_TxID : Z; ev_TxType : string; ev_ActorUserID : Z; ev_RequestID : string; ev_DeltaCoins : Z;
  ev_BalanceAfter : Z }.

Record LiveGiftAcceptedV1 := {
  ga_EventType : string; ga_GiftOrderID : Z; ga_ViewerID : Z; ga_CreatorID : Z;
  ga_LiveSessionID : Z; ga_CampaignID : option Z; ga_MatchID : option Z; ga_GiftID : string;
  ga_Quantity : Z; ga_ChargedCoins : Z; ga_MatchPoints : Z; ga_DiamondReward : Z;
  ga_RequestID : string }.

Record LiveGiftRejectedV1 := {
  gr_EventType : string; gr_ViewerID : Z; gr_CreatorID : Z; gr_LiveSessionID : Z;
  gr_MatchID : option Z; gr_GiftID : string; gr_Quantity : Z; gr_RequestID : string;
  gr_RejectCode : string }.

Record LiveCommentCreatedV1 := {
  lc_EventID : string; lc_ViewerID : Z; lc_CreatorID : Z; lc_LiveSessionID : Z }.

Record LiveWatchMinuteV1 := {
  lw_EventID : string; lw_ViewerID : Z; lw_CreatorID : Z; lw_LiveSessionID : Z }.

Record LiveSessionClosedV1 := { lx_LiveSessionID : Z; lx_ClosedAtMs : Z }.

(** A Go value that [json.Marshal] turns into a document. *)
Class ToJson (A : Type) := to_json : A → json.

#[export] Instance WalletTransactionPostedV1_json : ToJson WalletTransactionPostedV1 := λ e,
  JObj [("tx_id", JNum (ev_TxID e)); ("tx_type", JStr (ev_TxType e));
        ("actor_user_id", JNum (ev_ActorUserID e)); ("request_id", JStr (ev_RequestID e));
        ("delta_coins", JNum (ev_DeltaCoins e)); ("balance_after", JNum (ev_BalanceAfter e))].

#[export] Instance LiveGiftAcceptedV1_json : ToJson LiveGiftAcceptedV1 := λ e,
  JObj ([("event_type", JStr (ga_EventType e)); ("gift_order_id", JNum (ga_GiftOrderID e));
         ("viewer_id", JNum (ga_ViewerID e)); ("creator_id", JNum (ga_CreatorID e));
         ("live_session_id", JNum (ga_LiveSessionID e))]
        ++ json_omitempty "campaign_id" (ga_CampaignID e)
        ++ json_omitempty "match_id" (ga_MatchID e)
        ++ [("gift_id", JStr (ga_GiftID e)); ("quantity", JNum (ga_Quantity e));
            ("charged_coins", JNum (ga_ChargedCoins e));
            ("match_points_added", JNum (ga_MatchPoints e));
            ("diamond_reward", JNum (ga_DiamondReward e));
            ("request_id", JStr (ga_RequestID e))]).

#[export] Instance LiveGiftRejectedV1_json : ToJson LiveGiftRejectedV1 := λ e,
  JObj ([("event_type", JStr (gr_EventType e)); ("viewer_id", JNum (gr_ViewerID e));
         ("creator_id", JNum (gr_CreatorID e)); ("live_session_id", JNum (gr_LiveSessionID e))]
        ++ json_omitempty "match_id" (gr_MatchID e)
        ++ [("gift_id", JStr (gr_GiftID e)); ("quantity", JNum (gr_Quantity e));
            ("request_id", JStr (gr_RequestID e)); ("reject_code", JStr (gr_RejectCode e))]).

#[export] Instance LiveCommentCreatedV1_json : ToJson LiveCommentCreatedV1 := λ e,
  JObj [("event_id", JStr (lc_EventID e)); ("viewer_id", JNum (lc_ViewerID e));
        ("creator_id", JNum (lc_CreatorID e)); ("live_session_id", JNum (lc_LiveSessionID e))].

#[export] Instance LiveWatchMinuteV1_json : ToJson LiveWatchMinuteV1 := λ e,
  JObj [("event_id", JStr (lw_EventID e)); ("viewer_id", JNum (lw_ViewerID e));
        ("creator_id", JNum (lw_CreatorID e)); ("live_session_id", JNum (lw_LiveSessionID e))].

#[export] Instance LiveSessionClosedV1_json : ToJson LiveSessionClosedV1 := λ e,
  JObj [("live_session_id", JNum (lx_LiveSessionID e)); ("closed_at_ms", JNum (lx_ClosedAtMs e))].

(** [json.Marshal] reports no error on values of these types. *)
Definition MarshalJSONString {A} `{ToJson A} (v : A) : res string := ROk (marshal (to_json v)).

(** A payload is an object of scalars, which a JSON column accepts. *)
Class FlatPayload (A : Type) `{ToJson A} := payload_flat : ∀ v : A, flat_object (to_json v) = true.

Lemma flat_omitempty l1 name p l2 :
  flat_object (JObj (l1 ++ json_omitempty name p ++ l2)) = flat_object (JObj (l1 ++ l2)).
Proof. destruct p; simpl; [|done]. by rewrite !forallb_app. Qed.

#[export] Instance WalletTransactionPostedV1_flat : FlatPayload WalletTransactionPostedV1.
Proof. done. Qed.
#[export] Instance LiveGiftAcceptedV1_flat : FlatPayload LiveGiftAcceptedV1.
Proof. intros v. unfold to_json, LiveGiftAcceptedV1_json. by rewrite !flat_omitempty. Qed.
#[export] Instance LiveGiftRejectedV1_flat : FlatPayload LiveGiftRejectedV1.
Proof. intros v. unfold to_json, LiveGiftRejectedV1_json. by rewrite !flat_omitempty. Qed.
#[export] Instance LiveCommentCreatedV1_flat : FlatPayload LiveCommentCreatedV1.
Proof. done. Qed.
#[export] Instance LiveWatchMinuteV1_flat : FlatPayload LiveWatchMinuteV1.
Proof. done. Qed.
#[export] Instance LiveSessionClosedV1_flat : FlatPayload LiveSessionClosedV1.
Proof. done. Qed.

Lemma payload_stored `{MySQLLaws} {A} `{FlatPayload A} (v : A) :
  ∃ doc, json_store (marshal (to_json v)) = Some doc.
Proof. apply json_flat, payload_flat. Qed.
