(* ===== verification/Ledger.v ===== *)
(** * Ledger entries, body hashes and the statements the service operations share

    Models src/internal/service/errors.go and the helpers of src/internal/service/service.go, and
    the SQL statements that both [Recharge] and [SendGift] issue on the wallet tables and the
    outbox. The text of each statement is quoted in src/internal/service; the constraints it is
    checked against are those of src/migrations. *)

From S2P Require Import Prelude GoInt GoStrings Sha256 Json Schema Prog Sql Wp Events.

(** ** Errors the API shows to its caller *)

Record AppError := { HTTPStatus : Z; Code : string; Message : string }.

Definition AppError_Error (e : AppError) : string := Code e +:+ ": " +:+ Message e.

Definition errValidation : AppError :=
  {| HTTPStatus := 400; Code := "VALIDATION_ERROR"; Message := "invalid request payload" |}.

Definition errPayloadMismatch : AppError :=
  {| HTTPStatus := 409; Code := "IDEMPOTENCY_PAYLOAD_MISMATCH";
     Message := "same request_id with different payload" |}.

(** [err.Error()]: the text of an error is the library's that made it. *)
Class ErrorText := error_text : go_err → string.

Definition errInternal `{ErrorText} (err : go_err) : AppError :=
  {| HTTPStatus := 500; Code := "INTERNAL_ERROR"; Message := error_text err |}.

(** The (response, *AppError, error) triple of a service method: exactly one part is set. *)
Inductive outcome (A : Type) := Ok (a : A) | App (e : AppError) | Err (e : go_err).
Arguments Ok {A} a.
Arguments App {A} e.
Arguments Err {A} e.

(** ** Double-entry postings *)

Record LedgerEntry := { AccountCode : string; Amount : Z }.

Definition user_coins (user : Z) : string := "USER_COINS:" +:+ FormatUint user.
Definition SYSTEM_TOPUP_SOURCE : string := "SYSTEM_TOPUP_SOURCE".
Definition PLATFORM_RESERVED_COINS : string := "PLATFORM_RESERVED_COINS".

Definition BuildRechargeEntries (viewerID coins : Z) : list LedgerEntry :=
  [{| AccountCode := user_coins viewerID; Amount := coins |};
   {| AccountCode := SYSTEM_TOPUP_SOURCE; Amount := int64 (- coins) |}].

(** The running sum wraps at each step. *)
Definition SumLedgerEntries (entries : list LedgerEntry) : Z :=
  foldl (λ sum e, int64 (sum + Amount e)) 0 entries.

(** ** Body hash *)

Definition BodyHashHex {A} `{ToJson A} (v : A) : res (string * list Z) :=
  let h := Sum256 (bytes_of (marshal (to_json v))) in ROk (EncodeToString h, h).

Fixpoint all_equal (a b : list Z) : bool :=
  match a, b with
  | x :: a', y :: b' => if negb (x =? y) then false else all_equal a' b'
  | _, _ => true
  end.

Definition bytesEqual (a b : list Z) : bool :=
  if negb (Z.of_nat (length a) =? Z.of_nat (length b)) then false else all_equal a b.

Lemma bytesEqual_spec a b : bytesEqual a b = true ↔ a = b.
Proof.
  unfold bytesEqual.
  destruct (Z.of_nat (length a) =? Z.of_nat (length b)) eqn:E; bool_to_prop; simpl.
  - apply Nat2Z.inj in E. revert b E.
    induction a as [|x a IH]; intros [|y b] E; simplify_eq/=; [done|].
    destruct (x =? y) eqn:Exy; bool_to_prop; simpl; [rewrite IH by done|]; split; congruence.
  - split; [done|]. intros ->. congruence.
Qed.

Lemma bytesEqual_refl a : bytesEqual a a = true.
Proof. by apply bytesEqual_spec. Qed.

(** The running sum, wrapped at the end only. *)
Lemma SumLedgerEntries_sum entries :
  SumLedgerEntries entries = int64 (sum_of Amount entries).
Proof.
  unfold SumLedgerEntries.
  assert (H : ∀ acc, foldl (λ sum e, int64 (sum + Amount e)) (int64 acc) entries
                     = int64 (acc + sum_of Amount entries)).
  { induction entries as [|e l IH]; intros acc; simpl; [f_equal; lia|].
    rewrite int64_add_idemp, IH. f_equal. lia. }
  specialize (H 0). rewrite Z.add_0_l in H. rewrite <- H. by rewrite int64_0.
Qed.

Lemma BuildRechargeEntries_balanced viewerID coins :
  is_uint32 coins → SumLedgerEntries (BuildRechargeEntries viewerID coins) = 0.
Proof.
  intros Hc. rewrite SumLedgerEntries_sum. simpl.
  rewrite (int64_id (- coins)) by (int_bounds; lia).
  rewrite int64_id; int_bounds; lia.
Qed.

(** ** Text of generated codes and keys *)

Lemma dec_go_printable fuel : ∀ n acc,
  0 ≤ n → printable acc = true → printable (dec_go fuel n acc) = true.
Proof.
  induction fuel as [|fuel IH]; intros n acc Hn Hacc; simpl; [done|].
  assert (Hp : printable (String (digit (n mod 10)) acc) = true).
  { pose proof (Z.mod_pos_bound n 10). simpl. rewrite digit_byte, Hacc by lia.
    unfold in_range. lia. }
  destruct (n / 10 =? 0); [done|]. apply IH; [apply Z.div_pos; lia|done].
Qed.

Lemma FormatUint_printable n : 0 ≤ n → printable (FormatUint n) = true.
Proof. intros H. by apply dec_go_printable. Qed.

Lemma dec_go_length fuel : ∀ (k : nat) n acc,
  0 ≤ n → n < 10 ^ Z.of_nat (S k) →
  (String.length (dec_go fuel n acc) ≤ S k + String.length acc)%nat.
Proof.
  induction fuel as [|fuel IH]; intros k n acc Hn Hlt; simpl; [lia|].
  destruct (n / 10 =? 0) eqn:E; simpl; [lia|]. bool_to_prop.
  destruct k as [|k].
  - exfalso. apply E. apply Z.div_small. simpl in Hlt. lia.
  - specialize (IH k (n / 10) (String (digit (n mod 10)) acc)). simpl in IH.
    etrans; [apply IH|lia]; [apply Z.div_pos; lia|].
    apply Z.div_lt_upper_bound; [lia|].
    rewrite (Nat2Z.inj_succ (S k)), Z.pow_succ_r in Hlt by lia. lia.
Qed.

Lemma FormatUint_length n : is_uint64 n → (String.length (FormatUint n) ≤ 20)%nat.
Proof.
  intros H. unfold FormatUint.
  pose proof (dec_go_length (S (Z.to_nat (Z.log2 n))) 19 n EmptyString) as Hl. simpl in Hl.
  int_bounds. apply Hl; lia.
Qed.

Lemma printable_app s t : printable (s +:+ t) = printable s && printable t.
Proof.
  induction s as [|a s IH]; simpl; [done|]. rewrite IH. by rewrite andb_assoc.
Qed.

Lemma user_coins_printable u : 0 ≤ u → printable (user_coins u) = true.
Proof. intros H. unfold user_coins. rewrite printable_app, FormatUint_printable by done. done. Qed.

Lemma string_app_inv_l s t1 t2 : s +:+ t1 = s +:+ t2 → t1 = t2.
Proof. induction s as [|a s IH]; simpl; [done|]. intros [=]. auto. Qed.

Lemma user_coins_inj u1 u2 :
  is_uint64 u1 → is_uint64 u2 → user_coins u1 = user_coins u2 → u1 = u2.
Proof. intros H1 H2 H. apply FormatUint_inj; [done..|]. by eapply string_app_inv_l. Qed.

(** ** Statements on the wallet tables and the outbox *)

Definition bump_tx_id (c : Counters) : Counters :=
  {| next_tx_id := next_tx_id c + 1; next_gift_order_id := next_gift_order_id c;
     next_event_id := next_event_id c |}.

Definition bump_gift_order_id (c : Counters) : Counters :=
  {| next_tx_id := next_tx_id c; next_gift_order_id := next_gift_order_id c + 1;
     next_event_id := next_event_id c |}.

Definition bump_event_id (c : Counters) : Counters :=
  {| next_tx_id := next_tx_id c; next_gift_order_id := next_gift_order_id c;
     next_event_id := next_event_id c + 1 |}.

Ltac solve_counters :=
  unfold counters_le, bump_tx_id, bump_gift_order_id, bump_event_id in *; simpl in *; lia.

(** The continuation of a failed call, by the lemma that settles it. *)
Ltac fault_case lem :=
  intros;
  repeat match goal with H : _ ∨ _ |- _ => destruct H; subst end;
  try apply wp_ret; (eapply lem; [done|solve_counters]).

(** A reference to users(user_id) with no such row. *)
Definition user_missing (t : Tables) (user : Z) : bool :=
  match users t !! user with Some _ => false | None => true end.

Definition new_wallet (user : Z) : WalletAccount :=
  {| wa_UserID := user; wa_Currency := WalletAccountsCurrencyCOIN; wa_AvailableBalance := 0 |}.

(** *** Writes *)

Definition create_wallet (user : Z) : write :=
  set_wallet_accounts (λ m,
    match m !! user with Some _ => m | None => <[user := new_wallet user]> m end).

Definition set_balance (b : Z) (a : WalletAccount) : WalletAccount :=
  {| wa_UserID := wa_UserID a; wa_Currency := wa_Currency a; wa_AvailableBalance := b |}.

Definition write_balance (balance user : Z) : write :=
  set_wallet_accounts (alter (set_balance balance) user).

Definition add_wallet_tx (r : WalletTransaction) : write :=
  set_wallet_transactions (λ l, l ++ [r]).

Definition add_outbox `{MySQL} (topic key payload : string) (ts event_id : Z) : write :=
  set_outbox_events (λ l, l ++
    [{| ob_EventID := event_id; ob_Topic := topic; ob_EventKey := key;
        ob_PayloadJson := default payload (json_store payload);
        ob_PublishedAt := None; ob_CreatedAt := ts |}]).

(** *** Statements *)

Section statements.
Context `{MySQL}.

(** INSERT INTO wallet_accounts ... ON DUPLICATE KEY UPDATE user_id = VALUES(user_id) *)
Definition ensure_wallet_account (user : Z) : stmt unit :=
  modify [KWallet user]
    (λ t, match wallet_accounts t !! user with
          | Some _ => None
          | None => first_violation [(user_missing t user, ER_NO_REFERENCED_ROW)]
          end)
    (λ _, tt)
    (create_wallet user).

(** SELECT available_balance FROM wallet_accounts WHERE user_id = ? AND currency = 'COIN'
    FOR UPDATE *)
Definition select_balance_for_update (user : Z) : stmt Z :=
  query_for_update (KWallet user) (λ t,
    match wallet_accounts t !! user with
    | Some a => ROk (wa_AvailableBalance a)
    | None => RErr ErrNoRows
    end).

Definition same_wallet_tx (ty : WalletTransactionsTxType) (actor : Z) (request : string)
    (r : WalletTransaction) : bool :=
  (wt_ActorUserID r =? actor) && bool_decide (wt_TxType r = ty)
  && coll_eq (wt_RequestID r) request.

Definition wallet_tx_violation (ty : WalletTransactionsTxType) (actor : Z) (request : string)
    (hash : list Z) (t : Tables) : option Z :=
  first_violation
    [(negb (varchar_fits 64 request), ER_DATA_TOO_LONG);
     (32 <? Z.of_nat (length hash), ER_DATA_TOO_LONG);
     (user_missing t actor, ER_NO_REFERENCED_ROW);
     (existsb (same_wallet_tx ty actor request) (wallet_transactions t), ER_DUP_ENTRY)].

(** INSERT INTO wallet_transactions (tx_type, actor_user_id, request_id, body_hash, created_at) *)
Definition insert_wallet_transaction (ty : WalletTransactionsTxType) (actor : Z)
    (request : string) (hash : list Z) (ts : Z) : stmt Z :=
  insert_auto [KWalletTx actor ty (coll_key request)]
    (wallet_tx_violation ty actor request hash)
    next_tx_id bump_tx_id
    (λ tx_id, add_wallet_tx
       {| wt_TxID := tx_id; wt_TxType := ty; wt_ActorUserID := actor; wt_RequestID := request;
          wt_BodyHash := Some hash; wt_CreatedAt := ts |}).

Definition tx_missing (t : Tables) (tx_id : Z) : bool :=
  negb (existsb (λ r, wt_TxID r =? tx_id) (wallet_transactions t)).

(** INSERT INTO wallet_entries (tx_id, account_code, amount) VALUES (?, ?, ?) *)
Definition insert_wallet_entry (tx_id : Z) (account : string) (amount : Z) : stmt unit :=
  modify [KWalletEntry tx_id (coll_key account)]
    (λ t, first_violation
       [(negb (varchar_fits 64 account), ER_DATA_TOO_LONG);
        (tx_missing t tx_id, ER_NO_REFERENCED_ROW);
        (existsb (λ e, (we_TxID e =? tx_id) && coll_eq (we_AccountCode e) account)
           (wallet_entries t), ER_DUP_ENTRY)])
    (λ _, tt)
    (set_wallet_entries (λ l, l ++
       [{| we_TxID := tx_id; we_AccountCode := account; we_Amount := amount |}])).

(** UPDATE wallet_accounts SET available_balance = ? WHERE user_id = ? AND currency = 'COIN' *)
Definition update_wallet_balance (balance user : Z) : stmt unit :=
  modify [KWallet user] (λ _, None) (λ _, tt) (write_balance balance user).

(** INSERT INTO outbox_events (topic, event_key, payload_json, created_at) VALUES (?, ?, ?, ?) *)
Definition insert_outbox_event (topic key payload : string) (ts : Z) : stmt Z :=
  insert_auto []
    (λ _, first_violation
       [(negb (varchar_fits 128 topic), ER_DATA_TOO_LONG);
        (negb (varchar_fits 128 key), ER_DATA_TOO_LONG);
        (match json_store payload with Some _ => false | None => true end, ER_INVALID_JSON)])
    next_event_id bump_event_id
    (add_outbox topic key payload ts).

(** The loop that inserts the postings of a transaction. *)
Definition insert_entries (tx_id : Z) (entries : list LedgerEntry) : prog SqlE (option go_err) :=
  for_each entries (λ e,
    (let! r := tx_exec (insert_wallet_entry tx_id (AccountCode e) (Amount e)) in
     match r with RErr x => Ret (Some x) | ROk _ => Ret None end)%prog).
End statements.

(** The rows the loop adds. *)
Definition entry_row (tx_id : Z) (e : LedgerEntry) : WalletEntry :=
  {| we_TxID := tx_id; we_AccountCode := AccountCode e; we_Amount := Amount e |}.

Definition add_entries (tx_id : Z) (entries : list LedgerEntry) : write :=
  set_wallet_entries (λ l, l ++ map (entry_row tx_id) entries).

Lemma add_entries_nil tx_id t : add_entries tx_id [] t = t.
Proof. destruct t. unfold add_entries, set_wallet_entries. simpl. by rewrite app_nil_r. Qed.

Lemma add_entries_cons tx_id e es t :
  add_entries tx_id (e :: es) t = add_entries tx_id es (add_entries tx_id [e] t).
Proof. unfold add_entries, set_wallet_entries. simpl. by rewrite <- app_assoc. Qed.

Lemma wp_insert_entries `{MySQL} {F} tx_id entries
    (Q : option go_err → Tables → Counters → option Tables → Prop) t c v :
  tx_missing v tx_id = false →
  (∀ e, In e entries → varchar_fits 64 (AccountCode e) = true) →
  unique_key (λ e, coll_key (AccountCode e)) entries →
  (∀ e x, In e entries → In x (wallet_entries v) → we_TxID x = tx_id →
     coll_key (we_AccountCode x) ≠ coll_key (AccountCode e)) →
  (F = true → ∀ v', Q (Some ErrConn) t c (Some v')) →
  Q None t c (Some (add_entries tx_id entries v)) →
  wp F (insert_entries tx_id entries) Q t c (Some v).
Proof.
  unfold insert_entries. intros Htx Hfits Hnd Hfresh Hf Hok. revert v Htx Hfresh Hok.
  induction entries as [|e es IH]; intros v Htx Hfresh Hok; simpl.
  { apply wp_ret. by rewrite add_entries_nil in Hok. }
  apply wp_bind, wp_bind, wp_modify.
  - intros HF v'. by apply wp_ret, wp_ret, Hf.
  - intros n Hn. exfalso. simpl in Hn.
    rewrite (Hfits e), Htx in Hn by (by left). simpl in Hn.
    destruct (existsb _ _) eqn:E; [|done].
    apply existsb_exists in E as (x & Hx & E). bool_to_prop. apply coll_eq_spec in H1.
    apply (Hfresh e x); auto. by left.
  - intros _. apply wp_ret. rewrite add_entries_cons in Hok.
    inversion Hnd as [|? ? Hnin Hnd']; subst. apply IH; auto.
    + intros e' He'. apply Hfits. by right.
    + intros e' x He' Hx Hid. simpl in Hx. apply in_app_or in Hx as [Hx|[<-|[]]].
      * apply (Hfresh e' x); auto. by right.
      * simpl. intros Heq. apply Hnin. rewrite Heq. by apply (in_map (λ e, coll_key (AccountCode e))).
Qed.

(** ** The same statements, when the schema's guarantees hold *)

Lemma create_wallet_lookup user t a :
  wallet_accounts t !! user = Some a → create_wallet user t = t.
Proof. intros Ha. destruct t. unfold create_wallet, set_wallet_accounts. simpl in *. by rewrite Ha. Qed.

Lemma wallet_tx_violation_eq `{MySQL} ty actor request hash u t :
  length hash = 32%nat → user_missing t actor = false →
  wallet_tx_violation ty actor request hash (create_wallet u t)
  = if negb (varchar_fits 64 request) then Some ER_DATA_TOO_LONG
    else if existsb (same_wallet_tx ty actor request) (wallet_transactions t)
         then Some ER_DUP_ENTRY else None.
Proof.
  intros Hl Hu. unfold wallet_tx_violation. simpl. rewrite Hl. simpl.
  change (user_missing (create_wallet u t) actor) with (user_missing t actor). rewrite Hu.
  by repeat case_match.
Qed.

(** A transaction row just added is there to be referenced. *)
Lemma tx_missing_added l r t tx_id :
  wallet_transactions t = l ++ [r] → wt_TxID r = tx_id → tx_missing t tx_id = false.
Proof.
  intros Ht <-. unfold tx_missing. rewrite Ht, existsb_app. simpl.
  by rewrite Z.eqb_refl, orb_true_r.
Qed.

(** The balance a wallet has once its row exists. *)
Definition balance_of (t : Tables) (user : Z) : Z :=
  match wallet_accounts t !! user with Some a => wa_AvailableBalance a | None => 0 end.

Lemma create_wallet_balance user t :
  ∃ a, wallet_accounts (create_wallet user t) !! user = Some a
       ∧ wa_AvailableBalance a = balance_of t user.
Proof.
  unfold create_wallet, balance_of. simpl. destruct (wallet_accounts t !! user) as [a|] eqn:E.
  - exists a. by rewrite E.
  - eexists. by rewrite lookup_insert_eq.
Qed.

Lemma topic_fits `{MySQLLaws} s :
  printable s = true → (String.length s ≤ 128)%nat → varchar_fits 128 s = true.
Proof. intros Hp Hl. apply varchar_ascii; [done|lia]. Qed.

(** An outbox insert with a generated key and payload fails only when the counter is exhausted. *)
Lemma outbox_accepts `{MySQLLaws} {A} `{FlatPayload A} (topic : string) (key : Z) (v : A) :
  printable topic = true → (String.length topic ≤ 128)%nat → is_uint64 key →
  first_violation
    [(negb (varchar_fits 128 topic), ER_DATA_TOO_LONG);
     (negb (varchar_fits 128 (FormatUint key)), ER_DATA_TOO_LONG);
     (match json_store (marshal (to_json v)) with Some _ => false | None => true end,
      ER_INVALID_JSON)] = None.
Proof.
  intros Hp Hl Hk. rewrite topic_fits by done. rewrite topic_fits; cycle 1.
  { apply FormatUint_printable. int_bounds. lia. }
  { etrans; [by apply FormatUint_length|lia]. }
  destruct (payload_stored v) as [doc ->]. done.
Qed.

Lemma account_fits `{MySQLLaws} u : is_uint64 u → varchar_fits 64 (user_coins u) = true.
Proof.
  intros Hu. apply varchar_ascii; [apply user_coins_printable; int_bounds; lia|].
  pose proof (FormatUint_length u Hu) as Hl. unfold user_coins.
  rewrite length_string_app. simpl. lia.
Qed.

(** The user account of a posting never collides with the system account of the other side. *)
Lemma user_coins_key_ne `{MySQLLaws} u s :
  is_uint64 u → printable s = true → (∀ d, ToLower s ≠ "user_coins:" +:+ d) →
  coll_key (user_coins u) ≠ coll_key s.
Proof.
  intros Hu Hs Hne Heq. apply coll_ascii in Heq; [|apply user_coins_printable; int_bounds; lia|done].
  apply (Hne (ToLower (FormatUint u))). rewrite <- Heq. done.
Qed.

#[global] Arguments user_coins : simpl never.
