(* ===== verification/WellFormed.v ===== *)
(** * What the schema guarantees of every committed database

    The column types, the UNIQUE and PRIMARY keys, the FOREIGN KEYs and the AUTO_INCREMENT columns
    of src/migrations/00001_init.sql, as one predicate on the tables and the counters. The
    operations rely on it and preserve it. *)

From S2P Require Import Prelude GoInt GoStrings Json Schema Prog Sql Wp Events Ledger.

Definition wallet_tx_key `{MySQL} (r : WalletTransaction) : Z * WalletTransactionsTxType * string :=
  (wt_ActorUserID r, wt_TxType r, coll_key (wt_RequestID r)).

Definition wallet_entry_key `{MySQL} (e : WalletEntry) : Z * string :=
  (we_TxID e, coll_key (we_AccountCode e)).

Definition recharge_key `{MySQL} (r : RechargeRequestRow) : Z * string :=
  (rq_ViewerID r, coll_key (rq_RequestID r)).

Definition gift_order_key `{MySQL} (o : GiftOrder) : Z * string :=
  (go_ViewerID o, coll_key (go_RequestID o)).

Record wf `{MySQL} (t : Tables) (c : Counters) : Prop := {
  (* AUTO_INCREMENT: fresh values are above every value in use *)
  wf_next_tx : 1 ≤ next_tx_id c;
  wf_next_order : 1 ≤ next_gift_order_id c;
  wf_next_event : 1 ≤ next_event_id c;
  wf_tx_id : ∀ r, In r (wallet_transactions t) → 1 ≤ wt_TxID r < next_tx_id c;
  wf_order_id : ∀ o, In o (gift_orders t) → 1 ≤ go_GiftOrderID o < next_gift_order_id c;
  wf_event_id : ∀ e, In e (outbox_events t) → 1 ≤ ob_EventID e < next_event_id c;
  (* PRIMARY and UNIQUE keys *)
  wf_tx_pk : unique_key wt_TxID (wallet_transactions t);
  wf_tx_uq : unique_key wallet_tx_key (wallet_transactions t);
  wf_entry_pk : unique_key wallet_entry_key (wallet_entries t);
  wf_recharge_pk : unique_key recharge_key (recharge_requests t);
  wf_order_pk : unique_key go_GiftOrderID (gift_orders t);
  wf_order_uq : unique_key gift_order_key (gift_orders t);
  wf_event_pk : unique_key ob_EventID (outbox_events t);
  (* FOREIGN KEYs *)
  wf_entry_fk : ∀ e, In e (wallet_entries t) → tx_missing t (we_TxID e) = false;
  wf_recharge_fk : ∀ r, In r (recharge_requests t) → tx_missing t (rq_TxID r) = false;
  wf_wallet_fk : ∀ u a, wallet_accounts t !! u = Some a → user_missing t u = false;
  (* column types *)
  wf_balance : ∀ u a, wallet_accounts t !! u = Some a → is_int64 (wa_AvailableBalance a);
  wf_catalog : ∀ g, In g (gift_catalog t) →
    is_uint32 (gc_CoinPrice g) ∧ is_uint32 (gc_MatchPoints g) ∧ is_uint32 (gc_DiamondReward g);
  wf_order_cols : ∀ o, In o (gift_orders t) →
    is_uint32 (go_ChargedCoins o) ∧ is_uint32 (go_MatchPointsAdded o) ∧ is_uint32 (go_DiamondReward o);
  wf_campaign : ∀ i s k, live_sessions t !! i = Some s → ls_CampaignID s = Some k → is_uint64 k
}.

Lemma tx_missing_false t tx_id :
  tx_missing t tx_id = false ↔ ∃ r, In r (wallet_transactions t) ∧ wt_TxID r = tx_id.
Proof.
  unfold tx_missing. rewrite negb_false_iff, existsb_exists.
  split; intros (r & Hr & E); exists r; [apply Z.eqb_eq in E|rewrite Z.eqb_eq]; auto.
Qed.

(** A transaction id taken from the counter has no entries yet. *)
Lemma wf_no_entries `{MySQL} t c e :
  wf t c → In e (wallet_entries t) → we_TxID e < next_tx_id c.
Proof.
  intros Hwf He. apply (wf_entry_fk t c Hwf), tx_missing_false in He as (r & Hr & <-).
  by apply (wf_tx_id t c Hwf).
Qed.

(** The accounts on the other side of a posting. *)
Definition system_account (s : string) : Prop :=
  s = SYSTEM_TOPUP_SOURCE ∨ s = PLATFORM_RESERVED_COINS.

(** The two postings of a transaction whose id comes from the counter go in. *)
Lemma wp_insert_posting `{MySQLLaws} {F} t0 c0 u s a b
    (Q : option go_err → Tables → Counters → option Tables → Prop) t c v :
  let entries := [{| AccountCode := user_coins u; Amount := a |}; {| AccountCode := s; Amount := b |}] in
  wf t0 c0 → is_uint64 u → system_account s → wallet_entries v = wallet_entries t0 →
  tx_missing v (next_tx_id c0) = false →
  (F = true → ∀ v', Q (Some ErrConn) t c (Some v')) →
  Q None t c (Some (add_entries (next_tx_id c0) entries v)) →
  wp F (insert_entries (next_tx_id c0) entries) Q t c (Some v).
Proof.
  intros entries Hwf Hu Hs Hv Htx Hf Hok. apply wp_insert_entries; [done|..|done|done].
  - intros e [<-|[<-|[]]]; simpl; [by apply account_fits|].
    destruct Hs as [->| ->]; (apply varchar_ascii; [done|simpl; lia]).
  - unfold unique_key. simpl. apply List.NoDup_cons.
    + intros [Heq|[]]. symmetry in Heq. revert Heq.
      apply user_coins_key_ne; [done|by destruct Hs as [->| ->]|].
      intros d. by destruct Hs as [->| ->].
    + apply List.NoDup_cons; [by intros []|apply List.NoDup_nil].
  - intros e x _ Hx Hid. rewrite Hv in Hx. apply (wf_no_entries _ _ _ Hwf) in Hx. lia.
Qed.
