(* ===== verification/Preserve.v ===== *)
(** * The schema's guarantees are preserved

    One lemma per write of the service: the statement keeps [wf]. *)

From S2P Require Import Prelude GoInt GoStrings Json Schema Prog Sql Wp Events Ledger WellFormed.

Section preserve.
Context `{MySQL}.
Implicit Types (t : Tables) (c : Counters).

Lemma wf_counters t c c' : wf t c → counters_le c c' → wf t c'.
Proof.
  intros [] (H1 & H2 & H3). split; try done; try lia.
  - intros r Hr. specialize (wf_tx_id r Hr). lia.
  - intros r Hr. specialize (wf_order_id r Hr). lia.
  - intros r Hr. specialize (wf_event_id r Hr). lia.
Qed.

Lemma wf_create_wallet u t c : wf t c → user_missing t u = false → wf (create_wallet u t) c.
Proof.
  intros [] Hu. split; try done; simpl.
  - intros v a Hv. destruct (wallet_accounts t !! u) eqn:E; [by eapply wf_wallet_fk|].
    destruct (decide (v = u)) as [->|Hne]; [done|].
    rewrite lookup_insert_ne in Hv by done. by eapply wf_wallet_fk.
  - intros v a Hv. destruct (wallet_accounts t !! u) eqn:E; [by eapply wf_balance|].
    destruct (decide (v = u)) as [->|Hne].
    + rewrite lookup_insert_eq in Hv. simplify_eq/=. int_bounds. lia.
    + rewrite lookup_insert_ne in Hv by done. by eapply wf_balance.
Qed.

Lemma wf_write_balance b u t c : wf t c → is_int64 b → wf (write_balance b u t) c.
Proof.
  intros [] Hb. split; try done; simpl; intros v a Hv;
    rewrite lookup_alter_Some in Hv; destruct Hv as [(<- & x & Hx & ->)|[_ Hv]]; eauto.
Qed.

(** A row whose key comes from the counter. *)
Lemma unique_key_fresh {A} (k : A → Z) l x n :
  (∀ y, In y l → 1 ≤ k y < n) → k x = n → unique_key k l → unique_key k (l ++ [x]).
Proof. intros Hl Hx Hu. apply unique_key_app; [done|]. intros y Hy. specialize (Hl y Hy). lia. Qed.

Lemma fresh_bound {A} (k : A → Z) l x n y :
  1 ≤ n → (∀ y, In y l → 1 ≤ k y < n) → k x = n → In y (l ++ [x]) → 1 ≤ k y < n + 1.
Proof.
  intros Hn Hl Hx Hy. apply in_app_or in Hy as [Hy|[<-|[]]]; [|lia]. specialize (Hl y Hy). lia.
Qed.

Lemma tx_missing_add r t id : tx_missing t id = false → tx_missing (add_wallet_tx r t) id = false.
Proof.
  unfold tx_missing. simpl. rewrite existsb_app. intros Hid. apply negb_false_iff in Hid.
  by rewrite Hid.
Qed.

Lemma wf_add_wallet_tx r t c :
  wf t c → wt_TxID r = next_tx_id c →
  existsb (same_wallet_tx (wt_TxType r) (wt_ActorUserID r) (wt_RequestID r)) (wallet_transactions t)
    = false →
  wf (add_wallet_tx r t) (bump_tx_id c).
Proof.
  intros [] Hid Hnew. split; try done; simpl; try lia.
  - intros y. by apply fresh_bound.
  - by eapply unique_key_fresh.
  - apply unique_key_app; [done|]. intros y Hy Heq. injection Heq as Ha Ht Hr.
    rewrite existsb_false in Hnew. specialize (Hnew y Hy). unfold same_wallet_tx in Hnew.
    rewrite Ha, Ht, Z.eqb_refl, bool_decide_true in Hnew by done. simpl in Hnew.
    by apply not_true_iff_false in Hnew; rewrite coll_eq_spec in Hnew.
  - intros e He. by apply tx_missing_add, wf_entry_fk.
  - intros q Hq. by apply tx_missing_add, wf_recharge_fk.
Qed.

Lemma wf_add_entries tx_id es t c :
  wf t c → tx_missing t tx_id = false →
  unique_key (λ e, coll_key (AccountCode e)) es →
  (∀ e, In e (wallet_entries t) → we_TxID e ≠ tx_id) →
  wf (add_entries tx_id es t) c.
Proof.
  intros [] Htx Hes Hfresh. split; try done; simpl.
  - unfold unique_key. rewrite map_app. apply List.NoDup_app; [done|..].
    + rewrite map_map. clear -Hes. unfold unique_key in Hes.
      induction es as [|e es IH]; simpl in *; [constructor|].
      inversion Hes as [|? ? Hnin Hnd]; subst. constructor; [|by apply IH].
      intros Hin. apply Hnin. apply in_map_iff in Hin as (x & Hx & Hin).
      injection Hx as Hx. rewrite <- Hx. by apply (in_map (λ e, coll_key (AccountCode e))).
    + intros k Hk Hk'. apply in_map_iff in Hk as (e & <- & He).
      rewrite map_map in Hk'. apply in_map_iff in Hk' as (x & Hx & _).
      injection Hx as Hx _. by apply (Hfresh e He).
  - intros e He. apply in_app_or in He as [He|He]; [by apply wf_entry_fk|].
    apply in_map_iff in He as (x & <- & _). done.
Qed.

Lemma wf_add_recharge q t c :
  wf t c → tx_missing t (rq_TxID q) = false →
  (∀ y, In y (recharge_requests t) → recharge_key y ≠ recharge_key q) →
  wf (set_recharge_requests (λ l, l ++ [q]) t) c.
Proof.
  intros [] Htx Hnew. split; try done; simpl.
  - by apply unique_key_app.
  - intros y Hy. apply in_app_or in Hy as [Hy|[<-|[]]]; [by apply wf_recharge_fk|done].
Qed.

Lemma wf_add_order o t c :
  wf t c → go_GiftOrderID o = next_gift_order_id c →
  (∀ y, In y (gift_orders t) → gift_order_key y ≠ gift_order_key o) →
  is_uint32 (go_ChargedCoins o) ∧ is_uint32 (go_MatchPointsAdded o) ∧ is_uint32 (go_DiamondReward o) →
  wf (set_gift_orders (λ l, l ++ [o]) t) (bump_gift_order_id c).
Proof.
  intros [] Hid Hnew Hcols. split; try done; simpl; try lia.
  - intros y. by apply fresh_bound.
  - by eapply unique_key_fresh.
  - by apply unique_key_app.
  - intros y Hy. apply in_app_or in Hy as [Hy|[<-|[]]]; [by apply wf_order_cols|done].
Qed.

Lemma wf_add_outbox topic key payload ts t c :
  wf t c → wf (add_outbox topic key payload ts (next_event_id c) t) (bump_event_id c).
Proof.
  intros []. split; try done; simpl; try lia.
  - intros y. by apply fresh_bound.
  - by eapply unique_key_fresh.
Qed.
End preserve.
