(* ===== verification/Money.v ===== *)
(** * One posting

    The part that [Recharge] and [SendGift] share: a wallet row, a transaction, its two postings
    and the new balance. [money] is that part as one write; the lemmas say what it does to the
    postings of each transaction, the total of each user account and each balance. *)

From S2P Require Import Prelude GoInt GoStrings Json Schema Prog Sql Wp Events Ledger WellFormed Preserve.

(** The account on the other side of a user's posting. *)
Definition counter_account (ty : WalletTransactionsTxType) : string :=
  match ty with
  | WalletTransactionsTxTypeRECHARGE => SYSTEM_TOPUP_SOURCE
  | WalletTransactionsTxTypeGIFTDEBIT => PLATFORM_RESERVED_COINS
  end.

Definition posting_entries (r : WalletTransaction) (a : Z) : list LedgerEntry :=
  [{| AccountCode := user_coins (wt_ActorUserID r); Amount := a |};
   {| AccountCode := counter_account (wt_TxType r); Amount := - a |}].

Definition money (r : WalletTransaction) (a balance : Z) : write := λ t,
  write_balance balance (wt_ActorUserID r)
    (add_entries (wt_TxID r) (posting_entries r a)
       (add_wallet_tx r (create_wallet (wt_ActorUserID r) t))).

(** The entries of a transaction, in the order they were inserted. *)
Definition postings (t : Tables) (tx_id : Z) : list WalletEntry :=
  where_ (λ e, we_TxID e =? tx_id) (wallet_entries t).

(** The sum of the entries of a user's account. *)
Definition user_total (t : Tables) (user : Z) : Z :=
  sum_of we_Amount (where_ (λ e, String.eqb (we_AccountCode e) (user_coins user)) (wallet_entries t)).

Lemma counter_not_user ty u : counter_account ty ≠ user_coins u.
Proof. by destruct ty. Qed.

Section money.
Context (r : WalletTransaction) (a balance : Z) (t : Tables).

Lemma money_postings_old id :
  id ≠ wt_TxID r → postings (money r a balance t) id = postings t id.
Proof.
  intros Hid. unfold postings. simpl. rewrite where_app. simpl.
  rewrite !(proj2 (Z.eqb_neq _ _)) by done. by rewrite app_nil_r.
Qed.

Lemma money_postings_new :
  (∀ e, In e (wallet_entries t) → we_TxID e ≠ wt_TxID r) →
  postings (money r a balance t) (wt_TxID r) = map (entry_row (wt_TxID r)) (posting_entries r a).
Proof.
  intros Hfresh. unfold postings. simpl. rewrite where_app, where_none.
  - simpl. by rewrite Z.eqb_refl.
  - intros e He. apply Z.eqb_neq. auto.
Qed.

Lemma money_total u :
  is_uint64 u → is_uint64 (wt_ActorUserID r) →
  user_total (money r a balance t) u
  = user_total t u + (if u =? wt_ActorUserID r then a else 0).
Proof.
  intros Hu Hr. unfold user_total. simpl. rewrite where_app, sum_of_app. f_equal. simpl.
  rewrite (proj2 (String.eqb_neq (counter_account _) _)) by apply counter_not_user.
  destruct (u =? wt_ActorUserID r) eqn:E; bool_to_prop.
  - subst u. rewrite String.eqb_refl. simpl. lia.
  - rewrite (proj2 (String.eqb_neq _ _)); [done|]. intros Heq.
    apply E. symmetry. by apply FormatUint_inj.
Qed.

Lemma money_balance u :
  balance_of (money r a balance t) u
  = if u =? wt_ActorUserID r then balance else balance_of t u.
Proof.
  unfold balance_of, money. simpl. destruct (u =? wt_ActorUserID r) eqn:E; bool_to_prop.
  - subst u. rewrite lookup_alter_eq.
    destruct (create_wallet_balance (wt_ActorUserID r) t) as (x & Hx & _). simpl in Hx.
    by rewrite Hx.
  - rewrite lookup_alter_ne by done. destruct (wallet_accounts t !! wt_ActorUserID r); [done|].
    by rewrite lookup_insert_ne.
Qed.
End money.

(** The schema's guarantees across one posting. *)
Lemma wf_money `{MySQLLaws} r a balance t c :
  wf t c → wt_TxID r = next_tx_id c → is_uint64 (wt_ActorUserID r) → is_int64 balance →
  user_missing t (wt_ActorUserID r) = false →
  existsb (same_wallet_tx (wt_TxType r) (wt_ActorUserID r) (wt_RequestID r)) (wallet_transactions t)
    = false →
  wf (money r a balance t) (bump_tx_id c).
Proof.
  intros Hwf Hid Hu Hb Hex Hnew. apply wf_write_balance; [|done]. apply wf_add_entries.
  - apply wf_add_wallet_tx; [|done..]. by apply wf_create_wallet.
  - by eapply tx_missing_added.
  - unfold unique_key. simpl. apply List.NoDup_cons.
    + intros [Heq|[]]. symmetry in Heq. revert Heq.
      apply user_coins_key_ne; [done|by destruct (wt_TxType r)|].
      intros d. by destruct (wt_TxType r).
    + apply List.NoDup_cons; [by intros []|apply List.NoDup_nil].
  - intros e He. apply (wf_no_entries _ _ _ Hwf) in He. lia.
Qed.
