(* ===== verification/Recharge.v ===== *)
(** * Recharging a wallet

    [Recharge] of src/internal/service/service.go: the program, statement by statement, and the
    atomic operation on the database it refines. *)

From S2P Require Import Prelude GoInt GoStrings Sha256 Json Schema Prog Sql Wp Events Ledger WellFormed.

Record RechargeRequest := {
  rc_RequestID : string; rc_ViewerID : Z; rc_Coins : Z; rc_PaymentRef : string }.

Record RechargeResponse := {
  rs_TxID : Z; rs_ViewerID : Z; rs_CoinsAdded : Z; rs_NewBalance : Z; rs_Idempotency : string }.

(** The ranges of the Go types of the fields. *)
Definition recharge_typed (req : RechargeRequest) : Prop :=
  is_uint64 (rc_ViewerID req) ∧ is_uint32 (rc_Coins req).

#[export] Instance RechargeRequest_json : ToJson RechargeRequest := λ r,
  JObj [("request_id", JStr (rc_RequestID r)); ("viewer_id", JNum (rc_ViewerID r));
        ("coins", JNum (rc_Coins r)); ("payment_ref", JStr (rc_PaymentRef r))].

Definition txTypeRecharge : WalletTransactionsTxType := WalletTransactionsTxTypeRECHARGE.
Definition walletTopic : string := "wallet.transaction.posted.v1".

Definition errCoinsRange : AppError :=
  {| HTTPStatus := 400; Code := "VALIDATION_ERROR"; Message := "coins must be in [1,100000]" |}.

Section recharge.
Context `{MySQL}.

Definition same_recharge (viewer : Z) (request : string) (r : RechargeRequestRow) : bool :=
  (rq_ViewerID r =? viewer) && coll_eq (rq_RequestID r) request.

(** SELECT body_hash, coins, resulting_balance, tx_id FROM recharge_requests
    WHERE viewer_id = ? AND request_id = ? *)
Definition select_recharge (viewer : Z) (request : string) : stmt RechargeRequestRow :=
  query (λ t,
    match List.find (same_recharge viewer request) (recharge_requests t) with
    | Some r => ROk r
    | None => RErr ErrNoRows
    end).

Definition recharge_violation (r : RechargeRequestRow) (t : Tables) : option Z :=
  first_violation
    [(negb (varchar_fits 64 (rq_RequestID r)), ER_DATA_TOO_LONG);
     (32 <? Z.of_nat (length (rq_BodyHash r)), ER_DATA_TOO_LONG);
     (negb (varchar_fits 128 (rq_PaymentRef r)), ER_DATA_TOO_LONG);
     (tx_missing t (rq_TxID r), ER_NO_REFERENCED_ROW);
     (user_missing t (rq_ViewerID r), ER_NO_REFERENCED_ROW);
     (existsb (same_recharge (rq_ViewerID r) (rq_RequestID r)) (recharge_requests t),
      ER_DUP_ENTRY)].

(** INSERT INTO recharge_requests (...) VALUES (?, ?, ?, ?, ?, ?, ?, ?) *)
Definition insert_recharge_request (r : RechargeRequestRow) : stmt unit :=
  modify [KRecharge (rq_ViewerID r) (coll_key (rq_RequestID r))]
    (recharge_violation r)
    (λ _, tt)
    (set_recharge_requests (λ l, l ++ [r])).

(** The part of [Recharge] that writes, once the wallet row is locked. *)
Definition recharge_write (req : RechargeRequest) (bodyHash : list Z) (currentBalance : Z)
    : prog SqlE (outcome RechargeResponse) :=
  (let! ts1 := now in
   try! txID64 := tx_exec (insert_wallet_transaction txTypeRecharge (rc_ViewerID req)
                             (rc_RequestID req) bodyHash ts1) or Err in
   if txID64 <? 1 then
     Ret (Err (ErrText ("invalid tx id generated: " +:+ FormatInt txID64)))
   else
   let txID := uint64 txID64 in
   let entries := BuildRechargeEntries (rc_ViewerID req) (rc_Coins req) in
   if negb (SumLedgerEntries entries =? 0) then
     Ret (Err (ErrText "ledger imbalance: recharge entries do not sum to zero"))
   else
   let! inserted := insert_entries txID entries in
   match inserted with
   | Some e => Ret (Err e)
   | None =>
       let newBalance := int64 (currentBalance + rc_Coins req) in
       try! _ := tx_exec (update_wallet_balance newBalance (rc_ViewerID req)) or Err in
       let! ts2 := now in
       try! _ := tx_exec (insert_recharge_request
         {| rq_ViewerID := rc_ViewerID req; rq_RequestID := rc_RequestID req;
            rq_BodyHash := bodyHash; rq_Coins := rc_Coins req;
            rq_PaymentRef := rc_PaymentRef req; rq_ResultingBalance := newBalance;
            rq_TxID := txID; rq_CreatedAt := ts2 |}) or Err in
       try! payload := Ret (MarshalJSONString
         {| ev_TxID := txID; ev_TxType := enum_text txTypeRecharge;
            ev_ActorUserID := rc_ViewerID req; ev_RequestID := rc_RequestID req;
            ev_DeltaCoins := rc_Coins req; ev_BalanceAfter := newBalance |}) or Err in
       let! ts3 := now in
       try! _ := tx_exec (insert_outbox_event walletTopic
                            (FormatUint (rc_ViewerID req)) payload ts3) or Err in
       try! _ := commit or Err in
       Ret (Ok {| rs_TxID := txID; rs_ViewerID := rc_ViewerID req;
                  rs_CoinsAdded := rc_Coins req; rs_NewBalance := newBalance;
                  rs_Idempotency := "created" |})
   end)%prog.

(** The part of [Recharge] inside the transaction. *)
Definition recharge_tx (req : RechargeRequest) (bodyHash : list Z)
    : prog SqlE (outcome RechargeResponse) :=
  (with_tx Err (
     let! existing := tx_exec (select_recharge (rc_ViewerID req) (rc_RequestID req)) in
     match existing with
     | ROk r =>
         if negb (bytesEqual (rq_BodyHash r) bodyHash) then Ret (App errPayloadMismatch)
         else
           try! _ := commit or Err in
           Ret (Ok {| rs_TxID := rq_TxID r; rs_ViewerID := rc_ViewerID req;
                      rs_CoinsAdded := rq_Coins r; rs_NewBalance := rq_ResultingBalance r;
                      rs_Idempotency := "replayed" |})
     | RErr ErrNoRows =>
         try! _ := tx_exec (ensure_wallet_account (rc_ViewerID req)) or Err in
         try! currentBalance := tx_exec (select_balance_for_update (rc_ViewerID req)) or Err in
         recharge_write req bodyHash currentBalance
     | RErr e => Ret (Err e)
     end))%prog.

Definition Recharge (req : RechargeRequest) : prog SqlE (outcome RechargeResponse) :=
  (if String.eqb (TrimSpace (rc_RequestID req)) "" || (rc_ViewerID req =? 0)
      || String.eqb (TrimSpace (rc_PaymentRef req)) "" then Ret (App errValidation)
   else if (rc_Coins req <? 1) || (100000 <? rc_Coins req) then Ret (App errCoinsRange)
   else
     try! (_, bodyHash) := Ret (BodyHashHex req) or Err in
     recharge_tx req bodyHash)%prog.
End recharge.

(** ** The atomic operation *)

Section atomic_recharge.
Context `{MySQL}.

Definition recharge_invalid (req : RechargeRequest) : option AppError :=
  if String.eqb (TrimSpace (rc_RequestID req)) "" || (rc_ViewerID req =? 0)
     || String.eqb (TrimSpace (rc_PaymentRef req)) "" then Some errValidation
  else if (rc_Coins req <? 1) || (100000 <? rc_Coins req) then Some errCoinsRange
  else None.

Definition recharge_hash (req : RechargeRequest) : list Z :=
  Sum256 (bytes_of (marshal (to_json req))).

(** Why a valid, new recharge is refused by the database. *)
Definition recharge_error (t : Tables) (c : Counters) (req : RechargeRequest) : option go_err :=
  if user_missing t (rc_ViewerID req) then Some (MySQLError ER_NO_REFERENCED_ROW)
  else if max_uint64 <? next_tx_id c then Some (MySQLError ER_AUTOINC_READ_FAILED)
  else if negb (varchar_fits 64 (rc_RequestID req)) then Some (MySQLError ER_DATA_TOO_LONG)
  else if existsb (same_wallet_tx txTypeRecharge (rc_ViewerID req) (rc_RequestID req))
            (wallet_transactions t) then Some (MySQLError ER_DUP_ENTRY)
  else if max_int64 <? next_tx_id c then
    Some (ErrText ("invalid tx id generated: " +:+ FormatInt (int64 (next_tx_id c))))
  else if negb (varchar_fits 128 (rc_PaymentRef req)) then Some (MySQLError ER_DATA_TOO_LONG)
  else if max_uint64 <? next_event_id c then Some (MySQLError ER_AUTOINC_READ_FAILED)
  else None.

(** The committed effect of a new recharge: wallet row, transaction, two postings, new balance,
    idempotency row and outbox event. *)
Definition recharge_commit (t : Tables) (c : Counters) (req : RechargeRequest)
    (ts1 ts2 ts3 : Z) : Tables :=
  let viewer := rc_ViewerID req in
  let tx_id := next_tx_id c in
  let balance := int64 (balance_of t viewer + rc_Coins req) in
  let t1 := create_wallet viewer t in
  let t2 := add_wallet_tx
    {| wt_TxID := tx_id; wt_TxType := txTypeRecharge; wt_ActorUserID := viewer;
       wt_RequestID := rc_RequestID req; wt_BodyHash := Some (recharge_hash req);
       wt_CreatedAt := ts1 |} t1 in
  let t3 := add_entries tx_id (BuildRechargeEntries viewer (rc_Coins req)) t2 in
  let t4 := write_balance balance viewer t3 in
  let t5 := set_recharge_requests (λ l, l ++
    [{| rq_ViewerID := viewer; rq_RequestID := rc_RequestID req;
        rq_BodyHash := recharge_hash req; rq_Coins := rc_Coins req;
        rq_PaymentRef := rc_PaymentRef req; rq_ResultingBalance := balance;
        rq_TxID := tx_id; rq_CreatedAt := ts2 |}]) t4 in
  add_outbox walletTopic (FormatUint viewer)
    (marshal (to_json
      {| ev_TxID := tx_id; ev_TxType := enum_text txTypeRecharge; ev_ActorUserID := viewer;
         ev_RequestID := rc_RequestID req; ev_DeltaCoins := rc_Coins req;
         ev_BalanceAfter := balance |})) ts3 (next_event_id c) t5.

Definition recharge_replay (req : RechargeRequest) (r : RechargeRequestRow) : RechargeResponse :=
  {| rs_TxID := rq_TxID r; rs_ViewerID := rc_ViewerID req; rs_CoinsAdded := rq_Coins r;
     rs_NewBalance := rq_ResultingBalance r; rs_Idempotency := "replayed" |}.

Definition recharge_created (t : Tables) (c : Counters) (req : RechargeRequest) : RechargeResponse :=
  {| rs_TxID := next_tx_id c; rs_ViewerID := rc_ViewerID req; rs_CoinsAdded := rc_Coins req;
     rs_NewBalance := int64 (balance_of t (rc_ViewerID req) + rc_Coins req);
     rs_Idempotency := "created" |}.

Definition recharge_atomic (t : Tables) (c : Counters) (req : RechargeRequest) (ts1 ts2 ts3 : Z)
    : atomic (outcome RechargeResponse) :=
  match recharge_invalid req with
  | Some e => (App e, t, c)
  | None =>
      match List.find (same_recharge (rc_ViewerID req) (rc_RequestID req)) (recharge_requests t) with
      | Some r =>
          if bytesEqual (rq_BodyHash r) (recharge_hash req) then (Ok (recharge_replay req r), t, c)
          else (App errPayloadMismatch, t, c)
      | None =>
          match recharge_error t c req with
          | Some e => (Err e, t, c)
          | None =>
              (Ok (recharge_created t c req), recharge_commit t c req ts1 ts2 ts3,
               bump_event_id (bump_tx_id c))
          end
      end
  end.
End atomic_recharge.

(** ** The program refines the atomic operation *)

Section refinement.
Context `{MySQLLaws}.

(** What a run of [Recharge] may end with: no open transaction, and the atomic operation settled
    at some clock readings. *)
Definition recharge_post (F : bool) (req : RechargeRequest) (t : Tables) (c : Counters)
    (out : outcome RechargeResponse) (t' : Tables) (c' : Counters) (v : option Tables) : Prop :=
  v = None ∧ ∃ ts1 ts2 ts3,
    settles F (Err ErrConn) t c (recharge_atomic t c req ts1 ts2 ts3) out t' c'.

Lemma recharge_post_failed F req t c c' :
  F = true → counters_le c c' → recharge_post F req t c (Err ErrConn) t c' None.
Proof. intros -> Hc. split; [done|]. exists 0, 0, 0. by apply settles_failed. Qed.

Lemma recharge_post_same F req t c out c' :
  (∀ ts1 ts2 ts3, recharge_atomic t c req ts1 ts2 ts3 = (out, t, c)) → counters_le c c' →
  recharge_post F req t c out t c' None.
Proof.
  intros Ha Hc. split; [done|]. exists 0, 0, 0. left. by rewrite Ha.
Qed.

Ltac failed := fault_case recharge_post_failed.

Lemma Recharge_unfold req :
  Recharge req = match recharge_invalid req with
                 | Some e => Ret (App e)
                 | None => recharge_tx req (recharge_hash req)
                 end.
Proof.
  unfold Recharge, recharge_invalid. destruct (_ || String.eqb (TrimSpace (rc_PaymentRef req)) ""); [done|].
  by destruct (_ || (100000 <? rc_Coins req)).
Qed.

(** A new recharge whose precondition on the database fails. *)
Lemma recharge_post_error F req t c e c' :
  recharge_invalid req = None →
  List.find (same_recharge (rc_ViewerID req) (rc_RequestID req)) (recharge_requests t) = None →
  recharge_error t c req = Some e → counters_le c c' →
  recharge_post F req t c (Err e) t c' None.
Proof.
  intros Hval Hnew He. apply recharge_post_same. intros. unfold recharge_atomic.
  by rewrite Hval, Hnew, He.
Qed.

Lemma recharge_violation_eq r v :
  varchar_fits 64 (rq_RequestID r) = true → length (rq_BodyHash r) = 32%nat →
  tx_missing v (rq_TxID r) = false → user_missing v (rq_ViewerID r) = false →
  List.find (same_recharge (rq_ViewerID r) (rq_RequestID r)) (recharge_requests v) = None →
  recharge_violation r v
  = if varchar_fits 128 (rq_PaymentRef r) then None else Some ER_DATA_TOO_LONG.
Proof.
  intros H64 H32 Htx Hu Hnew. unfold recharge_violation.
  rewrite H64, H32, Htx, Hu, existsb_find, Hnew. simpl. by destruct (varchar_fits 128 _).
Qed.

(** The write part, from tables where the wallet row exists and is locked. *)
Lemma recharge_write_refines F t c req :
  wf t c → recharge_typed req → recharge_invalid req = None →
  List.find (same_recharge (rc_ViewerID req) (rc_RequestID req)) (recharge_requests t) = None →
  user_missing t (rc_ViewerID req) = false →
  wp F (recharge_write req (recharge_hash req) (balance_of t (rc_ViewerID req)))
    (λ a t' c' _, recharge_post F req t c a t' c' None) t c
    (Some (create_wallet (rc_ViewerID req) t)).
Proof.
  intros Hwf [Hv Hcoins] Hval Hnew Hu. unfold recharge_write.
  assert (Herr := λ e c', recharge_post_error F req t c e c' Hval Hnew).
  unfold recharge_error in Herr. rewrite Hu in Herr.
  apply wp_bind, wp_now. intros ts1. apply wp_try, wp_insert_auto; [failed|..].
  { intros Hmax. apply Herr; [|done]. by rewrite (proj2 (Z.ltb_lt _ _) Hmax). }
  { intros n Hmax Hn. apply Herr; [|solve_counters].
    rewrite wallet_tx_violation_eq in Hn by (done || apply Sum256_length).
    rewrite (proj2 (Z.ltb_ge _ _)) by done. by repeat case_match; simplify_eq. }
  intros Hmax Hn. rewrite wallet_tx_violation_eq in Hn by (done || apply Sum256_length).
  rewrite (proj2 (Z.ltb_ge _ _) Hmax) in Herr.
  destruct (negb (varchar_fits 64 _)) eqn:Hfit; [done|].
  destruct (existsb _ _) eqn:Hdup; [done|]. clear Hn. simpl.
  pose proof (wf_next_tx _ _ Hwf). rewrite int64_id_test by lia.
  destruct (max_int64 <? next_tx_id c) eqn:Hid.
  { apply wp_ret, Herr; [done|solve_counters]. }
  bool_to_prop. rewrite BuildRechargeEntries_balanced, uint64_int64 by (done || int_bounds; lia).
  simpl. apply wp_bind, (wp_insert_posting t c); [done|done|by left|done|by eapply tx_missing_added|..].
  { failed. }
  apply wp_try, wp_modify; [failed|done|]. intros _.
  apply wp_bind, wp_now. intros ts2. apply wp_try, wp_modify; [failed|..].
  { intros n Hn. apply Herr; [|solve_counters].
    rewrite recharge_violation_eq in Hn by (done || apply Sum256_length || by eapply tx_missing_added).
    by destruct (varchar_fits 128 _); simplify_eq. }
  intros Hn.
  rewrite recharge_violation_eq in Hn by (done || apply Sum256_length || by eapply tx_missing_added).
  simpl in Hn. destruct (varchar_fits 128 _) eqn:Hpay; [clear Hn|done].
  apply wp_try, wp_ret, wp_bind, wp_now. intros ts3. apply wp_try, wp_insert_auto; [failed|..].
  { intros Hmax'. simpl in Hmax'. apply Herr; [|solve_counters].
    by rewrite (proj2 (Z.ltb_lt _ _) Hmax'). }
  { intros n _ Hn. by rewrite outbox_accepts in Hn by (done || simpl; lia). }
  intros Hmax' _. simpl in Hmax'.
  assert (Hdone : recharge_error t c req = None).
  { unfold recharge_error. rewrite Hu, Hfit, Hdup, Hpay.
    rewrite !(proj2 (Z.ltb_ge _ _)) by done. done. }
  assert (Hpost : ∀ out, out = Ok (recharge_created t c req) ∨ F = true ∧ out = Err ErrConn →
    recharge_post F req t c out (recharge_commit t c req ts1 ts2 ts3)
      (bump_event_id (bump_tx_id c)) None).
  { intros out Hout. split; [done|]. exists ts1, ts2, ts3. unfold recharge_atomic.
    rewrite Hval, Hnew, Hdone. by apply (settles_effect F _ _ _ (_, _, _)). }
  apply wp_try, wp_commit; [failed|intros; apply Hpost; by right|].
  apply wp_ret, Hpost. by left.
Qed.

Lemma recharge_tx_refines F t c req :
  wf t c → recharge_typed req → recharge_invalid req = None →
  wp F (recharge_tx req (recharge_hash req)) (recharge_post F req t c) t c None.
Proof.
  intros Hwf [Hv Hcoins] Hval. unfold recharge_tx. apply wp_with_tx; [failed|].
  apply wp_bind, wp_query; [intros; apply wp_ret; failed|].
  destruct (List.find _ _) as [r|] eqn:Efind; simpl.
  { destruct (bytesEqual _ _) eqn:Eh; simpl.
    - apply wp_try, wp_commit; [failed|failed|]. apply wp_ret, recharge_post_same; [|done].
      intros. unfold recharge_atomic. by rewrite Hval, Efind, Eh.
    - apply wp_ret, recharge_post_same; [|done].
      intros. unfold recharge_atomic. by rewrite Hval, Efind, Eh. }
  assert (Herr := λ e c', recharge_post_error F req t c e c' Hval Efind).
  unfold recharge_error in Herr.
  apply wp_try, wp_modify; [failed|..]; simpl.
  { intros n Hn. destruct (wallet_accounts t !! _); [done|].
    destruct (user_missing t _); [|done]. simplify_eq. by apply Herr. }
  intros Hn. assert (Hu : user_missing t (rc_ViewerID req) = false).
  { destruct (wallet_accounts t !! _) eqn:Ea; [by eapply wf_wallet_fk|].
    by destruct (user_missing t _). }
  clear Hn. rewrite Hu in Herr.
  apply wp_try, wp_query_for_update; [failed|]. cbv beta.
  destruct (create_wallet_balance (rc_ViewerID req) t) as (a & Ha & Hbal). rewrite Ha, Hbal.
  by apply recharge_write_refines.
Qed.

Theorem Recharge_refines F t c req :
  wf t c → recharge_typed req → wp F (Recharge req) (recharge_post F req t c) t c None.
Proof.
  intros Hwf Hty. rewrite Recharge_unfold. destruct (recharge_invalid req) as [e|] eqn:Hval.
  - apply wp_ret, recharge_post_same; [|done]. intros. unfold recharge_atomic. by rewrite Hval.
  - by apply recharge_tx_refines.
Qed.
End refinement.
