(* ===== verification/Gift.v ===== *)
(** * Sending a gift

    [SendGift] of src/internal/service/gift.go with the functions it calls: policy checks, the debit
    of the wallet, the gift order and its outbox events, and the replay of a stored request. *)

From S2P Require Import Prelude GoInt GoStrings Sha256 Json Schema Prog Sql Wp Events Ledger WellFormed Recharge.

Definition txTypeGiftDebit : WalletTransactionsTxType := WalletTransactionsTxTypeGIFTDEBIT.
Definition giftAcceptedTopic : string := "live.gift.accepted.v1".
Definition giftRejectedTopic : string := "live.gift.rejected.v1".

Record GiftRequest := {
  gq_RequestID : string; gq_ViewerID : Z; gq_CreatorID : Z; gq_LiveSessionID : Z;
  gq_MatchID : option Z; gq_GiftID : string; gq_Quantity : Z; gq_SentAtMS : Z }.

Record GiftResponse := {
  gs_GiftOrderID : Z; gs_Accepted : bool; gs_ChargedCoins : Z; gs_MatchPointsAdded : Z;
  gs_DiamondReward : Z; gs_NewBalance : Z; gs_Idempotency : string }.

(** The ranges of the Go types of the fields. *)
Definition gift_typed (req : GiftRequest) : Prop :=
  is_uint64 (gq_ViewerID req) ∧ is_uint64 (gq_CreatorID req) ∧ is_uint64 (gq_LiveSessionID req)
  ∧ is_uint64_ptr (gq_MatchID req) ∧ is_uint16 (gq_Quantity req).

#[export] Instance GiftRequest_json : ToJson GiftRequest := λ r,
  JObj [("request_id", JStr (gq_RequestID r)); ("viewer_id", JNum (gq_ViewerID r));
        ("creator_id", JNum (gq_CreatorID r)); ("live_session_id", JNum (gq_LiveSessionID r));
        ("match_id", json_ptr (gq_MatchID r)); ("gift_id", JStr (gq_GiftID r));
        ("quantity", JNum (gq_Quantity r)); ("sent_at_ms", JNum (gq_SentAtMS r))].

Definition errQuantity : AppError :=
  {| HTTPStatus := 400; Code := "VALIDATION_ERROR"; Message := "quantity must be in [1,99]" |}.
Definition errSameUser : AppError :=
  {| HTTPStatus := 400; Code := "VALIDATION_ERROR";
     Message := "viewer and creator cannot be the same" |}.

Definition mapRejectCodeToAppError (code : string) : AppError :=
  if String.eqb code "CREATOR_NOT_ELIGIBLE" then
    {| HTTPStatus := 403; Code := code; Message := "creator is not eligible" |}
  else if String.eqb code "LIVE_SESSION_NOT_FOUND" then
    {| HTTPStatus := 404; Code := code; Message := "live session not found" |}
  else if String.eqb code "GIFT_NOT_FOUND" then
    {| HTTPStatus := 404; Code := code; Message := "gift not found" |}
  else if String.eqb code "LIVE_SESSION_CLOSED" then
    {| HTTPStatus := 409; Code := code; Message := "live session closed" |}
  else if String.eqb code "MATCH_CLOSED" then
    {| HTTPStatus := 409; Code := code; Message := "match closed" |}
  else if String.eqb code "INSUFFICIENT_BALANCE" then
    {| HTTPStatus := 409; Code := code; Message := "insufficient balance" |}
  else {| HTTPStatus := 409; Code := code; Message := "gift rejected" |}.

Definition isDupKey (err : go_err) : bool :=
  match err with MySQLError number => number =? ER_DUP_ENTRY | _ => false end.

Definition int64ToUint32 (v : Z) (name : string) : res Z :=
  if (v <? 0) || (max_uint32 <? v) then RErr (ErrText (name +:+ " overflow uint32: " +:+ FormatInt v))
  else ROk (uint32 v).

Definition int64ToUint64 (v : Z) (name : string) : res Z :=
  if v <? 0 then RErr (ErrText (name +:+ " overflow uint64: " +:+ FormatInt v)) else ROk (uint64 v).

Section gift.
Context `{MySQL} `{Unicode}.

(** ** Statements *)

Definition same_gift_order (viewer : Z) (request : string) (o : GiftOrder) : bool :=
  (go_ViewerID o =? viewer) && coll_eq (go_RequestID o) request.

(** SELECT gift_order_id, body_hash, status, ... FROM gift_orders
    WHERE viewer_id = ? AND request_id = ? FOR UPDATE *)
Definition select_gift_order_for_update (viewer : Z) (request : string) : stmt GiftOrder :=
  query_for_update (KGiftOrder viewer (coll_key request)) (λ t,
    match List.find (same_gift_order viewer request) (gift_orders t) with
    | Some o => ROk o
    | None => RErr ErrNoRows
    end).

(** SELECT status, campaign_id FROM live_sessions WHERE live_session_id = ? *)
Definition select_live_session (id : Z) : stmt (string * option Z) :=
  query (λ t,
    match live_sessions t !! id with
    | Some s =>
        match scan_null_int64 (ls_CampaignID s) with
        | ROk campaign => ROk (enum_text (ls_Status s), campaign)
        | RErr e => RErr e
        end
    | None => RErr ErrNoRows
    end).

(** SELECT coin_price, match_points, diamond_reward, enabled FROM gift_catalog WHERE gift_id = ? *)
Definition select_gift (gift_id : string) : stmt GiftCatalog :=
  query (λ t,
    match List.find (λ g, coll_eq (gc_GiftID g) gift_id) (gift_catalog t) with
    | Some g => ROk g
    | None => RErr ErrNoRows
    end).

(** SELECT age_years, region_code, ... FROM users WHERE user_id = ? *)
Definition select_user (user : Z) : stmt User :=
  query (λ t, match users t !! user with Some u => ROk u | None => RErr ErrNoRows end).

(** SELECT match_id, live_session_id, mode, specific_gift_id, status FROM live_matches
    WHERE match_id = ? *)
Definition select_match (id : Z) : stmt LiveMatch :=
  query (λ t, match live_matches t !! id with Some m => ROk m | None => RErr ErrNoRows end).

Definition gift_order_violation (o : GiftOrder) (t : Tables) : option Z :=
  first_violation
    [(negb (varchar_fits 32 (go_GiftID o)), ER_DATA_TOO_LONG);
     ((go_ChargedCoins o <? 0) || (max_uint32 <? go_ChargedCoins o), ER_OUT_OF_RANGE);
     ((go_MatchPointsAdded o <? 0) || (max_uint32 <? go_MatchPointsAdded o), ER_OUT_OF_RANGE);
     ((go_DiamondReward o <? 0) || (max_uint32 <? go_DiamondReward o), ER_OUT_OF_RANGE);
     (match go_RejectCode o with Some c => negb (varchar_fits 64 c) | None => false end,
      ER_DATA_TOO_LONG);
     (negb (varchar_fits 64 (go_RequestID o)), ER_DATA_TOO_LONG);
     (32 <? Z.of_nat (length (go_BodyHash o)), ER_DATA_TOO_LONG);
     (existsb (same_gift_order (go_ViewerID o) (go_RequestID o)) (gift_orders t), ER_DUP_ENTRY)].

Definition with_order_id (o : GiftOrder) (id : Z) : GiftOrder :=
  {| go_GiftOrderID := id; go_ViewerID := go_ViewerID o; go_CreatorID := go_CreatorID o;
     go_LiveSessionID := go_LiveSessionID o; go_MatchID := go_MatchID o; go_GiftID := go_GiftID o;
     go_Quantity := go_Quantity o; go_ChargedCoins := go_ChargedCoins o;
     go_MatchPointsAdded := go_MatchPointsAdded o; go_DiamondReward := go_DiamondReward o;
     go_PostBalance := go_PostBalance o; go_Status := go_Status o;
     go_RejectCode := go_RejectCode o; go_RequestID := go_RequestID o;
     go_BodyHash := go_BodyHash o; go_CreatedAt := go_CreatedAt o |}.

Definition add_gift_order (o : GiftOrder) : write := set_gift_orders (λ l, l ++ [o]).

(** INSERT INTO gift_orders (...) VALUES (...); the key of [o] is ignored, the table assigns it *)
Definition insert_gift_order (o : GiftOrder) : stmt Z :=
  insert_auto [KGiftOrder (go_ViewerID o) (coll_key (go_RequestID o))]
    (gift_order_violation o) next_gift_order_id bump_gift_order_id
    (λ id, add_gift_order (with_order_id o id)).

(** The row of an accepted gift. *)
Definition accepted_order (req : GiftRequest) (charged points diamond balance : Z)
    (hash : list Z) (ts : Z) : GiftOrder :=
  {| go_GiftOrderID := 0; go_ViewerID := gq_ViewerID req; go_CreatorID := gq_CreatorID req;
     go_LiveSessionID := gq_LiveSessionID req; go_MatchID := gq_MatchID req;
     go_GiftID := gq_GiftID req; go_Quantity := gq_Quantity req; go_ChargedCoins := charged;
     go_MatchPointsAdded := points; go_DiamondReward := diamond;
     go_PostBalance := Some balance; go_Status := GiftOrdersStatusACCEPTED;
     go_RejectCode := None; go_RequestID := gq_RequestID req; go_BodyHash := hash;
     go_CreatedAt := ts |}.

(** The row of a rejected gift. *)
Definition rejected_order (req : GiftRequest) (code : string) (hash : list Z) (ts : Z) : GiftOrder :=
  {| go_GiftOrderID := 0; go_ViewerID := gq_ViewerID req; go_CreatorID := gq_CreatorID req;
     go_LiveSessionID := gq_LiveSessionID req; go_MatchID := gq_MatchID req;
     go_GiftID := gq_GiftID req; go_Quantity := gq_Quantity req; go_ChargedCoins := 0;
     go_MatchPointsAdded := 0; go_DiamondReward := 0; go_PostBalance := None;
     go_Status := GiftOrdersStatusREJECTED; go_RejectCode := Some code;
     go_RequestID := gq_RequestID req; go_BodyHash := hash; go_CreatedAt := ts |}.

(** ** Functions *)

(** The tests of [isCreatorEligible] on a user row. *)
Definition creator_eligible (u : User) : bool :=
  if negb (String.eqb (enum_text (u_AccountStanding u)) "GOOD") || negb (u_CanGoLive u)
     || negb (u_LiveGiftsEnabled u) then false
  else if negb (String.eqb (enum_text (u_AccountType u)) "NORMAL") then false
  else if EqualFold (u_RegionCode u) "KR" then 19 <=? u_AgeYears u
  else 18 <=? u_AgeYears u.

Definition isCreatorEligible (creatorID : Z) : prog SqlE (res bool) :=
  (let! r := tx_exec (select_user creatorID) in
   match r with
   | RErr ErrNoRows => Ret (ROk false)
   | RErr e => Ret (RErr e)
   | ROk u => Ret (ROk (creator_eligible u))
   end)%prog.

(** The response replayed from a stored order, or its error. *)
Definition replay_order (o : GiftOrder) (bodyHash : list Z) : outcome (option GiftResponse) :=
  if negb (bytesEqual (go_BodyHash o) bodyHash) then App errPayloadMismatch
  else if String.eqb (enum_text (go_Status o)) "ACCEPTED" then
    Ok (Some {| gs_GiftOrderID := go_GiftOrderID o; gs_Accepted := true;
                gs_ChargedCoins := go_ChargedCoins o;
                gs_MatchPointsAdded := go_MatchPointsAdded o;
                gs_DiamondReward := go_DiamondReward o;
                gs_NewBalance := default 0 (go_PostBalance o);
                gs_Idempotency := "replayed" |})
  else App (mapRejectCodeToAppError (default "REJECTED" (go_RejectCode o))).

Definition replayGiftIfExists (req : GiftRequest) (bodyHash : list Z)
    : prog SqlE (outcome (option GiftResponse)) :=
  (let! r := tx_exec (select_gift_order_for_update (gq_ViewerID req) (gq_RequestID req)) in
   match r with
   | RErr ErrNoRows => Ret (Ok None)
   | RErr e => Ret (Err e)
   | ROk o => Ret (replay_order o bodyHash)
   end)%prog.

(** strings.ToLower(strings.ReplaceAll(rejectCode, "_", " ")) *)
Definition reject_message (code : string) : string :=
  ToLower (ReplaceAll code "_"%char " "%char).

Definition rejectGift (req : GiftRequest) (bodyHash : list Z) (rejectCode : string) (httpStatus : Z)
    : prog SqlE (outcome GiftResponse) :=
  (let! ts1 := now in
   let! ins := tx_exec (insert_gift_order (rejected_order req rejectCode bodyHash ts1)) in
   match ins with
   | RErr err =>
       if isDupKey err then
         let! rep := replayGiftIfExists req bodyHash in
         match rep with
         | Err e => Ret (Err e)
         | Ok (Some resp) => Ret (Ok resp)
         | App appErr => try! _ := commit or Err in Ret (App appErr)
         | Ok None => Ret (Err err)
         end
       else Ret (Err err)
   | ROk _ =>
       try! payload := Ret (MarshalJSONString
         {| gr_EventType := giftRejectedTopic; gr_ViewerID := gq_ViewerID req;
            gr_CreatorID := gq_CreatorID req; gr_LiveSessionID := gq_LiveSessionID req;
            gr_MatchID := gq_MatchID req; gr_GiftID := gq_GiftID req;
            gr_Quantity := gq_Quantity req; gr_RequestID := gq_RequestID req;
            gr_RejectCode := rejectCode |}) or Err in
       let! ts2 := now in
       try! _ := tx_exec (insert_outbox_event giftRejectedTopic
                            (FormatUint (gq_LiveSessionID req)) payload ts2) or Err in
       try! _ := commit or Err in
       Ret (App {| HTTPStatus := httpStatus; Code := rejectCode;
                   Message := reject_message rejectCode |})
   end)%prog.

(** What [SendGift] does with a duplicate-key error after the first lookup found nothing. *)
Definition replay_on_dup (req : GiftRequest) (bodyHash : list Z) (err : go_err)
    : prog SqlE (outcome GiftResponse) :=
  (if isDupKey err then
     let! rep := replayGiftIfExists req bodyHash in
     match rep with
     | Err e => Ret (Err e)
     | App appErr => Ret (App appErr)
     | Ok (Some resp) => try! _ := commit or Err in Ret (Ok resp)
     | Ok None => Ret (Err err)
     end
   else Ret (Err err))%prog.

(** The two postings of a gift. *)
Definition gift_entries (viewerID charged : Z) : list LedgerEntry :=
  [{| AccountCode := user_coins viewerID; Amount := int64 (- charged) |};
   {| AccountCode := PLATFORM_RESERVED_COINS; Amount := charged |}].

(** The values [SendGift] has computed when it starts to write. *)
Record Charge := {
  ch_Balance : Z; ch_Charged : Z; ch_MatchPoints : Z; ch_Diamond : Z;
  ch_ChargedU32 : Z; ch_MatchPointsU32 : Z; ch_DiamondU32 : Z; ch_Campaign : option Z }.

(** The end of [SendGift], after the gift order is inserted: the two events and the commit. *)
Definition gift_publish (req : GiftRequest) (ch : Charge) (walletTxID giftOrderID newBalance : Z)
    : prog SqlE (outcome GiftResponse) :=
  (try! walletPayload := Ret (MarshalJSONString
     {| ev_TxID := walletTxID; ev_TxType := enum_text txTypeGiftDebit;
        ev_ActorUserID := gq_ViewerID req; ev_RequestID := gq_RequestID req;
        ev_DeltaCoins := int64 (- ch_Charged ch); ev_BalanceAfter := newBalance |}) or Err in
   let! ts3 := now in
   try! _ := tx_exec (insert_outbox_event walletTopic (FormatUint (gq_ViewerID req))
                        walletPayload ts3) or Err in
   try! campaignID := Ret (match ch_Campaign ch with
                           | None => ROk None
                           | Some v => match int64ToUint64 v "campaign_id" with
                                       | ROk u => ROk (Some u)
                                       | RErr e => RErr e
                                       end
                           end) or Err in
   try! acceptedPayload := Ret (MarshalJSONString
     {| ga_EventType := giftAcceptedTopic; ga_GiftOrderID := giftOrderID;
        ga_ViewerID := gq_ViewerID req; ga_CreatorID := gq_CreatorID req;
        ga_LiveSessionID := gq_LiveSessionID req; ga_CampaignID := campaignID;
        ga_MatchID := gq_MatchID req; ga_GiftID := gq_GiftID req;
        ga_Quantity := gq_Quantity req; ga_ChargedCoins := ch_ChargedU32 ch;
        ga_MatchPoints := ch_MatchPointsU32 ch; ga_DiamondReward := ch_DiamondU32 ch;
        ga_RequestID := gq_RequestID req |}) or Err in
   let! ts4 := now in
   try! _ := tx_exec (insert_outbox_event giftAcceptedTopic (FormatUint (gq_LiveSessionID req))
                        acceptedPayload ts4) or Err in
   try! _ := commit or Err in
   Ret (Ok {| gs_GiftOrderID := giftOrderID; gs_Accepted := true;
              gs_ChargedCoins := ch_ChargedU32 ch; gs_MatchPointsAdded := ch_MatchPointsU32 ch;
              gs_DiamondReward := ch_DiamondU32 ch; gs_NewBalance := newBalance;
              gs_Idempotency := "created" |}))%prog.

(** The writes of [SendGift]: transaction, postings, balance, gift order. *)
Definition gift_write (req : GiftRequest) (bodyHash : list Z) (ch : Charge)
    : prog SqlE (outcome GiftResponse) :=
  (let! ts1 := now in
   let! ins := tx_exec (insert_wallet_transaction txTypeGiftDebit (gq_ViewerID req)
                          (gq_RequestID req) bodyHash ts1) in
   match ins with
   | RErr err => replay_on_dup req bodyHash err
   | ROk walletTxID64 =>
       if walletTxID64 <? 1 then
         Ret (Err (ErrText ("invalid wallet tx id: " +:+ FormatInt walletTxID64)))
       else
       let walletTxID := uint64 walletTxID64 in
       let entries := gift_entries (gq_ViewerID req) (ch_Charged ch) in
       if negb (SumLedgerEntries entries =? 0) then
         Ret (Err (ErrText "ledger imbalance for gift"))
       else
       let! inserted := insert_entries walletTxID entries in
       match inserted with
       | Some e => Ret (Err e)
       | None =>
           let newBalance := int64 (ch_Balance ch - ch_Charged ch) in
           try! _ := tx_exec (update_wallet_balance newBalance (gq_ViewerID req)) or Err in
           let! ts2 := now in
           let! ord := tx_exec (insert_gift_order
             (accepted_order req (ch_Charged ch) (ch_MatchPoints ch) (ch_Diamond ch) newBalance
                bodyHash ts2)) in
           match ord with
           | RErr err => replay_on_dup req bodyHash err
           | ROk giftOrderID64 =>
               if giftOrderID64 <? 1 then
                 Ret (Err (ErrText ("invalid gift order id: " +:+ FormatInt giftOrderID64)))
               else gift_publish req ch walletTxID (uint64 giftOrderID64) newBalance
           end
       end
   end)%prog.

(** The match points of a gift: none for the wrong gift in a SPECIFIC_GIFT match. *)
Definition match_points_of (m : option LiveMatch) (gift_id : string) (points : Z) : Z :=
  match m with
  | Some lm =>
      if String.eqb (enum_text (lm_Mode lm)) "SPECIFIC_GIFT" then
        match lm_SpecificGiftID lm with
        | Some specific => if EqualFold specific gift_id then points else 0
        | None => 0
        end
      else points
  | None => points
  end.

(** The wallet lock, the price computation and the balance check. *)
Definition gift_charge (req : GiftRequest) (bodyHash : list Z) (campaign : option Z)
    (g : GiftCatalog) (m : option LiveMatch) : prog SqlE (outcome GiftResponse) :=
  (try! _ := tx_exec (ensure_wallet_account (gq_ViewerID req)) or Err in
   try! balance := tx_exec (select_balance_for_update (gq_ViewerID req)) or Err in
   let charged := int64 (gc_CoinPrice g * gq_Quantity req) in
   if charged <=? 0 then Ret (Err (ErrText ("invalid charged coins: " +:+ FormatInt charged)))
   else
   try! chargedU32 := Ret (int64ToUint32 charged "charged coins") or Err in
   if balance <? charged then rejectGift req bodyHash "INSUFFICIENT_BALANCE" 409
   else
   let points := match_points_of m (gq_GiftID req) (int64 (gc_MatchPoints g * gq_Quantity req)) in
   try! pointsU32 := Ret (int64ToUint32 points "match points") or Err in
   let diamond := int64 (gc_DiamondReward g * gq_Quantity req) in
   try! diamondU32 := Ret (int64ToUint32 diamond "diamond reward") or Err in
   gift_write req bodyHash
     {| ch_Balance := balance; ch_Charged := charged; ch_MatchPoints := points;
        ch_Diamond := diamond; ch_ChargedU32 := chargedU32; ch_MatchPointsU32 := pointsU32;
        ch_DiamondU32 := diamondU32; ch_Campaign := campaign |})%prog.

(** The match the request names, if any. *)
Definition gift_match (req : GiftRequest) (bodyHash : list Z) (campaign : option Z)
    (g : GiftCatalog) : prog SqlE (outcome GiftResponse) :=
  (match gq_MatchID req with
   | None => gift_charge req bodyHash campaign g None
   | Some id =>
       let! r := tx_exec (select_match id) in
       match r with
       | RErr ErrNoRows => rejectGift req bodyHash "MATCH_CLOSED" 409
       | RErr e => Ret (Err e)
       | ROk lm =>
           if negb (lm_LiveSessionID lm =? gq_LiveSessionID req)
              || negb (String.eqb (enum_text (lm_Status lm)) "OPEN")
           then rejectGift req bodyHash "MATCH_CLOSED" 409
           else gift_charge req bodyHash campaign g (Some lm)
       end
   end)%prog.

(** The policy checks on the session, the gift and the creator. *)
Definition gift_checks (req : GiftRequest) (bodyHash : list Z) : prog SqlE (outcome GiftResponse) :=
  (let! session := tx_exec (select_live_session (gq_LiveSessionID req)) in
   match session with
   | RErr ErrNoRows => rejectGift req bodyHash "LIVE_SESSION_NOT_FOUND" 404
   | RErr e => Ret (Err e)
   | ROk (status, campaign) =>
       if negb (String.eqb status "OPEN") then rejectGift req bodyHash "LIVE_SESSION_CLOSED" 409
       else
       let! gift := tx_exec (select_gift (gq_GiftID req)) in
       match gift with
       | RErr ErrNoRows => rejectGift req bodyHash "GIFT_NOT_FOUND" 404
       | RErr e => Ret (Err e)
       | ROk g =>
           if negb (gc_Enabled g) then rejectGift req bodyHash "GIFT_NOT_FOUND" 404
           else
           try! eligible := isCreatorEligible (gq_CreatorID req) or Err in
           if negb eligible then rejectGift req bodyHash "CREATOR_NOT_ELIGIBLE" 403
           else gift_match req bodyHash campaign g
       end
   end)%prog.

(** The part of [SendGift] inside the transaction. *)
Definition gift_tx (req : GiftRequest) (bodyHash : list Z) : prog SqlE (outcome GiftResponse) :=
  (with_tx Err (
     let! rep := replayGiftIfExists req bodyHash in
     match rep with
     | Err e => Ret (Err e)
     | App appErr => Ret (App appErr)
     | Ok (Some resp) => try! _ := commit or Err in Ret (Ok resp)
     | Ok None => gift_checks req bodyHash
     end))%prog.

Definition SendGift (req : GiftRequest) : prog SqlE (outcome GiftResponse) :=
  (if String.eqb (TrimSpace (gq_RequestID req)) "" || (gq_ViewerID req =? 0)
      || (gq_CreatorID req =? 0) || (gq_LiveSessionID req =? 0)
      || String.eqb (TrimSpace (gq_GiftID req)) "" then Ret (App errValidation)
   else if (gq_Quantity req <? 1) || (99 <? gq_Quantity req) then Ret (App errQuantity)
   else if gq_ViewerID req =? gq_CreatorID req then Ret (App errSameUser)
   else
     try! (_, bodyHash) := Ret (BodyHashHex req) or Err in
     gift_tx req bodyHash)%prog.
End gift.
