(* ===== verification/GiftSpec.v ===== *)
(** * What sending a gift does, as one atomic operation

    The policy of [SendGift] as a decision on the committed tables, the committed effect of an
    accepted and of a rejected gift, and the proof that the program of [Gift] refines them: it ends
    with no open transaction, and its effect is all of the operation's or nothing. *)

From S2P Require Import Prelude GoInt GoStrings Sha256 Json Schema Prog Sql Wp Events Ledger WellFormed Recharge Gift.

(** ** The atomic operation *)

Section atomic_gift.
Context `{MySQL} `{Unicode}.

Definition gift_invalid (req : GiftRequest) : option AppError :=
  if String.eqb (TrimSpace (gq_RequestID req)) "" || (gq_ViewerID req =? 0)
     || (gq_CreatorID req =? 0) || (gq_LiveSessionID req =? 0)
     || String.eqb (TrimSpace (gq_GiftID req)) "" then Some errValidation
  else if (gq_Quantity req <? 1) || (99 <? gq_Quantity req) then Some errQuantity
  else if gq_ViewerID req =? gq_CreatorID req then Some errSameUser
  else None.

Definition gift_hash (req : GiftRequest) : list Z := Sum256 (bytes_of (marshal (to_json req))).

(** The stored order of a request, if there is one. *)
Definition stored_order (t : Tables) (req : GiftRequest) : option GiftOrder :=
  List.find (same_gift_order (gq_ViewerID req) (gq_RequestID req)) (gift_orders t).

(** The answer a stored order stands for. *)
Definition stored_response (o : GiftOrder) : outcome GiftResponse :=
  match go_Status o with
  | GiftOrdersStatusACCEPTED =>
      Ok {| gs_GiftOrderID := go_GiftOrderID o; gs_Accepted := true;
            gs_ChargedCoins := go_ChargedCoins o; gs_MatchPointsAdded := go_MatchPointsAdded o;
            gs_DiamondReward := go_DiamondReward o;
            gs_NewBalance := default 0 (go_PostBalance o); gs_Idempotency := "replayed" |}
  | GiftOrdersStatusREJECTED =>
      App (mapRejectCodeToAppError (default "REJECTED" (go_RejectCode o)))
  end.

(** A gift is rejected, on tables [base]; or it is accepted; or the request fails. *)
Inductive decision :=
| DFail (e : go_err)
| DReject (code : string) (status : Z) (base : Tables)
| DAccept (ch : Charge).

(** The totals of a gift, with no wrap-around. *)
Definition charge_decision (t : Tables) (req : GiftRequest) (campaign : option Z)
    (g : GiftCatalog) (m : option LiveMatch) : decision :=
  let viewer := gq_ViewerID req in
  let charged := gc_CoinPrice g * gq_Quantity req in
  let points := match_points_of m (gq_GiftID req) (gc_MatchPoints g * gq_Quantity req) in
  let diamond := gc_DiamondReward g * gq_Quantity req in
  let overflow name v := ErrText (name +:+ " overflow uint32: " +:+ FormatInt v) in
  if user_missing t viewer then DFail (MySQLError ER_NO_REFERENCED_ROW)
  else if charged =? 0 then DFail (ErrText ("invalid charged coins: " +:+ FormatInt charged))
  else if max_uint32 <? charged then DFail (overflow "charged coins" charged)
  else if balance_of t viewer <? charged then
    DReject "INSUFFICIENT_BALANCE" 409 (create_wallet viewer t)
  else if max_uint32 <? points then DFail (overflow "match points" points)
  else if max_uint32 <? diamond then DFail (overflow "diamond reward" diamond)
  else DAccept
    {| ch_Balance := balance_of t viewer; ch_Charged := charged; ch_MatchPoints := points;
       ch_Diamond := diamond; ch_ChargedU32 := charged; ch_MatchPointsU32 := points;
       ch_DiamondU32 := diamond; ch_Campaign := campaign |}.

(** The open match of this session that the request names; [None]: there is no such match. *)
Definition open_match (t : Tables) (req : GiftRequest) : option (option LiveMatch) :=
  match gq_MatchID req with
  | None => Some None
  | Some id =>
      match live_matches t !! id with
      | None => None
      | Some lm =>
          if negb (lm_LiveSessionID lm =? gq_LiveSessionID req)
             || negb (String.eqb (enum_text (lm_Status lm)) "OPEN") then None
          else Some (Some lm)
      end
  end.

Definition creator_ok (t : Tables) (creator : Z) : bool :=
  match users t !! creator with Some u => creator_eligible u | None => false end.

Definition enabled_gift (t : Tables) (gift_id : string) : option GiftCatalog :=
  match List.find (λ g, coll_eq (gc_GiftID g) gift_id) (gift_catalog t) with
  | Some g => if gc_Enabled g then Some g else None
  | None => None
  end.

(** The policy, check by check. *)
Definition gift_decide (t : Tables) (req : GiftRequest) : decision :=
  match live_sessions t !! gq_LiveSessionID req with
  | None => DReject "LIVE_SESSION_NOT_FOUND" 404 t
  | Some s =>
      match scan_null_int64 (ls_CampaignID s) with
      | RErr e => DFail e
      | ROk campaign =>
          if negb (String.eqb (enum_text (ls_Status s)) "OPEN") then
            DReject "LIVE_SESSION_CLOSED" 409 t
          else
          match enabled_gift t (gq_GiftID req) with
          | None => DReject "GIFT_NOT_FOUND" 404 t
          | Some g =>
              if negb (creator_ok t (gq_CreatorID req)) then DReject "CREATOR_NOT_ELIGIBLE" 403 t
              else
              match open_match t req with
              | None => DReject "MATCH_CLOSED" 409 t
              | Some m => charge_decision t req campaign g m
              end
          end
      end
  end.

(** Why the database refuses to record a rejection. *)
Definition reject_error (c : Counters) (req : GiftRequest) : option go_err :=
  if max_uint64 <? next_gift_order_id c then Some (MySQLError ER_AUTOINC_READ_FAILED)
  else if negb (varchar_fits 32 (gq_GiftID req)) then Some (MySQLError ER_DATA_TOO_LONG)
  else if negb (varchar_fits 64 (gq_RequestID req)) then Some (MySQLError ER_DATA_TOO_LONG)
  else if max_uint64 <? next_event_id c then Some (MySQLError ER_AUTOINC_READ_FAILED)
  else None.

(** The committed effect of a rejection: the order row and one event; no money moves. *)
Definition reject_commit (c : Counters) (req : GiftRequest) (code : string) (base : Tables)
    (ts1 ts2 : Z) : Tables :=
  add_outbox giftRejectedTopic (FormatUint (gq_LiveSessionID req))
    (marshal (to_json
      {| gr_EventType := giftRejectedTopic; gr_ViewerID := gq_ViewerID req;
         gr_CreatorID := gq_CreatorID req; gr_LiveSessionID := gq_LiveSessionID req;
         gr_MatchID := gq_MatchID req; gr_GiftID := gq_GiftID req;
         gr_Quantity := gq_Quantity req; gr_RequestID := gq_RequestID req;
         gr_RejectCode := code |})) ts2 (next_event_id c)
    (add_gift_order
      (with_order_id (rejected_order req code (gift_hash req) ts1) (next_gift_order_id c)) base).

(** Why the database refuses to record an accepted gift. *)
Definition accept_error (t : Tables) (c : Counters) (req : GiftRequest) : option go_err :=
  if max_uint64 <? next_tx_id c then Some (MySQLError ER_AUTOINC_READ_FAILED)
  else if negb (varchar_fits 64 (gq_RequestID req)) then Some (MySQLError ER_DATA_TOO_LONG)
  else if existsb (same_wallet_tx txTypeGiftDebit (gq_ViewerID req) (gq_RequestID req))
            (wallet_transactions t) then Some (MySQLError ER_DUP_ENTRY)
  else if max_int64 <? next_tx_id c then
    Some (ErrText ("invalid wallet tx id: " +:+ FormatInt (int64 (next_tx_id c))))
  else if max_uint64 <? next_gift_order_id c then Some (MySQLError ER_AUTOINC_READ_FAILED)
  else if negb (varchar_fits 32 (gq_GiftID req)) then Some (MySQLError ER_DATA_TOO_LONG)
  else if max_int64 <? next_gift_order_id c then
    Some (ErrText ("invalid gift order id: " +:+ FormatInt (int64 (next_gift_order_id c))))
  else if max_uint64 <? next_event_id c then Some (MySQLError ER_AUTOINC_READ_FAILED)
  else if max_uint64 <? next_event_id c + 1 then Some (MySQLError ER_AUTOINC_READ_FAILED)
  else None.

(** The committed effect of an accepted gift up to its events: wallet row, transaction, two
    postings, new balance, order row. *)
Definition accept_rows (t : Tables) (c : Counters) (req : GiftRequest) (ch : Charge)
    (ts1 ts2 : Z) : Tables :=
  let viewer := gq_ViewerID req in
  let balance := ch_Balance ch - ch_Charged ch in
  let t1 := create_wallet viewer t in
  let t2 := add_wallet_tx
    {| wt_TxID := next_tx_id c; wt_TxType := txTypeGiftDebit; wt_ActorUserID := viewer;
       wt_RequestID := gq_RequestID req; wt_BodyHash := Some (gift_hash req);
       wt_CreatedAt := ts1 |} t1 in
  let t3 := add_entries (next_tx_id c)
    [{| AccountCode := user_coins viewer; Amount := - ch_Charged ch |};
     {| AccountCode := PLATFORM_RESERVED_COINS; Amount := ch_Charged ch |}] t2 in
  let t4 := write_balance balance viewer t3 in
  add_gift_order
    (with_order_id
       (accepted_order req (ch_Charged ch) (ch_MatchPoints ch) (ch_Diamond ch) balance
          (gift_hash req) ts2) (next_gift_order_id c)) t4.

(** ... and its two events. *)
Definition accept_events (c : Counters) (req : GiftRequest) (ch : Charge) (ts3 ts4 : Z)
    (t : Tables) : Tables :=
  let viewer := gq_ViewerID req in
  let t1 := add_outbox walletTopic (FormatUint viewer)
    (marshal (to_json
      {| ev_TxID := next_tx_id c; ev_TxType := enum_text txTypeGiftDebit;
         ev_ActorUserID := viewer; ev_RequestID := gq_RequestID req;
         ev_DeltaCoins := - ch_Charged ch; ev_BalanceAfter := ch_Balance ch - ch_Charged ch |}))
    ts3 (next_event_id c) t in
  add_outbox giftAcceptedTopic (FormatUint (gq_LiveSessionID req))
    (marshal (to_json
      {| ga_EventType := giftAcceptedTopic; ga_GiftOrderID := next_gift_order_id c;
         ga_ViewerID := viewer; ga_CreatorID := gq_CreatorID req;
         ga_LiveSessionID := gq_LiveSessionID req; ga_CampaignID := ch_Campaign ch;
         ga_MatchID := gq_MatchID req; ga_GiftID := gq_GiftID req;
         ga_Quantity := gq_Quantity req; ga_ChargedCoins := ch_ChargedU32 ch;
         ga_MatchPoints := ch_MatchPointsU32 ch; ga_DiamondReward := ch_DiamondU32 ch;
         ga_RequestID := gq_RequestID req |}))
    ts4 (next_event_id c + 1) t1.

Definition accept_commit (t : Tables) (c : Counters) (req : GiftRequest) (ch : Charge)
    (ts1 ts2 ts3 ts4 : Z) : Tables :=
  accept_events c req ch ts3 ts4 (accept_rows t c req ch ts1 ts2).

Definition gift_created (c : Counters) (ch : Charge) : GiftResponse :=
  {| gs_GiftOrderID := next_gift_order_id c; gs_Accepted := true;
     gs_ChargedCoins := ch_ChargedU32 ch; gs_MatchPointsAdded := ch_MatchPointsU32 ch;
     gs_DiamondReward := ch_DiamondU32 ch; gs_NewBalance := ch_Balance ch - ch_Charged ch;
     gs_Idempotency := "created" |}.

Definition gift_rejection (code : string) (status : Z) : AppError :=
  {| HTTPStatus := status; Code := code; Message := reject_message code |}.

Definition gift_atomic (t : Tables) (c : Counters) (req : GiftRequest) (ts1 ts2 ts3 ts4 : Z)
    : atomic (outcome GiftResponse) :=
  match gift_invalid req with
  | Some e => (App e, t, c)
  | None =>
      match stored_order t req with
      | Some o =>
          (if bytesEqual (go_BodyHash o) (gift_hash req) then stored_response o
           else App errPayloadMismatch, t, c)
      | None =>
          match gift_decide t req with
          | DFail e => (Err e, t, c)
          | DReject code status base =>
              match reject_error c req with
              | Some e => (Err e, t, c)
              | None =>
                  (App (gift_rejection code status), reject_commit c req code base ts1 ts2,
                   bump_event_id (bump_gift_order_id c))
              end
          | DAccept ch =>
              match accept_error t c req with
              | Some e => (Err e, t, c)
              | None =>
                  (Ok (gift_created c ch), accept_commit t c req ch ts1 ts2 ts3 ts4,
                   bump_event_id (bump_event_id (bump_gift_order_id (bump_tx_id c))))
              end
          end
      end
  end.
End atomic_gift.

(** ** The program refines the atomic operation *)

Section refinement.
Context `{MySQLLaws} `{Unicode}.

(** What a run of [SendGift] may end with: no open transaction, and the atomic operation settled
    at some clock readings. *)
Definition gift_post (F : bool) (req : GiftRequest) (t : Tables) (c : Counters)
    (out : outcome GiftResponse) (t' : Tables) (c' : Counters) (v : option Tables) : Prop :=
  v = None ∧ ∃ ts1 ts2 ts3 ts4,
    settles F (Err ErrConn) t c (gift_atomic t c req ts1 ts2 ts3 ts4) out t' c'.

Lemma gift_post_failed F req t c c' :
  F = true → counters_le c c' → gift_post F req t c (Err ErrConn) t c' None.
Proof. intros -> Hc. split; [done|]. exists 0, 0, 0, 0. by apply settles_failed. Qed.

Lemma gift_post_same F req t c out c' :
  (∀ ts1 ts2 ts3 ts4, gift_atomic t c req ts1 ts2 ts3 ts4 = (out, t, c)) → counters_le c c' →
  gift_post F req t c out t c' None.
Proof. intros Ha Hc. split; [done|]. exists 0, 0, 0, 0. left. by rewrite Ha. Qed.

Ltac failed := fault_case gift_post_failed.

(** *** A valid request with no stored order *)
Section new_request.
Context (F : bool) (t : Tables) (c : Counters) (req : GiftRequest).
Context (Hwf : wf t c) (Hty : gift_typed req) (Hval : gift_invalid req = None)
  (Hnew : stored_order t req = None).

(** What the transaction continues with, from what it sees. *)
Abbreviation ends p d v := (wp F p (λ a t' c' _, gift_post F req t c a t' c' None) t d (Some v)).

Lemma gift_post_error e c' :
  (gift_decide t req = DFail e
   ∨ (∃ code status base, gift_decide t req = DReject code status base
                          ∧ reject_error c req = Some e)
   ∨ (∃ ch, gift_decide t req = DAccept ch ∧ accept_error t c req = Some e)) →
  counters_le c c' → gift_post F req t c (Err e) t c' None.
Proof.
  intros Hd. apply gift_post_same. intros. unfold gift_atomic. rewrite Hval, Hnew.
  destruct Hd as [->|[(code & status & base & -> & ->)|(ch & -> & ->)]]; done.
Qed.

Lemma replay_nothing v d :
  gift_orders v = gift_orders t → counters_le c d → ∀ Q,
  (F = true → ∀ v', Q (Err ErrConn) t d (Some v')) → Q (Ok None) t d (Some v) →
  wp F (replayGiftIfExists req (gift_hash req)) Q t d (Some v).
Proof.
  intros Hv Hd Q Hf HQ. apply wp_bind, wp_query_for_update.
  - intros. apply wp_ret. auto.
  - unfold stored_order in Hnew. rewrite Hv, Hnew. by apply wp_ret.
Qed.

Lemma order_violation_eq o v :
  gift_orders v = gift_orders t → go_ViewerID o = gq_ViewerID req →
  go_RequestID o = gq_RequestID req → length (go_BodyHash o) = 32%nat →
  is_uint32 (go_ChargedCoins o) → is_uint32 (go_MatchPointsAdded o) →
  is_uint32 (go_DiamondReward o) →
  (∀ code, go_RejectCode o = Some code → varchar_fits 64 code = true) →
  gift_order_violation o v
  = if negb (varchar_fits 32 (go_GiftID o)) || negb (varchar_fits 64 (gq_RequestID req))
    then Some ER_DATA_TOO_LONG else None.
Proof.
  intros Hv Hu Hr Hl Hch Hmp Hdi Hcode. unfold gift_order_violation.
  assert (Hrange : ∀ x, is_uint32 x → (x <? 0) || (max_uint32 <? x) = false).
  { intros x Hx. int_bounds. lia. }
  rewrite !Hrange, Hv, Hu, Hr, Hl, existsb_find by done. unfold stored_order in Hnew.
  rewrite Hnew.
  assert (Hc : (match go_RejectCode o with
                | Some k => negb (varchar_fits 64 k) | None => false end) = false).
  { destruct (go_RejectCode o) as [k|]; [by rewrite Hcode|done]. }
  rewrite Hc. simpl. by destruct (varchar_fits 32 _), (varchar_fits 64 _).
Qed.

(** *** Rejection *)
Lemma rejectGift_refines code status base d :
  gift_decide t req = DReject code status base → gift_orders base = gift_orders t →
  printable code = true → (String.length code ≤ 64)%nat → d = c →
  ends (rejectGift req (gift_hash req) code status) d base.
Proof.
  intros Hdec Hbase Hp Hl ->. unfold rejectGift.
  assert (Herr := λ e d He, gift_post_error e d
    (or_intror (or_introl (ex_intro _ code (ex_intro _ status (ex_intro _ base (conj Hdec He))))))).
  unfold reject_error in Herr.
  assert (Hviol : ∀ ts, gift_order_violation (rejected_order req code (gift_hash req) ts) base
    = if negb (varchar_fits 32 (gq_GiftID req)) || negb (varchar_fits 64 (gq_RequestID req))
      then Some ER_DATA_TOO_LONG else None).
  { intros ts. apply order_violation_eq; simpl; try done.
    { apply Sum256_length. }
    intros k [= <-]. apply varchar_ascii; [done|lia]. }
  apply wp_bind, wp_now. intros ts1. apply wp_bind, wp_insert_auto; [failed|..].
  { intros Hmax. apply wp_ret, Herr; [|done]. by rewrite (proj2 (Z.ltb_lt _ _) Hmax). }
  { intros n Hmax Hn. rewrite Hviol in Hn. rewrite (proj2 (Z.ltb_ge _ _) Hmax) in Herr.
    destruct (varchar_fits 32 _), (varchar_fits 64 _); simplify_eq/=;
      (apply wp_ret, Herr; [done|solve_counters]). }
  intros Hmax Hn. rewrite Hviol in Hn. rewrite (proj2 (Z.ltb_ge _ _) Hmax) in Herr.
  destruct (varchar_fits 32 _) eqn:H32; [|done]. destruct (varchar_fits 64 _) eqn:H64; [|done].
  clear Hn. apply wp_try, wp_ret, wp_bind, wp_now. intros ts2.
  apply wp_try, wp_insert_auto; [failed|..].
  { intros Hmax'. apply Herr; [|solve_counters]. simpl in *.
    by rewrite (proj2 (Z.ltb_lt _ _) Hmax'). }
  { intros n _ Hn. by rewrite outbox_accepts in Hn by (done || simpl; lia || apply Hty). }
  intros Hmax' _. simpl in Hmax'.
  assert (Hpost : ∀ out, out = App (gift_rejection code status) ∨ F = true ∧ out = Err ErrConn →
    gift_post F req t c out (reject_commit c req code base ts1 ts2)
      (bump_event_id (bump_gift_order_id c)) None).
  { intros out Hout. split; [done|]. exists ts1, ts2, 0, 0. unfold gift_atomic, reject_error.
    rewrite Hval, Hnew, Hdec, H32, H64. rewrite !(proj2 (Z.ltb_ge _ _)) by done.
    by apply (settles_effect F _ _ _ (_, _, _)). }
  apply wp_try, wp_commit; [failed|intros; apply Hpost; by right|].
  apply wp_ret, Hpost. by left.
Qed.

(** *** Acceptance *)
Section accept.
Context (ch : Charge) (Hdec : gift_decide t req = DAccept ch).

(** What the policy guarantees of the totals it passes on. *)
Record charge_ok : Prop := {
  ok_charged : 0 < ch_Charged ch ≤ max_uint32;
  ok_points : is_uint32 (ch_MatchPoints ch);
  ok_diamond : is_uint32 (ch_Diamond ch);
  ok_balance : ch_Charged ch ≤ ch_Balance ch ≤ max_int64;
  ok_campaign : ∀ k, ch_Campaign ch = Some k → 0 ≤ k ≤ max_int64 }.
Context (Hok : charge_ok).

Lemma accept_failed e c' :
  accept_error t c req = Some e → counters_le c c' → gift_post F req t c (Err e) t c' None.
Proof. intros He. apply gift_post_error. eauto. Qed.

Lemma dup_refines d v err :
  gift_orders v = gift_orders t → counters_le c d → accept_error t c req = Some err →
  ends (replay_on_dup req (gift_hash req) err) d v.
Proof.
  intros Hv Hd He. unfold replay_on_dup. destruct (isDupKey err).
  - apply wp_bind, replay_nothing; [done|done|failed|]. apply wp_ret. by apply accept_failed.
  - apply wp_ret. by apply accept_failed.
Qed.

(** Everything the checks before the events established. *)
Definition accept_ready : Prop :=
  accept_error t c req
  = if max_uint64 <? next_event_id c then Some (MySQLError ER_AUTOINC_READ_FAILED)
    else if max_uint64 <? next_event_id c + 1 then Some (MySQLError ER_AUTOINC_READ_FAILED)
    else None.

Lemma campaign_id_ok :
  (match ch_Campaign ch with
   | None => ROk None
   | Some v => match int64ToUint64 v "campaign_id" with
               | ROk u => ROk (Some u)
               | RErr e => RErr e
               end
   end) = ROk (ch_Campaign ch).
Proof.
  destruct (ch_Campaign ch) as [k|] eqn:Ek; [|done]. apply ok_campaign in Ek; [|done].
  unfold int64ToUint64. rewrite (proj2 (Z.ltb_ge _ _)) by lia.
  by rewrite uint64_id by (int_bounds; lia).
Qed.

Lemma gift_publish_refines ts1 ts2 :
  accept_ready →
  ends (gift_publish req ch (next_tx_id c) (next_gift_order_id c) (ch_Balance ch - ch_Charged ch))
    (bump_gift_order_id (bump_tx_id c)) (accept_rows t c req ch ts1 ts2).
Proof.
  intros Hready. unfold gift_publish. destruct Hok.
  rewrite (int64_id (- ch_Charged ch)) by (int_bounds; lia).
  apply wp_try, wp_ret, wp_bind, wp_now. intros ts3.
  apply wp_try, wp_insert_auto; [failed|..].
  { intros Hmax. apply accept_failed; [|solve_counters]. simpl in Hmax. rewrite Hready.
    by rewrite (proj2 (Z.ltb_lt _ _) Hmax). }
  { intros n _ Hn. by rewrite outbox_accepts in Hn by (done || simpl; lia || apply Hty). }
  intros Hmax _. simpl in Hmax. rewrite campaign_id_ok.
  apply wp_try, wp_ret, wp_try, wp_ret, wp_bind, wp_now. intros ts4.
  apply wp_try, wp_insert_auto; [failed|..].
  { intros Hmax'. apply accept_failed; [|solve_counters]. simpl in Hmax'. rewrite Hready.
    by rewrite (proj2 (Z.ltb_ge _ _) Hmax), (proj2 (Z.ltb_lt _ _) Hmax'). }
  { intros n _ Hn. by rewrite outbox_accepts in Hn by (done || simpl; lia || apply Hty). }
  intros Hmax' _. simpl in Hmax'.
  assert (Hpost : ∀ out, out = Ok (gift_created c ch) ∨ F = true ∧ out = Err ErrConn →
    gift_post F req t c out (accept_commit t c req ch ts1 ts2 ts3 ts4)
      (bump_event_id (bump_event_id (bump_gift_order_id (bump_tx_id c)))) None).
  { intros out Hout. split; [done|]. exists ts1, ts2, ts3, ts4. unfold gift_atomic.
    rewrite Hval, Hnew, Hdec, Hready. rewrite !(proj2 (Z.ltb_ge _ _)) by done.
    by apply (settles_effect F _ _ _ (_, _, _)). }
  apply wp_try, wp_commit; [failed|intros; apply Hpost; by right|].
  apply wp_ret, Hpost. by left.
Qed.

Lemma gift_entries_eq :
  gift_entries (gq_ViewerID req) (ch_Charged ch)
  = [{| AccountCode := user_coins (gq_ViewerID req); Amount := - ch_Charged ch |};
     {| AccountCode := PLATFORM_RESERVED_COINS; Amount := ch_Charged ch |}].
Proof. destruct Hok. unfold gift_entries. rewrite int64_id; [done|int_bounds; lia]. Qed.

(** The order insert and what follows, once the money has moved. *)
Lemma gift_order_refines ts1 v :
  v = write_balance (ch_Balance ch - ch_Charged ch) (gq_ViewerID req)
        (add_entries (next_tx_id c) (gift_entries (gq_ViewerID req) (ch_Charged ch))
          (add_wallet_tx
            {| wt_TxID := next_tx_id c; wt_TxType := txTypeGiftDebit;
               wt_ActorUserID := gq_ViewerID req; wt_RequestID := gq_RequestID req;
               wt_BodyHash := Some (gift_hash req); wt_CreatedAt := ts1 |}
            (create_wallet (gq_ViewerID req) t))) →
  varchar_fits 64 (gq_RequestID req) = true →
  (accept_error t c req
   = if max_uint64 <? next_gift_order_id c then Some (MySQLError ER_AUTOINC_READ_FAILED)
     else if negb (varchar_fits 32 (gq_GiftID req)) then Some (MySQLError ER_DATA_TOO_LONG)
     else if max_int64 <? next_gift_order_id c then
       Some (ErrText ("invalid gift order id: " +:+ FormatInt (int64 (next_gift_order_id c))))
     else if max_uint64 <? next_event_id c then Some (MySQLError ER_AUTOINC_READ_FAILED)
     else if max_uint64 <? next_event_id c + 1 then Some (MySQLError ER_AUTOINC_READ_FAILED)
     else None) →
  ends (let! ts2 := now in
        let! ord := tx_exec (insert_gift_order
          (accepted_order req (ch_Charged ch) (ch_MatchPoints ch) (ch_Diamond ch)
             (ch_Balance ch - ch_Charged ch) (gift_hash req) ts2)) in
        match ord with
        | RErr err => replay_on_dup req (gift_hash req) err
        | ROk giftOrderID64 =>
            if giftOrderID64 <? 1 then
              Ret (Err (ErrText ("invalid gift order id: " +:+ FormatInt giftOrderID64)))
            else gift_publish req ch (next_tx_id c) (uint64 giftOrderID64)
                   (ch_Balance ch - ch_Charged ch)
        end)%prog (bump_tx_id c) v.
Proof.
  intros -> H64 Herr. assert (Hok' := Hok). destruct Hok'.
  set (v := write_balance _ _ _).
  assert (Hviol : ∀ ts, gift_order_violation
      (accepted_order req (ch_Charged ch) (ch_MatchPoints ch) (ch_Diamond ch)
         (ch_Balance ch - ch_Charged ch) (gift_hash req) ts) v
    = if negb (varchar_fits 32 (gq_GiftID req)) then Some ER_DATA_TOO_LONG else None).
  { intros ts. rewrite order_violation_eq; simpl; try done.
    - rewrite H64. by destruct (varchar_fits 32 _).
    - apply Sum256_length.
    - int_bounds. lia. }
  apply wp_bind, wp_now. intros ts2. apply wp_bind, wp_insert_auto; [failed|..].
  { intros Hmax. simpl in Hmax. apply dup_refines; [done|solve_counters|].
    by rewrite Herr, (proj2 (Z.ltb_lt _ _) Hmax). }
  { intros n Hmax Hn. rewrite Hviol in Hn. simpl in Hmax.
    apply dup_refines; [done|solve_counters|].
    rewrite Herr, (proj2 (Z.ltb_ge _ _) Hmax). by destruct (varchar_fits 32 _); simplify_eq/=. }
  intros Hmax Hn. rewrite Hviol in Hn. simpl in Hmax.
  destruct (varchar_fits 32 _) eqn:H32; [|done]. clear Hn.
  rewrite (proj2 (Z.ltb_ge _ _) Hmax) in Herr. simpl in *.
  pose proof (wf_next_order _ _ Hwf). rewrite int64_id_test by lia.
  destruct (max_int64 <? next_gift_order_id c) eqn:Hid.
  { apply wp_ret, accept_failed; [done|solve_counters]. }
  rewrite uint64_int64 by (int_bounds; lia). unfold v. rewrite gift_entries_eq.
  by apply (gift_publish_refines ts1 ts2).
Qed.

Lemma gift_write_refines :
  user_missing t (gq_ViewerID req) = false →
  ends (gift_write req (gift_hash req) ch) c (create_wallet (gq_ViewerID req) t).
Proof.
  intros Hu. unfold gift_write. assert (Hok' := Hok). destruct Hok'.
  assert (Herr : accept_error t c req = accept_error t c req) by done.
  unfold accept_error in Herr at 2.
  apply wp_bind, wp_now. intros ts1. apply wp_bind, wp_insert_auto; [failed|..].
  { intros Hmax. apply dup_refines; [done..|]. by rewrite Herr, (proj2 (Z.ltb_lt _ _) Hmax). }
  { intros n Hmax Hn. apply dup_refines; [done|solve_counters|].
    rewrite wallet_tx_violation_eq in Hn by (done || apply Sum256_length).
    rewrite Herr, (proj2 (Z.ltb_ge _ _)) by done. by repeat case_match; simplify_eq. }
  intros Hmax Hn. rewrite wallet_tx_violation_eq in Hn by (done || apply Sum256_length).
  rewrite (proj2 (Z.ltb_ge _ _) Hmax) in Herr.
  destruct (varchar_fits 64 _) eqn:H64; [|done].
  destruct (existsb _ _) eqn:Hdup; [done|]. clear Hn. simpl in *.
  pose proof (wf_next_tx _ _ Hwf). rewrite int64_id_test by lia.
  destruct (max_int64 <? next_tx_id c) eqn:Hid.
  { apply wp_ret, accept_failed; [done|solve_counters]. }
  bool_to_prop. rewrite uint64_int64 by (int_bounds; lia).
  rewrite gift_entries_eq, SumLedgerEntries_sum. simpl.
  replace (- ch_Charged ch + (ch_Charged ch + 0)) with 0 by lia. rewrite int64_0. simpl.
  apply wp_bind, (wp_insert_posting t c); [done|apply Hty|by right|done|by eapply tx_missing_added|..].
  { failed. }
  rewrite (int64_id (ch_Balance ch - _)) by (int_bounds; lia).
  apply wp_try, wp_modify; [failed|done|]. intros _. rewrite <- gift_entries_eq.
  by eapply gift_order_refines.
Qed.
End accept.

(** *** The policy *)

Lemma valid_quantity : 1 ≤ gq_Quantity req ≤ 99.
Proof.
  unfold gift_invalid in Hval. destruct (_ || String.eqb (TrimSpace (gq_GiftID req)) ""); [done|].
  destruct (_ || (99 <? gq_Quantity req)) eqn:E; [done|]. bool_to_prop. lia.
Qed.

(** A catalogue total fits an int64; it is an uint32 or too large for one. *)
Lemma total_int64 x : is_uint32 x → int64 (x * gq_Quantity req) = x * gq_Quantity req.
Proof. intros Hx. pose proof valid_quantity. apply int64_id. int_bounds. nia. Qed.

Lemma total_uint32 x name :
  0 ≤ x →
  int64ToUint32 x name
  = if max_uint32 <? x then RErr (ErrText (name +:+ " overflow uint32: " +:+ FormatInt x))
    else ROk x.
Proof.
  intros Hx. unfold int64ToUint32. rewrite (proj2 (Z.ltb_ge x 0)) by lia. simpl.
  destruct (max_uint32 <? x) eqn:E; bool_to_prop; [done|].
  by rewrite uint32_id by (int_bounds; lia).
Qed.

Lemma match_points_range m points :
  0 ≤ points → 0 ≤ match_points_of m (gq_GiftID req) points.
Proof. intros Hp. unfold match_points_of. by repeat case_match. Qed.

Lemma balance_int64 u : is_int64 (balance_of t u).
Proof.
  unfold balance_of. destruct (wallet_accounts t !! u) as [a|] eqn:Ea.
  - by apply (wf_balance _ _ Hwf u).
  - int_bounds. lia.
Qed.

Lemma gift_charge_refines campaign g m :
  In g (gift_catalog t) → (∀ k, campaign = Some k → 0 ≤ k ≤ max_int64) →
  gift_decide t req = charge_decision t req campaign g m →
  ends (gift_charge req (gift_hash req) campaign g m) c t.
Proof.
  intros Hg Hcamp Hdec. unfold charge_decision in Hdec. unfold gift_charge.
  assert (Hfail := λ e d He, gift_post_error e d (or_introl He)).
  apply wp_try, wp_modify; [failed|..]; simpl.
  { intros n Hn. destruct (wallet_accounts t !! _); [done|].
    destruct (user_missing t _); simplify_eq. by apply Hfail. }
  intros Hn. assert (Hu : user_missing t (gq_ViewerID req) = false).
  { destruct (wallet_accounts t !! _) eqn:Ea; [by eapply wf_wallet_fk|].
    by destruct (user_missing t _). }
  clear Hn. rewrite Hu in Hdec.
  apply wp_try, wp_query_for_update; [failed|]. cbv beta.
  destruct (create_wallet_balance (gq_ViewerID req) t) as (a & Ha & Hbal). rewrite Ha, Hbal.
  destruct (wf_catalog _ _ Hwf g Hg) as (Hprice & Hpoints & Hdiamond).
  rewrite !total_int64 by done. pose proof valid_quantity as Hq.
  assert (Hpos : ∀ x, is_uint32 x → 0 ≤ x * gq_Quantity req) by (intros; int_bounds; nia).
  pose proof (Hpos _ Hprice). pose proof (Hpos _ Hdiamond).
  pose proof (match_points_range m _ (Hpos _ Hpoints)).
  destruct (gc_CoinPrice g * gq_Quantity req =? 0) eqn:E0; bool_to_prop.
  { rewrite (proj2 (Z.leb_le _ _)) by lia. apply wp_ret, Hfail; done. }
  rewrite (proj2 (Z.leb_gt _ _)), !total_uint32 by lia.
  destruct (max_uint32 <? gc_CoinPrice g * _) eqn:E1.
  { apply wp_try, wp_ret, Hfail; done. }
  apply wp_try, wp_ret. destruct (balance_of t _ <? _) eqn:E2.
  { apply rejectGift_refines with (base := create_wallet (gq_ViewerID req) t); done || (simpl; lia). }
  destruct (max_uint32 <? match_points_of _ _ _) eqn:E3.
  { apply wp_try, wp_ret, Hfail; done. }
  apply wp_try, wp_ret. destruct (max_uint32 <? gc_DiamondReward g * _) eqn:E4.
  { apply wp_try, wp_ret, Hfail; done. }
  apply wp_try, wp_ret, gift_write_refines; [done| |done].
  pose proof (balance_int64 (gq_ViewerID req)). bool_to_prop.
  split; simpl; [lia|int_bounds; lia..|done].
Qed.

Lemma gift_match_refines campaign g :
  In g (gift_catalog t) → (∀ k, campaign = Some k → 0 ≤ k ≤ max_int64) →
  gift_decide t req = match open_match t req with
                      | None => DReject "MATCH_CLOSED" 409 t
                      | Some m => charge_decision t req campaign g m
                      end →
  ends (gift_match req (gift_hash req) campaign g) c t.
Proof.
  intros Hg Hcamp Hdec. unfold gift_match. unfold open_match in Hdec.
  destruct (gq_MatchID req) as [id|]; [|by apply gift_charge_refines].
  apply wp_bind, wp_query; [failed|]. destruct (live_matches t !! id) as [lm|].
  - destruct (_ || _).
    + apply rejectGift_refines with (base := t); done || (simpl; lia).
    + by apply gift_charge_refines.
  - apply rejectGift_refines with (base := t); done || (simpl; lia).
Qed.

Lemma gift_checks_refines : ends (gift_checks req (gift_hash req)) c t.
Proof.
  remember (gift_decide t req) as dec eqn:Hdec. symmetry in Hdec.
  assert (Hdec' := Hdec). unfold gift_decide, enabled_gift, creator_ok in Hdec'.
  assert (Hrej : ∀ code status, dec = DReject code status t →
    printable code = true → (String.length code ≤ 64)%nat →
    ends (rejectGift req (gift_hash req) code status) c t).
  { intros code status -> ? ?. by apply rejectGift_refines with (base := t). }
  unfold gift_checks. apply wp_bind, wp_query; [failed|].
  destruct (live_sessions t !! _) as [s|] eqn:Es; [|apply Hrej; done || (simpl; lia)].
  destruct (scan_null_int64 (ls_CampaignID s)) as [campaign|e] eqn:Ec; cycle 1.
  { assert (He : e = ErrScan).
    { destruct (ls_CampaignID s); simplify_eq/=. unfold scan_int64 in Ec.
      by repeat case_match; simplify_eq. }
    subst e dec. apply wp_ret, gift_post_error; [by left|done]. }
  assert (Hcamp : ∀ k, campaign = Some k → 0 ≤ k ≤ max_int64).
  { intros k ->. destruct (ls_CampaignID s) as [k'|] eqn:Ek; simplify_eq/=.
    pose proof (wf_campaign _ _ Hwf _ _ _ Es Ek). unfold scan_int64 in Ec.
    destruct (_ || _) eqn:E; simplify_eq. bool_to_prop. int_bounds. lia. }
  destruct (negb _); [apply Hrej; done || (simpl; lia)|].
  apply wp_bind, wp_query; [failed|].
  destruct (List.find _ _) as [g|] eqn:Eg; [|apply Hrej; done || (simpl; lia)].
  destruct (gc_Enabled g); simpl; [|apply Hrej; done || (simpl; lia)].
  apply wp_try, wp_bind, wp_query; [failed|].
  apply List.find_some in Eg as [Hg _].
  destruct (users t !! _) as [u|]; apply wp_ret; [|apply Hrej; done || (simpl; lia)].
  destruct (creator_eligible u); simpl in *; [|apply Hrej; done || (simpl; lia)].
  apply gift_match_refines; [done..|]. by rewrite Hdec.
Qed.
End new_request.

Lemma SendGift_unfold req :
  SendGift req = match gift_invalid req with
                 | Some e => Ret (App e)
                 | None => gift_tx req (gift_hash req)
                 end.
Proof. unfold SendGift, gift_invalid. by repeat case_match. Qed.

Lemma replay_order_eq o hash :
  replay_order o hash
  = if bytesEqual (go_BodyHash o) hash then
      match stored_response o with Ok r => Ok (Some r) | App e => App e | Err e => Err e end
    else App errPayloadMismatch.
Proof.
  unfold replay_order, stored_response. destruct (bytesEqual _ _); [|done]. by destruct (go_Status o).
Qed.

Theorem SendGift_refines F t c req :
  wf t c → gift_typed req → wp F (SendGift req) (gift_post F req t c) t c None.
Proof.
  intros Hwf Hty. rewrite SendGift_unfold. destruct (gift_invalid req) as [e|] eqn:Hval.
  { apply wp_ret, gift_post_same; [|done]. intros. unfold gift_atomic. by rewrite Hval. }
  unfold gift_tx. apply wp_with_tx; [failed|].
  destruct (stored_order t req) as [o|] eqn:Hold.
  - assert (Hsame : gift_post F req t c
      (if bytesEqual (go_BodyHash o) (gift_hash req) then stored_response o
       else App errPayloadMismatch) t c None).
    { apply gift_post_same; [|done]. intros. unfold gift_atomic. by rewrite Hval, Hold. }
    apply wp_bind, wp_bind, wp_query_for_update; [intros; do 2 apply wp_ret; failed|].
    unfold stored_order in Hold. rewrite Hold. apply wp_ret. rewrite replay_order_eq.
    destruct (bytesEqual _ _); [|by apply wp_ret].
    destruct (stored_response o); [|by apply wp_ret..].
    apply wp_try, wp_commit; [failed|failed|]. by apply wp_ret.
  - apply wp_bind. apply (replay_nothing F t c req Hold t c); [done|done| |].
    + intros. apply wp_ret. failed.
    + by apply gift_checks_refines.
Qed.
End refinement.

(** ** What the policy decides *)

Section decisions.
Context `{MySQL} `{Unicode}.

(** The conditions under which a gift is accepted, and the totals it is accepted with. *)
Definition acceptable (t : Tables) (req : GiftRequest) (ch : Charge) : Prop :=
  ∃ s g m,
    live_sessions t !! gq_LiveSessionID req = Some s ∧ ls_Status s = LiveSessionsStatusOPEN
    ∧ (∀ k, ls_CampaignID s = Some k → - max_int64 - 1 ≤ k ≤ max_int64)
    ∧ enabled_gift t (gq_GiftID req) = Some g
    ∧ creator_ok t (gq_CreatorID req) = true
    ∧ open_match t req = Some m
    ∧ user_missing t (gq_ViewerID req) = false
    ∧ gc_CoinPrice g * gq_Quantity req ≠ 0
    ∧ gc_CoinPrice g * gq_Quantity req ≤ max_uint32
    ∧ match_points_of m (gq_GiftID req) (gc_MatchPoints g * gq_Quantity req) ≤ max_uint32
    ∧ gc_DiamondReward g * gq_Quantity req ≤ max_uint32
    ∧ gc_CoinPrice g * gq_Quantity req ≤ balance_of t (gq_ViewerID req)
    ∧ ch = {| ch_Balance := balance_of t (gq_ViewerID req);
              ch_Charged := gc_CoinPrice g * gq_Quantity req;
              ch_MatchPoints := match_points_of m (gq_GiftID req) (gc_MatchPoints g * gq_Quantity req);
              ch_Diamond := gc_DiamondReward g * gq_Quantity req;
              ch_ChargedU32 := gc_CoinPrice g * gq_Quantity req;
              ch_MatchPointsU32 := match_points_of m (gq_GiftID req) (gc_MatchPoints g * gq_Quantity req);
              ch_DiamondU32 := gc_DiamondReward g * gq_Quantity req;
              ch_Campaign := ls_CampaignID s |}.

Lemma scan_null_int64_ok v x :
  scan_null_int64 v = ROk x ↔ x = v ∧ ∀ k, v = Some k → - max_int64 - 1 ≤ k ≤ max_int64.
Proof.
  destruct v as [k|]; simpl; [|split; [by intros [=]|by intros [-> _]]].
  unfold scan_int64. destruct (_ || _) eqn:E; split.
  - done.
  - intros [-> Hk]. specialize (Hk k eq_refl). apply orb_true_iff in E as [E|E]; bool_to_prop; lia.
  - intros [= <-]. split; [done|]. intros k' [= <-]. bool_to_prop. lia.
  - by intros [-> _].
Qed.

Lemma charge_decision_accept t req campaign g m ch :
  charge_decision t req campaign g m = DAccept ch →
  user_missing t (gq_ViewerID req) = false
  ∧ gc_CoinPrice g * gq_Quantity req ≠ 0
  ∧ gc_CoinPrice g * gq_Quantity req ≤ max_uint32
  ∧ match_points_of m (gq_GiftID req) (gc_MatchPoints g * gq_Quantity req) ≤ max_uint32
  ∧ gc_DiamondReward g * gq_Quantity req ≤ max_uint32
  ∧ gc_CoinPrice g * gq_Quantity req ≤ balance_of t (gq_ViewerID req).
Proof.
  unfold charge_decision. intros Hch. repeat (case_match; simplify_eq). bool_to_prop. auto 10.
Qed.

Lemma gift_decide_accept t req ch : gift_decide t req = DAccept ch ↔ acceptable t req ch.
Proof.
  split.
  - unfold gift_decide. intros Hd.
    destruct (live_sessions t !! _) as [s|] eqn:Es; [|done].
    destruct (scan_null_int64 _) as [campaign|] eqn:Ec; [|done].
    apply scan_null_int64_ok in Ec as [-> Hk].
    destruct (negb _) eqn:Eo; [done|]. destruct (enabled_gift _ _) as [g|] eqn:Eg; [|done].
    destruct (negb (creator_ok _ _)) eqn:Ec; [done|].
    destruct (open_match t req) as [m|] eqn:Em; [|done]. bool_to_prop.
    exists s, g, m. pose proof (charge_decision_accept _ _ _ _ _ _ Hd) as Hfacts.
    assert (Hst : ls_Status s = LiveSessionsStatusOPEN) by (by destruct (ls_Status s)).
    destruct Hfacts as (Hu & H1 & H2 & H3 & H4 & H5). split_and!; auto.
    unfold charge_decision in Hd. by repeat (case_match; simplify_eq).
  - intros (s & g & m & Hs & Ho & Hk & Hg & Hc & Hm & Hu & H1 & H2 & H3 & H4 & H5 & ->).
    unfold gift_decide. rewrite Hs, Ho. rewrite (proj2 (scan_null_int64_ok _ _) (conj eq_refl Hk)).
    simpl. rewrite Hg, Hc, Hm. simpl. unfold charge_decision.
    rewrite Hu, (proj2 (Z.eqb_neq _ _)) by done. by rewrite !(proj2 (Z.ltb_ge _ _)).
Qed.

(** Rejections: only one of them has touched the wallet, and only to create it. *)
Lemma gift_decide_reject t req code status base :
  gift_decide t req = DReject code status base →
  base = t ∨ base = create_wallet (gq_ViewerID req) t ∧ user_missing t (gq_ViewerID req) = false.
Proof.
  unfold gift_decide, charge_decision. intros Hd.
  repeat (case_match; simplify_eq; auto).
Qed.

Lemma acceptable_charge t c req ch :
  wf t c → gift_invalid req = None → gift_decide t req = DAccept ch →
  charge_ok ch ∧ ch_Balance ch = balance_of t (gq_ViewerID req)
  ∧ user_missing t (gq_ViewerID req) = false
  ∧ ch_ChargedU32 ch = ch_Charged ch ∧ ch_MatchPointsU32 ch = ch_MatchPoints ch
  ∧ ch_DiamondU32 ch = ch_Diamond ch.
Proof.
  intros Hwf Hval Hd. apply gift_decide_accept in Hd
    as (s & g & m & Hs & Ho & Hk & Hg & Hc & Hm & Hu & H1 & H2 & H3 & H4 & H5 & ->).
  split_and!; [|done..]. pose proof (valid_quantity req Hval).
  assert (Hin : In g (gift_catalog t)).
  { unfold enabled_gift in Hg. destruct (List.find _ _) as [g'|] eqn:E; [|done].
    apply List.find_some in E as [Hin _]. by case_match; simplify_eq. }
  destruct (wf_catalog _ _ Hwf g Hin) as (? & ? & ?).
  pose proof (balance_int64 t c Hwf (gq_ViewerID req)).
  assert (0 ≤ match_points_of m (gq_GiftID req) (gc_MatchPoints g * gq_Quantity req)).
  { apply match_points_range. int_bounds. nia. }
  split; simpl; [int_bounds; nia|int_bounds; lia|int_bounds; nia|int_bounds; lia|].
  intros k Ek. specialize (Hk k Ek). pose proof (wf_campaign _ _ Hwf _ _ _ Hs Ek).
  int_bounds. lia.
Qed.
End decisions.
