(* ===== verification/Invariants.v ===== *)
(** * The ledger invariant

    What every committed database satisfies beyond the schema: each transaction has exactly its two
    postings, which cancel; accepted gift orders and GIFT_DEBIT transactions match one to one, with
    the same amount; so do recharge requests and RECHARGE transactions; each balance is the opening
    balance plus the postings of the user's account; and each transaction and each gift order has
    its outbox event. [Recharge] and [SendGift] preserve it. *)

From S2P Require Import Prelude GoInt GoStrings Sha256 Json Schema Prog Sql Wp Events Ledger WellFormed Preserve Money Recharge Gift GiftSpec.

Definition amount_ok (ty : WalletTransactionsTxType) (a : Z) : Prop :=
  match ty with
  | WalletTransactionsTxTypeRECHARGE => 1 ≤ a ≤ 100000
  | WalletTransactionsTxTypeGIFTDEBIT => - max_uint32 ≤ a ≤ -1
  end.

(** Transaction [r] moved [a] coins into the account of its user. *)
Definition posted (t : Tables) (r : WalletTransaction) (a : Z) : Prop :=
  amount_ok (wt_TxType r) a
  ∧ postings t (wt_TxID r) = map (entry_row (wt_TxID r)) (posting_entries r a).

Definition accepted (o : GiftOrder) : Prop := go_Status o = GiftOrdersStatusACCEPTED.

Definition is_accepted (o : GiftOrder) : bool := bool_decide (accepted o).

(** The accepted orders of the database. *)
Definition accepted_orders (t : Tables) : list GiftOrder := where_ is_accepted (gift_orders t).

(** [r] is the debit of order [o], by the key the settlement joins on. *)
Definition debit_of (o : GiftOrder) (r : WalletTransaction) : Prop :=
  wt_TxType r = txTypeGiftDebit ∧ wt_ActorUserID r = go_ViewerID o ∧ wt_RequestID r = go_RequestID o.

(** [r] is the transaction of recharge [q]. *)
Definition topup_of (q : RechargeRequestRow) (r : WalletTransaction) : Prop :=
  wt_TxType r = txTypeRecharge ∧ wt_TxID r = rq_TxID q ∧ wt_ActorUserID r = rq_ViewerID q
  ∧ wt_RequestID r = rq_RequestID q.

(** The coins a user has bought. *)
Definition recharged (t : Tables) (user : Z) : Z :=
  sum_of rq_Coins (where_ (λ q, rq_ViewerID q =? user) (recharge_requests t)).

(** An outbox row that carries the document of [v]. *)
Definition carries `{MySQL} {A} `{ToJson A} (topic : string) (v : A) (e : OutboxEvent) : Prop :=
  ob_Topic e = topic ∧ json_store (marshal (to_json v)) = Some (ob_PayloadJson e).

Definition wallet_event (r : WalletTransaction) (a balance : Z) : WalletTransactionPostedV1 :=
  {| ev_TxID := wt_TxID r; ev_TxType := enum_text (wt_TxType r); ev_ActorUserID := wt_ActorUserID r;
     ev_RequestID := wt_RequestID r; ev_DeltaCoins := a; ev_BalanceAfter := balance |}.

Definition accepted_event (o : GiftOrder) (campaign : option Z) : LiveGiftAcceptedV1 :=
  {| ga_EventType := giftAcceptedTopic; ga_GiftOrderID := go_GiftOrderID o;
     ga_ViewerID := go_ViewerID o; ga_CreatorID := go_CreatorID o;
     ga_LiveSessionID := go_LiveSessionID o; ga_CampaignID := campaign; ga_MatchID := go_MatchID o;
     ga_GiftID := go_GiftID o; ga_Quantity := go_Quantity o; ga_ChargedCoins := go_ChargedCoins o;
     ga_MatchPoints := go_MatchPointsAdded o; ga_DiamondReward := go_DiamondReward o;
     ga_RequestID := go_RequestID o |}.

Definition rejected_event (o : GiftOrder) (code : string) : LiveGiftRejectedV1 :=
  {| gr_EventType := giftRejectedTopic; gr_ViewerID := go_ViewerID o;
     gr_CreatorID := go_CreatorID o; gr_LiveSessionID := go_LiveSessionID o;
     gr_MatchID := go_MatchID o; gr_GiftID := go_GiftID o; gr_Quantity := go_Quantity o;
     gr_RequestID := go_RequestID o; gr_RejectCode := code |}.

Section invariant.
Context `{MySQL}.

(** The event of a gift order. *)
Definition order_announced (t : Tables) (o : GiftOrder) : Prop :=
  ∃ e, In e (outbox_events t) ∧
    match go_Status o with
    | GiftOrdersStatusACCEPTED => ∃ campaign, carries giftAcceptedTopic (accepted_event o campaign) e
    | GiftOrdersStatusREJECTED =>
        ∃ code, go_RejectCode o = Some code ∧ carries giftRejectedTopic (rejected_event o code) e
    end.

Record ledger_ok (opening : Z → Z) (t : Tables) : Prop := {
  lo_posted : ∀ r, In r (wallet_transactions t) → is_uint64 (wt_ActorUserID r) ∧ ∃ a, posted t r a;
  lo_order : ∀ o, In o (gift_orders t) → accepted o →
    ∃ r, In r (wallet_transactions t) ∧ debit_of o r ∧ posted t r (- go_ChargedCoins o);
  lo_debit : ∀ r, In r (wallet_transactions t) → wt_TxType r = txTypeGiftDebit →
    ∃ o, In o (gift_orders t) ∧ accepted o ∧ debit_of o r;
  lo_recharge : ∀ q, In q (recharge_requests t) →
    ∃ r, In r (wallet_transactions t) ∧ topup_of q r ∧ posted t r (rq_Coins q);
  lo_topup : ∀ r, In r (wallet_transactions t) → wt_TxType r = txTypeRecharge →
    ∃ q, In q (recharge_requests t) ∧ topup_of q r;
  lo_balance : ∀ u, is_uint64 u → balance_of t u = int64 (opening u + user_total t u);
  lo_bought : ∀ u, is_uint64 u → user_total t u ≤ recharged t u;
  lo_solvent : ∀ u, is_uint64 u → 0 ≤ opening u → opening u + recharged t u ≤ max_int64 →
    0 ≤ opening u + user_total t u;
  lo_tx_event : ∀ r, In r (wallet_transactions t) →
    ∃ e a balance, In e (outbox_events t) ∧ posted t r a
                   ∧ carries (A:=WalletTransactionPostedV1) walletTopic (wallet_event r a balance) e;
  lo_order_event : ∀ o, In o (gift_orders t) → order_announced t o
}.

(** The schema and the ledger together. *)
Definition db_ok (opening : Z → Z) (t : Tables) (c : Counters) : Prop :=
  wf t c ∧ ledger_ok opening t.
End invariant.

(** ** One posting and the invariant *)

Section posting.
Context `{MySQLLaws} (opening : Z → Z) (t : Tables) (c : Counters).
Context (Hwf : wf t c) (Hledger : ledger_ok opening t).
Context (r : WalletTransaction) (a balance : Z).
Context (Hid : wt_TxID r = next_tx_id c) (Hactor : is_uint64 (wt_ActorUserID r))
  (Hamount : amount_ok (wt_TxType r) a)
  (Hbalance : balance = int64 (balance_of t (wt_ActorUserID r) + a)).

Lemma posted_old r' a' :
  In r' (wallet_transactions t) → posted t r' a' → posted (money r a balance t) r' a'.
Proof.
  intros Hr' [Ha Hp]. split; [done|]. rewrite money_postings_old; [done|].
  pose proof (wf_tx_id _ _ Hwf r' Hr'). lia.
Qed.

Lemma posted_new : posted (money r a balance t) r a.
Proof.
  split; [done|]. apply money_postings_new. intros e He.
  pose proof (wf_no_entries _ _ _ Hwf He). lia.
Qed.

Lemma money_posted r' :
  In r' (wallet_transactions t ++ [r]) →
  is_uint64 (wt_ActorUserID r') ∧ ∃ a', posted (money r a balance t) r' a'.
Proof.
  intros Hr'. apply in_app_or in Hr' as [Hr'|[<-|[]]].
  - destruct (lo_posted _ _ Hledger r' Hr') as (Hu & a' & Ha'). eauto using posted_old.
  - eauto using posted_new.
Qed.

Lemma money_balance_ok u :
  is_uint64 u →
  balance_of (money r a balance t) u = int64 (opening u + user_total (money r a balance t) u).
Proof.
  intros Hu. rewrite money_balance, money_total by done.
  destruct (u =? wt_ActorUserID r) eqn:E; bool_to_prop.
  - subst u. rewrite Hbalance, (lo_balance _ _ Hledger) by done.
    rewrite int64_add_idemp. f_equal. lia.
  - rewrite (lo_balance _ _ Hledger) by done. f_equal. lia.
Qed.

(** When no balance can overflow, the wallet row is the exact total. *)
Lemma balance_exact u :
  is_uint64 u → 0 ≤ opening u → opening u + recharged t u ≤ max_int64 →
  balance_of t u = opening u + user_total t u ∧ 0 ≤ balance_of t u.
Proof.
  intros Hu Ho Hmax. rewrite (lo_balance _ _ Hledger) by done.
  pose proof (lo_solvent _ _ Hledger u Hu Ho Hmax). pose proof (lo_bought _ _ Hledger u Hu).
  rewrite int64_id; int_bounds; lia.
Qed.

(** The old events are still in the outbox. *)
Lemma tx_event_old r' evs :
  In r' (wallet_transactions t) →
  ∃ e a' b', In e (outbox_events t ++ evs) ∧ posted (money r a balance t) r' a'
    ∧ carries (A:=WalletTransactionPostedV1) walletTopic (wallet_event r' a' b') e.
Proof.
  intros Hr'. destruct (lo_tx_event _ _ Hledger r' Hr') as (e & a' & b' & He & Hp & Hc).
  exists e, a', b'. split_and!; [auto using in_or_app|by apply posted_old|done].
Qed.

(** A stored payload is what the outbox insert wrote. *)
Lemma carries_stored {A} `{FlatPayload A} topic (v : A) id key ts :
  carries topic v
    {| ob_EventID := id; ob_Topic := topic; ob_EventKey := key;
       ob_PayloadJson := default (marshal (to_json v)) (json_store (marshal (to_json v)));
       ob_PublishedAt := None; ob_CreatedAt := ts |}.
Proof. split; [done|]. simpl. by destruct (payload_stored v) as [doc ->]. Qed.
End posting.

Lemma order_announced_more `{MySQL} t t' o evs :
  outbox_events t' = outbox_events t ++ evs → order_announced t o → order_announced t' o.
Proof. intros Ht (e & He & Hc). exists e. rewrite Ht. auto using in_or_app. Qed.

(** ** [Recharge] *)

Section recharge.
Context `{MySQLLaws} (opening : Z → Z) (t : Tables) (c : Counters) (req : RechargeRequest).
Context (Hwf : wf t c) (Hledger : ledger_ok opening t) (Hty : recharge_typed req)
  (Hval : recharge_invalid req = None)
  (Hnew : List.find (same_recharge (rc_ViewerID req) (rc_RequestID req)) (recharge_requests t) = None)
  (Herr : recharge_error t c req = None).

Lemma recharge_coins : 1 ≤ rc_Coins req ≤ 100000.
Proof.
  unfold recharge_invalid in Hval. destruct (_ || String.eqb (TrimSpace (rc_PaymentRef req)) ""); [done|].
  destruct (_ || (100000 <? rc_Coins req)) eqn:E; [done|]. bool_to_prop. lia.
Qed.

Lemma recharge_error_facts :
  user_missing t (rc_ViewerID req) = false
  ∧ existsb (same_wallet_tx txTypeRecharge (rc_ViewerID req) (rc_RequestID req))
      (wallet_transactions t) = false.
Proof. unfold recharge_error in Herr. by repeat case_match. Qed.

Definition recharge_tx_row (ts : Z) : WalletTransaction :=
  {| wt_TxID := next_tx_id c; wt_TxType := txTypeRecharge; wt_ActorUserID := rc_ViewerID req;
     wt_RequestID := rc_RequestID req; wt_BodyHash := Some (recharge_hash req);
     wt_CreatedAt := ts |}.

Abbreviation new_balance := (int64 (balance_of t (rc_ViewerID req) + rc_Coins req)).

Definition recharge_row (ts : Z) : RechargeRequestRow :=
  {| rq_ViewerID := rc_ViewerID req; rq_RequestID := rc_RequestID req;
     rq_BodyHash := recharge_hash req; rq_Coins := rc_Coins req;
     rq_PaymentRef := rc_PaymentRef req; rq_ResultingBalance := new_balance;
     rq_TxID := next_tx_id c; rq_CreatedAt := ts |}.

Lemma recharge_commit_eq ts1 ts2 ts3 :
  recharge_commit t c req ts1 ts2 ts3
  = add_outbox walletTopic (FormatUint (rc_ViewerID req))
      (marshal (to_json (wallet_event (recharge_tx_row ts1) (rc_Coins req) new_balance)))
      ts3 (next_event_id c)
      (set_recharge_requests (λ l, l ++ [recharge_row ts2])
         (money (recharge_tx_row ts1) (rc_Coins req) new_balance t)).
Proof.
  unfold recharge_commit, BuildRechargeEntries. pose proof recharge_coins.
  rewrite (int64_id (- rc_Coins req)) by (int_bounds; lia). done.
Qed.

Lemma wf_recharge_commit ts1 ts2 ts3 :
  wf (recharge_commit t c req ts1 ts2 ts3) (bump_event_id (bump_tx_id c)).
Proof.
  rewrite recharge_commit_eq. destruct recharge_error_facts as [Hu Hdup].
  apply (wf_add_outbox _ _ _ _ _ (bump_tx_id c)), wf_add_recharge.
  - apply wf_money; auto using int64_range. apply Hty.
  - by eapply tx_missing_added.
  - intros y Hy [= Hv Hr]. rewrite find_none_iff in Hnew. specialize (Hnew y Hy).
    unfold same_recharge in Hnew. rewrite Hv, Z.eqb_refl in Hnew. simpl in Hnew.
    by rewrite <- not_true_iff_false, coll_eq_spec in Hnew.
Qed.

Lemma recharged_commit ts1 ts2 ts3 u :
  recharged (recharge_commit t c req ts1 ts2 ts3) u
  = recharged t u + (if u =? rc_ViewerID req then rc_Coins req else 0).
Proof.
  unfold recharged. simpl. rewrite where_app, sum_of_app. f_equal. simpl.
  rewrite (Z.eqb_sym (rc_ViewerID req) u). destruct (u =? rc_ViewerID req); simpl; lia.
Qed.

Lemma ledger_recharge_commit ts1 ts2 ts3 :
  ledger_ok opening (recharge_commit t c req ts1 ts2 ts3).
Proof.
  pose proof recharge_coins as Hcoins. pose proof (recharged_commit ts1 ts2 ts3) as Hrech.
  rewrite recharge_commit_eq in *. set (r := recharge_tx_row ts1) in *.
  assert (Hactor : is_uint64 (wt_ActorUserID r)) by apply Hty.
  assert (Hold := λ r' a', posted_old t c Hwf r (rc_Coins req) new_balance eq_refl r' a').
  assert (Hpnew := posted_new t c Hwf r (rc_Coins req) new_balance eq_refl Hcoins).
  split; simpl.
  - intros r' Hr'. by apply (money_posted opening t c Hwf Hledger r).
  - intros o Ho Hacc. destruct (lo_order _ _ Hledger o Ho Hacc) as (r' & ? & ? & ?).
    exists r'. split_and!; [auto using in_or_app|done|]. by apply Hold.
  - intros r' Hr' Hd. apply in_app_or in Hr' as [Hr'|[<-|[]]]; [|done]. by apply (lo_debit _ _ Hledger).
  - intros q Hq. apply in_app_or in Hq as [Hq|[<-|[]]].
    + destruct (lo_recharge _ _ Hledger q Hq) as (r' & ? & ? & ?).
      exists r'. split_and!; [auto using in_or_app|done|]. by apply Hold.
    + exists r. split_and!; [apply in_or_app; right; by left|done|done].
  - intros r' Hr' Hd. apply in_app_or in Hr' as [Hr'|[<-|[]]].
    + destruct (lo_topup _ _ Hledger r' Hr' Hd) as (q & ? & ?). eauto using in_or_app.
    + exists (recharge_row ts2). split; [apply in_or_app; right; by left|done].
  - intros u Hu. by apply (money_balance_ok opening t Hledger r).
  - intros u Hu. rewrite Hrech. pose proof (lo_bought _ _ Hledger u Hu).
    etrans; [by apply Z.eq_le_incl, (money_total r)|]. simpl. destruct (u =? _); lia.
  - intros u Hu Ho Hmax. rewrite Hrech in Hmax.
    assert (0 ≤ opening u + user_total t u).
    { apply (lo_solvent _ _ Hledger); [done..|]. destruct (u =? _); lia. }
    change (0 ≤ opening u + user_total (money r (rc_Coins req) new_balance t) u).
    rewrite (money_total r) by done. simpl. destruct (u =? _); lia.
  - intros r' Hr'. apply in_app_or in Hr' as [Hr'|[<-|[]]].
    + by apply (tx_event_old opening t c).
    + eexists _, (rc_Coins req), new_balance.
      split; [apply in_or_app; right; by left|]. split; [done|].
      apply carries_stored.
  - intros o Ho. eapply order_announced_more; [done|]. by apply (lo_order_event _ _ Hledger).
Qed.
End recharge.

(** ** [SendGift] *)

(** Creating an empty wallet changes no balance. *)
Lemma ledger_create_wallet `{MySQL} opening t u :
  ledger_ok opening t → ledger_ok opening (create_wallet u t).
Proof.
  intros []. split; try done. intros v Hv.
  etrans; [|apply (lo_balance0 v Hv)]. unfold balance_of, create_wallet. simpl.
  destruct (wallet_accounts t !! u) eqn:E; [done|].
  destruct (decide (v = u)) as [->|Hne]; [by rewrite lookup_insert_eq, E|by rewrite lookup_insert_ne].
Qed.

Section gift.
Context `{MySQLLaws} `{Unicode} (opening : Z → Z) (t : Tables) (c : Counters) (req : GiftRequest).
Context (Hwf : wf t c) (Hledger : ledger_ok opening t) (Hty : gift_typed req)
  (Hval : gift_invalid req = None) (Hnew : stored_order t req = None).

Lemma fresh_order o :
  go_ViewerID o = gq_ViewerID req → go_RequestID o = gq_RequestID req →
  ∀ y, In y (gift_orders t) → gift_order_key y ≠ gift_order_key o.
Proof.
  intros Hv Hr y Hy [= Hv' Hr']. unfold stored_order in Hnew. rewrite find_none_iff in Hnew.
  specialize (Hnew y Hy). unfold same_gift_order in Hnew.
  rewrite Hv', Hv, Z.eqb_refl in Hnew. simpl in Hnew. rewrite Hr in Hr'.
  by rewrite <- not_true_iff_false, coll_eq_spec in Hnew.
Qed.

(** *** Rejected *)

Lemma wf_reject_commit code status base ts1 ts2 :
  gift_decide t req = DReject code status base →
  wf (reject_commit c req code base ts1 ts2) (bump_event_id (bump_gift_order_id c)).
Proof.
  intros Hd. apply gift_decide_reject in Hd as [->|[-> Hu]];
    apply (wf_add_outbox _ _ _ _ _ (bump_gift_order_id c)), wf_add_order; try done;
    try (by apply wf_create_wallet); by apply fresh_order.
Qed.

(** A rejected order moves no money and announces itself. *)
Lemma ledger_rejected_order code ts1 ts2 base :
  ledger_ok opening base → gift_orders base = gift_orders t →
  ledger_ok opening (reject_commit c req code base ts1 ts2).
Proof.
  intros [] Hsame. unfold reject_commit.
  set (o := with_order_id (rejected_order req code (gift_hash req) ts1) (next_gift_order_id c)).
  split; simpl; try done.
  - intros o' Ho' Hacc. apply in_app_or in Ho' as [Ho'|[<-|[]]]; [|done]. by apply lo_order0.
  - intros r Hr Hd. destruct (lo_debit0 r Hr Hd) as (o' & ? & ?). eauto using in_or_app.
  - intros r Hr. destruct (lo_tx_event0 r Hr) as (e & a & b & He & Hp & Hc).
    exists e, a, b. split; [auto using in_or_app|done].
  - intros o' Ho'. apply in_app_or in Ho' as [Ho'|[<-|[]]].
    + eapply order_announced_more; [done|]. by apply lo_order_event0.
    + eexists. split; [apply in_or_app; right; by left|]. exists code. split; [done|].
      apply (carries_stored (A:=LiveGiftRejectedV1)).
Qed.

Lemma ledger_reject_commit code status base ts1 ts2 :
  gift_decide t req = DReject code status base →
  ledger_ok opening (reject_commit c req code base ts1 ts2).
Proof.
  intros Hd. apply gift_decide_reject in Hd as [->|[-> Hu]]; apply ledger_rejected_order; try done.
  by apply ledger_create_wallet.
Qed.

(** *** Accepted *)
Context (ch : Charge) (Hdec : gift_decide t req = DAccept ch) (Herr : accept_error t c req = None).

Definition gift_tx_row (ts : Z) : WalletTransaction :=
  {| wt_TxID := next_tx_id c; wt_TxType := txTypeGiftDebit; wt_ActorUserID := gq_ViewerID req;
     wt_RequestID := gq_RequestID req; wt_BodyHash := Some (gift_hash req); wt_CreatedAt := ts |}.

Definition gift_order_row (ts : Z) : GiftOrder :=
  with_order_id
    (accepted_order req (ch_Charged ch) (ch_MatchPoints ch) (ch_Diamond ch)
       (ch_Balance ch - ch_Charged ch) (gift_hash req) ts) (next_gift_order_id c).

Lemma accept_commit_eq ts1 ts2 ts3 ts4 :
  accept_commit t c req ch ts1 ts2 ts3 ts4
  = accept_events c req ch ts3 ts4
      (add_gift_order (gift_order_row ts2)
         (money (gift_tx_row ts1) (- ch_Charged ch) (ch_Balance ch - ch_Charged ch) t)).
Proof.
  unfold accept_commit, accept_rows, money, posting_entries. simpl. by rewrite Z.opp_involutive.
Qed.

Lemma accept_new_tx :
  existsb (same_wallet_tx txTypeGiftDebit (gq_ViewerID req) (gq_RequestID req))
    (wallet_transactions t) = false.
Proof. unfold accept_error in Herr. by repeat case_match. Qed.

Lemma wf_accept_commit ts1 ts2 ts3 ts4 :
  wf (accept_commit t c req ch ts1 ts2 ts3 ts4)
    (bump_event_id (bump_event_id (bump_gift_order_id (bump_tx_id c)))).
Proof.
  rewrite accept_commit_eq.
  destruct (acceptable_charge t c req ch Hwf Hval Hdec) as (Hok & Hbal & Hu & _). destruct Hok.
  apply (wf_add_outbox _ _ _ _ _ (bump_event_id (bump_gift_order_id (bump_tx_id c)))).
  apply (wf_add_outbox _ _ _ _ _ (bump_gift_order_id (bump_tx_id c))).
  apply wf_add_order; [|done|by apply fresh_order|simpl; int_bounds; lia].
  apply wf_money; try done; [apply Hty|int_bounds; lia|apply accept_new_tx].
Qed.

Lemma accept_announced ts1 ts2 ts3 ts4 :
  order_announced (accept_commit t c req ch ts1 ts2 ts3 ts4) (gift_order_row ts2).
Proof.
  destruct (acceptable_charge t c req ch Hwf Hval Hdec) as (_ & _ & _ & Hc & Hm & Hd).
  rewrite accept_commit_eq. unfold accept_events. rewrite Hc, Hm, Hd.
  eexists. split; [apply in_or_app; right; by left|]. exists (ch_Campaign ch).
  apply (carries_stored (A:=LiveGiftAcceptedV1)).
Qed.

(** The debit leaves the account of a solvent user solvent. *)
Lemma accept_solvent ts u :
  let t' := money (gift_tx_row ts) (- ch_Charged ch) (ch_Balance ch - ch_Charged ch) t in
  is_uint64 u → 0 ≤ opening u → opening u + recharged t u ≤ max_int64 →
  0 ≤ opening u + user_total t' u.
Proof.
  intros t' Hu Ho Hmax. unfold t'. rewrite money_total by (done || apply Hty). simpl.
  destruct (acceptable_charge t c req ch Hwf Hval Hdec) as (Hok & Hbal & _). destruct Hok.
  destruct (balance_exact opening t Hledger u Hu Ho Hmax) as [Heq Hpos].
  destruct (u =? gq_ViewerID req) eqn:E; bool_to_prop; [subst u|]; lia.
Qed.

Lemma ledger_accept_commit ts1 ts2 ts3 ts4 :
  ledger_ok opening (accept_commit t c req ch ts1 ts2 ts3 ts4).
Proof.
  pose proof (accept_announced ts1 ts2 ts3 ts4) as Hann. rewrite accept_commit_eq in *.
  destruct (acceptable_charge t c req ch Hwf Hval Hdec) as (Hok & Hbal & Hu & _). destruct Hok.
  set (r := gift_tx_row ts1) in *. set (o := gift_order_row ts2) in *.
  set (b := ch_Balance ch - ch_Charged ch) in *.
  assert (Hactor : is_uint64 (wt_ActorUserID r)) by apply Hty.
  assert (Hamount : amount_ok (wt_TxType r) (- ch_Charged ch)) by (simpl; lia).
  assert (Hb : b = int64 (balance_of t (wt_ActorUserID r) + - ch_Charged ch)).
  { simpl. rewrite <- Hbal. rewrite int64_id; unfold b; int_bounds; lia. }
  assert (Hold := λ r' a', posted_old t c Hwf r (- ch_Charged ch) b eq_refl r' a').
  assert (Hpnew := posted_new t c Hwf r (- ch_Charged ch) b eq_refl Hamount).
  split; simpl.
  - intros r' Hr'. by apply (money_posted opening t c Hwf Hledger r).
  - intros o' Ho' Hacc. apply in_app_or in Ho' as [Ho'|[<-|[]]].
    + destruct (lo_order _ _ Hledger o' Ho' Hacc) as (r' & ? & ? & ?).
      exists r'. split_and!; [auto using in_or_app|done|]. by apply Hold.
    + exists r. split_and!; [apply in_or_app; right; by left|done|done].
  - intros r' Hr' Hd. apply in_app_or in Hr' as [Hr'|[<-|[]]].
    + destruct (lo_debit _ _ Hledger r' Hr' Hd) as (o' & ? & ?). eauto using in_or_app.
    + exists o. split_and!; [apply in_or_app; right; by left|done|done].
  - intros q Hq. destruct (lo_recharge _ _ Hledger q Hq) as (r' & ? & ? & ?).
    exists r'. split_and!; [auto using in_or_app|done|]. by apply Hold.
  - intros r' Hr' Hd. apply in_app_or in Hr' as [Hr'|[<-|[]]]; [|done].
    by apply (lo_topup _ _ Hledger).
  - intros u Hu'. by apply (money_balance_ok opening t Hledger r).
  - intros u Hu'. etrans; [|by apply (lo_bought _ _ Hledger u)].
    etrans; [by apply Z.eq_le_incl, (money_total r)|]. simpl. destruct (u =? _); lia.
  - intros u Hu' Ho Hmax. by apply (accept_solvent ts1).
  - intros r' Hr'. apply in_app_or in Hr' as [Hr'|[<-|[]]].
    + rewrite <- app_assoc. by apply (tx_event_old opening t c).
    + eexists _, (- ch_Charged ch), b.
      split; [apply in_or_app; left; apply in_or_app; right; by left|].
      split; [done|]. apply (carries_stored (A:=WalletTransactionPostedV1)).
  - intros o' Ho'. apply in_app_or in Ho' as [Ho'|[<-|[]]]; [|done].
    eapply order_announced_more; [simpl; by rewrite <- app_assoc|].
    by apply (lo_order_event _ _ Hledger).
Qed.
End gift.

(** ** Operations that move no money *)

(** The outbox only grows, up to the publication marks of its rows. *)
Definition outbox_kept (t t' : Tables) : Prop :=
  ∀ e, In e (outbox_events t) →
    ∃ e', In e' (outbox_events t') ∧ ob_Topic e' = ob_Topic e ∧ ob_PayloadJson e' = ob_PayloadJson e.

Lemma outbox_kept_app t t' evs :
  outbox_events t' = outbox_events t ++ evs → outbox_kept t t'.
Proof. intros Ht e He. exists e. rewrite Ht. auto using in_or_app. Qed.

Lemma outbox_kept_same t t' : outbox_events t' = outbox_events t → outbox_kept t t'.
Proof. intros Ht. apply (outbox_kept_app t t' []). by rewrite app_nil_r. Qed.

Lemma ledger_frame `{MySQL} opening t t' :
  ledger_ok opening t →
  wallet_transactions t' = wallet_transactions t → wallet_entries t' = wallet_entries t →
  wallet_accounts t' = wallet_accounts t → gift_orders t' = gift_orders t →
  recharge_requests t' = recharge_requests t → outbox_kept t t' →
  ledger_ok opening t'.
Proof.
  intros [] Htx Hen Hac Hgo Hrq Hout.
  assert (Hp : ∀ r a, posted t' r a ↔ posted t r a) by (intros; unfold posted, postings; by rewrite Hen).
  assert (Htot : ∀ u, user_total t' u = user_total t u) by (intros; unfold user_total; by rewrite Hen).
  assert (Hbal : ∀ u, balance_of t' u = balance_of t u) by (intros; unfold balance_of; by rewrite Hac).
  assert (Hrech : ∀ u, recharged t' u = recharged t u) by (intros; unfold recharged; by rewrite Hrq).
  split; rewrite ?Htx, ?Hgo, ?Hrq; try (setoid_rewrite Hp; done).
  - done.
  - done.
  - intros u Hu. rewrite Hbal, Htot. auto.
  - intros u Hu. rewrite Hrech, Htot. auto.
  - intros u Hu. rewrite Hrech, Htot. auto.
  - intros r Hr. destruct (lo_tx_event0 r Hr) as (e & a & b & He & Hpo & Hto & Hdoc).
    destruct (Hout e He) as (e' & He' & Ht & Hd). exists e', a, b. rewrite Hp.
    split; [done|]. split; [done|]. split; congruence.
  - intros o Ho. destruct (lo_order_event0 o Ho) as (e & He & Hc).
    destruct (Hout e He) as (e' & He' & Ht & Hd). exists e'. split; [done|].
    unfold carries in *. by rewrite Ht, Hd.
Qed.

(** ** Settling keeps the invariant *)

Lemma db_ok_settles `{MySQL} opening F {A} (failed : A) t c a x t' c' :
  db_ok opening t c → db_ok opening a.1.2 a.2 → settles F failed t c a x t' c' →
  db_ok opening t' c'.
Proof.
  intros [Hwf Hl] [Hwf' Hl'] [(_ & -> & Hc)|(_ & _ & [[-> Hc]|[-> Hc]])];
    (split; [by eapply wf_counters|done]).
Qed.

Lemma wf_settles `{MySQL} F {A} (failed : A) t c a x t' c' :
  wf t c → wf a.1.2 a.2 → settles F failed t c a x t' c' → wf t' c'.
Proof.
  intros Hwf Hwf' [(_ & -> & Hc)|(_ & _ & [[-> Hc]|[-> Hc]])]; by eapply wf_counters.
Qed.

Lemma recharge_atomic_wf `{MySQLLaws} t c req ts1 ts2 ts3 :
  wf t c → recharge_typed req →
  let a := recharge_atomic t c req ts1 ts2 ts3 in wf a.1.2 a.2.
Proof.
  intros Hwf Hty. unfold recharge_atomic.
  destruct (recharge_invalid req) eqn:Hval; [done|].
  destruct (List.find _ _) eqn:Hnew; [by case_match|].
  destruct (recharge_error t c req) eqn:He; [done|]. by apply wf_recharge_commit.
Qed.

Lemma gift_atomic_wf `{MySQLLaws} `{Unicode} t c req ts1 ts2 ts3 ts4 :
  wf t c → gift_typed req →
  let a := gift_atomic t c req ts1 ts2 ts3 ts4 in wf a.1.2 a.2.
Proof.
  intros Hwf Hty. unfold gift_atomic.
  destruct (gift_invalid req) eqn:Hval; [done|].
  destruct (stored_order t req) eqn:Hnew; [done|].
  destruct (gift_decide t req) eqn:Hd; [done|..].
  - destruct (reject_error c req); [done|]. by eapply wf_reject_commit.
  - destruct (accept_error t c req) eqn:He; [done|]. by apply wf_accept_commit.
Qed.

Lemma recharge_atomic_ok `{MySQLLaws} opening t c req ts1 ts2 ts3 :
  db_ok opening t c → recharge_typed req →
  let a := recharge_atomic t c req ts1 ts2 ts3 in db_ok opening a.1.2 a.2.
Proof.
  intros [Hwf Hl] Hty. split; [by apply recharge_atomic_wf|]. unfold recharge_atomic.
  destruct (recharge_invalid req) eqn:Hval; [done|].
  destruct (List.find _ _) eqn:Hnew; [by case_match|].
  destruct (recharge_error t c req) eqn:He; [done|]. by apply ledger_recharge_commit.
Qed.

Lemma gift_atomic_ok `{MySQLLaws} `{Unicode} opening t c req ts1 ts2 ts3 ts4 :
  db_ok opening t c → gift_typed req →
  let a := gift_atomic t c req ts1 ts2 ts3 ts4 in db_ok opening a.1.2 a.2.
Proof.
  intros [Hwf Hl] Hty. split; [by apply gift_atomic_wf|]. unfold gift_atomic.
  destruct (gift_invalid req) eqn:Hval; [done|].
  destruct (stored_order t req) eqn:Hnew; [done|].
  destruct (gift_decide t req) eqn:Hd; [done|..].
  - destruct (reject_error c req); [done|]. by eapply ledger_reject_commit.
  - destruct (accept_error t c req) eqn:He; [done|]. by apply ledger_accept_commit.
Qed.
