(* ===== verification/InternalEvents.v ===== *)
(** * Ingest of comments and watch minutes

    Models src/internal/service/internal_events.go. The loop over the minutes counts in a uint16, as
    the source does; it runs on fuel, and [None] is a loop that has not ended yet. *)

From S2P Require Import Prelude GoInt GoStrings Json Schema Prog Sql Wp Events Ledger WellFormed Preserve.

Record InternalCommentRequest := {
  ic_EventID : string; ic_ViewerID : Z; ic_CreatorID : Z; ic_LiveSessionID : Z }.

Record InternalWatchMinutesRequest := {
  iw_EventID : string; iw_ViewerID : Z; iw_CreatorID : Z; iw_LiveSessionID : Z; iw_Minutes : Z }.

Definition commentTopic : string := "live.comment.created.v1".
Definition watchTopic : string := "live.watch.minute.v1".

Definition comment_payload (req : InternalCommentRequest) : LiveCommentCreatedV1 :=
  {| lc_EventID := ic_EventID req; lc_ViewerID := ic_ViewerID req; lc_CreatorID := ic_CreatorID req;
     lc_LiveSessionID := ic_LiveSessionID req |}.

(** The payload of minute [i]; its event id is "<event_id>-<i>". *)
Definition watch_payload (req : InternalWatchMinutesRequest) (i : Z) : LiveWatchMinuteV1 :=
  {| lw_EventID := iw_EventID req +:+ "-" +:+ FormatUint i; lw_ViewerID := iw_ViewerID req;
     lw_CreatorID := iw_CreatorID req; lw_LiveSessionID := iw_LiveSessionID req |}.

Section programs.
Context `{MySQL} `{ErrorText}.

Definition comment_invalid (req : InternalCommentRequest) : bool :=
  String.eqb (TrimSpace (ic_EventID req)) "" || (ic_ViewerID req =? 0) || (ic_CreatorID req =? 0)
  || (ic_LiveSessionID req =? 0).

Definition EnqueueCommentEvent (req : InternalCommentRequest) : prog SqlE (option AppError) :=
  (if comment_invalid req then Ret (Some errValidation)
   else
     try! payload := Ret (MarshalJSONString (comment_payload req)) or (Some ∘ errInternal) in
     let! ts := now in
     try! _ := db_exec (insert_outbox_event commentTopic (FormatUint (ic_LiveSessionID req))
                          payload ts) or (Some ∘ errInternal) in
     Ret None)%prog.

Definition watch_invalid (req : InternalWatchMinutesRequest) : bool :=
  String.eqb (TrimSpace (iw_EventID req)) "" || (iw_ViewerID req =? 0) || (iw_CreatorID req =? 0)
  || (iw_LiveSessionID req =? 0) || (iw_Minutes req =? 0).

(** for i := uint16(1); i <= req.Minutes; i++ { ... }; then the commit. *)
Fixpoint watch_loop (fuel : nat) (req : InternalWatchMinutesRequest) (i : Z)
    : prog SqlE (option (outcome Z)) :=
  (match fuel with
   | O => Ret None
   | S fuel' =>
       if i <=? iw_Minutes req then
         try! payload := Ret (MarshalJSONString (watch_payload req i))
           or (λ e, Some (App (errInternal e))) in
         let! ts := now in
         try! _ := tx_exec (insert_outbox_event watchTopic (FormatUint (iw_LiveSessionID req))
                              payload ts) or (λ e, Some (App (errInternal e))) in
         watch_loop fuel' req (uint16 (i + 1))
       else
         try! _ := commit or (λ e, Some (App (errInternal e))) in
         Ret (Some (Ok (iw_Minutes req)))
   end)%prog.

(** The transaction begins at the default level of the server; it reads nothing. *)
Definition EnqueueWatchMinuteEvents (fuel : nat) (req : InternalWatchMinutesRequest)
    : prog SqlE (option (outcome Z)) :=
  if watch_invalid req then Ret (Some (App errValidation))
  else with_tx (λ e, Some (App (errInternal e))) (watch_loop fuel req 1).
End programs.

(** ** The atomic operations *)

Section atomic_events.
Context `{MySQL} `{ErrorText}.

Definition add_comment (req : InternalCommentRequest) (ts id : Z) : write :=
  add_outbox commentTopic (FormatUint (ic_LiveSessionID req))
    (marshal (to_json (comment_payload req))) ts id.

Definition comment_atomic (t : Tables) (c : Counters) (req : InternalCommentRequest) (ts : Z)
    : atomic (option AppError) :=
  if comment_invalid req then (Some errValidation, t, c)
  else if max_uint64 <? next_event_id c then
    (Some (errInternal (MySQLError ER_AUTOINC_READ_FAILED)), t, c)
  else (None, add_comment req ts (next_event_id c) t, bump_event_id c).

(** The events of the minutes [i], [i+1], ..., one per clock reading. *)
Fixpoint add_minutes (req : InternalWatchMinutesRequest) (i : Z) (tss : list Z)
    (t : Tables) (c : Counters) : Tables * Counters :=
  match tss with
  | [] => (t, c)
  | ts :: tss' =>
      add_minutes req (i + 1) tss'
        (add_outbox watchTopic (FormatUint (iw_LiveSessionID req))
           (marshal (to_json (watch_payload req i))) ts (next_event_id c) t)
        (bump_event_id c)
  end.

(** [tss]: one clock reading for each minute. *)
Definition watch_atomic (t : Tables) (c : Counters) (req : InternalWatchMinutesRequest)
    (tss : list Z) : atomic (outcome Z) :=
  if watch_invalid req then (App errValidation, t, c)
  else if max_uint64 <? next_event_id c + iw_Minutes req - 1 then
    (App (errInternal (MySQLError ER_AUTOINC_READ_FAILED)), t, c)
  else
    let '(t', c') := add_minutes req 1 tss t c in (Ok (iw_Minutes req), t', c').
End atomic_events.

(** ** Refinement *)

Section refinement.
Context `{MySQLLaws} `{ErrorText}.

Definition comment_post (F : bool) (req : InternalCommentRequest) (t : Tables) (c : Counters)
    (out : option AppError) (t' : Tables) (c' : Counters) (v : option Tables) : Prop :=
  v = None ∧ ∃ ts,
    settles F (Some (errInternal ErrConn)) t c (comment_atomic t c req ts) out t' c'.

Lemma EnqueueCommentEvent_refines F t c req :
  is_uint64 (ic_LiveSessionID req) →
  wp F (EnqueueCommentEvent req) (comment_post F req t c) t c None.
Proof.
  intros Hid. unfold EnqueueCommentEvent, comment_post, comment_atomic.
  destruct (comment_invalid req).
  { apply wp_ret. split; [done|]. exists 0. by apply settles_done. }
  apply wp_try, wp_ret, wp_bind, wp_now. intros ts. apply wp_try, wp_auto.
  { intros ->. split; [done|]. exists ts. by apply settles_failed. }
  unfold insert_outbox_event, insert_auto. cbn [s_exec].
  destruct (max_uint64 <? next_event_id c).
  { split; [intros ->|]; (split; [done|]); exists ts; [by apply settles_failed|by apply settles_done]. }
  rewrite outbox_accepts by (done || simpl; lia). split.
  - intros ->. split; [done|]. exists ts. apply (settles_effect _ _ _ _ (_, _, _)); [by right|done].
  - apply wp_ret. split; [done|]. exists ts. apply (settles_effect _ _ _ _ (_, _, _)); [by left|done].
Qed.

(** The loop from minute [i] on, with [n] minutes left. *)
Lemma watch_loop_wp F req t (P : option (outcome Z) → Tables → Counters → Prop) n : ∀ fuel i d v,
  iw_Minutes req < max_uint16 → is_uint64 (iw_LiveSessionID req) →
  1 ≤ i → iw_Minutes req = i + Z.of_nat n - 1 → (n < fuel)%nat →
  (F = true → ∀ d', counters_le d d' → P (Some (App (errInternal ErrConn))) t d') →
  (max_uint64 < next_event_id d + Z.of_nat n - 1 → 0 < Z.of_nat n → ∀ d', counters_le d d' →
   P (Some (App (errInternal (MySQLError ER_AUTOINC_READ_FAILED)))) t d') →
  (next_event_id d + Z.of_nat n - 1 ≤ max_uint64 ∨ n = 0%nat → ∀ tss, length tss = n →
   ∀ o, o = Ok (iw_Minutes req) ∨ F = true ∧ o = App (errInternal ErrConn) →
   P (Some o) (add_minutes req i tss v d).1 (add_minutes req i tss v d).2) →
  wp F (watch_loop fuel req i) (λ a t' c' _, P a t' c') t d (Some v).
Proof.
  induction n as [|n IH]; intros [|fuel] i d v Hm Hid Hi Hn Hfuel Hf Hmax Hok; try lia; simpl.
  - rewrite (proj2 (Z.leb_gt _ _)) by lia.
    apply wp_try, wp_commit; [intros; by apply Hf|intros; apply (Hok (or_intror eq_refl) []); auto|].
    apply wp_ret, (Hok (or_intror eq_refl) []); auto.
  - rewrite (proj2 (Z.leb_le _ _)) by lia.
    apply wp_try, wp_ret, wp_bind, wp_now. intros ts. apply wp_try, wp_insert_auto.
    + intros HF d' v' [->| ->]; apply Hf; [done|done|done|solve_counters].
    + intros Hd. apply Hmax; [lia|lia|done].
    + intros m _ Hv. by rewrite outbox_accepts in Hv by (done || simpl; lia).
    + intros Hd _. replace (uint16 (i + 1)) with (i + 1)
        by (unfold uint16; rewrite Z.mod_small; int_bounds; lia).
      apply IH; try done; try lia.
      * intros HF d' Hd'. apply Hf; [done|]. solve_counters.
      * intros ? ? d' Hd'. simpl in *. apply Hmax; [lia|lia|solve_counters].
      * intros Hle tss Hl o Ho. simpl in Hle. apply (Hok ltac:(lia) (ts :: tss)); [simpl; lia|done].
Qed.

Definition watch_post (F : bool) (req : InternalWatchMinutesRequest) (t : Tables) (c : Counters)
    (out : option (outcome Z)) (t' : Tables) (c' : Counters) (v : option Tables) : Prop :=
  v = None ∧ ∃ o tss, out = Some o ∧ length tss = Z.to_nat (iw_Minutes req) ∧
    settles F (App (errInternal ErrConn)) t c (watch_atomic t c req tss) o t' c'.

(** Below the largest uint16 the loop ends, after at most one iteration per minute and the test
    that ends it. *)
Lemma EnqueueWatchMinuteEvents_refines F fuel t c req :
  is_uint64 (iw_LiveSessionID req) → 0 ≤ iw_Minutes req < max_uint16 →
  (Z.to_nat (iw_Minutes req) < fuel)%nat →
  wp F (EnqueueWatchMinuteEvents fuel req) (watch_post F req t c) t c None.
Proof.
  intros Hid Hm Hfuel. unfold EnqueueWatchMinuteEvents, watch_post, watch_atomic.
  assert (Htss : length (replicate (Z.to_nat (iw_Minutes req)) 0) = Z.to_nat (iw_Minutes req))
    by apply length_replicate.
  destruct (watch_invalid req) eqn:Hval.
  { apply wp_ret. split; [done|]. eexists _, _. split_and!; [done|exact Htss|].
    by apply settles_done. }
  assert (0 < iw_Minutes req).
  { unfold watch_invalid in Hval. bool_to_prop. lia. }
  apply wp_with_tx.
  { intros ->. split; [done|]. eexists _, _. split_and!; [done|exact Htss|]. by apply settles_failed. }
  apply (watch_loop_wp F req t (λ a t' c', None = None ∧ _) (Z.to_nat (iw_Minutes req)));
    try done; try lia.
  - intros -> d' Hd'. split; [done|]. eexists _, _. split_and!; [done|exact Htss|].
    by apply settles_failed.
  - intros Hmax _ d' Hd'. split; [done|]. eexists _, _. split_and!; [done|exact Htss|].
    rewrite (proj2 (Z.ltb_lt _ _)) by lia. by apply (settles_done _ _ _ _ (_, _, _)).
  - intros Hle tss Hl o Ho. split; [done|]. exists o, tss. split_and!; [done|done|].
    rewrite (proj2 (Z.ltb_ge _ _)) by lia.
    destruct (add_minutes req 1 tss t c) as [t' c'] eqn:E.
    by apply (settles_effect _ _ _ _ (_, _, _)).
Qed.

(** At the largest uint16 the counter wraps before the test can fail: the loop never reaches its
    end, however long it runs and whatever the database answers. *)
Lemma watch_loop_max F fuel req t : ∀ i d v,
  iw_Minutes req = max_uint16 → is_uint16 i →
  wp F (watch_loop fuel req i)
    (λ a t' _ _, t' = t ∧ match a with Some (Ok _) => False | _ => True end) t d (Some v).
Proof.
  induction fuel as [|fuel IH]; intros i d v Hm Hi; simpl; [by apply wp_ret|].
  rewrite (proj2 (Z.leb_le _ _)) by (int_bounds; lia).
  apply wp_try, wp_ret, wp_bind, wp_now. intros ts. apply wp_try, wp_insert_auto; [done..|].
  intros _ _. apply IH; [done|]. int_bounds.
  pose proof (Z.mod_pos_bound (i + 1) (65535 + 1)). lia.
Qed.

(** ** Preservation *)

Lemma add_minutes_wf req tss : ∀ i t c,
  wf t c → wf (add_minutes req i tss t c).1 (add_minutes req i tss t c).2.
Proof.
  induction tss as [|ts tss IH]; intros i t c Hwf; simpl; [done|].
  by apply IH, wf_add_outbox.
Qed.

(** The rows: one per minute, in order, with consecutive event ids. *)
Lemma add_minutes_outbox req tss : ∀ i t c,
  ∃ evs, (add_minutes req i tss t c).1 = set_outbox_events (λ l, l ++ evs) t
    ∧ length evs = length tss
    ∧ ∀ k e, evs !! k = Some e →
        ob_EventID e = next_event_id c + Z.of_nat k ∧ ob_Topic e = watchTopic
        ∧ ob_EventKey e = FormatUint (iw_LiveSessionID req) ∧ ob_PublishedAt e = None
        ∧ json_store (marshal (to_json (watch_payload req (i + Z.of_nat k))))
          = Some (ob_PayloadJson e).
Proof.
  induction tss as [|ts tss IH]; intros i t c; simpl.
  { exists []. destruct t. unfold set_outbox_events. simpl. by rewrite app_nil_r. }
  edestruct IH as (evs & -> & Hlen & Hevs). eexists (_ :: evs).
  split; [unfold add_outbox, set_outbox_events; simpl; by rewrite <- app_assoc|].
  split; [simpl; lia|]. intros [|k] e He; simpl in He.
  - injection He as <-. simpl. rewrite !Z.add_0_r. split_and!; try done.
    by destruct (payload_stored (watch_payload req i)) as [doc ->].
  - destruct (Hevs k e He) as (-> & -> & -> & -> & <-). simpl. split_and!; try done; [lia|].
    do 4 f_equal. lia.
Qed.
End refinement.
