(* ===== verification/Decode.v ===== *)
(** * Decoding into structs

    How [encoding/json] fills the fields of a struct from the members of an object, and the structs
    the program decodes: the events of src/internal/events/events.go and the requests of
    src/internal/service. *)

From S2P Require Import Prelude GoInt GoStrings Sha256 Json JsonDecode JsonRoundtrip Schema Sql Events Recharge Gift InternalEvents.

(** A field: its name and the assignment of a decoded value; [None] is an UnmarshalTypeError. *)
Record field (A : Type) := { f_name : string; f_set : jval → A → option A }.
Arguments f_name {A}.
Arguments f_set {A}.

Definition field_of {A} (name : string) (set : jval → A → option A) : field A :=
  {| f_name := name; f_set := set |}.

(** ** Conversions *)

(** [conv] reads a value for the field: [None] is the wrong type or range, [Some None] leaves the
    field alone. *)
Definition assign {A X} (conv : jval → option (option X)) (set : X → A → A) (v : jval) (a : A)
    : option A :=
  match conv v with
  | None => None
  | Some None => Some a
  | Some (Some x) => Some (set x a)
  end.

(** A number into an unsigned field; null leaves the field alone. *)
Definition conv_uint (limit : Z) (v : jval) : option (option Z) :=
  match v with
  | VNull => Some None
  | VNum lit =>
      match ParseUint lit with
      | Some n => if limit <? n then None else Some (Some n)
      | None => None
      end
  | _ => None
  end.

(** A number into an int64 field ([strconv.ParseInt]). *)
Definition conv_int64 (v : jval) : option (option Z) :=
  match v with
  | VNull => Some None
  | VNum lit => match Atoi lit with Some n => Some (Some n) | None => None end
  | _ => None
  end.

Definition conv_string (v : jval) : option (option string) :=
  match v with
  | VNull => Some None
  | VStr s => Some (Some s)
  | _ => None
  end.

(** A number into a *uint64 field; null makes it nil. *)
Definition conv_ptr (v : jval) : option (option (option Z)) :=
  match v with
  | VNull => Some (Some None)
  | VNum lit => match ParseUint lit with Some n => Some (Some (Some n)) | None => None end
  | _ => None
  end.

(** ** Objects *)

Section objects.
Context `{Unicode} {A : Type}.

(** The field of a member: the one with its exact name, else the first one with that name up to
    case. *)
Definition lookup_field (fs : list (field A)) (key : string) : option (field A) :=
  match List.find (λ f, String.eqb (f_name f) key) fs with
  | Some f => Some f
  | None => List.find (λ f, EqualFold (f_name f) key) fs
  end.

Definition decode_member (fs : list (field A)) (key : string) (v : jval) (a : A) : option A :=
  match lookup_field fs key with
  | Some f => f_set f v a
  | None => Some a
  end.

(** The members in order; a later one overwrites an earlier one. The decoder goes on after a member
    of the wrong type and reports the error in the end. *)
Fixpoint decode_members (fs : list (field A)) (l : list (string * jval)) (a : A) : option A :=
  match l with
  | [] => Some a
  | (k, v) :: l' =>
      match decode_member fs k v a with
      | Some a' => decode_members fs l' a'
      | None => None
      end
  end.
End objects.

(** A struct with its zero value and its fields. *)
Class FromJson (A : Type) := { zero : A; fields : list (field A) }.

(** null leaves the struct at its zero value. *)
Definition decode `{Unicode} {A} `{FromJson A} (v : jval) : option A :=
  match v with
  | VNull => Some zero
  | VObj l => decode_members fields l zero
  | _ => None
  end.

(** [json.Unmarshal(data, &v)]. *)
Definition Unmarshal `{Unicode} {A} `{FromJson A} (data : string) : option A :=
  match json_parse data with Some v => decode v | None => None end.

(** [json.NewDecoder(r).Decode(&v)]: the text after the first value is not looked at. *)
Definition DecodeBody `{Unicode} {A} `{FromJson A} (body : string) : option A :=
  match parse_first body with Some (v, _) => decode v | None => None end.

(** ** The structs *)

#[export] Instance LiveGiftAcceptedV1_fields : FromJson LiveGiftAcceptedV1 := {
  zero := Build_LiveGiftAcceptedV1 "" 0 0 0 0 None None "" 0 0 0 0 "";
  fields := [
    field_of "event_type" (assign conv_string (λ x '(Build_LiveGiftAcceptedV1 _ b c d e f g h i j k l m),
      Build_LiveGiftAcceptedV1 x b c d e f g h i j k l m));
    field_of "gift_order_id" (assign (conv_uint max_uint64) (λ x '(Build_LiveGiftAcceptedV1 a _ c d e f g h i j k l m),
      Build_LiveGiftAcceptedV1 a x c d e f g h i j k l m));
    field_of "viewer_id" (assign (conv_uint max_uint64) (λ x '(Build_LiveGiftAcceptedV1 a b _ d e f g h i j k l m),
      Build_LiveGiftAcceptedV1 a b x d e f g h i j k l m));
    field_of "creator_id" (assign (conv_uint max_uint64) (λ x '(Build_LiveGiftAcceptedV1 a b c _ e f g h i j k l m),
      Build_LiveGiftAcceptedV1 a b c x e f g h i j k l m));
    field_of "live_session_id" (assign (conv_uint max_uint64) (λ x '(Build_LiveGiftAcceptedV1 a b c d _ f g h i j k l m),
      Build_LiveGiftAcceptedV1 a b c d x f g h i j k l m));
    field_of "campaign_id" (assign conv_ptr (λ x '(Build_LiveGiftAcceptedV1 a b c d e _ g h i j k l m),
      Build_LiveGiftAcceptedV1 a b c d e x g h i j k l m));
    field_of "match_id" (assign conv_ptr (λ x '(Build_LiveGiftAcceptedV1 a b c d e f _ h i j k l m),
      Build_LiveGiftAcceptedV1 a b c d e f x h i j k l m));
    field_of "gift_id" (assign conv_string (λ x '(Build_LiveGiftAcceptedV1 a b c d e f g _ i j k l m),
      Build_LiveGiftAcceptedV1 a b c d e f g x i j k l m));
    field_of "quantity" (assign (conv_uint max_uint16) (λ x '(Build_LiveGiftAcceptedV1 a b c d e f g h _ j k l m),
      Build_LiveGiftAcceptedV1 a b c d e f g h x j k l m));
    field_of "charged_coins" (assign (conv_uint max_uint32) (λ x '(Build_LiveGiftAcceptedV1 a b c d e f g h i _ k l m),
      Build_LiveGiftAcceptedV1 a b c d e f g h i x k l m));
    field_of "match_points_added" (assign (conv_uint max_uint32) (λ x '(Build_LiveGiftAcceptedV1 a b c d e f g h i j _ l m),
      Build_LiveGiftAcceptedV1 a b c d e f g h i j x l m));
    field_of "diamond_reward" (assign (conv_uint max_uint32) (λ x '(Build_LiveGiftAcceptedV1 a b c d e f g h i j k _ m),
      Build_LiveGiftAcceptedV1 a b c d e f g h i j k x m));
    field_of "request_id" (assign conv_string (λ x '(Build_LiveGiftAcceptedV1 a b c d e f g h i j k l _),
      Build_LiveGiftAcceptedV1 a b c d e f g h i j k l x))] }.

#[export] Instance LiveCommentCreatedV1_fields : FromJson LiveCommentCreatedV1 := {
  zero := Build_LiveCommentCreatedV1 "" 0 0 0;
  fields := [
    field_of "event_id" (assign conv_string (λ x '(Build_LiveCommentCreatedV1 _ b c d),
      Build_LiveCommentCreatedV1 x b c d));
    field_of "viewer_id" (assign (conv_uint max_uint64) (λ x '(Build_LiveCommentCreatedV1 a _ c d),
      Build_LiveCommentCreatedV1 a x c d));
    field_of "creator_id" (assign (conv_uint max_uint64) (λ x '(Build_LiveCommentCreatedV1 a b _ d),
      Build_LiveCommentCreatedV1 a b x d));
    field_of "live_session_id" (assign (conv_uint max_uint64) (λ x '(Build_LiveCommentCreatedV1 a b c _),
      Build_LiveCommentCreatedV1 a b c x))] }.

#[export] Instance LiveWatchMinuteV1_fields : FromJson LiveWatchMinuteV1 := {
  zero := Build_LiveWatchMinuteV1 "" 0 0 0;
  fields := [
    field_of "event_id" (assign conv_string (λ x '(Build_LiveWatchMinuteV1 _ b c d),
      Build_LiveWatchMinuteV1 x b c d));
    field_of "viewer_id" (assign (conv_uint max_uint64) (λ x '(Build_LiveWatchMinuteV1 a _ c d),
      Build_LiveWatchMinuteV1 a x c d));
    field_of "creator_id" (assign (conv_uint max_uint64) (λ x '(Build_LiveWatchMinuteV1 a b _ d),
      Build_LiveWatchMinuteV1 a b x d));
    field_of "live_session_id" (assign (conv_uint max_uint64) (λ x '(Build_LiveWatchMinuteV1 a b c _),
      Build_LiveWatchMinuteV1 a b c x))] }.

#[export] Instance LiveSessionClosedV1_fields : FromJson LiveSessionClosedV1 := {
  zero := Build_LiveSessionClosedV1 0 0;
  fields := [
    field_of "live_session_id" (assign (conv_uint max_uint64) (λ x '(Build_LiveSessionClosedV1 _ b),
      Build_LiveSessionClosedV1 x b));
    field_of "closed_at_ms" (assign conv_int64 (λ x '(Build_LiveSessionClosedV1 a _),
      Build_LiveSessionClosedV1 a x))] }.

#[export] Instance RechargeRequest_fields : FromJson RechargeRequest := {
  zero := Build_RechargeRequest "" 0 0 "";
  fields := [
    field_of "request_id" (assign conv_string (λ x '(Build_RechargeRequest _ b c d),
      Build_RechargeRequest x b c d));
    field_of "viewer_id" (assign (conv_uint max_uint64) (λ x '(Build_RechargeRequest a _ c d),
      Build_RechargeRequest a x c d));
    field_of "coins" (assign (conv_uint max_uint32) (λ x '(Build_RechargeRequest a b _ d),
      Build_RechargeRequest a b x d));
    field_of "payment_ref" (assign conv_string (λ x '(Build_RechargeRequest a b c _),
      Build_RechargeRequest a b c x))] }.

#[export] Instance GiftRequest_fields : FromJson GiftRequest := {
  zero := Build_GiftRequest "" 0 0 0 None "" 0 0;
  fields := [
    field_of "request_id" (assign conv_string (λ x '(Build_GiftRequest _ b c d e f g h),
      Build_GiftRequest x b c d e f g h));
    field_of "viewer_id" (assign (conv_uint max_uint64) (λ x '(Build_GiftRequest a _ c d e f g h),
      Build_GiftRequest a x c d e f g h));
    field_of "creator_id" (assign (conv_uint max_uint64) (λ x '(Build_GiftRequest a b _ d e f g h),
      Build_GiftRequest a b x d e f g h));
    field_of "live_session_id" (assign (conv_uint max_uint64) (λ x '(Build_GiftRequest a b c _ e f g h),
      Build_GiftRequest a b c x e f g h));
    field_of "match_id" (assign conv_ptr (λ x '(Build_GiftRequest a b c d _ f g h),
      Build_GiftRequest a b c d x f g h));
    field_of "gift_id" (assign conv_string (λ x '(Build_GiftRequest a b c d e _ g h),
      Build_GiftRequest a b c d e x g h));
    field_of "quantity" (assign (conv_uint max_uint16) (λ x '(Build_GiftRequest a b c d e f _ h),
      Build_GiftRequest a b c d e f x h));
    field_of "sent_at_ms" (assign conv_int64 (λ x '(Build_GiftRequest a b c d e f g _),
      Build_GiftRequest a b c d e f g x))] }.

#[export] Instance InternalCommentRequest_fields : FromJson InternalCommentRequest := {
  zero := Build_InternalCommentRequest "" 0 0 0;
  fields := [
    field_of "event_id" (assign conv_string (λ x '(Build_InternalCommentRequest _ b c d),
      Build_InternalCommentRequest x b c d));
    field_of "viewer_id" (assign (conv_uint max_uint64) (λ x '(Build_InternalCommentRequest a _ c d),
      Build_InternalCommentRequest a x c d));
    field_of "creator_id" (assign (conv_uint max_uint64) (λ x '(Build_InternalCommentRequest a b _ d),
      Build_InternalCommentRequest a b x d));
    field_of "live_session_id" (assign (conv_uint max_uint64) (λ x '(Build_InternalCommentRequest a b c _),
      Build_InternalCommentRequest a b c x))] }.

#[export] Instance InternalWatchMinutesRequest_fields : FromJson InternalWatchMinutesRequest := {
  zero := Build_InternalWatchMinutesRequest "" 0 0 0 0;
  fields := [
    field_of "event_id" (assign conv_string (λ x '(Build_InternalWatchMinutesRequest _ b c d e),
      Build_InternalWatchMinutesRequest x b c d e));
    field_of "viewer_id" (assign (conv_uint max_uint64) (λ x '(Build_InternalWatchMinutesRequest a _ c d e),
      Build_InternalWatchMinutesRequest a x c d e));
    field_of "creator_id" (assign (conv_uint max_uint64) (λ x '(Build_InternalWatchMinutesRequest a b _ d e),
      Build_InternalWatchMinutesRequest a b x d e));
    field_of "live_session_id" (assign (conv_uint max_uint64) (λ x '(Build_InternalWatchMinutesRequest a b c _ e),
      Build_InternalWatchMinutesRequest a b c x e));
    field_of "minutes" (assign (conv_uint max_uint16) (λ x '(Build_InternalWatchMinutesRequest a b c d _),
      Build_InternalWatchMinutesRequest a b c d x))] }.

(** ** The order of the members does not matter *)

Section order.
Context `{Unicode} {A : Type}.

Definition commute (f g : field A) : Prop :=
  ∀ v w a, (f_set f v a ≫= f_set g w) = (f_set g w a ≫= f_set f v).

Lemma assign_commute {X Y} n m (c1 : jval → option (option X)) (c2 : jval → option (option Y)) s1 s2 :
  (∀ x y a, s1 x (s2 y a) = s2 y (s1 x a)) →
  commute (field_of n (assign c1 s1)) (field_of m (assign c2 s2)).
Proof.
  intros Hs v w a. simpl. unfold assign.
  destruct (c1 v) as [[x|]|], (c2 w) as [[y|]|]; simpl; try done. by rewrite Hs.
Qed.

Lemma lookup_field_exact (fs : list (field A)) k :
  In k (map f_name fs) → ∃ f, lookup_field fs k = Some f ∧ In f fs ∧ f_name f = k.
Proof.
  intros Hk. unfold lookup_field.
  destruct (List.find (λ f, String.eqb (f_name f) k) fs) as [f|] eqn:E.
  - apply List.find_some in E as [Hin E]. bool_to_prop. by exists f.
  - apply in_map_iff in Hk as (f & Hf & Hin). eapply List.find_none in E; [|done].
    simpl in E. by rewrite Hf, String.eqb_refl in E.
Qed.

(** Members with distinct exact names may come in any order. *)
Lemma decode_members_perm (fs : list (field A)) l l' :
  (∀ f g, In f fs → In g fs → f_name f ≠ f_name g → commute f g) →
  l ≡ₚ l' → List.NoDup (map fst l) → (∀ k, In k (map fst l) → In k (map f_name fs)) →
  ∀ a, decode_members fs l a = decode_members fs l' a.
Proof.
  intros Hc. induction 1 as [|[k v] l l' Hp IH|[k v] [k' w] l|l1 l2 l3 H12 IH12 H23 IH23];
    intros Hnd Hin a.
  - done.
  - simpl in *. inversion Hnd; subst. destruct (decode_member fs k v a); [|done]. apply IH; auto.
  - simpl in *. inversion Hnd as [|? ? Hne Hnd']; subst. unfold decode_member.
    destruct (lookup_field_exact fs k) as (f & -> & Hf & <-); [by apply Hin; auto|].
    destruct (lookup_field_exact fs k') as (g & -> & Hg & <-); [by apply Hin; auto|].
    assert (Hfg : commute f g) by (apply Hc; [done|done|]; intros E; apply Hne; left; auto).
    specialize (Hfg v w a). destruct (f_set f v a) as [a1|], (f_set g w a) as [a2|]; simpl in Hfg;
      rewrite ?Hfg; rewrite <- ?Hfg; done.
  - rewrite IH12 by done. apply IH23.
    + apply NoDup_ListNoDup. rewrite <- H12. by apply NoDup_ListNoDup.
    + intros k Hk. apply Hin. apply list_elem_of_In. rewrite H12. by apply list_elem_of_In.
Qed.
End order.

(** ** Round trips *)

Lemma conv_uint_format limit n :
  0 ≤ n ≤ limit → limit ≤ max_uint64 → conv_uint limit (VNum (FormatInt n)) = Some (Some n).
Proof.
  intros Hn Hl. unfold conv_uint, FormatInt. rewrite (proj2 (Z.ltb_ge n 0)) by lia.
  rewrite ParseUint_FormatUint by (unfold is_uint64; lia).
  by rewrite (proj2 (Z.ltb_ge limit n)) by lia.
Qed.

Lemma conv_ptr_format n : is_uint64 n → conv_ptr (VNum (FormatInt n)) = Some (Some (Some n)).
Proof.
  intros Hn. unfold conv_ptr, FormatInt. rewrite (proj2 (Z.ltb_ge n 0)) by (int_bounds; lia).
  by rewrite ParseUint_FormatUint.
Qed.

Lemma parse_digits_format limit n :
  0 ≤ n ≤ limit → parse_digits limit 0 (FormatUint n) = Some n.
Proof.
  intros Hn. destruct (parse_dec_go limit (Z.to_nat (Z.log2 n)) n EmptyString) as (k & _ & Hk);
    [lia|apply log2_fuel; lia|].
  unfold FormatUint. rewrite Hk by lia. simpl. f_equal.
Qed.

Lemma conv_int64_format n : is_int64 n → conv_int64 (VNum (FormatInt n)) = Some (Some n).
Proof.
  intros Hn. unfold conv_int64, FormatInt. destruct (n <? 0) eqn:E; bool_to_prop.
  - unfold Atoi. change (Ascii.eqb "-"%char "-"%char) with true. cbv iota.
    destruct (FormatUint (- n)) as [|a s] eqn:Ef; [by apply FormatUint_nonempty in Ef|].
    rewrite <- Ef, parse_digits_format by (int_bounds; lia). simpl. do 2 f_equal. lia.
  - assert (Hd : digit_text (FormatUint n)) by (apply dec_go_digits; [lia|constructor]).
    destruct (FormatUint n) as [|a s] eqn:Ef; [by apply FormatUint_nonempty in Ef|].
    inversion Hd as [|? ? Ha _]; subst. apply is_digit_ascii in Ha. unfold Atoi.
    destruct (Ascii.eqb_spec a "-"%char) as [->|]; [change (byte_of "-"%char) with 45 in Ha; lia|].
    destruct (Ascii.eqb_spec a "+"%char) as [->|]; [change (byte_of "+"%char) with 43 in Ha; lia|].
    by rewrite <- Ef, parse_digits_format by (int_bounds; lia).
Qed.

Section roundtrip.
Context `{MySQLLaws} `{Unicode}.

(** A document of the program, stored in a JSON column and decoded. *)
Lemma Unmarshal_stored {A} `{FromJson A} l doc (v : A) :
  flat_object (JObj l) = true → forallb (λ m, json_int m.2) l = true →
  unique_key (λ m, clean m.1) l → (∀ m, In m l → In (clean m.1) (map f_name (fields (A:=A)))) →
  (∀ f g, In f (fields (A:=A)) → In g fields → f_name f ≠ f_name g → commute f g) →
  decode (jval_of (JObj l)) = Some v → json_store (marshal (JObj l)) = Some doc →
  Unmarshal doc = Some v.
Proof.
  intros Hflat Hint Huq Hnames Hc Hv Hdoc.
  destruct (json_kept l doc Hflat Huq Hint Hdoc) as (l' & Hp & Hperm).
  unfold Unmarshal. rewrite Hp. rewrite <- Hv. simpl.
  assert (Hfst : map fst (map (λ m, (clean m.1, jval_of m.2)) l) = map (λ m, clean m.1) l)
    by (by rewrite map_map).
  symmetry. apply decode_members_perm; [done|by symmetry|by rewrite Hfst|].
  intros k Hk. rewrite Hfst in Hk. apply in_map_iff in Hk as (m & <- & Hm). auto.
Qed.

Lemma decode_step {A} (fs : list (field A)) k v l a a' f r :
  lookup_field fs k = Some f → f_set f v a = Some a' → decode_members fs l a' = r →
  decode_members fs ((k, v) :: l) a = r.
Proof. intros Hl Hs Hr. simpl. unfold decode_member. by rewrite Hl, Hs. Qed.

(** The fields of two assignments to different components commute. *)
Ltac fields_commute :=
  intros f g Hf Hg Hne; simpl in Hf, Hg;
  repeat destruct Hf as [<-|Hf]; try done; repeat destruct Hg as [<-|Hg]; try done;
  apply assign_commute; intros x y a; by destruct a.

(** The ranges of the Go types of the fields. *)
Definition gift_event_typed (e : LiveGiftAcceptedV1) : Prop :=
  is_uint64 (ga_GiftOrderID e) ∧ is_uint64 (ga_ViewerID e) ∧ is_uint64 (ga_CreatorID e)
  ∧ is_uint64 (ga_LiveSessionID e) ∧ is_uint64_ptr (ga_CampaignID e)
  ∧ is_uint64_ptr (ga_MatchID e) ∧ is_uint16 (ga_Quantity e)
  ∧ is_uint32 (ga_ChargedCoins e) ∧ is_uint32 (ga_MatchPoints e) ∧ is_uint32 (ga_DiamondReward e).

(** The event with invalid bytes of its texts replaced. *)
Definition clean_gift_event (e : LiveGiftAcceptedV1) : LiveGiftAcceptedV1 :=
  {| ga_EventType := clean (ga_EventType e); ga_GiftOrderID := ga_GiftOrderID e;
     ga_ViewerID := ga_ViewerID e; ga_CreatorID := ga_CreatorID e;
     ga_LiveSessionID := ga_LiveSessionID e; ga_CampaignID := ga_CampaignID e;
     ga_MatchID := ga_MatchID e; ga_GiftID := clean (ga_GiftID e); ga_Quantity := ga_Quantity e;
     ga_ChargedCoins := ga_ChargedCoins e; ga_MatchPoints := ga_MatchPoints e;
     ga_DiamondReward := ga_DiamondReward e; ga_RequestID := clean (ga_RequestID e) |}.

Ltac json_range :=
  simpl; rewrite ?andb_true_r; repeat (apply andb_true_intro; split);
  repeat apply andb_true_intro; try (apply Z.leb_le); int_bounds; try lia.

Lemma gift_fields_commute (f g : field LiveGiftAcceptedV1) :
  In f fields → In g fields → f_name f ≠ f_name g → commute f g.
Proof. revert f g. fields_commute. Qed.

(** The hypotheses of [Unmarshal_stored] for a document with closed names. *)
Ltac stored_doc Hdoc comm :=
  eapply Unmarshal_stored; [| | | | | |exact Hdoc];
  [done
  |json_range
  |apply NoDup_ListNoDup; vm_compute; by apply (bool_decide_unpack _)
  |simpl; intuition (subst; vm_compute; tauto)
  |exact comm
  |].

Ltac decode_steps :=
  repeat (eapply decode_step;
    [reflexivity
    |cbn [f_set field_of]; unfold assign;
     rewrite ?conv_uint_format, ?conv_ptr_format, ?conv_int64_format by (int_bounds; lia);
     reflexivity
    |]); done.

Lemma gift_event_decodes (e : LiveGiftAcceptedV1) doc :
  gift_event_typed e → json_store (marshal (to_json e)) = Some doc →
  Unmarshal doc = Some (clean_gift_event e).
Proof.
  intros (T1 & T2 & T3 & T4 & T5 & T6 & T7 & T8 & T9 & T10) Hdoc.
  pose proof gift_fields_commute as Hcomm.
  destruct e as [ty oid vi cr sid camp mat gid q ch mp di rid]; simpl in *.
  destruct camp as [camp|], mat as [mat|]; simpl in T5, T6;
    stored_doc Hdoc Hcomm;
    cbn [jval_of map fst snd to_json LiveGiftAcceptedV1_json json_omitempty app decode
      ga_EventType ga_GiftOrderID ga_ViewerID ga_CreatorID ga_LiveSessionID ga_CampaignID ga_MatchID
      ga_GiftID ga_Quantity ga_ChargedCoins ga_MatchPoints ga_DiamondReward ga_RequestID];
    decode_steps.
Qed.

Lemma comment_event_decodes (e : LiveCommentCreatedV1) doc :
  is_uint64 (lc_ViewerID e) → is_uint64 (lc_CreatorID e) → is_uint64 (lc_LiveSessionID e) →
  json_store (marshal (to_json e)) = Some doc →
  Unmarshal doc = Some {| lc_EventID := clean (lc_EventID e); lc_ViewerID := lc_ViewerID e;
                          lc_CreatorID := lc_CreatorID e; lc_LiveSessionID := lc_LiveSessionID e |}.
Proof.
  intros T1 T2 T3 Hdoc.
  assert (Hcomm : ∀ f g : field LiveCommentCreatedV1,
    In f fields → In g fields → f_name f ≠ f_name g → commute f g) by fields_commute.
  destruct e as [id vi cr sid]; simpl in *. stored_doc Hdoc Hcomm.
  cbn [jval_of map fst snd to_json LiveCommentCreatedV1_json decode lc_EventID lc_ViewerID lc_CreatorID
    lc_LiveSessionID]. decode_steps.
Qed.

Lemma watch_event_decodes (e : LiveWatchMinuteV1) doc :
  is_uint64 (lw_ViewerID e) → is_uint64 (lw_CreatorID e) → is_uint64 (lw_LiveSessionID e) →
  json_store (marshal (to_json e)) = Some doc →
  Unmarshal doc = Some {| lw_EventID := clean (lw_EventID e); lw_ViewerID := lw_ViewerID e;
                          lw_CreatorID := lw_CreatorID e; lw_LiveSessionID := lw_LiveSessionID e |}.
Proof.
  intros T1 T2 T3 Hdoc.
  assert (Hcomm : ∀ f g : field LiveWatchMinuteV1,
    In f fields → In g fields → f_name f ≠ f_name g → commute f g) by fields_commute.
  destruct e as [id vi cr sid]; simpl in *. stored_doc Hdoc Hcomm.
  cbn [jval_of map fst snd to_json LiveWatchMinuteV1_json decode lw_EventID lw_ViewerID lw_CreatorID
    lw_LiveSessionID]. decode_steps.
Qed.

Lemma closed_event_decodes (e : LiveSessionClosedV1) doc :
  is_uint64 (lx_LiveSessionID e) → is_int64 (lx_ClosedAtMs e) →
  json_store (marshal (to_json e)) = Some doc → Unmarshal doc = Some e.
Proof.
  intros T1 T2 Hdoc.
  assert (Hcomm : ∀ f g : field LiveSessionClosedV1,
    In f fields → In g fields → f_name f ≠ f_name g → commute f g) by fields_commute.
  destruct e as [sid ms]; simpl in *. stored_doc Hdoc Hcomm.
  cbn [jval_of map fst snd to_json LiveSessionClosedV1_json decode lx_LiveSessionID lx_ClosedAtMs].
  decode_steps.
Qed.
End roundtrip.
