(* ===== verification/ReadModels.v ===== *)
(** * Rankings

    The grouped and ordered queries of src/internal/service/read_models.go (the contributors of a
    live session, the leaderboard of a campaign), also used by settlement. *)

From stdpp Require Import sorting.
From S2P Require Import Prelude GoInt GoStrings Json Schema Prog Sql Wp Ledger.

(** ** GROUP BY key, SUM(value), ORDER BY total DESC, key ASC *)

(** A row (key, total) comes before another. *)
Definition ranks (x y : Z * Z) : Prop := y.2 < x.2 ∨ (x.2 = y.2 ∧ x.1 ≤ y.1).

#[export] Instance ranks_dec x y : Decision (ranks x y).
Proof. unfold ranks. apply _. Defined.
#[export] Instance ranks_total : Total ranks.
Proof. intros x y. unfold ranks. lia. Qed.
#[export] Instance ranks_trans : Transitive ranks.
Proof. intros x y z. unfold ranks. lia. Qed.
#[export] Instance ranks_antisym : AntiSymm (=) ranks.
Proof. intros [x1 x2] [y1 y2]. unfold ranks. simpl. intros. f_equal; lia. Qed.

Lemma In_remove_dups (k : Z) l : In k (remove_dups l) ↔ In k l.
Proof. by rewrite <- !list_elem_of_In, elem_of_remove_dups. Qed.

Section grouping.
Context {A : Type} (key val : A → Z).

Definition group_sum (rows : list A) : list (Z * Z) :=
  map (λ k, (k, sum_of val (where_ (λ x, key x =? k) rows))) (remove_dups (map key rows)).

Definition ranking (rows : list A) : list (Z * Z) := merge_sort ranks (group_sum rows).

Lemma group_sum_In k s rows :
  In (k, s) (group_sum rows) ↔
  (∃ x, In x rows ∧ key x = k) ∧ s = sum_of val (where_ (λ x, key x =? k) rows).
Proof.
  unfold group_sum. rewrite in_map_iff. split.
  - intros (k' & [= <- <-] & Hk). apply In_remove_dups, in_map_iff in Hk as (x & ? & ?). eauto.
  - intros [(x & Hx & <-) ->]. exists (key x). split; [done|].
    apply In_remove_dups. by apply in_map.
Qed.

(** Splitting by key loses nothing. *)
Lemma sum_split ks : ∀ rows, base.NoDup ks → (∀ x, In x rows → In (key x) ks) →
  sum_of (λ k, sum_of val (where_ (λ x, key x =? k) rows)) ks = sum_of val rows.
Proof.
  induction ks as [|k ks IH]; intros rows Hnd Hall; simpl.
  { destruct rows as [|x rows]; [done|]. destruct (Hall x (or_introl eq_refl)). }
  apply NoDup_cons in Hnd as [Hk Hnd].
  specialize (IH (where_ (λ x, negb (key x =? k)) rows) Hnd).
  rewrite (sum_of_ext _ (λ k', sum_of val (where_ (λ x, key x =? k')
             (where_ (λ x, negb (key x =? k)) rows)))).
  - rewrite IH.
    + clear. induction rows as [|x rows IHr]; simpl; [done|].
      destruct (key x =? k); simpl; lia.
    + intros x Hx. apply where_In in Hx as [Hx Hne]. bool_to_prop.
      destruct (Hall x Hx) as [Heq|?]; [congruence|done].
  - intros k' Hk'. f_equal.
    assert (k' ≠ k) as Hne by (intros ->; apply Hk; by apply list_elem_of_In).
    clear -Hne. induction rows as [|x rows IHr]; simpl; [done|].
    destruct (key x =? k) eqn:E; simpl; [|by rewrite IHr].
    bool_to_prop. rewrite (proj2 (Z.eqb_neq (key x) k')) by lia. done.
Qed.

Lemma group_sum_total rows : sum_of snd (group_sum rows) = sum_of val rows.
Proof.
  unfold group_sum. rewrite <- (sum_split (remove_dups (map key rows)) rows).
  - induction (remove_dups _) as [|k ks IH]; simpl; [done|]. by rewrite IH.
  - apply NoDup_remove_dups.
  - intros x Hx. apply In_remove_dups. by apply in_map.
Qed.

Lemma group_sum_keys rows : unique_key fst (group_sum rows).
Proof.
  unfold unique_key, group_sum. rewrite map_map. simpl. rewrite map_id.
  apply NoDup_ListNoDup, NoDup_remove_dups.
Qed.

Lemma ranking_perm rows : ranking rows ≡ₚ group_sum rows.
Proof. apply merge_sort_Permutation. Qed.

Lemma ranking_sorted rows : StronglySorted ranks (ranking rows).
Proof. apply StronglySorted_merge_sort; apply _. Qed.

(** The same without repeats: no two rows have one key. *)
Definition ranks_before (x y : Z * Z) : Prop := y.2 < x.2 ∨ (y.2 = x.2 ∧ x.1 < y.1).

Lemma sorted_strict l : unique_key fst l → StronglySorted ranks l → StronglySorted ranks_before l.
Proof.
  unfold unique_key. intros Hnd. induction 1 as [|x l Hs IH Hx]; [constructor|].
  inversion Hnd as [|? ? Hnin Hnd']; subst. constructor; [by apply IH|].
  rewrite Forall_forall in *. intros y Hy. specialize (Hx y Hy). unfold ranks, ranks_before in *.
  assert (x.1 ≠ y.1); [|lia]. intros Heq. apply Hnin. rewrite Heq. by apply in_map, list_elem_of_In.
Qed.

Lemma ranking_strict rows : StronglySorted ranks_before (ranking rows).
Proof.
  apply sorted_strict; [|apply ranking_sorted]. unfold unique_key.
  rewrite ranking_perm. apply group_sum_keys.
Qed.

Lemma ranking_In k s rows :
  In (k, s) (ranking rows) ↔
  (∃ x, In x rows ∧ key x = k) ∧ s = sum_of val (where_ (λ x, key x =? k) rows).
Proof. rewrite <- group_sum_In. by rewrite ranking_perm. Qed.

(** The order is total, so there is one ranking: the answer does not depend on how the groups are
    produced. *)
Lemma ranking_unique rows l :
  l ≡ₚ group_sum rows → StronglySorted ranks l → l = ranking rows.
Proof.
  intros Hp Hs. eapply (StronglySorted_unique ranks); [done|apply ranking_sorted|].
  by rewrite Hp, ranking_perm.
Qed.
End grouping.

(** A ranking depends on the multiset of its rows only. *)
#[export] Instance ranking_proper {A} (key val : A → Z) :
  Proper (Permutation ==> eq) (ranking key val).
Proof.
  intros l1 l2 Hl. apply ranking_unique; [|apply ranking_sorted].
  rewrite ranking_perm. apply NoDup_Permutation.
  - apply NoDup_ListNoDup, (NoDup_map_inv fst), group_sum_keys.
  - apply NoDup_ListNoDup, (NoDup_map_inv fst), group_sum_keys.
  - intros [k s]. rewrite !list_elem_of_In, !group_sum_In.
    assert (Hw : where_ (λ x, key x =? k) l1 ≡ₚ where_ (λ x, key x =? k) l2).
    { clear -Hl. induction Hl; simpl; repeat case_match; eauto using Permutation. }
    rewrite (sum_of_perm val _ _ Hw). split; intros [(x & Hx & Hk) ->]; split; try done;
      exists x; split; try done; [rewrite <- Hl|rewrite Hl]; done.
Qed.

(** ** The queries *)

Record ContributorSummary := { cs_ViewerID : Z; cs_Coins : Z }.
Record CampaignRankRow := { cr_CreatorID : Z; cr_Points : Z }.

(** The ACCEPTED orders of a session. *)
Definition session_order (sid : Z) (o : GiftOrder) : bool :=
  (go_LiveSessionID o =? sid) && bool_decide (go_Status o = GiftOrdersStatusACCEPTED).

(** [rows.Scan] of each row, until one fails. *)
Fixpoint scan_rows {R} (mk : Z → Z → R) (rows : list (Z * Z)) : res (list R) :=
  match rows with
  | [] => ROk []
  | (k, s) :: rows' =>
      match scan_int64 s with
      | RErr e => RErr e
      | ROk s' => match scan_rows mk rows' with RErr e => RErr e | ROk l => ROk (mk k s' :: l) end
      end
  end.

Definition contributor_ranking (t : Tables) (sid : Z) : list (Z * Z) :=
  ranking go_ViewerID go_ChargedCoins (where_ (session_order sid) (gift_orders t)).

Definition campaign_ranking (t : Tables) (campaign : Z) : list (Z * Z) :=
  ranking cp_CreatorID cp_Points
    (where_ (λ p, cp_CampaignID p =? campaign) (campaign_point_ledger t)).

(** SELECT viewer_id, SUM(charged_coins) AS total FROM gift_orders
    WHERE live_session_id = ? AND status = 'ACCEPTED'
    GROUP BY viewer_id ORDER BY total DESC, viewer_id ASC LIMIT ? *)
Definition select_contributors (sid limit : Z) : stmt (list ContributorSummary) :=
  query (λ t, scan_rows Build_ContributorSummary (take (Z.to_nat limit) (contributor_ranking t sid))).

(** SELECT creator_id, COALESCE(SUM(points), 0) AS total FROM campaign_point_ledger
    WHERE campaign_id = ? GROUP BY creator_id ORDER BY total DESC, creator_id ASC LIMIT ? *)
Definition select_campaign (campaign limit : Z) : stmt (list CampaignRankRow) :=
  query (λ t, scan_rows Build_CampaignRankRow (take (Z.to_nat limit) (campaign_ranking t campaign))).

Definition effective_limit (limit : Z) : Z := if (limit <=? 0) || (100 <? limit) then 20 else limit.

Definition GetLiveContributors (sid limit : Z) : prog SqlE (res (list ContributorSummary)) :=
  db_exec (select_contributors sid (effective_limit limit)).

Definition GetCampaignLeaderboard (campaign limit : Z) : prog SqlE (res (list CampaignRankRow)) :=
  db_exec (select_campaign campaign (effective_limit limit)).

Lemma scan_rows_ok {R} (mk : Z → Z → R) rows :
  (∀ k s, In (k, s) rows → is_int64 s) → scan_rows mk rows = ROk (map (λ x, mk x.1 x.2) rows).
Proof.
  induction rows as [|[k s] rows IH]; intros Hr; simpl; [done|].
  unfold scan_int64. pose proof (Hr k s (or_introl eq_refl)) as Hs.
  assert (Hb : (s <? - max_int64 - 1) || (max_int64 <? s) = false) by (int_bounds; lia).
  rewrite Hb, IH; [done|]. intros k' s' Hin. apply (Hr k'). by right.
Qed.

(** A read outside a transaction answers from the committed tables and changes nothing. *)
Lemma wp_read {F R} (f : Tables → res R) (Q : res R → Tables → Counters → option Tables → Prop) t c :
  (F = true → Q (RErr ErrConn) t c None) → Q (f t) t c None →
  wp F (db_exec (query f)) Q t c None.
Proof. intros Hf Hok. by apply wp_auto. Qed.
