(* ===== verification/Settlement.v ===== *)
(** * Closing a session, settlement and reconciliation

    Models src/internal/service/settlement.go: [CloseLiveSession], [GenerateSettlement] and
    [GetSettlement], with the atomic operations they refine. *)

From S2P Require Import Prelude GoInt GoStrings Json Schema Prog Sql Wp Events Ledger WellFormed Preserve ReadModels.

Definition sessionClosedTopic : string := "live.session.closed.v1".

Record SettlementResponse := {
  st_LiveSessionID : Z; st_GrossCoinSpend : Z; st_AcceptedGiftCount : Z; st_DiamondRewardTotal : Z;
  st_TopContributors : list ContributorSummary; st_ReconciliationStatus : string;
  st_WalletGiftDebitTotal : Z; st_GiftOrderCoinTotal : Z; st_MismatchCount : Z;
  st_ReconciliationDetails : string }.

Definition errSessionNotFound : AppError :=
  {| HTTPStatus := 404; Code := "LIVE_SESSION_NOT_FOUND"; Message := "live session not found" |}.
Definition errSessionClosed : AppError :=
  {| HTTPStatus := 409; Code := "LIVE_SESSION_CLOSED"; Message := "live session already closed" |}.
Definition errSessionState : AppError :=
  {| HTTPStatus := 409; Code := "LIVE_SESSION_STATE_INVALID"; Message := "session state invalid" |}.
Definition errSettlementNotFound : AppError :=
  {| HTTPStatus := 404; Code := "SETTLEMENT_NOT_FOUND"; Message := "settlement not found" |}.

(** ** Statements *)

Definition is_open (s : LiveSession) : bool := bool_decide (ls_Status s = LiveSessionsStatusOPEN).

Definition close_session (ts : Z) (s : LiveSession) : LiveSession :=
  {| ls_LiveSessionID := ls_LiveSessionID s; ls_CreatorID := ls_CreatorID s;
     ls_CampaignID := ls_CampaignID s; ls_Status := LiveSessionsStatusCLOSED;
     ls_StartedAt := ls_StartedAt s; ls_ClosedAt := Some ts |}.

(** UPDATE live_sessions SET status = 'CLOSED', closed_at = ?
    WHERE live_session_id = ? AND status = 'OPEN'; the result is RowsAffected *)
Definition update_close (sid ts : Z) : stmt Z :=
  modify [KSession sid] (λ _, None)
    (λ t, match live_sessions t !! sid with
          | Some s => if is_open s then 1 else 0
          | None => 0
          end)
    (set_live_sessions (alter (λ s, if is_open s then close_session ts s else s) sid)).

(** SELECT status FROM live_sessions WHERE live_session_id = ? *)
Definition select_session_status (sid : Z) : stmt string :=
  query (λ t, match live_sessions t !! sid with
              | Some s => ROk (enum_text (ls_Status s))
              | None => RErr ErrNoRows
              end).

(** SELECT 1 FROM live_sessions WHERE live_session_id = ? *)
Definition select_session_exists (sid : Z) : stmt Z :=
  query (λ t, match live_sessions t !! sid with Some _ => ROk 1 | None => RErr ErrNoRows end).

(** SELECT COALESCE(SUM(charged_coins), 0), COUNT( * ), COALESCE(SUM(diamond_reward), 0)
    FROM gift_orders WHERE live_session_id = ? AND status = 'ACCEPTED' *)
Definition session_totals (t : Tables) (sid : Z) : Z * Z * Z :=
  let rows := where_ (session_order sid) (gift_orders t) in
  (sum_of go_ChargedCoins rows, Z.of_nat (length rows), sum_of go_DiamondReward rows).

(** [Scan] of three integers, left to right. *)
Definition scan3 (v : Z * Z * Z) : res (Z * Z * Z) :=
  let '(a, b, d) := v in
  match scan_int64 a, scan_int64 b, scan_int64 d with
  | ROk a', ROk b', ROk d' => ROk (a', b', d')
  | _, _, _ => RErr ErrScan
  end.

Definition select_session_totals (sid : Z) : stmt (Z * Z * Z) :=
  query (λ t, scan3 (session_totals t sid)).

Definition missing_session (t : Tables) (sid : Z) : bool :=
  match live_sessions t !! sid with Some _ => false | None => true end.

(** INSERT INTO stream_settlements ... ON DUPLICATE KEY UPDATE every other column *)
Definition upsert_settlement (s : StreamSettlement) : stmt unit :=
  modify [KSettlement (ss_LiveSessionID s)]
    (λ t, first_violation [(missing_session t (ss_LiveSessionID s), ER_NO_REFERENCED_ROW)])
    (λ _, tt)
    (set_stream_settlements (insert (ss_LiveSessionID s) s)).

(** -we.amount has no value in BIGINT for the smallest amount. *)
Definition ER_DATA_OUT_OF_RANGE : Z := 1690.

Section settlement.
Context `{MySQL} `{ErrorText}.

(** The transactions an order is joined with, and their entries on user accounts. *)
Definition joined_txs (t : Tables) (o : GiftOrder) : list WalletTransaction :=
  where_ (λ r, (wt_ActorUserID r =? go_ViewerID o) && coll_eq (wt_RequestID r) (go_RequestID o)
               && bool_decide (wt_TxType r = WalletTransactionsTxTypeGIFTDEBIT))
    (wallet_transactions t).

Definition user_entries (t : Tables) (r : WalletTransaction) : list WalletEntry :=
  where_ (λ e, (we_TxID e =? wt_TxID r) && like "USER_COINS:%" (we_AccountCode e))
    (wallet_entries t).

Definition debit_rows (t : Tables) (sid : Z) : list WalletEntry :=
  flat_map (λ o, flat_map (user_entries t) (joined_txs t o))
    (where_ (session_order sid) (gift_orders t)).

Definition wallet_debit_total (t : Tables) (sid : Z) : Z :=
  sum_of (λ e, - we_Amount e) (debit_rows t sid).

(** SELECT COALESCE(SUM(-we.amount), 0) FROM gift_orders go JOIN wallet_transactions wt ON ...
    JOIN wallet_entries we ON ... WHERE ... AND we.account_code LIKE 'USER_COINS:%' *)
Definition select_wallet_debit_total (sid : Z) : stmt Z :=
  query (λ t,
    if existsb (λ e, we_Amount e =? - max_int64 - 1) (debit_rows t sid)
    then RErr (MySQLError ER_DATA_OUT_OF_RANGE)
    else scan_int64 (wallet_debit_total t sid)).

(** INSERT INTO reconciliation_results ... ON DUPLICATE KEY UPDATE every other column *)
Definition upsert_reconciliation (r : ReconciliationResult) : stmt unit :=
  modify [KReconciliation (rr_LiveSessionID r)]
    (λ t, first_violation
       [((rr_MismatchCount r <? - max_int32 - 1) || (max_int32 <? rr_MismatchCount r), ER_OUT_OF_RANGE);
        (match json_store (rr_DetailsJson r) with Some _ => false | None => true end, ER_INVALID_JSON);
        (missing_session t (rr_LiveSessionID r), ER_NO_REFERENCED_ROW)])
    (λ _, tt)
    (set_reconciliation_results (insert (rr_LiveSessionID r)
       {| rr_LiveSessionID := rr_LiveSessionID r; rr_Status := rr_Status r;
          rr_WalletGiftDebitTotal := rr_WalletGiftDebitTotal r;
          rr_GiftOrderCoinTotal := rr_GiftOrderCoinTotal r;
          rr_MismatchCount := rr_MismatchCount r;
          rr_DetailsJson := default (rr_DetailsJson r) (json_store (rr_DetailsJson r));
          rr_GeneratedAt := rr_GeneratedAt r |})).

(** SELECT ... FROM stream_settlements ss JOIN reconciliation_results rr
    ON rr.live_session_id = ss.live_session_id WHERE ss.live_session_id = ? *)
Definition settlement_rows (t : Tables) (sid : Z) : option (StreamSettlement * ReconciliationResult) :=
  match stream_settlements t !! sid, reconciliation_results t !! sid with
  | Some s, Some r => Some (s, r)
  | _, _ => None
  end.

Definition select_settlement (sid : Z) : stmt (StreamSettlement * ReconciliationResult) :=
  query (λ t, match settlement_rows t sid with Some x => ROk x | None => RErr ErrNoRows end).

(** ** Programs *)

Definition CloseLiveSession (sid : Z) : prog SqlE (option AppError) :=
  (if sid =? 0 then Ret (Some errValidation)
   else
     let! ts0 := now in
     try! payload := Ret (MarshalJSONString {| lx_LiveSessionID := sid; lx_ClosedAtMs := UnixMilli ts0 |})
       or (Some ∘ errInternal) in
     with_tx (Some ∘ errInternal) (
       let! ts := now in
       try! affected := tx_exec (update_close sid ts) or (Some ∘ errInternal) in
       if affected =? 0 then
         let! r := tx_exec (select_session_status sid) in
         match r with
         | RErr ErrNoRows => Ret (Some errSessionNotFound)
         | RErr e => Ret (Some (errInternal e))
         | ROk status =>
             if String.eqb status "CLOSED" then Ret (Some errSessionClosed)
             else Ret (Some errSessionState)
         end
       else
         let! ts2 := now in
         try! _ := tx_exec (insert_outbox_event sessionClosedTopic (FormatUint sid) payload ts2)
           or (Some ∘ errInternal) in
         try! _ := commit or (Some ∘ errInternal) in
         Ret None))%prog.

Definition GetSettlement (sid : Z) : prog SqlE (outcome SettlementResponse) :=
  (let! r := db_exec (select_settlement sid) in
   match r with
   | RErr ErrNoRows => Ret (App errSettlementNotFound)
   | RErr e => Ret (Err e)
   | ROk (s, rr) =>
       try! top := db_exec (select_contributors sid 20) or Err in
       Ret (Ok {| st_LiveSessionID := sid; st_GrossCoinSpend := ss_GrossCoinSpend s;
                  st_AcceptedGiftCount := ss_AcceptedGiftCount s;
                  st_DiamondRewardTotal := ss_DiamondRewardTotal s; st_TopContributors := top;
                  st_ReconciliationStatus := enum_text (rr_Status rr);
                  st_WalletGiftDebitTotal := rr_WalletGiftDebitTotal rr;
                  st_GiftOrderCoinTotal := rr_GiftOrderCoinTotal rr;
                  st_MismatchCount := rr_MismatchCount rr;
                  st_ReconciliationDetails := rr_DetailsJson rr |})
   end)%prog.

(** json.Marshal of the details map: the keys in order. *)
Definition settlement_details (debit gross : Z) : json :=
  JObj [("gift_order_coin_total", JNum gross); ("wallet_gift_debit_total", JNum debit)].

(** The reconciliation row of a debit total and an order total. *)
Definition reconcile (sid debit gross ts : Z) : ReconciliationResult :=
  let '(status, mismatch) :=
    if negb (debit =? gross) then (ReconciliationResultsStatusFAIL, 1)
    else (ReconciliationResultsStatusPASS, 0) in
  {| rr_LiveSessionID := sid; rr_Status := status; rr_WalletGiftDebitTotal := debit;
     rr_GiftOrderCoinTotal := gross; rr_MismatchCount := mismatch;
     rr_DetailsJson := marshal (settlement_details debit gross); rr_GeneratedAt := ts |}.

(** The transaction of [GenerateSettlement]. *)
Definition settle_tx (sid : Z) : prog SqlE (res unit) :=
  with_tx RErr (
    try! _ := tx_exec (select_session_exists sid) or RErr in
    try! (gross, count, diamonds) := tx_exec (select_session_totals sid) or RErr in
    let! ts1 := now in
    try! _ := tx_exec (upsert_settlement
      {| ss_LiveSessionID := sid; ss_GrossCoinSpend := gross; ss_AcceptedGiftCount := count;
         ss_DiamondRewardTotal := diamonds; ss_GeneratedAt := ts1 |}) or RErr in
    try! debit := tx_exec (select_wallet_debit_total sid) or RErr in
    let! ts2 := now in
    try! _ := tx_exec (upsert_reconciliation (reconcile sid debit gross ts2)) or RErr in
    commit)%prog.

Definition GenerateSettlement (sid : Z) : prog SqlE (res SettlementResponse) :=
  (try! _ := settle_tx sid or RErr in
   let! r := GetSettlement sid in
   match r with
   | Err e => Ret (RErr e)
   | App e => Ret (RErr (ErrText ("get settlement app error: " +:+ Code e)))
   | Ok resp => Ret (ROk resp)
   end)%prog.
End settlement.

(** ** The atomic operations *)

Section atomic_settlement.
Context `{MySQL} `{ErrorText}.

Definition close_commit (t : Tables) (c : Counters) (sid ts0 ts1 ts2 : Z) : Tables :=
  add_outbox sessionClosedTopic (FormatUint sid)
    (marshal (to_json {| lx_LiveSessionID := sid; lx_ClosedAtMs := UnixMilli ts0 |})) ts2 (next_event_id c)
    (set_live_sessions (alter (close_session ts1) sid) t).

Definition close_atomic (t : Tables) (c : Counters) (sid ts0 ts1 ts2 : Z)
    : atomic (option AppError) :=
  if sid =? 0 then (Some errValidation, t, c)
  else
    match live_sessions t !! sid with
    | None => (Some errSessionNotFound, t, c)
    | Some s =>
        match ls_Status s with
        | LiveSessionsStatusCLOSED => (Some errSessionClosed, t, c)
        | LiveSessionsStatusOPEN =>
            if max_uint64 <? next_event_id c then
              (Some (errInternal (MySQLError ER_AUTOINC_READ_FAILED)), t, c)
            else (None, close_commit t c sid ts0 ts1 ts2, bump_event_id c)
        end
    end.

Definition get_settlement (t : Tables) (sid : Z) : outcome SettlementResponse :=
  match settlement_rows t sid with
  | None => App errSettlementNotFound
  | Some (s, rr) =>
      match scan_rows Build_ContributorSummary (take 20 (contributor_ranking t sid)) with
      | RErr e => Err e
      | ROk top =>
          Ok {| st_LiveSessionID := sid; st_GrossCoinSpend := ss_GrossCoinSpend s;
                st_AcceptedGiftCount := ss_AcceptedGiftCount s;
                st_DiamondRewardTotal := ss_DiamondRewardTotal s; st_TopContributors := top;
                st_ReconciliationStatus := enum_text (rr_Status rr);
                st_WalletGiftDebitTotal := rr_WalletGiftDebitTotal rr;
                st_GiftOrderCoinTotal := rr_GiftOrderCoinTotal rr;
                st_MismatchCount := rr_MismatchCount rr;
                st_ReconciliationDetails := rr_DetailsJson rr |}
      end
  end.

(** The totals a settlement is computed from: orders (coins, count, diamonds) and debits. *)
Definition settle_totals (t : Tables) (sid : Z) : res (Z * Z * Z * Z) :=
  if missing_session t sid then RErr ErrNoRows
  else
    match scan3 (session_totals t sid) with
    | RErr e => RErr e
    | ROk totals =>
        if existsb (λ e, we_Amount e =? - max_int64 - 1) (debit_rows t sid)
        then RErr (MySQLError ER_DATA_OUT_OF_RANGE)
        else
          match scan_int64 (wallet_debit_total t sid) with
          | RErr e => RErr e
          | ROk debit => ROk (totals, debit)
          end
    end.

Definition settle_commit (t : Tables) (sid : Z) (totals : Z * Z * Z * Z) (ts1 ts2 : Z) : Tables :=
  let '(gross, count, diamonds, debit) := totals in
  let rr := reconcile sid debit gross ts2 in
  set_reconciliation_results (insert sid
    {| rr_LiveSessionID := sid; rr_Status := rr_Status rr; rr_WalletGiftDebitTotal := debit;
       rr_GiftOrderCoinTotal := gross; rr_MismatchCount := rr_MismatchCount rr;
       rr_DetailsJson := default (rr_DetailsJson rr) (json_store (rr_DetailsJson rr));
       rr_GeneratedAt := ts2 |})
    (set_stream_settlements (insert sid
      {| ss_LiveSessionID := sid; ss_GrossCoinSpend := gross; ss_AcceptedGiftCount := count;
         ss_DiamondRewardTotal := diamonds; ss_GeneratedAt := ts1 |}) t).

Definition settlement_result (r : outcome SettlementResponse) : res SettlementResponse :=
  match r with
  | Err e => RErr e
  | App e => RErr (ErrText ("get settlement app error: " +:+ Code e))
  | Ok resp => ROk resp
  end.

Definition settle_atomic (t : Tables) (c : Counters) (sid ts1 ts2 : Z)
    : atomic (res SettlementResponse) :=
  match settle_totals t sid with
  | RErr e => (RErr e, t, c)
  | ROk totals =>
      let t' := settle_commit t sid totals ts1 ts2 in
      (settlement_result (get_settlement t' sid), t', c)
  end.
End atomic_settlement.

(** ** Refinement *)

Section refinement.
Context `{MySQLLaws} `{ErrorText}.

Definition close_post (F : bool) (sid : Z) (t : Tables) (c : Counters)
    (out : option AppError) (t' : Tables) (c' : Counters) (v : option Tables) : Prop :=
  v = None ∧ ∃ ts0 ts1 ts2,
    settles F (Some (errInternal ErrConn)) t c (close_atomic t c sid ts0 ts1 ts2) out t' c'.

Lemma close_post_failed F sid t c c' :
  F = true → counters_le c c' → close_post F sid t c (Some (errInternal ErrConn)) t c' None.
Proof. intros -> Hc. split; [done|]. exists 0, 0, 0. by apply settles_failed. Qed.

Lemma close_post_same F sid t c out c' :
  (∀ ts0 ts1 ts2, close_atomic t c sid ts0 ts1 ts2 = (out, t, c)) → counters_le c c' →
  close_post F sid t c out t c' None.
Proof. intros Ha Hc. split; [done|]. exists 0, 0, 0. left. by rewrite Ha. Qed.

Ltac failed := fault_case close_post_failed.

Lemma CloseLiveSession_refines F t c sid :
  is_uint64 sid → wp F (CloseLiveSession sid) (close_post F sid t c) t c None.
Proof.
  intros Hid. unfold CloseLiveSession.
  assert (Hsame := λ out c' Ha, close_post_same F sid t c out c' Ha). unfold close_atomic in Hsame.
  destruct (sid =? 0) eqn:E0.
  { by apply wp_ret, Hsame. }
  apply wp_bind, wp_now. intros ts0. apply wp_try, wp_ret, wp_with_tx; [failed|].
  apply wp_bind, wp_now. intros ts1. apply wp_try, wp_modify; [failed|done|]. intros _.
  destruct (live_sessions t !! sid) as [s|] eqn:Es; cycle 1.
  { apply wp_bind, wp_query; [failed|]. simpl. rewrite lookup_alter_eq, Es. by apply wp_ret, Hsame. }
  unfold is_open. destruct (ls_Status s) eqn:Est; cycle 1.
  { apply wp_bind, wp_query; [failed|]. simpl. rewrite lookup_alter_eq, Es. simpl. rewrite Est. simpl.
    rewrite Est.
    by apply wp_ret, Hsame. }
  simpl. apply wp_bind, wp_now. intros ts2. apply wp_try, wp_insert_auto; [failed|..].
  { intros Hmax. rewrite (proj2 (Z.ltb_lt _ _) Hmax) in Hsame. by apply Hsame. }
  { intros n _ Hn. by rewrite outbox_accepts in Hn by (done || simpl; lia). }
  intros Hmax _.
  assert (Hpost : ∀ out, out = None ∨ F = true ∧ out = Some (errInternal ErrConn) →
    close_post F sid t c out (close_commit t c sid ts0 ts1 ts2) (bump_event_id c) None).
  { intros out Hout. split; [done|]. exists ts0, ts1, ts2. unfold close_atomic.
    rewrite E0, Es, Est, (proj2 (Z.ltb_ge _ _)) by done.
    by apply (settles_effect F _ _ _ (_, _, _)). }
  assert (Heq : alter (λ s, if bool_decide (ls_Status s = LiveSessionsStatusOPEN)
                            then close_session ts1 s else s) sid (live_sessions t)
                = alter (close_session ts1) sid (live_sessions t)).
  { apply map_eq. intros i. destruct (decide (i = sid)) as [->|Hne].
    - rewrite !lookup_alter_eq, Es. simpl. by rewrite Est.
    - by rewrite !lookup_alter_ne. }
  unfold set_live_sessions at 1. rewrite Heq.
  apply wp_try, wp_commit; [failed|intros; apply Hpost; by right|].
  apply wp_ret, Hpost. by left.
Qed.

Lemma GetSettlement_wp F t c sid :
  wp F (GetSettlement sid)
    (λ out t' c' v, t' = t ∧ c' = c ∧ v = None
                    ∧ (out = get_settlement t sid ∨ F = true ∧ out = Err ErrConn)) t c None.
Proof.
  unfold GetSettlement, get_settlement. apply wp_bind, wp_read.
  { intros. apply wp_ret. auto 10. }
  destruct (settlement_rows t sid) as [[s rr]|]; [|apply wp_ret; auto 10].
  apply wp_try, wp_read; [auto 10|]. change (Z.to_nat 20) with 20%nat.
  destruct (scan_rows _ _); [apply wp_ret|]; auto 10.
Qed.

Definition settle_post (F : bool) (sid : Z) (t : Tables) (c : Counters)
    (out : res SettlementResponse) (t' : Tables) (c' : Counters) (v : option Tables) : Prop :=
  v = None ∧ ∃ ts1 ts2, settles F (RErr ErrConn) t c (settle_atomic t c sid ts1 ts2) out t' c'.

(** The transaction commits the two rows, or nothing. *)
Lemma settle_tx_wp F t c sid :
  wp F (settle_tx sid)
    (λ out t' c' v, v = None ∧ c' = c ∧
      (F = true ∧ out = RErr ErrConn ∧ t' = t
       ∨ (∃ e, settle_totals t sid = RErr e ∧ out = RErr e ∧ t' = t)
       ∨ ∃ totals ts1 ts2, settle_totals t sid = ROk totals ∧ t' = settle_commit t sid totals ts1 ts2
           ∧ (out = ROk tt ∨ F = true ∧ out = RErr ErrConn))) t c None.
Proof.
  unfold settle_tx, settle_totals, missing_session. apply wp_with_tx; [auto 10|].
  apply wp_try, wp_query; [auto 10|]. destruct (live_sessions t !! sid) as [s|] eqn:Es; [|eauto 10].
  apply wp_try, wp_query; [auto 10|].
  destruct (scan3 (session_totals t sid)) as [[[gross count] diamonds]|e]; [|eauto 10].
  apply wp_bind, wp_now. intros ts1. apply wp_try, wp_modify; [auto 10|..]; simpl.
  { intros n. unfold missing_session. by rewrite Es. }
  intros _. apply wp_try, wp_query; [auto 10|].
  change (debit_rows (set_stream_settlements _ t) sid) with (debit_rows t sid).
  change (wallet_debit_total (set_stream_settlements _ t) sid) with (wallet_debit_total t sid).
  destruct (existsb _ _); [eauto 10|].
  destruct (scan_int64 _) as [debit|e]; [|eauto 10].
  apply wp_bind, wp_now. intros ts2. apply wp_try, wp_modify; [auto 10|..].
  { intros n Hn. exfalso. unfold missing_session, reconcile in Hn.
    destruct (json_flat (settlement_details debit gross)) as [doc Hdoc]; [done|].
    destruct (negb (debit =? gross)); simpl in Hn; by rewrite Hdoc, Es in Hn. }
  intros _.
  assert (Hrow : ∀ m, set_reconciliation_results
      (insert (rr_LiveSessionID (reconcile sid debit gross ts2)) m) = set_reconciliation_results (insert sid m)).
  { intros m. unfold reconcile. by destruct (negb (debit =? gross)). }
  rewrite Hrow. clear Hrow.
  assert (Hcommit : ∀ out, out = ROk tt ∨ F = true ∧ out = RErr ErrConn →
    ∃ totals ts1' ts2', ROk (gross, count, diamonds, debit) = ROk totals
      ∧ settle_commit t sid (gross, count, diamonds, debit) ts1 ts2
        = settle_commit t sid totals ts1' ts2' ∧ (out = ROk tt ∨ F = true ∧ out = RErr ErrConn))
    by eauto 10.
  unfold settle_commit, reconcile in *. destruct (negb (debit =? gross));
    (apply wp_commit; [auto 10|intros; split_and!; [done|done|right; right; apply Hcommit; auto]..|
     split_and!; [done|done|right; right; apply Hcommit; auto]]).
Qed.

Lemma GenerateSettlement_refines F t c sid :
  wp F (GenerateSettlement sid) (settle_post F sid t c) t c None.
Proof.
  unfold GenerateSettlement, settle_post, settle_atomic. apply wp_try.
  eapply wp_mono; [apply settle_tx_wp|].
  intros out t' c' v (-> & -> & [(-> & -> & ->)|[(e & He & -> & ->)|(totals & ts1 & ts2 & Ht & -> & Hout)]]).
  - split; [done|]. exists 0, 0. by apply settles_failed.
  - split; [done|]. exists 0, 0. rewrite He. by apply (settles_done _ _ _ _ (_, _, _)).
  - destruct Hout as [->|[-> ->]].
    + apply wp_bind. eapply wp_mono; [apply GetSettlement_wp|].
      intros out t' c' v (-> & -> & -> & Hout). rewrite Ht.
      destruct Hout as [->|[-> ->]]; [|apply wp_ret; split; [done|]; exists ts1, ts2;
        apply (settles_effect _ _ _ _ (_, _, _)); [by right|done]].
      destruct (get_settlement _ sid) eqn:Eg; apply wp_ret; (split; [done|]); exists ts1, ts2;
        rewrite Eg; (apply (settles_effect _ _ _ _ (_, _, _)); [by left|done]).
    + split; [done|]. exists ts1, ts2. rewrite Ht.
      apply (settles_effect _ _ _ _ (_, _, _)); [by right|done].
Qed.
End refinement.
