(* ===== verification/Reconcile.v ===== *)
(** * The wallet ledger and the gift orders agree

    The join of [GenerateSettlement] (src/internal/service/settlement.go) finds, for every accepted
    order of a database that satisfies the ledger invariant, exactly the entry that debited it, so
    that the two totals it compares are equal. *)

From S2P Require Import Prelude GoInt GoStrings Json Schema Prog Sql Wp Events Ledger WellFormed Preserve Money Recharge Gift GiftSpec Invariants ReadModels Settlement.

(** ** The LIKE of the join *)

Lemma like_match_any s : like_match "%" s = true.
Proof. induction s as [|a s IH]; [done|]. simpl in *. done. Qed.

Lemma like_match_user u : like_match "USER_COINS:%" (user_coins u) = true.
Proof. unfold user_coins. generalize (FormatUint u) as s. intros s. apply (like_match_any s). Qed.

Lemma like_match_counter ty : like_match "USER_COINS:%" (counter_account ty) = false.
Proof. by destruct ty. Qed.

Lemma no_backslash (s p1 p2 : string) :
  List.existsb (λ b, b =? 92) (bytes_of s) = false → s ≠ p1 +:+ "\" +:+ p2.
Proof.
  intros Hs ->. induction p1 as [|a p1 IH]; simpl in *; [done|].
  apply orb_false_iff in Hs as [_ Hs]. auto.
Qed.

Section reconcile.
Context `{MySQLLaws}.

Lemma like_user u : 0 ≤ u → like "USER_COINS:%" (user_coins u) = true.
Proof.
  intros Hu. rewrite like_ascii; [apply like_match_user|done|by apply user_coins_printable|].
  intros p1 p2. by apply no_backslash.
Qed.

Lemma like_counter ty : like "USER_COINS:%" (counter_account ty) = false.
Proof.
  rewrite like_ascii; [apply like_match_counter|done|by destruct ty|].
  intros p1 p2. by apply no_backslash.
Qed.

Context (opening : Z → Z) (t : Tables) (c : Counters).
Context (Hwf : wf t c) (Hledger : ledger_ok opening t).

Lemma where_and {A} (p q : A → bool) l : where_ (λ x, p x && q x) l = where_ q (where_ p l).
Proof.
  induction l as [|x l IH]; simpl; [done|]. destruct (p x); simpl; [|done].
  by destruct (q x); rewrite IH.
Qed.

(** The user side of a transaction's postings. *)
Lemma user_entries_posted r a :
  In r (wallet_transactions t) → posted t r a →
  user_entries t r
  = [{| we_TxID := wt_TxID r; we_AccountCode := user_coins (wt_ActorUserID r); we_Amount := a |}].
Proof.
  intros Hr [_ Hp]. unfold user_entries. rewrite where_and. unfold postings in Hp. rewrite Hp.
  unfold where_. cbn [map posting_entries entry_row List.filter we_AccountCode AccountCode].
  rewrite like_user, like_counter; [done|]. apply (lo_posted _ _ Hledger) in Hr as [Hu _].
  int_bounds. lia.
Qed.

(** The unique key of wallet_transactions makes the join find one row. *)
Lemma joined_tx o r :
  In r (wallet_transactions t) → debit_of o r → joined_txs t o = [r].
Proof.
  intros Hr (Hty & Hv & Hq). apply (unique_key_where wallet_tx_key); [apply (wf_tx_uq _ _ Hwf)|done|].
  intros y Hy. rewrite !andb_true_iff, Z.eqb_eq, coll_eq_spec, bool_decide_eq_true.
  unfold wallet_tx_key. rewrite Hty, Hv, Hq. split.
  - intros [[-> ->] ->]. done.
  - intros [= -> -> ->]. done.
Qed.

Lemma debit_rows_order o :
  In o (gift_orders t) → accepted o →
  ∃ e, flat_map (user_entries t) (joined_txs t o) = [e] ∧ we_Amount e = - go_ChargedCoins o.
Proof.
  intros Ho Hacc. destruct (lo_order _ _ Hledger o Ho Hacc) as (r & Hr & Hd & Hp).
  rewrite (joined_tx o r Hr Hd). simpl. rewrite app_nil_r, (user_entries_posted r _ Hr Hp). eauto.
Qed.

Lemma session_order_spec sid o :
  session_order sid o = true ↔ go_LiveSessionID o = sid ∧ accepted o.
Proof. unfold session_order. by rewrite andb_true_iff, Z.eqb_eq, bool_decide_eq_true. Qed.

Lemma debit_rows_spec orders :
  (∀ o, In o orders → In o (gift_orders t) ∧ accepted o) →
  let rows := flat_map (λ o, flat_map (user_entries t) (joined_txs t o)) orders in
  sum_of (λ e, - we_Amount e) rows = sum_of go_ChargedCoins orders
  ∧ ∀ e, In e rows → ∃ o, In o orders ∧ we_Amount e = - go_ChargedCoins o.
Proof.
  induction orders as [|o orders IH]; intros Hall; [done|]. cbv zeta in *. simpl.
  destruct IH as [IHs IHe]; [intros o' Ho'; apply Hall; by right|].
  destruct (Hall o (or_introl eq_refl)) as [Ho Hacc].
  destruct (debit_rows_order o Ho Hacc) as (e & -> & Hamt). simpl. rewrite Hamt, IHs.
  split; [lia|]. intros e' [<-|He']; [eauto|]. destruct (IHe e' He') as (o' & ? & ?). eauto.
Qed.

Lemma session_rows sid o :
  In o (where_ (session_order sid) (gift_orders t)) → In o (gift_orders t) ∧ accepted o.
Proof. intros Ho. apply where_In in Ho as [Ho Hs]. by apply session_order_spec in Hs as [_ Hs]. Qed.

(** The two totals of the reconciliation. *)
Lemma wallet_debit_total_eq sid :
  wallet_debit_total t sid = sum_of go_ChargedCoins (where_ (session_order sid) (gift_orders t)).
Proof. apply debit_rows_spec, session_rows. Qed.

Lemma debit_rows_range sid :
  existsb (λ e, we_Amount e =? - max_int64 - 1) (debit_rows t sid) = false.
Proof.
  apply existsb_false. intros e He. apply Z.eqb_neq.
  destruct (proj2 (debit_rows_spec _ (session_rows sid)) e He) as (o & Ho & ->).
  apply session_rows in Ho as [Ho _]. destruct (wf_order_cols _ _ Hwf o Ho) as [Hch _].
  int_bounds. lia.
Qed.

Lemma scan_int64_ok v : is_int64 v → scan_int64 v = ROk v.
Proof.
  intros Hv. unfold scan_int64.
  assert (Hb : (v <? - max_int64 - 1) || (max_int64 <? v) = false) by (int_bounds; lia).
  by rewrite Hb.
Qed.

(** Every accepted order charges something, so there are no more orders than coins. *)
Lemma order_charged o : In o (gift_orders t) → accepted o → 1 ≤ go_ChargedCoins o.
Proof.
  intros Ho Hacc. destruct (lo_order _ _ Hledger o Ho Hacc) as (r & _ & (Hty & _) & (Ha & _)).
  rewrite Hty in Ha. simpl in Ha. lia.
Qed.

Lemma count_le_coins orders :
  (∀ o, In o orders → In o (gift_orders t) ∧ accepted o) →
  Z.of_nat (length orders) ≤ sum_of go_ChargedCoins orders.
Proof.
  induction orders as [|o orders IH]; intros Hall; simpl; [lia|].
  destruct (Hall o (or_introl eq_refl)) as [Ho Hacc]. pose proof (order_charged o Ho Hacc).
  assert (Z.of_nat (length orders) ≤ sum_of go_ChargedCoins orders)
    by (apply IH; intros o' Ho'; apply Hall; by right). lia.
Qed.

(** A settlement succeeds when its totals are int64s, and finds equal totals. *)
Lemma settle_totals_ok sid s :
  live_sessions t !! sid = Some s →
  let '(gross, count, diamonds) := session_totals t sid in
  gross ≤ max_int64 → diamonds ≤ max_int64 →
  settle_totals t sid = ROk (gross, count, diamonds, gross).
Proof.
  intros Hs. unfold settle_totals, missing_session, session_totals. intros Hg Hd. rewrite Hs.
  pose proof (count_le_coins _ (session_rows sid)) as Hcount.
  assert (0 ≤ sum_of go_DiamondReward (where_ (session_order sid) (gift_orders t))).
  { apply sum_of_nonneg. intros o Ho. apply session_rows in Ho as [Ho _].
    destruct (wf_order_cols _ _ Hwf o Ho) as (_ & _ & Hdi). int_bounds. lia. }
  unfold scan3. rewrite !scan_int64_ok by (int_bounds; lia).
  rewrite debit_rows_range, wallet_debit_total_eq, scan_int64_ok by (int_bounds; lia). done.
Qed.

(** The contributors of a session are within its total. *)
Lemma contributors_scanned sid n :
  sum_of go_ChargedCoins (where_ (session_order sid) (gift_orders t)) ≤ max_int64 →
  scan_rows Build_ContributorSummary (take n (contributor_ranking t sid))
  = ROk (map (λ x, Build_ContributorSummary x.1 x.2) (take n (contributor_ranking t sid))).
Proof.
  intros Hmax. set (rows := where_ _ _) in *. apply scan_rows_ok. intros k s Hin.
  assert (Hg : In (k, s) (group_sum go_ViewerID go_ChargedCoins rows)).
  { eapply Permutation_in; [apply ranking_perm|]. unfold contributor_ranking in Hin.
    rewrite <- (take_drop n (ranking _ _ _)). apply in_or_app. by left. }
  apply group_sum_In in Hg as [_ ->].
  assert (Hpos : ∀ o, In o rows → 0 ≤ go_ChargedCoins o).
  { intros o Ho. apply session_rows in Ho as [Ho Hacc]. pose proof (order_charged o Ho Hacc). lia. }
  assert (Hsub : ∀ l, (∀ o, In o l → 0 ≤ go_ChargedCoins o) →
    0 ≤ sum_of go_ChargedCoins (where_ (λ x, go_ViewerID x =? k) l) ≤ sum_of go_ChargedCoins l).
  { clear. induction l as [|o l IH]; intros Hl; simpl; [lia|].
    assert (0 ≤ go_ChargedCoins o) by (apply Hl; by left).
    assert (∀ o, In o l → 0 ≤ go_ChargedCoins o) as Hl' by (intros; apply Hl; by right).
    specialize (IH Hl'). destruct (go_ViewerID o =? k); simpl; lia. }
  specialize (Hsub rows Hpos). int_bounds. lia.
Qed.
End reconcile.
