(* ===== verification/System.v ===== *)
(** * The service as a transition system

    Every operation of the service (src/internal/service) as a step on the database, with any clock
    and any pattern of connection failures; the invariants hold along every sequence of steps, by
    induction on the sequence. *)

From S2P Require Import Prelude GoInt GoStrings Sha256 Json Schema Prog Sql Wp Events Ledger WellFormed Preserve Money Recharge Gift GiftSpec Invariants InternalEvents ReadModels Settlement Reconcile.

Inductive service_op :=
| OpRecharge (req : RechargeRequest)
| OpSendGift (req : GiftRequest)
| OpComment (req : InternalCommentRequest)
| OpWatchMinutes (fuel : nat) (req : InternalWatchMinutesRequest)
| OpClose (sid : Z)
| OpSettle (sid : Z)
| OpGetSettlement (sid : Z)
| OpContributors (sid limit : Z)
| OpCampaign (campaign limit : Z).

(** The arguments are values of their Go types. *)
Definition op_typed (op : service_op) : Prop :=
  match op with
  | OpRecharge req => recharge_typed req
  | OpSendGift req => gift_typed req
  | OpComment req => is_uint64 (ic_LiveSessionID req)
  | OpWatchMinutes _ req => is_uint64 (iw_LiveSessionID req) ∧ is_uint16 (iw_Minutes req)
  | OpClose sid | OpSettle sid | OpGetSettlement sid | OpContributors sid _ | OpCampaign sid _ =>
      is_uint64 sid
  end.

Section system.
Context `{MySQLLaws} `{Unicode} `{ErrorText}.

(** The program of an operation, its result left out. *)
Definition op_prog (op : service_op) : prog SqlE unit :=
  (match op with
   | OpRecharge req => Recharge req ;;; Ret tt
   | OpSendGift req => SendGift req ;;; Ret tt
   | OpComment req => EnqueueCommentEvent req ;;; Ret tt
   | OpWatchMinutes fuel req => EnqueueWatchMinuteEvents fuel req ;;; Ret tt
   | OpClose sid => CloseLiveSession sid ;;; Ret tt
   | OpSettle sid => GenerateSettlement sid ;;; Ret tt
   | OpGetSettlement sid => GetSettlement sid ;;; Ret tt
   | OpContributors sid limit => GetLiveContributors sid limit ;;; Ret tt
   | OpCampaign campaign limit => GetCampaignLeaderboard campaign limit ;;; Ret tt
   end)%prog.

Inductive service_step : Db → Db → Prop :=
| service_op_step (env : Env) (op : service_op) (d : Db) :
    op_typed op → service_step d (run (op_prog op) d).2.

(** What holds between operations. *)
Definition service_ok (opening : Z → Z) (d : Db) : Prop :=
  idle d ∧ db_ok opening (tables d) (counters d).

(** ** The invariant across the operations that move no money *)

Lemma wf_frame t t' c :
  wf t c → wallet_transactions t' = wallet_transactions t → wallet_entries t' = wallet_entries t →
  wallet_accounts t' = wallet_accounts t → gift_orders t' = gift_orders t →
  recharge_requests t' = recharge_requests t → outbox_events t' = outbox_events t →
  users t' = users t → gift_catalog t' = gift_catalog t →
  (∀ i s k, live_sessions t' !! i = Some s → ls_CampaignID s = Some k → is_uint64 k) →
  wf t' c.
Proof.
  intros [] Htx Hen Hac Hgo Hrq Hob Hus Hca Hls.
  split; unfold tx_missing, user_missing in *;
    rewrite ?Htx, ?Hen, ?Hac, ?Hgo, ?Hrq, ?Hob, ?Hus, ?Hca; done.
Qed.

Lemma db_ok_outbox opening topic key payload ts t c :
  db_ok opening t c →
  db_ok opening (add_outbox topic key payload ts (next_event_id c) t) (bump_event_id c).
Proof.
  intros [Hwf Hl]. split; [by apply wf_add_outbox|].
  apply (ledger_frame opening t); [done..|]. by eapply outbox_kept_app.
Qed.

Lemma close_atomic_ok opening t c sid ts0 ts1 ts2 :
  db_ok opening t c →
  let a := close_atomic t c sid ts0 ts1 ts2 in db_ok opening a.1.2 a.2.
Proof.
  intros Hok. unfold close_atomic. repeat case_match; try done. simpl.
  apply db_ok_outbox. destruct Hok as [Hwf Hl]. split; [|by apply (ledger_frame opening t), outbox_kept_same].
  apply (wf_frame t); try done. intros i s' k. simpl. rewrite lookup_alter_Some.
  intros [(<- & x & Hx & ->)|[_ Hs']] Hk; by eapply (wf_campaign _ _ Hwf).
Qed.

Lemma settle_atomic_ok opening t c sid ts1 ts2 :
  db_ok opening t c →
  let a := settle_atomic t c sid ts1 ts2 in db_ok opening a.1.2 a.2.
Proof.
  intros [Hwf Hl]. unfold settle_atomic. destruct (settle_totals t sid) as [totals|e]; [|done].
  simpl. destruct totals as [[[gross count] diamonds] debit].
  split; [apply (wf_frame t); try done; apply (wf_campaign _ _ Hwf)|by apply (ledger_frame opening t), outbox_kept_same].
Qed.

(** The loop over the minutes, wherever it stops. *)
Lemma watch_loop_ok opening F fuel req t : ∀ i d v,
  db_ok opening t d → db_ok opening v d →
  wp F (watch_loop fuel req i) (λ _ t' c' _, db_ok opening t' c') t d (Some v).
Proof.
  assert (Hbump : ∀ u d, db_ok opening u d → db_ok opening u (bump_event_id d)).
  { intros u d [Hw Hl]. split; [|done]. eapply wf_counters; [done|solve_counters]. }
  induction fuel as [|fuel IH]; intros i d v Ht Hv; simpl; [by apply wp_ret|].
  destruct (i <=? iw_Minutes req).
  - apply wp_try, wp_ret, wp_bind, wp_now. intros ts. apply wp_try, wp_insert_auto; auto.
    + by intros _ c' v' [->| ->]; auto.
    + intros _ _. apply IH; [by apply Hbump|by apply db_ok_outbox].
  - apply wp_try, wp_commit; auto. by apply wp_ret.
Qed.

(** ** Every operation *)

Lemma op_ok F opening op t c :
  op_typed op → db_ok opening t c →
  wp F (op_prog op) (λ _ t' c' v, v = None ∧ db_ok opening t' c') t c None.
Proof.
  intros Hty Hok. destruct op; simpl; apply wp_bind.
  - eapply wp_mono; [apply Recharge_refines; [apply Hok|done]|].
    intros out t' c' v (-> & ts1 & ts2 & ts3 & Hs). apply wp_ret. split; [done|].
    eapply db_ok_settles; [done|by apply recharge_atomic_ok|done].
  - eapply wp_mono; [apply SendGift_refines; [apply Hok|done]|].
    intros out t' c' v (-> & ts1 & ts2 & ts3 & ts4 & Hs). apply wp_ret. split; [done|].
    eapply db_ok_settles; [done|by apply gift_atomic_ok|done].
  - eapply wp_mono; [by apply EnqueueCommentEvent_refines|].
    intros out t' c' v (-> & ts & Hs). apply wp_ret. split; [done|].
    eapply db_ok_settles; [done| |done]. unfold comment_atomic.
    repeat case_match; try done. by apply db_ok_outbox.
  - unfold EnqueueWatchMinuteEvents. destruct (watch_invalid req).
    { do 2 apply wp_ret. done. }
    apply wp_with_tx; [intros; by apply wp_ret|].
    eapply wp_mono; [by apply (watch_loop_ok opening)|]. intros out t' c' v Hok'. by apply wp_ret.
  - eapply wp_mono; [by apply CloseLiveSession_refines|].
    intros out t' c' v (-> & ts0 & ts1 & ts2 & Hs). apply wp_ret. split; [done|].
    eapply db_ok_settles; [done|by apply close_atomic_ok|done].
  - eapply wp_mono; [by apply GenerateSettlement_refines|].
    intros out t' c' v (-> & ts1 & ts2 & Hs). apply wp_ret. split; [done|].
    eapply db_ok_settles; [done|by apply settle_atomic_ok|done].
  - eapply wp_mono; [apply GetSettlement_wp|].
    intros out t' c' v (-> & -> & -> & _). by apply wp_ret.
  - apply wp_read; intros; by apply wp_ret.
  - apply wp_read; intros; by apply wp_ret.
Qed.

Lemma service_step_ok opening d d' :
  service_step d d' → service_ok opening d → service_ok opening d'.
Proof.
  intros [env op d0 Hty] [Hidle Hok].
  destruct (wp_run true env (op_prog op) _ d0 ltac:(done) Hidle
              (op_ok true opening op _ _ Hty Hok)) as [Hv Hok'].
  split; [|done]. unfold idle. by destruct (tx _).
Qed.

Lemma reachable_ok opening d d' :
  rtc service_step d d' → service_ok opening d → service_ok opening d'.
Proof. induction 1; eauto using service_step_ok. Qed.
End system.
