(* ===== verification/Points.v ===== *)
(** * The points projector

    Models src/internal/projector/points/projector.go: fan and campaign points from events, once per
    event, with a cap per viewer and session on comments and watch minutes. *)

From S2P Require Import Prelude GoInt GoStrings Json Schema Prog Sql Wp Events Ledger Gift.

Definition consumerName : string := "points-projector".
Definition comment_cap : Z := 20.
Definition watch_cap : Z := 60.

(** ** Statements *)

Section statements.
Context `{MySQL}.

Definition same_dedupe (consumer : string) (event : Z) (r : ConsumerDedupe) : bool :=
  coll_eq (cd_ConsumerName r) consumer && (cd_EventID r =? event).

(** INSERT INTO consumer_dedupe (consumer_name, event_id, applied_at) VALUES (?, ?, ?) *)
Definition insert_dedupe (consumer : string) (event ts : Z) : stmt unit :=
  modify [KDedupe (coll_key consumer) event]
    (λ t, first_violation
       [(negb (varchar_fits 64 consumer), ER_DATA_TOO_LONG);
        (existsb (same_dedupe consumer event) (consumer_dedupe t), ER_DUP_ENTRY)])
    (λ _, tt)
    (set_consumer_dedupe (λ l, l ++
       [{| cd_ConsumerName := consumer; cd_EventID := event; cd_AppliedAt := ts |}])).

Definition session_missing (t : Tables) (sid : Z) : bool :=
  match live_sessions t !! sid with Some _ => false | None => true end.

(** The points column is a signed INT. *)
Definition int_out_of_range (v : Z) : bool := (v <? - max_int32 - 1) || (max_int32 <? v).

Definition fan_point_violation (p : FanPointLedger) (t : Tables) : option Z :=
  first_violation
    [(int_out_of_range (fp_Points p), ER_OUT_OF_RANGE);
     (existsb (λ q, fp_EventID q =? fp_EventID p) (fan_point_ledger t), ER_DUP_ENTRY);
     (user_missing t (fp_ViewerID p), ER_NO_REFERENCED_ROW);
     (user_missing t (fp_CreatorID p), ER_NO_REFERENCED_ROW);
     (session_missing t (fp_LiveSessionID p), ER_NO_REFERENCED_ROW)].

(** INSERT INTO fan_point_ledger (event_id, viewer_id, creator_id, live_session_id, points,
    reason) *)
Definition insert_fan_point (p : FanPointLedger) : stmt unit :=
  modify [KFanPoint (fp_EventID p)] (fan_point_violation p) (λ _, tt)
    (set_fan_point_ledger (λ l, l ++ [p])).

Definition campaign_point_violation (p : CampaignPointLedger) (t : Tables) : option Z :=
  first_violation
    [(int_out_of_range (cp_Points p), ER_OUT_OF_RANGE);
     (existsb (λ q, cp_EventID q =? cp_EventID p) (campaign_point_ledger t), ER_DUP_ENTRY);
     (user_missing t (cp_CreatorID p), ER_NO_REFERENCED_ROW)].

(** INSERT INTO campaign_point_ledger (event_id, campaign_id, creator_id, points, reason) *)
Definition insert_campaign_point (p : CampaignPointLedger) : stmt unit :=
  modify [KCampaignPoint (cp_EventID p)] (campaign_point_violation p) (λ _, tt)
    (set_campaign_point_ledger (λ l, l ++ [p])).

Definition same_activity (viewer sid : Z) (reason : FanPointLedgerReason) (p : FanPointLedger)
    : bool :=
  (fp_ViewerID p =? viewer) && (fp_LiveSessionID p =? sid) && bool_decide (fp_Reason p = reason).

Definition activity_count (t : Tables) (viewer sid : Z) (reason : FanPointLedgerReason) : Z :=
  count_where (same_activity viewer sid reason) (fan_point_ledger t).

(** SELECT COUNT( * ) FROM fan_point_ledger
    WHERE viewer_id = ? AND live_session_id = ? AND reason = ? *)
Definition select_activity_count (viewer sid : Z) (reason : FanPointLedgerReason) : stmt Z :=
  query (λ t, scan_int64 (activity_count t viewer sid reason)).

(** ** Programs; the result is the error returned *)

Inductive dedupe_error := DuplicateEvent | DedupeErr (e : go_err).

Definition isDuplicateOrErr (event : Z) : prog SqlE (option dedupe_error) :=
  (let! ts := now in
   let! r := tx_exec (insert_dedupe consumerName event ts) in
   Ret (match r with
        | ROk _ => None
        | RErr e => Some (if isDupKey e then DuplicateEvent else DedupeErr e)
        end))%prog.

(** return tx.Commit() *)
Definition return_commit : prog SqlE (option go_err) :=
  (let! r := commit in Ret (match r with ROk _ => None | RErr e => Some e end))%prog.

Definition gift_point (event : Z) (evt : LiveGiftAcceptedV1) : FanPointLedger :=
  {| fp_EventID := event; fp_ViewerID := ga_ViewerID evt; fp_CreatorID := ga_CreatorID evt;
     fp_LiveSessionID := ga_LiveSessionID evt; fp_Points := ga_ChargedCoins evt;
     fp_Reason := FanPointLedgerReasonGIFT |}.

Definition gift_campaign_point (event campaign : Z) (evt : LiveGiftAcceptedV1) : CampaignPointLedger :=
  {| cp_EventID := event; cp_CampaignID := campaign; cp_CreatorID := ga_CreatorID evt;
     cp_Points := ga_ChargedCoins evt; cp_Reason := CampaignPointLedgerReasonGIFT |}.

Definition ApplyGift (event : Z) (evt : LiveGiftAcceptedV1) : prog SqlE (option go_err) :=
  with_tx Some (
    let! d := isDuplicateOrErr event in
    match d with
    | Some DuplicateEvent => return_commit
    | Some (DedupeErr e) => Ret (Some e)
    | None =>
        try! _ := tx_exec (insert_fan_point (gift_point event evt)) or Some in
        match ga_CampaignID evt with
        | None => return_commit
        | Some campaign =>
            try! _ := tx_exec (insert_campaign_point (gift_campaign_point event campaign evt))
              or Some in
            return_commit
        end
    end)%prog.

Definition activity_point (event viewer creator sid : Z) (reason : FanPointLedgerReason)
    : FanPointLedger :=
  {| fp_EventID := event; fp_ViewerID := viewer; fp_CreatorID := creator;
     fp_LiveSessionID := sid; fp_Points := 1; fp_Reason := reason |}.

Definition applyCapped (event viewer creator sid : Z) (reason : FanPointLedgerReason) (cap : Z)
    : prog SqlE (option go_err) :=
  with_tx Some (
    let! d := isDuplicateOrErr event in
    match d with
    | Some DuplicateEvent => return_commit
    | Some (DedupeErr e) => Ret (Some e)
    | None =>
        try! currentCount := tx_exec (select_activity_count viewer sid reason) or Some in
        if cap <=? currentCount then return_commit
        else
          try! _ := tx_exec (insert_fan_point (activity_point event viewer creator sid reason))
            or Some in
          return_commit
    end)%prog.

Definition ApplyComment (event : Z) (evt : LiveCommentCreatedV1) : prog SqlE (option go_err) :=
  applyCapped event (lc_ViewerID evt) (lc_CreatorID evt) (lc_LiveSessionID evt)
    FanPointLedgerReasonCOMMENT comment_cap.

Definition ApplyWatchMinute (event : Z) (evt : LiveWatchMinuteV1) : prog SqlE (option go_err) :=
  applyCapped event (lw_ViewerID evt) (lw_CreatorID evt) (lw_LiveSessionID evt)
    FanPointLedgerReasonWATCHMINUTE watch_cap.
End statements.

(** ** The atomic operations *)

Section atomic_points.
Context `{MySQL}.

Definition mark_applied (event ts : Z) : write :=
  set_consumer_dedupe (λ l, l ++
    [{| cd_ConsumerName := consumerName; cd_EventID := event; cd_AppliedAt := ts |}]).

Definition already_applied (t : Tables) (event : Z) : bool :=
  existsb (same_dedupe consumerName event) (consumer_dedupe t).

Definition gift_points_error (t : Tables) (event : Z) (evt : LiveGiftAcceptedV1) : option Z :=
  match fan_point_violation (gift_point event evt) t with
  | Some n => Some n
  | None =>
      match ga_CampaignID evt with
      | None => None
      | Some campaign => campaign_point_violation (gift_campaign_point event campaign evt) t
      end
  end.

Definition gift_points_commit (t : Tables) (event : Z) (evt : LiveGiftAcceptedV1) (ts : Z) : Tables :=
  let t1 := set_fan_point_ledger (λ l, l ++ [gift_point event evt]) (mark_applied event ts t) in
  match ga_CampaignID evt with
  | None => t1
  | Some campaign =>
      set_campaign_point_ledger (λ l, l ++ [gift_campaign_point event campaign evt]) t1
  end.

Definition apply_gift_atomic (t : Tables) (c : Counters) (event : Z) (evt : LiveGiftAcceptedV1)
    (ts : Z) : atomic (option go_err) :=
  if already_applied t event then (None, t, c)
  else
    match gift_points_error t event evt with
    | Some n => (Some (MySQLError n), t, c)
    | None => (None, gift_points_commit t event evt ts, c)
    end.

Definition apply_capped_atomic (t : Tables) (c : Counters) (event viewer creator sid : Z)
    (reason : FanPointLedgerReason) (cap ts : Z) : atomic (option go_err) :=
  if already_applied t event then (None, t, c)
  else if max_int64 <? activity_count t viewer sid reason then (Some ErrScan, t, c)
  else if cap <=? activity_count t viewer sid reason then (None, mark_applied event ts t, c)
  else
    let p := activity_point event viewer creator sid reason in
    match fan_point_violation p t with
    | Some n => (Some (MySQLError n), t, c)
    | None => (None, set_fan_point_ledger (λ l, l ++ [p]) (mark_applied event ts t), c)
    end.
End atomic_points.

(** ** Refinement *)

Section refinement.
Context `{MySQLLaws}.

(** The outcome of a projector call: the atomic operation settled at some clock reading. *)
Definition points_post (F : bool) (t : Tables) (c : Counters) (a : Z → atomic (option go_err))
    (out : option go_err) (t' : Tables) (c' : Counters) (v : option Tables) : Prop :=
  v = None ∧ ∃ ts, settles F (Some ErrConn) t c (a ts) out t' c'.

Lemma points_post_failed F t c a c' :
  F = true → counters_le c c' → points_post F t c a (Some ErrConn) t c' None.
Proof. intros -> Hc. split; [done|]. exists 0. by apply settles_failed. Qed.

Lemma points_post_same F t c a out :
  (∀ ts, a ts = (out, t, c)) → points_post F t c a out t c None.
Proof. intros Ha. split; [done|]. exists 0. left. by rewrite Ha. Qed.

Ltac failed := fault_case points_post_failed.

Lemma return_commit_wp F t c a ts v :
  a ts = (None, v, c) →
  wp F return_commit (λ x t' c' _, points_post F t c a x t' c' None) t c (Some v).
Proof.
  intros Ha. assert (Hpost : ∀ out, out = None ∨ F = true ∧ out = Some ErrConn →
    points_post F t c a out v c None).
  { intros out Hout. split; [done|]. exists ts. rewrite Ha.
    by apply (settles_effect F _ _ _ (_, _, _)). }
  apply wp_bind, wp_commit; [failed|intros; apply wp_ret, Hpost; by right|].
  apply wp_ret, Hpost. by left.
Qed.

(** The dedupe insert: a known event commits nothing; a new one goes on with its mark. *)
Lemma dedupe_wp F t c a event (k : option dedupe_error → prog SqlE (option go_err)) :
  k (Some DuplicateEvent) = return_commit → (∀ e, k (Some (DedupeErr e)) = Ret (Some e)) →
  (already_applied t event = true → ∀ ts, a ts = (None, t, c)) →
  (already_applied t event = false → ∀ ts,
    wp F (k None) (λ x t' c' _, points_post F t c a x t' c' None) t c (Some (mark_applied event ts t))) →
  wp F (with_tx Some (pbind (isDuplicateOrErr event) k)) (points_post F t c a) t c None.
Proof.
  intros Hdup Herr Hsame Hnew. apply wp_with_tx; [failed|].
  apply wp_bind, wp_bind, wp_now. intros ts. apply wp_bind, wp_modify.
  - intros. apply wp_ret. simpl. rewrite Herr. failed.
  - intros n. simpl. rewrite (varchar_ascii 64) by (done || simpl; lia). simpl.
    fold (already_applied t event). destruct (already_applied t event) eqn:E; [|done].
    intros [= <-]. apply wp_ret. simpl. rewrite Hdup. apply (return_commit_wp F t c a ts). auto.
  - simpl. rewrite (varchar_ascii 64) by (done || simpl; lia). simpl.
    fold (already_applied t event). destruct (already_applied t event) eqn:E; [done|].
    intros _. apply wp_ret. by apply Hnew.
Qed.

Lemma ApplyGift_refines F t c event evt :
  wp F (ApplyGift event evt) (points_post F t c (apply_gift_atomic t c event evt)) t c None.
Proof.
  apply dedupe_wp; [done|done|..]; unfold apply_gift_atomic; intros Hdup ts; rewrite Hdup; [done|].
  unfold gift_points_error. apply wp_try, wp_modify; [failed|..].
  { intros n Hn. apply points_post_same. intros.
    change (fan_point_violation (gift_point event evt) t = Some n) in Hn. by rewrite Hn. }
  intros Hn. change (fan_point_violation (gift_point event evt) t = None) in Hn. rewrite Hn.
  destruct (ga_CampaignID evt) as [campaign|] eqn:Ec.
  - apply wp_try, wp_modify; [failed|..].
    + intros n Hc. apply points_post_same. intros.
      change (campaign_point_violation (gift_campaign_point event campaign evt) t = Some n) in Hc.
      by rewrite Hc.
    + intros Hc.
      change (campaign_point_violation (gift_campaign_point event campaign evt) t = None) in Hc.
      apply (return_commit_wp F t c _ ts). unfold gift_points_commit. by rewrite Hc, Ec.
  - apply (return_commit_wp F t c _ ts). unfold gift_points_commit. by rewrite Ec.
Qed.

Lemma applyCapped_refines F t c event viewer creator sid reason cap :
  wp F (applyCapped event viewer creator sid reason cap)
    (points_post F t c (λ ts, apply_capped_atomic t c event viewer creator sid reason cap ts)) t c None.
Proof.
  apply dedupe_wp; [done|done|..]; unfold apply_capped_atomic; intros Hdup ts; rewrite Hdup; [done|].
  set (n := activity_count t viewer sid reason).
  assert (Hn : 0 ≤ n) by (unfold n, activity_count, count_where; lia).
  apply wp_try, wp_query; [failed|].
  change (activity_count (mark_applied event ts t) viewer sid reason) with n. unfold scan_int64.
  rewrite (proj2 (Z.ltb_ge n (- max_int64 - 1))) by (int_bounds; lia). simpl.
  destruct (max_int64 <? n); [by apply points_post_same|].
  destruct (cap <=? n); [by apply (return_commit_wp F t c _ ts)|].
  apply wp_try, wp_modify; [failed|..]; intros.
  - apply points_post_same. intros.
    match goal with H : fan_point_violation ?p _ = _ |- _ => 
      change (fan_point_violation p t = Some n0) in H; by rewrite H end.
  - apply (return_commit_wp F t c _ ts).
    match goal with H : fan_point_violation ?p _ = _ |- _ =>
      change (fan_point_violation p t = None) in H; by rewrite H end.
Qed.
End refinement.
