(* ===== verification/Redis.v ===== *)
(** * Redis, as far as the program uses it

    The commands of src/internal/projector/leaderboard/projector.go and
    src/internal/app/api/server.go as effects, the documented effect of each on the stored values,
    and what the program relies on of a server: the interface [Redis] with its laws. Scores are
    float64 numbers; the program only uses integral ones, kept as [Z] with the rounding written
    out. *)

From stdpp Require Import sorting.
From S2P Require Import Prelude GoInt GoStrings Schema Prog Sql.

(** ** Integral float64 values *)

Definition f64_exact : Z := 9007199254740992. (* 2^53 *)

(** The nearest integer with a significand of 53 bits, ties to even. *)
Definition f64 (n : Z) : Z :=
  if Z.abs n <=? f64_exact then n
  else
    let e := Z.log2 (Z.abs n) - 52 in
    let q := Z.shiftr (Z.abs n) e in
    let r := Z.abs n - Z.shiftl q e in
    let half := Z.shiftl 1 (e - 1) in
    let q' := if r <? half then q else if half <? r then q + 1 else if Z.even q then q else q + 1 in
    Z.sgn n * Z.shiftl q' e.

Lemma f64_id n : Z.abs n ≤ f64_exact → f64 n = n.
Proof. intros Hn. unfold f64. by rewrite (proj2 (Z.leb_le _ _)). Qed.

Example f64_rounds : map f64 [9007199254740993; 9007199254740995; -9007199254740993; 18446744073709551615]
  = [9007199254740992; 9007199254740996; -9007199254740992; 18446744073709551616].
Proof. vm_compute. reflexivity. Qed.

(** ** Commands *)

(** The commands that write. *)
Inductive command :=
| ZIncrBy (key : string) (incr : Z) (member : string)
| HIncrBy (key field : string) (incr : Z)
| Del (key : string)
| ZAdd (key : string) (members : list (string * Z))
| HSet (key : string) (fields : list (string * Z)).

Inductive RedisE : Type → Type :=
| EWrite (c : command) : RedisE (res unit)
| EZRevRangeWithScores (key : string) (start stop : Z) : RedisE (res (list (string * Z))).

(** A value: a sorted set (member, score) or a hash (field, integer). *)
Inductive value :=
| ZSet (m : gmap string Z)
| Hash (m : gmap string Z).

Abbreviation Store := (gmap string value).

Definition zset (st : Store) (key : string) : gmap string Z :=
  match st !! key with Some (ZSet m) => m | _ => ∅ end.

Definition hash (st : Store) (key : string) : gmap string Z :=
  match st !! key with Some (Hash m) => m | _ => ∅ end.

(** Entries one after the other; a later one replaces an earlier one. *)
Definition put_all (l : list (string * Z)) (m : gmap string Z) : gmap string Z :=
  foldl (λ m x, <[x.1 := x.2]> m) m l.

(** The values after a command; [None]: the server refuses it (the key holds the wrong kind of value,
    or a hash field would overflow). *)
Definition redis_effect (c : command) (st : Store) : option Store :=
  match c with
  | ZIncrBy key incr member =>
      match st !! key with
      | Some (Hash _) => None
      | _ =>
          let m := zset st key in
          Some (<[key := ZSet (<[member := f64 (default 0 (m !! member) + incr)]> m)]> st)
      end
  | HIncrBy key field incr =>
      match st !! key with
      | Some (ZSet _) => None
      | _ =>
          let m := hash st key in
          let v := default 0 (m !! field) + incr in
          if (v <? - max_int64 - 1) || (max_int64 <? v) then None
          else Some (<[key := Hash (<[field := v]> m)]> st)
      end
  | Del key => Some (delete key st)
  | ZAdd key members =>
      match st !! key with
      | Some (Hash _) => None
      | _ => Some (<[key := ZSet (put_all members (zset st key))]> st)
      end
  | HSet key fields =>
      match st !! key with
      | Some (ZSet _) => None
      | _ => Some (<[key := Hash (put_all fields (hash st key))]> st)
      end
  end.

(** ** Ranges *)

(** Higher scores first; the same score by the bytes of the member, backwards. *)
Definition zrev (x y : string * Z) : Prop := y.2 < x.2 ∨ (x.2 = y.2 ∧ String.leb y.1 x.1 = true).

(** [l] is the sorted set [m] in the order of ZREVRANGE. *)
Definition zrev_list (m : gmap string Z) (l : list (string * Z)) : Prop :=
  l ≡ₚ map_to_list m ∧ StronglySorted zrev l.

Lemma string_leb_trans : Transitive (λ s t, String.leb s t = true).
Proof.
  intros s. induction s as [|a s IH]; intros [|b t] [|c u]; unfold String.leb in *; simpl; try done.
  unfold Ascii.compare.
  destruct (N.compare_spec (Ascii.N_of_ascii a) (Ascii.N_of_ascii b)) as [Eab|Lab|Gab];
    destruct (N.compare_spec (Ascii.N_of_ascii b) (Ascii.N_of_ascii c)) as [Ebc|Lbc|Gbc]; try done;
    destruct (N.compare_spec (Ascii.N_of_ascii a) (Ascii.N_of_ascii c)) as [Eac|Lac|Gac]; try done; try lia.
  apply IH.
Qed.

#[export] Instance zrev_dec x y : Decision (zrev x y).
Proof. unfold zrev. apply _. Defined.
#[export] Instance zrev_total : Total zrev.
Proof.
  intros x y. unfold zrev. destruct (Z.lt_trichotomy x.2 y.2) as [?|[?|?]]; [by auto| |by auto].
  destruct (String.leb_total x.1 y.1); auto.
Qed.
#[export] Instance zrev_trans : Transitive zrev.
Proof.
  intros x y z [Hxy|[Hxy Lxy]] [Hyz|[Hyz Lyz]]; unfold zrev; try (left; lia). right.
  split; [lia|]. by eapply string_leb_trans.
Qed.
#[export] Instance zrev_antisym : AntiSymm (=) zrev.
Proof.
  intros [x1 x2] [y1 y2] [H1|[H1 L1]] [H2|[H2 L2]]; simpl in *; try lia. f_equal; [|done].
  by apply String.leb_antisym.
Qed.

(** There is one such order. *)
Lemma zrev_list_unique m l l' : zrev_list m l → zrev_list m l' → l = l'.
Proof.
  intros [Hp Hs] [Hp' Hs']. eapply (StronglySorted_unique zrev); [done..|]. by rewrite Hp, Hp'.
Qed.

(** ** A server *)

(** The provider of the commands, and the values its state stands for. *)
Class Redis (S : Type) := {
  redis_handler : Handler RedisE S;
  content : S → Store }.
#[export] Existing Instance redis_handler.

Definition refused (r : res unit) : Prop := ∃ err, r = RErr err.

(** A command has its effect and succeeds, or reports an error with or without its effect; a command
    that the server refuses has none; a range reads. *)
Class RedisLaws (S : Type) `{Redis S} := {
  redis_write : ∀ c s, let r := handle (EWrite c) s in
    match redis_effect c (content s) with
    | None => refused r.1 ∧ content r.2 = content s
    | Some st =>
        (r.1 = ROk tt ∧ content r.2 = st)
        ∨ (refused r.1 ∧ (content r.2 = content s ∨ content r.2 = st))
    end;
  redis_range : ∀ key stop s, 0 ≤ stop → let r := handle (EZRevRangeWithScores key 0 stop) s in
    content r.2 = content s
    ∧ ((∃ err, r.1 = RErr err)
       ∨ ∃ l, zrev_list (zset (content s) key) l ∧ r.1 = ROk (take (Z.to_nat (stop + 1)) l)) }.

(** A server that answers every command. *)
Definition redis_quiet (S : Type) `{Redis S} : Prop :=
  (∀ c s, is_Some (redis_effect c (content s)) → (handle (EWrite c) s).1 = ROk tt)
  ∧ ∀ key start stop s, ∃ l, (handle (EZRevRangeWithScores key start stop) s).1 = ROk l.

Lemma quiet_write {S} `{RedisLaws S} c s st :
  redis_quiet S → redis_effect c (content s) = Some st →
  let r := handle (EWrite c) s in r.1 = ROk tt ∧ content r.2 = st.
Proof.
  intros [Hq _] Hst. pose proof (redis_write c s) as Hw. cbv zeta in *. rewrite Hst in Hw.
  specialize (Hq c s (ex_intro _ _ Hst)). destruct Hw as [Hw|[[err He] _]]; [done|congruence].
Qed.
