(* ===== verification/Wp2.v ===== *)
(** * The database next to a second provider

    The calculus of [Wp] for programs that also call a second provider (a Kafka producer, a Redis
    client): a rule that lifts a program of the database, and one for a call to the other side. *)

From S2P Require Import Prelude Schema Prog Sql Wp.

(** A program of the database inside a program that uses both. *)
Abbreviation sql p := (inl_prog p).

(** A call to the other provider. *)
Definition other {E F R} (f : F R) : prog (sum_eff E F) R := perform (EffR f).

Section wp2.
Context {E : Type → Type} {S : Type} {HE : Handler E S}.

(** As [wp], with the state of the second provider. *)
Definition wp2 (F : bool) {A} (p : prog (sum_eff SqlE E) A)
    (Q : A → Tables → Counters → option Tables → S → Prop)
    (t : Tables) (c : Counters) (v : option Tables) (s : S) : Prop :=
  ∀ (env : Env) (d : Db),
    (F = false → quiet env) → tables d = t → counters d = c → (view t <$> tx d) = v →
    let r := run p (d, s) in
    Q r.1 (tables r.2.1) (counters r.2.1) (view (tables r.2.1) <$> tx r.2.1) r.2.2.

Lemma wp2_ret F {A} (a : A) Q t c v s : Q a t c v s → wp2 F (Ret a) Q t c v s.
Proof. intros H env d _ <- <- <-. apply H. Qed.

Lemma wp2_bind F {A B} (p : prog (sum_eff SqlE E) A) (k : A → prog (sum_eff SqlE E) B) Q t c v s :
  wp2 F p (λ a, wp2 F (k a) Q) t c v s → wp2 F (pbind p k) Q t c v s.
Proof.
  intros H env d Hq Ht Hc Hv. cbv zeta. rewrite run_bind.
  specialize (H env d Hq Ht Hc Hv). cbv zeta in H.
  destruct (run p (d, s)) as [a [d' s']]. exact (H env d' Hq eq_refl eq_refl eq_refl).
Qed.

Lemma wp2_mono F {A} (p : prog (sum_eff SqlE E) A)
    (Q Q' : A → Tables → Counters → option Tables → S → Prop) t c v s :
  wp2 F p Q t c v s → (∀ a t' c' v' s', Q a t' c' v' s' → Q' a t' c' v' s') → wp2 F p Q' t c v s.
Proof. intros H HQ env d Hq Ht Hc Hv. apply HQ. by apply H. Qed.

Lemma wp2_sql F {A} (p : prog SqlE A) Q t c v s :
  wp F p (λ a t' c' v', Q a t' c' v' s) t c v → wp2 F (sql p) Q t c v s.
Proof.
  intros H env d Hq Ht Hc Hv. cbv zeta. rewrite run_inl.
  exact (wp_elim F env p _ d t c v H Hq Ht Hc Hv).
Qed.

Lemma wp2_other F {R} (e : E R) Q t c v s :
  (let r := handle e s in Q r.1 t c v r.2) → wp2 F (other e) Q t c v s.
Proof.
  intros H env d _ <- <- <-. cbv zeta. unfold other. rewrite run_perform. apply H.
Qed.

Lemma wp2_try F {A B} (h : go_err → B) (p : prog (sum_eff SqlE E) (res A)) k Q t c v s :
  wp2 F p (λ r t c v s,
    match r with ROk x => wp2 F (k x) Q t c v s | RErr e => Q (h e) t c v s end) t c v s →
  wp2 F (try_ h p k) Q t c v s.
Proof.
  intros H. apply wp2_bind. eapply wp2_mono; [exact H|]. intros [x|e] t' c' v' s' HQ; [done|].
  by apply wp2_ret.
Qed.

Lemma wp2_run F (env : Env) {A} (p : prog (sum_eff SqlE E) A) Q d s :
  (F = false → quiet env) → idle d → wp2 F p Q (tables d) (counters d) None s →
  let r := run p (d, s) in
  Q r.1 (tables r.2.1) (counters r.2.1) (view (tables r.2.1) <$> tx r.2.1) r.2.2.
Proof. intros Hq Hi H. apply H; [done..|]. by rewrite Hi. Qed.
End wp2.

(** [with_tx] for a body that uses both providers. *)
Definition with_tx2 {E A} (on_err : go_err → A) (body : prog (sum_eff SqlE E) A)
    : prog (sum_eff SqlE E) A :=
  (let! b := sql (perform EBegin) in
   match b with
   | RErr e => Ret (on_err e)
   | ROk _ =>
       let! a := body in
       sql (perform ERollback) ;;; Ret a
   end)%prog.

Lemma wp2_with_tx {E S} `{Handler E S} {F A} (on_err : go_err → A)
    (body : prog (sum_eff SqlE E) A) Q t c s :
  (F = true → Q (on_err ErrConn) t c None s) →
  wp2 F body (λ a t' c' _ s', Q a t' c' None s') t c (Some t) s →
  wp2 F (with_tx2 on_err body) Q t c None s.
Proof.
  intros Hf Hbody. apply wp2_bind, wp2_sql, wp_begin.
  - intros HF. apply wp2_ret. auto.
  - apply wp2_bind. eapply wp2_mono; [exact Hbody|]. intros a t' c' v' s' HQ.
    by apply wp2_bind, wp2_sql, wp_rollback, wp2_ret.
Qed.

#[global] Opaque wp2.
