(* ===== verification/Relay.v ===== *)
(** * The outbox relay

    Models src/internal/outbox/relay.go: a batch of unpublished outbox rows is sent to Kafka and
    marked published in one transaction. The Kafka producer is a second provider of effects. *)

From stdpp Require Import sorting.
From S2P Require Import Prelude GoInt GoStrings Schema Prog Sql Wp Wp2.

(** ** formatUint *)

(** for v > 0 { i--; buf[i] = byte('0' + v%10); v /= 10 }; an index below 0 would panic ([None]). *)
Fixpoint format_loop (i : nat) (buf : list Z) (v : Z) : option (nat * list Z) :=
  if 0 <? v then
    match i with
    | O => None
    | S i' => format_loop i' (<[i' := 48 + v mod 10]> buf) (v / 10)
    end
  else Some (i, buf).

Definition formatUint (v : Z) : option string :=
  if v =? 0 then Some "0"
  else
    match format_loop 20 (replicate 20 0) v with
    | Some (i, buf) => Some (string_of_bytes (drop i buf))
    | None => None
    end.

Lemma format_loop_spec i : ∀ fuel buf v,
  0 < v → v < 10 ^ Z.of_nat i → v < 10 ^ Z.of_nat fuel → (i ≤ length buf)%nat →
  ∃ i' buf', format_loop i buf v = Some (i', buf')
    ∧ string_of_bytes (drop i' buf') = dec_go fuel v (string_of_bytes (drop i buf)).
Proof.
  induction i as [|i IH]; intros [|fuel] buf v Hv Hi Hf Hlen; try (simpl in *; lia).
  cbn [format_loop]. rewrite (proj2 (Z.ltb_lt _ _)) by done.
  assert (Hdrop : string_of_bytes (drop i (<[i := 48 + v mod 10]> buf))
                  = String (digit (v mod 10)) (string_of_bytes (drop (S i) buf))).
  { rewrite (drop_S _ (48 + v mod 10) i) by (apply list_lookup_insert_eq; lia).
    rewrite drop_insert_lt by lia. done. }
  simpl dec_go. destruct (v / 10 =? 0) eqn:E; bool_to_prop.
  - rewrite E. exists i, (<[i := 48 + v mod 10]> buf). split; [by destruct i|done].
  - rewrite <- Hdrop. apply IH.
    + assert (0 ≤ v / 10) by (apply Z.div_pos; lia). lia.
    + rewrite Nat2Z.inj_succ, Z.pow_succ_r in Hi by lia. apply Z.div_lt_upper_bound; lia.
    + rewrite Nat2Z.inj_succ, Z.pow_succ_r in Hf by lia. apply Z.div_lt_upper_bound; lia.
    + rewrite length_insert. lia.
Qed.

Lemma formatUint_eq v : is_uint64 v → formatUint v = Some (FormatUint v).
Proof.
  intros Hv. unfold formatUint. destruct (v =? 0) eqn:E; bool_to_prop; [by subst v|].
  destruct (format_loop_spec 20 (S (Z.to_nat (Z.log2 v))) (replicate 20 0) v)
    as (i & buf & -> & Hs).
  - int_bounds. lia.
  - int_bounds. simpl. lia.
  - rewrite Nat2Z.inj_succ, Z2Nat.id by apply Z.log2_nonneg.
    destruct (Z.log2_spec v) as [_ Hlt]; [int_bounds; lia|].
    eapply Z.lt_le_trans; [exact Hlt|]. apply Z.pow_le_mono_l. lia.
  - by rewrite length_replicate.
  - rewrite Hs. done.
Qed.

(** ** Kafka *)

Record ProducerMessage := {
  m_Topic : string; m_Key : string; m_Value : string; m_Headers : list (string * string) }.

(** producer.SendMessage *)
Inductive KafkaE : Type → Type := ESend (m : ProducerMessage) : KafkaE (res unit).

(** What the broker does at each call: takes the message, refuses it, or takes it and loses the
    acknowledgement. *)
Class KafkaEnv := kafka_fault : nat → Fault.

Definition kafka_quiet (env : KafkaEnv) : Prop := ∀ n, @kafka_fault env n = FaultNone.

(** The messages the broker has, in order, and the number of calls so far. *)
Record Kafka := { k_log : list ProducerMessage; k_tick : nat }.

#[export] Instance kafka_handler `{KafkaEnv} : Handler KafkaE Kafka :=
  λ R e k,
    match e in KafkaE R return R * Kafka with
    | ESend m =>
        match kafka_fault (k_tick k) with
        | FaultNone => (ROk tt, {| k_log := k_log k ++ [m]; k_tick := S (k_tick k) |})
        | FaultFail => (RErr ErrConn, {| k_log := k_log k; k_tick := S (k_tick k) |})
        | FaultAckLost => (RErr ErrConn, {| k_log := k_log k ++ [m]; k_tick := S (k_tick k) |})
        end
    end.

(** ** The batch *)

(** What ORDER BY created_at ASC promises: the same rows, oldest first. The order of rows with the
    same created_at is the server's choice. *)
Class OutboxOrder := outbox_order : list OutboxEvent → list OutboxEvent.

Definition older (x y : OutboxEvent) : Prop := ob_CreatedAt x ≤ ob_CreatedAt y.

Class OutboxOrderLaws `{OutboxOrder} := {
  outbox_order_perm : ∀ l, outbox_order l ≡ₚ l;
  outbox_order_sorted : ∀ l, StronglySorted older (outbox_order l) }.

Definition unpublished (e : OutboxEvent) : bool :=
  match ob_PublishedAt e with None => true | Some _ => false end.

Definition relay_batch `{OutboxOrder} (batch : Z) (t : Tables) : list OutboxEvent :=
  take (Z.to_nat batch) (outbox_order (where_ unpublished (outbox_events t))).

Definition mark (ts : Z) (e : OutboxEvent) : OutboxEvent :=
  {| ob_EventID := ob_EventID e; ob_Topic := ob_Topic e; ob_EventKey := ob_EventKey e;
     ob_PayloadJson := ob_PayloadJson e; ob_PublishedAt := Some ts; ob_CreatedAt := ob_CreatedAt e |}.

(** The rows whose ids are in [ids], marked. *)
Definition mark_rows (ts : Z) (ids : list Z) : write :=
  set_outbox_events (map (λ e, if existsb (Z.eqb (ob_EventID e)) ids then mark ts e else e)).

Section relay.
Context `{OutboxOrder}.

(** SELECT event_id, topic, event_key, CAST(payload_json AS CHAR) FROM outbox_events
    WHERE published_at IS NULL ORDER BY created_at ASC LIMIT ? FOR UPDATE SKIP LOCKED; it waits for
    no row and locks those it returns *)
Definition select_unpublished (batch : Z) : stmt (list OutboxEvent) :=
  {| s_waits := [];
     s_holds t := map (λ e, KOutbox (ob_EventID e)) (relay_batch batch t);
     s_exec t c := (ROk (relay_batch batch t), id, c) |}.

(** UPDATE outbox_events SET published_at = ? WHERE event_id = ? *)
Definition update_published (ts event : Z) : stmt unit :=
  modify [KOutbox event] (λ _, None) (λ _, tt) (mark_rows ts [event]).

Definition message_of (e : OutboxEvent) : ProducerMessage :=
  {| m_Topic := ob_Topic e; m_Key := ob_EventKey e; m_Value := ob_PayloadJson e;
     m_Headers := [("event_id", default "" (formatUint (ob_EventID e)))] |}.

Definition New_batch (batchSize : Z) : Z := if batchSize <=? 0 then 100 else batchSize.

Definition publish_all (ts : Z) (rows : list OutboxEvent) : prog (sum_eff SqlE KafkaE) (option go_err) :=
  for_each rows (λ e,
    (try! _ := other (ESend (message_of e)) or Some in
     try! _ := sql (tx_exec (update_published ts (ob_EventID e))) or Some in
     Ret None)%prog).

Definition RunOnce (batch : Z) : prog (sum_eff SqlE KafkaE) (res Z) :=
  with_tx2 RErr (
    try! rows := sql (tx_exec (select_unpublished batch)) or RErr in
    if Z.of_nat (length rows) =? 0 then
      try! _ := sql commit or RErr in
      Ret (ROk 0)
    else
      let! ts := sql now in
      let! r := publish_all ts rows in
      match r with
      | Some e => Ret (RErr e)
      | None =>
          try! _ := sql commit or RErr in
          Ret (ROk (Z.of_nat (length rows)))
      end)%prog.
End relay.

(** ** What a run does *)

Lemma mark_rows_nil ts t : mark_rows ts [] t = t.
Proof. destruct t. unfold mark_rows, set_outbox_events. simpl. by rewrite map_id. Qed.

Lemma mark_rows_cons ts x ids t : mark_rows ts (x :: ids) t = mark_rows ts ids (mark_rows ts [x] t).
Proof.
  destruct t. unfold mark_rows, set_outbox_events. simpl. f_equal. rewrite map_map. apply map_ext.
  intros e. simpl. destruct (ob_EventID e =? x) eqn:E; simpl.
  - by destruct (existsb _ ids).
  - done.
Qed.

Section behaviour.
Context `{OutboxOrderLaws} {kenv : KafkaEnv}.

(** Whether a call of either provider can fail. *)
Definition may_fail (F : bool) : Prop := F = true ∨ ¬ kafka_quiet kenv.

Lemma kafka_may_fail F n : kafka_fault n ≠ FaultNone → may_fail F.
Proof. intros Hn. right. intros Hq. by apply Hn. Qed.

Lemma publish_all_wp F ts rows : ∀ t c v k
    (Q : option go_err → Tables → Counters → option Tables → Kafka → Prop),
  (may_fail F → ∀ pre suf v' k', rows = pre ++ suf →
     k_log k' = k_log k ++ map message_of pre → Q (Some ErrConn) t c (Some v') k') →
  (∀ k', k_log k' = k_log k ++ map message_of rows →
     Q None t c (Some (mark_rows ts (map ob_EventID rows) v)) k') →
  wp2 F (publish_all ts rows) Q t c (Some v) k.
Proof.
  unfold publish_all. induction rows as [|e rows IH]; intros t c v k Q Hf Hok; simpl.
  { apply wp2_ret. specialize (Hok k). rewrite mark_rows_nil in Hok. apply Hok.
    by rewrite app_nil_r. }
  apply wp2_bind, wp2_try, wp2_other. unfold handle, kafka_handler.
  destruct (kafka_fault (k_tick k)) eqn:Ek; simpl.
  - apply wp2_try, wp2_sql, wp_modify; [|done|].
    + intros HF v'. apply wp2_ret. apply (Hf (or_introl HF) [e] rows); [done|done].
    + intros _. apply wp2_ret. apply IH.
      * intros Hm pre suf v' k' -> Hl. apply (Hf Hm (e :: pre) suf); [done|].
        simpl in Hl. by rewrite Hl, <- app_assoc.
      * intros k' Hl. simpl in Hok. setoid_rewrite mark_rows_cons in Hok. apply Hok.
        simpl in Hl. by rewrite Hl, <- app_assoc.
  - apply wp2_ret. apply (Hf (kafka_may_fail F (k_tick k) ltac:(congruence)) [] (e :: rows)); [done|].
    by rewrite app_nil_r.
  - apply wp2_ret. by apply (Hf (kafka_may_fail F (k_tick k) ltac:(congruence)) [e] rows).
Qed.

(** A run publishes its batch and marks it; or it fails, with a prefix of the batch sent and no
    row marked, or with all of it sent and marked. *)
Definition relay_post (F : bool) (batch : Z) (t : Tables) (c : Counters) (k : Kafka)
    (out : res Z) (t' : Tables) (c' : Counters) (v : option Tables) (k' : Kafka) : Prop :=
  let rows := relay_batch batch t in
  v = None ∧ c' = c ∧
  ((∃ ts, t' = mark_rows ts (map ob_EventID rows) t ∧ k_log k' = k_log k ++ map message_of rows
     ∧ (out = ROk (Z.of_nat (length rows)) ∨ may_fail F ∧ out = RErr ErrConn))
   ∨ may_fail F ∧ out = RErr ErrConn ∧ t' = t
     ∧ ∃ pre suf, rows = pre ++ suf ∧ k_log k' = k_log k ++ map message_of pre).

Lemma relay_failed F batch t c k pre suf k' :
  may_fail F → relay_batch batch t = pre ++ suf → k_log k' = k_log k ++ map message_of pre →
  relay_post F batch t c k (RErr ErrConn) t c None k'.
Proof. intros Hm Hr Hl. split; [done|]. split; [done|]. right. split_and!; eauto. Qed.

Lemma RunOnce_wp F batch t c k :
  wp2 F (RunOnce batch) (relay_post F batch t c k) t c None k.
Proof.
  assert (Hnone : ∀ k, k_log k = k_log k ++ map message_of []) by (intros; by rewrite app_nil_r).
  assert (Hstart : F = true → relay_post F batch t c k (RErr ErrConn) t c None k).
  { intros HF. by apply (relay_failed F batch t c k [] (relay_batch batch t)); [left| |]. }
  apply wp2_with_tx; [done|]. apply wp2_try, wp2_sql, wp_stmt.
  { intros HF c' v' [->| ->]; simpl; auto. }
  simpl. set (rows := relay_batch batch t) in *.
  destruct (Z.of_nat (length rows) =? 0) eqn:E; bool_to_prop.
  - assert (rows = []) as Hrows by (apply nil_length_inv; lia).
    assert (Hpost : ∀ out, out = ROk 0 ∨ F = true ∧ out = RErr ErrConn →
      relay_post F batch t c k out t c None k).
    { intros out Hout. split; [done|]. split; [done|]. left. exists 0. fold rows. rewrite Hrows.
      simpl. rewrite mark_rows_nil, app_nil_r. split_and!; [done|done|].
      unfold may_fail. destruct Hout as [->|[-> ->]]; auto. }
    apply wp2_try, wp2_sql, wp_commit; [auto|intros; apply Hpost; auto|].
    apply wp2_ret, Hpost. by left.
  - apply wp2_bind, wp2_sql, wp_now. intros ts. apply wp2_bind, publish_all_wp.
    + intros Hm pre suf v' k' Hr Hl. apply wp2_ret. by eapply relay_failed.
    + intros k' Hl.
      assert (Hpost : ∀ out, out = ROk (Z.of_nat (length rows)) ∨ F = true ∧ out = RErr ErrConn →
        relay_post F batch t c k out (mark_rows ts (map ob_EventID rows) t) c None k').
      { intros out Hout. split; [done|]. split; [done|]. left. exists ts.
        split_and!; [done|done|]. unfold may_fail. destruct Hout as [->|[-> ->]]; auto. }
      apply wp2_try, wp2_sql, wp_commit; [|intros; apply Hpost; auto|].
      * intros HF. apply (relay_failed F batch t c k rows []); [by left|by rewrite app_nil_r|done].
      * apply wp2_ret, Hpost. by left.
Qed.
End behaviour.

(** ** Delivery *)

(** Nothing is marked published that Kafka does not have. *)
Definition delivered (t : Tables) (k : Kafka) : Prop :=
  ∀ e, In e (outbox_events t) → unpublished e = false → In (message_of e) (k_log k).

(** Kafka has nothing but messages of outbox rows. *)
Definition genuine (t : Tables) (k : Kafka) : Prop :=
  ∀ m, In m (k_log k) → ∃ e, In e (outbox_events t) ∧ message_of e = m.

Definition backlog (t : Tables) : Z := count_where unpublished (outbox_events t).

Section delivery.
Context `{OutboxOrderLaws} {kenv : KafkaEnv}.

Lemma relay_batch_In batch t e :
  In e (relay_batch batch t) → In e (outbox_events t) ∧ unpublished e = true.
Proof.
  intros He. apply where_In. eapply Permutation_in; [apply outbox_order_perm|].
  unfold relay_batch in He. rewrite <- (take_drop (Z.to_nat batch) (outbox_order _)).
  apply in_or_app. by left.
Qed.

Lemma mark_rows_In ts ids t e :
  In e (outbox_events (mark_rows ts ids t)) ↔
  ∃ x, In x (outbox_events t) ∧ e = if existsb (Z.eqb (ob_EventID x)) ids then mark ts x else x.
Proof. simpl. rewrite in_map_iff. naive_solver. Qed.

Lemma message_of_mark ts e : message_of (mark ts e) = message_of e.
Proof. done. Qed.

Lemma mark_rows_same ts ids (x : OutboxEvent) :
  message_of (if existsb (Z.eqb (ob_EventID x)) ids then mark ts x else x) = message_of x.
Proof. by destruct (existsb _ _). Qed.

Lemma relay_delivered F batch t c k out t' c' v k' :
  unique_key ob_EventID (outbox_events t) → relay_post F batch t c k out t' c' v k' →
  delivered t k → delivered t' k'.
Proof.
  intros Huq (_ & _ & [(ts & -> & Hl & _)|(_ & _ & -> & pre & suf & _ & Hl)]) Hd e He Hp;
    rewrite Hl; apply in_or_app; [|left; by apply Hd].
  apply mark_rows_In in He as (x & Hx & ->). rewrite mark_rows_same.
  destruct (existsb _ _) eqn:E; [|left; by apply Hd]. right.
  apply existsb_exists in E as (i & Hi & E). bool_to_prop. subst i.
  apply in_map_iff in Hi as (y & Hy & Hin). apply in_map_iff. exists y. split; [|done].
  destruct (relay_batch_In _ _ _ Hin) as [Hy' _].
  by rewrite (unique_key_inj ob_EventID (outbox_events t) x y).
Qed.

Lemma relay_genuine F batch t c k out t' c' v k' :
  relay_post F batch t c k out t' c' v k' → genuine t k → genuine t' k'.
Proof.
  intros (_ & _ & Hcase) Hg m Hm.
  assert (Hsent : ∃ e, In e (outbox_events t) ∧ message_of e = m).
  { destruct Hcase as [(ts & _ & Hl & _)|(_ & _ & _ & pre & suf & Hr & Hl)]; rewrite Hl in Hm;
      apply in_app_or in Hm as [Hm|Hm]; [by apply Hg| |by apply Hg|];
      apply in_map_iff in Hm as (e & <- & He); exists e; (split; [|done]).
    - by apply relay_batch_In in He as [He _].
    - eapply relay_batch_In. rewrite Hr. apply in_or_app. by left. }
  destruct Hsent as (e & He & <-).
  destruct Hcase as [(ts & -> & _)|(_ & _ & -> & _)]; [|by exists e].
  eexists. split; [by apply mark_rows_In; exists e|]. apply mark_rows_same.
Qed.

(** Removing the rows of a prefix leaves the rest. *)
Lemma filter_prefix pre suf :
  unique_key ob_EventID (pre ++ suf) →
  List.filter (λ e, negb (existsb (Z.eqb (ob_EventID e)) (map ob_EventID pre))) (pre ++ suf) = suf.
Proof.
  intros Huq. rewrite List.filter_app.
  replace (List.filter _ pre) with (@nil OutboxEvent).
  - simpl. apply forallb_filter_id, forallb_forall. intros e He.
    apply negb_true_iff, existsb_false. intros i Hi. apply Z.eqb_neq. intros <-.
    unfold unique_key in Huq. rewrite map_app in Huq.
    apply NoDup_ListNoDup, NoDup_app in Huq as (_ & Hdis & _).
    apply (Hdis (ob_EventID e)); apply list_elem_of_In; [done|]. by apply in_map.
  - symmetry. apply where_none. intros e He. apply negb_false_iff, existsb_exists.
    exists (ob_EventID e). split; [by apply in_map|apply Z.eqb_refl].
Qed.

Lemma unpublished_marked ts ids l :
  where_ unpublished (map (λ e, if existsb (Z.eqb (ob_EventID e)) ids then mark ts e else e) l)
  = List.filter (λ e, negb (existsb (Z.eqb (ob_EventID e)) ids)) (where_ unpublished l).
Proof.
  induction l as [|e l IH]; simpl; [done|].
  destruct (existsb (Z.eqb (ob_EventID e)) ids) eqn:E; simpl.
  - rewrite IH. destruct (unpublished e); simpl; [by rewrite E|done].
  - destruct (unpublished e); simpl; [rewrite E; simpl; by f_equal|done].
Qed.

(** A run that goes through takes its batch off the backlog. *)
Lemma relay_backlog ts batch t :
  unique_key ob_EventID (outbox_events t) → 0 ≤ batch →
  backlog (mark_rows ts (map ob_EventID (relay_batch batch t)) t) = Z.max 0 (backlog t - batch)
  ∧ Z.of_nat (length (relay_batch batch t)) = Z.min batch (backlog t).
Proof.
  intros Huq Hb. unfold backlog, count_where, relay_batch. simpl. rewrite unpublished_marked.
  set (s := outbox_order (where_ unpublished (outbox_events t))).
  assert (Hs : s ≡ₚ where_ unpublished (outbox_events t)) by apply outbox_order_perm.
  assert (Huq' : unique_key ob_EventID s).
  { unfold unique_key. apply NoDup_ListNoDup.
    rewrite (Permutation_map ob_EventID Hs). apply NoDup_ListNoDup.
    clear -Huq. unfold unique_key, where_ in *. induction (outbox_events t) as [|e l IH]; simpl; [done|].
    simpl in Huq. inversion Huq as [|? ? Hn Hd]; subst. destruct (unpublished e); [|by apply IH].
    simpl. constructor; [|by apply IH]. intros Hin. apply Hn. apply in_map_iff in Hin as (x & Hx & Hin).
    apply List.filter_In in Hin as [Hin _]. rewrite <- Hx. by apply in_map. }
  assert (Hfilter : ∀ p (l1 l2 : list OutboxEvent), l1 ≡ₚ l2 →
    length (List.filter p l1) = length (List.filter p l2)).
  { clear. intros p l1 l2 Hl. induction Hl; simpl; repeat case_match; simpl; congruence. }
  rewrite <- (Hfilter _ _ _ Hs).
  pose proof (filter_prefix (take (Z.to_nat batch) s) (drop (Z.to_nat batch) s)) as Hp.
  rewrite take_drop in Hp. rewrite Hp, length_drop, length_take by done.
  rewrite (Permutation_length Hs). lia.
Qed.
End delivery.
