(* ===== verification/Queries.v ===== *)
(** * The generated store

    Models src/internal/store/sqlcgen: the Scan and Value methods of the ENUM types (models.go) and
    the queries (live_revenue.sql.go) over a handle that is the database or a transaction (db.go).
    The services have these statements inline; the queries are the same statements behind typed
    parameters and rows. *)

From S2P Require Import Prelude GoInt GoStrings Sha256 Json JsonDecode JsonRoundtrip Schema Prog Sql Wp Events Ledger WellFormed Preserve Money Recharge Gift GiftSpec Invariants InternalEvents Decode ReadModels Settlement Points Wp2 Relay.

(** ** ENUM columns in Go *)

(** driver.Value *)
Inductive driver_value :=
| DNil
| DInt64 (v : Z)
| DFloat64 (v : Z)
| DBool (b : bool)
| DBytes (s : string)
| DString (s : string)
| DTime (t : Z).

(** The T verb. *)
Definition type_name (v : driver_value) : string :=
  match v with
  | DNil => "<nil>" | DInt64 _ => "int64" | DFloat64 _ => "float64" | DBool _ => "bool"
  | DBytes _ => "[]uint8" | DString _ => "string" | DTime _ => "time.Time"
  end.

(** A Go ENUM type is a string; [Scan] takes any text. The pointer receiver is the state [e]. *)
Definition enum_Scan (name : string) (src : driver_value) (e : string) : string * option go_err :=
  match src with
  | DBytes s => (s, None)
  | DString s => (s, None)
  | _ => (e, Some (ErrText ("unsupported scan type for " +:+ name +:+ ": " +:+ type_name src)))
  end.

(** The Null types: the value and [Valid]. *)
Record NullEnum := { ne_Value : string; ne_Valid : bool }.

Definition null_Scan (scan : driver_value → string → string * option go_err) (value : driver_value)
    (ns : NullEnum) : NullEnum * option go_err :=
  match value with
  | DNil => ({| ne_Value := ""; ne_Valid := false |}, None)
  | _ =>
      let '(e, err) := scan value (ne_Value ns) in
      ({| ne_Value := e; ne_Valid := true |}, err)
  end.

Definition null_Value (ns : NullEnum) : res driver_value :=
  if negb (ne_Valid ns) then ROk DNil else ROk (DString (ne_Value ns)).

Definition CampaignPointLedgerReason_Scan := enum_Scan "CampaignPointLedgerReason".
Definition NullCampaignPointLedgerReason_Scan := null_Scan CampaignPointLedgerReason_Scan.
Definition NullCampaignPointLedgerReason_Value := null_Value.

Definition FanPointLedgerReason_Scan := enum_Scan "FanPointLedgerReason".
Definition NullFanPointLedgerReason_Scan := null_Scan FanPointLedgerReason_Scan.
Definition NullFanPointLedgerReason_Value := null_Value.

Definition GiftOrdersStatus_Scan := enum_Scan "GiftOrdersStatus".
Definition NullGiftOrdersStatus_Scan := null_Scan GiftOrdersStatus_Scan.
Definition NullGiftOrdersStatus_Value := null_Value.

Definition LiveMatchesMode_Scan := enum_Scan "LiveMatchesMode".
Definition NullLiveMatchesMode_Scan := null_Scan LiveMatchesMode_Scan.
Definition NullLiveMatchesMode_Value := null_Value.

Definition LiveMatchesStatus_Scan := enum_Scan "LiveMatchesStatus".
Definition NullLiveMatchesStatus_Scan := null_Scan LiveMatchesStatus_Scan.
Definition NullLiveMatchesStatus_Value := null_Value.

Definition LiveSessionsStatus_Scan := enum_Scan "LiveSessionsStatus".
Definition NullLiveSessionsStatus_Scan := null_Scan LiveSessionsStatus_Scan.
Definition NullLiveSessionsStatus_Value := null_Value.

Definition ReconciliationResultsStatus_Scan := enum_Scan "ReconciliationResultsStatus".
Definition NullReconciliationResultsStatus_Scan := null_Scan ReconciliationResultsStatus_Scan.
Definition NullReconciliationResultsStatus_Value := null_Value.

Definition UsersAccountStanding_Scan := enum_Scan "UsersAccountStanding".
Definition NullUsersAccountStanding_Scan := null_Scan UsersAccountStanding_Scan.
Definition NullUsersAccountStanding_Value := null_Value.

Definition UsersAccountType_Scan := enum_Scan "UsersAccountType".
Definition NullUsersAccountType_Scan := null_Scan UsersAccountType_Scan.
Definition NullUsersAccountType_Value := null_Value.

Definition WalletAccountsCurrency_Scan := enum_Scan "WalletAccountsCurrency".
Definition NullWalletAccountsCurrency_Scan := null_Scan WalletAccountsCurrency_Scan.
Definition NullWalletAccountsCurrency_Value := null_Value.

Definition WalletTransactionsTxType_Scan := enum_Scan "WalletTransactionsTxType".
Definition NullWalletTransactionsTxType_Scan := null_Scan WalletTransactionsTxType_Scan.
Definition NullWalletTransactionsTxType_Value := null_Value.

(** What a Null type writes is read back: the driver gives NULL, or the text as bytes. *)
Definition stored (v : driver_value) : driver_value :=
  match v with DString s => DBytes s | v => v end.

Lemma null_roundtrip name ns old :
  ∃ v, null_Value ns = ROk v
    ∧ null_Scan (enum_Scan name) (stored v) old
      = (if ne_Valid ns then ns else {| ne_Value := ""; ne_Valid := false |}, None).
Proof. destruct ns as [s []]; simpl; by eexists. Qed.

(** A stored value of a column reads as one of the declared constants. *)
Lemma enum_scanned {A} `{Enum A} name (x : A) old :
  enum_Scan name (DBytes (enum_text x)) old = (enum_text x, None) ∧ enum_of_text (enum_text x) = Some x.
Proof. split; [done|apply enum_of_text_text]. Qed.

(** ** Queries *)

(** DBTX: the database ([db_exec]) or a transaction ([tx_exec]). *)
Definition DBTX : Type := ∀ R, stmt R → prog SqlE (res R).
Arguments DBTX : clear implicits.

Definition on_db : DBTX := λ R s, db_exec s.
Definition WithTx : DBTX := λ R s, tx_exec s.

Section queries.
Context `{MySQL} `{OutboxOrder} (q : DBTX).

(** The error of a statement whose result is dropped. *)
Definition exec_err {R} (s : stmt R) : prog SqlE (option go_err) :=
  (let! r := q R s in Ret (match r with ROk _ => None | RErr e => Some e end))%prog.

(** INSERT INTO wallet_accounts (user_id, currency, available_balance) VALUES (?, 'COIN', 0) *)
Definition createWalletAccount (userID : Z) : stmt unit :=
  modify [KWallet userID]
    (λ t, first_violation
       [(match wallet_accounts t !! userID with Some _ => true | None => false end, ER_DUP_ENTRY);
        (user_missing t userID, ER_NO_REFERENCED_ROW)])
    (λ _, tt) (create_wallet userID).

Definition CreateWalletAccount (userID : Z) : prog SqlE (option go_err) :=
  exec_err (createWalletAccount userID).

Definition GetGiftCatalogItem (giftID : string) : prog SqlE (res GiftCatalog) := q _ (select_gift giftID).

(** Scan of the row into a GiftOrder: match_id and post_balance go through sql.NullInt64. *)
Definition scan_gift_order (o : GiftOrder) : res GiftOrder :=
  match scan_null_int64 (go_MatchID o), scan_null_int64 (go_PostBalance o) with
  | ROk _, ROk _ => ROk o
  | _, _ => RErr ErrScan
  end.

(** SELECT ... FROM gift_orders WHERE viewer_id = ? AND request_id = ? *)
Definition getGiftOrderByRequest (viewer : Z) (request : string) : stmt GiftOrder :=
  query (λ t,
    match List.find (same_gift_order viewer request) (gift_orders t) with
    | Some o => scan_gift_order o
    | None => RErr ErrNoRows
    end).

Definition GetGiftOrderByRequest (viewer : Z) (request : string) : prog SqlE (res GiftOrder) :=
  q _ (getGiftOrderByRequest viewer request).

Definition GetLiveMatch (matchID : Z) : prog SqlE (res LiveMatch) := q _ (select_match matchID).

(** SELECT live_session_id, creator_id, campaign_id, status, started_at, closed_at FROM live_sessions
    WHERE live_session_id = ? *)
Definition getLiveSession (id : Z) : stmt LiveSession :=
  query (λ t,
    match live_sessions t !! id with
    | Some s => match scan_null_int64 (ls_CampaignID s) with ROk _ => ROk s | RErr e => RErr e end
    | None => RErr ErrNoRows
    end).

Definition GetLiveSession (id : Z) : prog SqlE (res LiveSession) := q _ (getLiveSession id).

Definition GetRechargeRequest (viewer : Z) (request : string) : prog SqlE (res RechargeRequestRow) :=
  q _ (select_recharge viewer request).

Definition GetUser (userID : Z) : prog SqlE (res User) := q _ (select_user userID).

(** SELECT user_id, currency, available_balance FROM wallet_accounts
    WHERE user_id = ? AND currency = 'COIN' FOR UPDATE *)
Definition getWalletAccountForUpdate (userID : Z) : stmt WalletAccount :=
  query_for_update (KWallet userID) (λ t,
    match wallet_accounts t !! userID with Some a => ROk a | None => RErr ErrNoRows end).

Definition GetWalletAccountForUpdate (userID : Z) : prog SqlE (res WalletAccount) :=
  q _ (getWalletAccountForUpdate userID).

(** The params are the columns of the row but its key; sql.Result stands for LastInsertId. *)
Definition InsertGiftOrder (arg : GiftOrder) : prog SqlE (res Z) := q _ (insert_gift_order arg).

Definition InsertOutboxEvent (topic key payload : string) (createdAt : Z) : prog SqlE (res Z) :=
  q _ (insert_outbox_event topic key payload createdAt).

Definition InsertRechargeRequest (arg : RechargeRequestRow) : prog SqlE (option go_err) :=
  exec_err (insert_recharge_request arg).

Definition InsertWalletEntry (txID : Z) (account : string) (amount : Z) : prog SqlE (option go_err) :=
  exec_err (insert_wallet_entry txID account amount).

(** INSERT INTO wallet_transactions (...) VALUES (?, ?, ?, ?, ?), with a hash that may be NULL *)
Definition insertWalletTransaction (ty : WalletTransactionsTxType) (actor : Z) (request : string)
    (hash : option (list Z)) (ts : Z) : stmt Z :=
  insert_auto [KWalletTx actor ty (coll_key request)]
    (wallet_tx_violation ty actor request (default [] hash))
    next_tx_id bump_tx_id
    (λ tx_id, add_wallet_tx
       {| wt_TxID := tx_id; wt_TxType := ty; wt_ActorUserID := actor; wt_RequestID := request;
          wt_BodyHash := hash; wt_CreatedAt := ts |}).

Definition InsertWalletTransaction (ty : WalletTransactionsTxType) (actor : Z) (request : string)
    (hash : option (list Z)) (ts : Z) : prog SqlE (res Z) :=
  q _ (insertWalletTransaction ty actor request hash ts).

Definition close_session_at (ts : option Z) (s : LiveSession) : LiveSession :=
  {| ls_LiveSessionID := ls_LiveSessionID s; ls_CreatorID := ls_CreatorID s;
     ls_CampaignID := ls_CampaignID s; ls_Status := LiveSessionsStatusCLOSED;
     ls_StartedAt := ls_StartedAt s; ls_ClosedAt := ts |}.

(** UPDATE live_sessions SET status = 'CLOSED', closed_at = ? WHERE live_session_id = ? AND
    status = 'OPEN'; closed_at may be NULL *)
Definition markLiveSessionClosed (closedAt : option Z) (sid : Z) : stmt unit :=
  modify [KSession sid] (λ _, None) (λ _, tt)
    (set_live_sessions (alter (λ s, if is_open s then close_session_at closedAt s else s) sid)).

Definition MarkLiveSessionClosed (closedAt : option Z) (sid : Z) : prog SqlE (option go_err) :=
  exec_err (markLiveSessionClosed closedAt sid).

Definition mark_at (ts : option Z) (e : OutboxEvent) : OutboxEvent :=
  {| ob_EventID := ob_EventID e; ob_Topic := ob_Topic e; ob_EventKey := ob_EventKey e;
     ob_PayloadJson := ob_PayloadJson e; ob_PublishedAt := ts; ob_CreatedAt := ob_CreatedAt e |}.

(** UPDATE outbox_events SET published_at = ? WHERE event_id = ?; published_at may be NULL *)
Definition markOutboxPublished (publishedAt : option Z) (event : Z) : stmt unit :=
  modify [KOutbox event] (λ _, None) (λ _, tt)
    (set_outbox_events (map (λ e, if ob_EventID e =? event then mark_at publishedAt e else e))).

Definition MarkOutboxPublished (publishedAt : option Z) (event : Z) : prog SqlE (option go_err) :=
  exec_err (markOutboxPublished publishedAt event).

(** For a limit that is not negative. *)
Definition SelectOutboxBatchForPublish (limit : Z) : prog SqlE (res (list OutboxEvent)) :=
  q _ (select_unpublished limit).

Definition UpdateWalletBalance (balance userID : Z) : prog SqlE (option go_err) :=
  exec_err (update_wallet_balance balance userID).

Definition UpsertReconciliation (arg : ReconciliationResult) : prog SqlE (option go_err) :=
  exec_err (upsert_reconciliation arg).

Definition UpsertSettlement (arg : StreamSettlement) : prog SqlE (option go_err) :=
  exec_err (upsert_settlement arg).
End queries.

(** ** The queries and the statements of the services *)

(** The same answer, the same counters and the same writes, whatever the tables. *)
Definition stmt_equiv {R} (s s' : stmt R) : Prop :=
  s_waits s = s_waits s' ∧ ∀ t c,
    (s_exec s t c).1.1 = (s_exec s' t c).1.1 ∧ (s_exec s t c).2 = (s_exec s' t c).2
    ∧ ∀ v, (s_exec s t c).1.2 v = (s_exec s' t c).1.2 v.

#[export] Instance stmt_equiv_equivalence {R} : Equivalence (@stmt_equiv R).
Proof.
  split.
  - intros s. by split.
  - intros s s' [Hw He]. split; [done|]. intros t c. destruct (He t c) as (H1 & H2 & H3).
    split_and!; [done..|]. intros v. by rewrite H3.
  - intros s1 s2 s3 [Hw He] [Hw' He']. split; [by etrans|]. intros t c.
    destruct (He t c) as (H1 & H2 & H3), (He' t c) as (H1' & H2' & H3').
    split_and!; [by etrans..|]. intros v. by rewrite H3.
Qed.

Section agree.
Context `{MySQL}.

Lemma published_agrees ts event : stmt_equiv (markOutboxPublished (Some ts) event) (update_published ts event).
Proof.
  split; [done|]. intros t c. split_and!; [done..|]. intros v. simpl. unfold mark_rows.
  assert (Hrows : map (λ e, if ob_EventID e =? event then mark_at (Some ts) e else e) (outbox_events v)
    = map (λ e, if existsb (Z.eqb (ob_EventID e)) [event] then mark ts e else e) (outbox_events v)).
  { apply map_ext. intros e. simpl. by rewrite orb_false_r. }
  unfold set_outbox_events. by rewrite Hrows.
Qed.

(** The generated close drops the number of rows the service decides by. *)
Lemma closed_agrees ts sid t c v :
  (s_exec (markLiveSessionClosed (Some ts) sid) t c).1.2 v = (s_exec (update_close sid ts) t c).1.2 v.
Proof. done. Qed.

Lemma wallet_tx_agrees ty actor request hash ts :
  stmt_equiv (insertWalletTransaction ty actor request (Some hash) ts)
    (insert_wallet_transaction ty actor request hash ts).
Proof. split; done. Qed.

(** The generated insert of a wallet is the service's for a new wallet and error 1062 for another. *)
Lemma wallet_account_agrees u t c :
  s_exec (createWalletAccount u) t c
  = match wallet_accounts t !! u with
    | None => s_exec (ensure_wallet_account u) t c
    | Some _ => (RErr (MySQLError ER_DUP_ENTRY), id, c)
    end.
Proof. simpl. by destruct (wallet_accounts t !! u) eqn:E; simpl; rewrite ?E. Qed.
End agree.
