(* ===== verification/Announce.v ===== *)
(** * The accepted gifts and their announcements

    The rows of the outbox with the topic of accepted gifts and the accepted gift orders correspond:
    such a row is the document of one order, with the campaign of its session, and no order has two
    of them. The operations of the service keep it so. *)

From S2P Require Import Prelude GoInt GoStrings Sha256 Json JsonDecode JsonRoundtrip Schema Prog Sql Wp Events Ledger WellFormed Preserve Money Recharge Gift GiftSpec Invariants InternalEvents Decode ReadModels Settlement Reconcile System.

Section announce.
Context `{MySQLLaws} `{Unicode} `{ErrorText}.

Definition gift_topic (e : OutboxEvent) : bool := String.eqb (ob_Topic e) giftAcceptedTopic.

Definition gift_rows (t : Tables) : list OutboxEvent := where_ gift_topic (outbox_events t).

(** Row [e] is the document of the accepted order [o]. *)
Definition announces (t : Tables) (e : OutboxEvent) (o : GiftOrder) : Prop :=
  In o (gift_orders t) ∧ accepted o
  ∧ ∃ s, live_sessions t !! go_LiveSessionID o = Some s
      ∧ gift_event_typed (accepted_event o (ls_CampaignID s))
      ∧ carries giftAcceptedTopic (accepted_event o (ls_CampaignID s)) e.

(** The order a consumer reads in a row. *)
Definition announced_id (e : OutboxEvent) : option Z :=
  ga_GiftOrderID <$> (Unmarshal (ob_PayloadJson e) : option LiveGiftAcceptedV1).

Record announced (t : Tables) : Prop := {
  an_order : ∀ e, In e (gift_rows t) → ∃ o, announces t e o;
  an_once : unique_key announced_id (gift_rows t);
  an_all : ∀ o, In o (gift_orders t) → accepted o → ∃ e, In e (gift_rows t) ∧ announces t e o;
  an_event_id : ∀ e, In e (outbox_events t) → ob_EventID e ≤ max_uint64 }.

Lemma announces_decodes t e o :
  announces t e o → ∃ s, live_sessions t !! go_LiveSessionID o = Some s
    ∧ Unmarshal (ob_PayloadJson e) = Some (clean_gift_event (accepted_event o (ls_CampaignID s))).
Proof.
  intros (_ & _ & s & Hs & Hty & _ & Hdoc). exists s. split; [done|]. by apply gift_event_decodes.
Qed.

Lemma announces_id t e o : announces t e o → announced_id e = Some (go_GiftOrderID o).
Proof.
  intros Ha. unfold announced_id. by destruct (announces_decodes _ _ _ Ha) as (s & _ & ->).
Qed.

(** Orders are kept and sessions keep their campaign. *)
Record later (t t' : Tables) : Prop := {
  later_orders : ∀ o, In o (gift_orders t) → In o (gift_orders t');
  later_sessions : ∀ i s, live_sessions t !! i = Some s →
    ∃ s', live_sessions t' !! i = Some s' ∧ ls_CampaignID s' = ls_CampaignID s }.

#[export] Instance later_preorder : PreOrder later.
Proof.
  split.
  - intros t. split; [done|eauto].
  - intros t1 t2 t3 [O1 S1] [O2 S2]. split; [auto|]. intros i s Hs.
    destruct (S1 i s Hs) as (s' & Hs' & Hc). destruct (S2 i s' Hs') as (s'' & Hs'' & Hc').
    exists s''. split; [done|congruence].
Qed.

Lemma later_append t t' os :
  gift_orders t' = gift_orders t ++ os → live_sessions t' = live_sessions t → later t t'.
Proof. intros Ho Hs. split; rewrite ?Ho, ?Hs; eauto using in_or_app. Qed.

Lemma later_same t t' :
  gift_orders t' = gift_orders t → live_sessions t' = live_sessions t → later t t'.
Proof. intros Ho Hs. split; rewrite ?Ho, ?Hs; eauto. Qed.

Lemma later_close t sid ts :
  later t (set_live_sessions (alter (close_session ts) sid) t).
Proof.
  split; [done|]. intros i s Hs. simpl. destruct (decide (i = sid)) as [->|Hne].
  - rewrite lookup_alter_eq, Hs. simpl. by eexists.
  - rewrite lookup_alter_ne by done. eauto.
Qed.

Lemma announces_later t t' e o : later t t' → announces t e o → announces t' e o.
Proof.
  intros [Ko Ks] (Ho & Hacc & s & Hs & Hty & Hc). split_and!; [auto|done|].
  destruct (Ks _ _ Hs) as (s' & Hs' & Hcamp). exists s'. by rewrite Hcamp.
Qed.

(** ** Changes that announce nothing *)

(** ... and no gift is accepted. *)
Record keeps (t t' : Tables) : Prop := {
  keeps_later : later t t';
  keeps_accepted : ∀ o, In o (gift_orders t') → accepted o → In o (gift_orders t) }.

#[export] Instance keeps_preorder : PreOrder keeps.
Proof.
  split.
  - intros t. by split.
  - intros t1 t2 t3 [L1 A1] [L2 A2]. split; [by etrans|auto].
Qed.

Lemma keeps_same t t' :
  gift_orders t' = gift_orders t → live_sessions t' = live_sessions t → keeps t t'.
Proof. intros Ho Hs. split; [by apply later_same|]. by rewrite Ho. Qed.

Lemma announces_keeps t t' e o : keeps t t' → announces t e o → announces t' e o.
Proof. intros [Hl _]. by apply announces_later. Qed.

Lemma announced_frame t t' :
  announced t → keeps t t' → gift_rows t' = gift_rows t →
  (∀ e, In e (outbox_events t') → ob_EventID e ≤ max_uint64) → announced t'.
Proof.
  intros [Ho Hu Hall _] Hk Hg Hid. split; [|by rewrite Hg| |done]; rewrite Hg.
  - intros e He. destruct (Ho e He) as [o Hao]. exists o. by eapply announces_keeps.
  - intros o Hin Hacc. destruct (Hall o) as (e & He & Hao); [by apply (keeps_accepted _ _ Hk)|done|].
    exists e. split; [done|]. by eapply announces_keeps.
Qed.

Lemma announced_outbox topic key payload ts id t0 t :
  announced t0 → keeps t0 t → outbox_events t = outbox_events t0 →
  String.eqb topic giftAcceptedTopic = false → id ≤ max_uint64 →
  announced (add_outbox topic key payload ts id t).
Proof.
  intros Ha Hk Hob Htopic Hid. apply (announced_frame t0); [done|..].
  - etrans; [exact Hk|by apply keeps_same].
  - unfold gift_rows. simpl. rewrite where_app, Hob. simpl. unfold gift_topic at 2. simpl.
    rewrite Htopic. apply app_nil_r.
  - intros e He. simpl in He. rewrite Hob in He.
    apply in_app_or in He as [He|[<-|[]]]; [by apply (an_event_id t0)|done].
Qed.

(** ** An accepted gift *)

Section accept.
Context (t : Tables) (c : Counters) (req : GiftRequest) (ch : Charge).
Context (Hwf : wf t c) (Han : announced t) (Hty : gift_typed req) (Hval : gift_invalid req = None)
  (Hdec : gift_decide t req = DAccept ch) (Herr : accept_error t c req = None).

Lemma accept_order_id : 1 ≤ next_gift_order_id c ≤ max_int64.
Proof.
  pose proof (wf_next_order _ _ Hwf). unfold accept_error in Herr. repeat case_match; try done.
  bool_to_prop. lia.
Qed.

(** The new row announces the new order. *)
Lemma accept_announces e ts1 ts2 ts3 ts4 :
  let t' := accept_commit t c req ch ts1 ts2 ts3 ts4 in
  carries giftAcceptedTopic (accepted_event (gift_order_row c req ch ts2) (ch_Campaign ch)) e →
  announces t' e (gift_order_row c req ch ts2).
Proof.
  intros t' Hc. destruct (acceptable_charge t c req ch Hwf Hval Hdec) as (Hok & _ & _ & Hc1 & Hc2 & Hc3).
  destruct Hok. apply gift_decide_accept in Hdec.
  destruct Hdec as (s & g & m & Hs & _ & Hk & _ & _ & _ & _ & _ & _ & _ & _ & _ & Hch).
  assert (Hcamp : ch_Campaign ch = ls_CampaignID s) by (by rewrite Hch).
  split_and!; [|done|].
  - apply in_or_app. right. by left.
  - exists s. rewrite <- Hcamp. split_and!; [exact Hs| |exact Hc].
    destruct Hty as (T1 & T2 & T3 & T4 & T5). pose proof accept_order_id.
    split_and!; simpl; try done; try (int_bounds; lia).
    rewrite Hcamp. destruct (ls_CampaignID s) eqn:E; [|done]. simpl.
    by apply (wf_campaign _ _ Hwf _ _ _ Hs).
Qed.

Lemma announced_accept ts1 ts2 ts3 ts4 : announced (accept_commit t c req ch ts1 ts2 ts3 ts4).
Proof.
  destruct (acceptable_charge t c req ch Hwf Hval Hdec) as (_ & _ & _ & Hc & Hm & Hd).
  assert (Hnew : ∃ e,
    carries giftAcceptedTopic (accepted_event (gift_order_row c req ch ts2) (ch_Campaign ch)) e
    ∧ gift_rows (accept_commit t c req ch ts1 ts2 ts3 ts4) = gift_rows t ++ [e]).
  { unfold accept_commit, accept_events. rewrite Hc, Hm, Hd. eexists. split.
    - apply (carries_stored (A:=LiveGiftAcceptedV1)).
    - unfold gift_rows. simpl. rewrite !where_app. simpl. by rewrite app_nil_r. }
  destruct Hnew as (e & Hcar & Hrows). pose proof (accept_announces e ts1 ts2 ts3 ts4 Hcar) as Hann.
  assert (Hold : ∀ e' o, announces t e' o → announces (accept_commit t c req ch ts1 ts2 ts3 ts4) e' o).
  { intros e' o. apply announces_later. by eapply later_append. }
  split; [rewrite Hrows..|].
  - intros e' He'. apply in_app_or in He' as [He'|[<-|[]]]; [|by eexists].
    destruct (an_order _ Han e' He') as [o Ho]. exists o. by eapply Hold.
  - apply unique_key_app; [apply Han|]. intros y Hy Heq.
    destruct (an_order _ Han y Hy) as [o Ho]. pose proof (wf_order_id _ _ Hwf o (proj1 Ho)).
    apply announces_id in Ho, Hann. rewrite Ho, Hann in Heq. injection Heq as Heq. simpl in Heq. lia.
  - intros o Ho Hacc. apply in_app_or in Ho as [Ho|[<-|[]]].
    + destruct (an_all _ Han o Ho Hacc) as (e' & He' & Hao). exists e'.
      split; [apply in_or_app; by left|auto].
    + exists e. split; [apply in_or_app; right; by left|done].
  - intros e' He'. unfold accept_error in Herr. repeat case_match; try done. bool_to_prop.
    simpl in He'. apply in_app_or in He' as [He'|[<-|[]]]; [|simpl; lia].
    apply in_app_or in He' as [He'|[<-|[]]]; [|simpl; lia]. by apply (an_event_id _ Han).
Qed.
End accept.

(** ** Every operation of the service *)

Lemma settles_inv (P : Tables → Prop) F {A} (failed : A) t c a x t' c' :
  P t → P a.1.2 → settles F failed t c a x t' c' → P t'.
Proof. by intros Ht Ha [(_ & -> & _)|(_ & _ & [[-> _]|[-> _]])]. Qed.

Lemma recharge_announced t c req ts1 ts2 ts3 :
  announced t → announced (recharge_atomic t c req ts1 ts2 ts3).1.2.
Proof.
  intros Ha. unfold recharge_atomic. repeat case_match; try done.
  apply (announced_outbox _ _ _ _ _ t); try done; [by apply keeps_same|].
  match goal with H : recharge_error _ _ _ = None |- _ => unfold recharge_error in H end.
  repeat case_match; try done. by bool_to_prop.
Qed.

Lemma gift_announced t c req ts1 ts2 ts3 ts4 :
  wf t c → gift_typed req → announced t → announced (gift_atomic t c req ts1 ts2 ts3 ts4).1.2.
Proof.
  intros Hwf Hty Ha. unfold gift_atomic. destruct (gift_invalid req) eqn:Hval; [done|].
  destruct (stored_order t req); [done|]. destruct (gift_decide t req) eqn:Hd; [done|..].
  - destruct (reject_error c req) eqn:He; [done|]. simpl. unfold reject_error in He.
    repeat case_match; try done. bool_to_prop.
    apply gift_decide_reject in Hd as [->|[-> _]]; apply (announced_outbox _ _ _ _ _ t); try done;
      (split; [by eapply later_append|]; intros o Ho Hacc; apply in_app_or in Ho as [Ho|[<-|[]]]; done).
  - destruct (accept_error t c req) eqn:He; [done|]. by apply announced_accept.
Qed.

Lemma close_announced t c sid ts0 ts1 ts2 :
  announced t → announced (close_atomic t c sid ts0 ts1 ts2).1.2.
Proof.
  intros Ha. unfold close_atomic. repeat case_match; try done. simpl. bool_to_prop.
  apply (announced_outbox _ _ _ _ _ t); try done. split; [apply later_close|done].
Qed.

Lemma watch_announced F fuel req t : ∀ i d v,
  announced t → announced v →
  wp F (watch_loop fuel req i) (λ _ t' _ _, announced t') t d (Some v).
Proof.
  induction fuel as [|fuel IH]; intros i d v Ht Hv; simpl; [by apply wp_ret|].
  destruct (i <=? iw_Minutes req).
  - apply wp_try, wp_ret, wp_bind, wp_now. intros ts. apply wp_try, wp_insert_auto; try done.
    intros Hmax _. apply IH; [done|]. by apply (announced_outbox _ _ _ _ _ v).
  - apply wp_try, wp_commit; try done. by apply wp_ret.
Qed.

Lemma op_announced F op t c :
  op_typed op → wf t c → announced t → wp F (op_prog op) (λ _ t' _ _, announced t') t c None.
Proof.
  intros Hty Hwf Ha. destruct op; simpl; apply wp_bind.
  - eapply wp_mono; [by apply Recharge_refines|].
    intros out t' c' v (_ & ts1 & ts2 & ts3 & Hs). apply wp_ret.
    eapply settles_inv; [done|by apply recharge_announced|done].
  - eapply wp_mono; [by apply SendGift_refines|].
    intros out t' c' v (_ & ts1 & ts2 & ts3 & ts4 & Hs). apply wp_ret.
    eapply settles_inv; [done|by apply gift_announced|done].
  - eapply wp_mono; [by apply EnqueueCommentEvent_refines|].
    intros out t' c' v (_ & ts & Hs). apply wp_ret. eapply settles_inv; [done| |done].
    unfold comment_atomic. repeat case_match; try done. bool_to_prop. by apply (announced_outbox _ _ _ _ _ t).
  - unfold EnqueueWatchMinuteEvents. destruct (watch_invalid req).
    { by do 2 apply wp_ret. }
    apply wp_with_tx; [intros; by apply wp_ret|].
    eapply wp_mono; [by apply (watch_announced F fuel req t 1)|]. intros. by apply wp_ret.
  - eapply wp_mono; [by apply CloseLiveSession_refines|].
    intros out t' c' v (_ & ts0 & ts1 & ts2 & Hs). apply wp_ret.
    eapply settles_inv; [done|by apply close_announced|done].
  - eapply wp_mono; [by apply GenerateSettlement_refines|].
    intros out t' c' v (_ & ts1 & ts2 & Hs). apply wp_ret.
    eapply settles_inv; [done| |done]. unfold settle_atomic.
    destruct (settle_totals t sid) as [[[[? ?] ?] ?]|]; [|done].
    apply (announced_frame t); [done|by apply keeps_same|done|apply Ha].
  - eapply wp_mono; [apply GetSettlement_wp|]. intros out t' c' v (-> & _). by apply wp_ret.
  - apply wp_read; intros; by apply wp_ret.
  - apply wp_read; intros; by apply wp_ret.
Qed.

Lemma service_step_announced opening d d' :
  service_step d d' → service_ok opening d → announced (tables d) → announced (tables d').
Proof.
  intros [env op d0 Hty] [Hi Hok] Ha.
  apply (wp_run true env (op_prog op) (λ _ t' _ _, announced t') d0); [done|done|].
  by apply op_announced; [|apply Hok|].
Qed.
End announce.
