(* ===== verification/Consumers.v ===== *)
(** * The Kafka consumers

    [ConsumeClaim] of src/cmd/points-projector/main.go and src/cmd/settlement-worker/main.go, and
    [extractEventID]: the loop over the messages of a claim, with the decoding of the payload, the
    call of the component behind it, and the marks that move the committed offset. The consumer group
    session is a second provider of effects. The lag histogram is left out. *)

From S2P Require Import Prelude GoInt GoStrings Sha256 Json JsonDecode JsonRoundtrip Schema Prog Sql Wp Events Ledger WellFormed Preserve Money Recharge Gift GiftSpec Invariants InternalEvents Decode ReadModels Settlement Points Wp2 Relay.

(** ** Messages and marks *)

Record ConsumerMessage := {
  cm_Topic : string; cm_Value : string; cm_Headers : list (string * string); cm_Offset : Z }.

(** session.MarkMessage(msg, metadata) *)
Inductive MarkE : Type → Type := EMark (m : ConsumerMessage) (metadata : string) : MarkE unit.

(** The marks of a session, in order. *)
Definition Marks : Type := list (ConsumerMessage * string).

#[export] Instance mark_handler : Handler MarkE Marks :=
  λ R e s, match e in MarkE R return R * Marks with EMark m md => (tt, s ++ [(m, md)]) end.

Definition MarkMessage (m : ConsumerMessage) (metadata : string) : prog (sum_eff SqlE MarkE) unit :=
  other (EMark m metadata).

Fixpoint extractEventID (headers : list (string * string)) : Z :=
  match headers with
  | [] => 0
  | (key, value) :: headers' =>
      if negb (String.eqb key "event_id") then extractEventID headers'
      else match ParseUint value with Some v => v | None => 0 end
  end.

(** ** The points projector *)

Section consumers.
Context `{MySQL} `{Unicode} `{ErrorText}.

(** One case of the switch on the topic: decode, apply, and mark. *)
Definition apply_payload {A} `{FromJson A} (msg : ConsumerMessage)
    (apply : A → prog SqlE (option go_err)) : prog (sum_eff SqlE MarkE) (option go_err) :=
  (match Unmarshal (cm_Value msg) with
   | None => MarkMessage msg "bad_payload" ;;; Ret None
   | Some evt =>
       let! r := sql (apply evt) in
       match r with
       | Some err => Ret (Some err)
       | None => MarkMessage msg "applied" ;;; Ret None
       end
   end)%prog.

(** The body of the loop; a result stops it. *)
Definition points_message (msg : ConsumerMessage) : prog (sum_eff SqlE MarkE) (option go_err) :=
  (let eventID := extractEventID (cm_Headers msg) in
   if eventID =? 0 then MarkMessage msg "missing_event_id" ;;; Ret None
   else if String.eqb (cm_Topic msg) "live.gift.accepted.v1" then
     apply_payload msg (ApplyGift eventID)
   else if String.eqb (cm_Topic msg) "live.comment.created.v1" then
     apply_payload msg (ApplyComment eventID)
   else if String.eqb (cm_Topic msg) "live.watch.minute.v1" then
     apply_payload msg (ApplyWatchMinute eventID)
   else MarkMessage msg "applied" ;;; Ret None)%prog.

Definition points_ConsumeClaim (msgs : list ConsumerMessage)
    : prog (sum_eff SqlE MarkE) (option go_err) :=
  for_each msgs points_message.

(** ** The settlement worker *)

Definition settlement_message (msg : ConsumerMessage) : prog (sum_eff SqlE MarkE) (option go_err) :=
  (match Unmarshal (cm_Value msg) with
   | None => MarkMessage msg "bad_payload" ;;; Ret None
   | Some evt =>
       let! r := sql (GenerateSettlement (lx_LiveSessionID evt)) in
       match r with
       | RErr err => Ret (Some err)
       | ROk _ => MarkMessage msg "settled" ;;; Ret None
       end
   end)%prog.

Definition settlement_ConsumeClaim (msgs : list ConsumerMessage)
    : prog (sum_eff SqlE MarkE) (option go_err) :=
  for_each msgs settlement_message.
End consumers.
