(* ===== verification/Leaderboard.v ===== *)
(** * The leaderboard projector

    Models src/internal/projector/leaderboard/projector.go: accepted gifts into sorted sets and hashes
    of Redis, one event at a time, and the rebuild of a session from MySQL. *)

From S2P Require Import Prelude GoInt GoStrings Sha256 Json JsonDecode JsonRoundtrip Schema Prog Sql Wp Events Ledger WellFormed Preserve Money Recharge Gift GiftSpec Invariants InternalEvents Decode ReadModels Settlement Points Redis Wp2 Consumers.

Definition lb_consumerName : string := "leaderboard-projector".

Definition contributorKey (liveSessionID : Z) : string := "lb:contributors:" +:+ FormatUint liveSessionID.
Definition campaignKey (campaignID : Z) : string := "lb:campaign:" +:+ FormatUint campaignID.
Definition matchScoreKey (matchID : Z) : string := "match:score:" +:+ FormatUint matchID.

(** fmt.Sprintf("creator_%d_points", creatorID) *)
Definition creator_field (creatorID : Z) : string := "creator_" +:+ FormatUint creatorID +:+ "_points".

Definition isDup (err : go_err) : bool :=
  match err with MySQLError number => number =? 1062 | _ => false end.

Definition lb_int64ToUint64 (v : Z) (name : string) : res Z :=
  if v <? 0 then RErr (ErrText (name +:+ " overflow uint64: " +:+ FormatInt v)) else ROk (uint64 v).

(** The order in which [range] visits a map: the runtime's choice. *)
Class MapOrder := range_map : ∀ A, gmap Z A → list (Z * A).
Arguments range_map {_ A} m.

Class MapOrderLaws `{MapOrder} := range_perm : ∀ A (m : gmap Z A), range_map m ≡ₚ map_to_list m.

(** A command to Redis. *)
Definition redis (c : command) : prog (sum_eff SqlE RedisE) (res unit) := other (EWrite c).

Section leaderboard.
Context `{MySQL} `{MapOrder}.

(** ** One event *)

(** The writes to Redis, after the commit. *)
Definition update_boards (evt : LiveGiftAcceptedV1) : prog (sum_eff SqlE RedisE) (option go_err) :=
  (try! _ := redis (ZIncrBy (contributorKey (ga_LiveSessionID evt)) (f64 (ga_ChargedCoins evt))
                      (FormatUint (ga_ViewerID evt))) or Some in
   try! _ := match ga_CampaignID evt with
             | Some campaign =>
                 redis (ZIncrBy (campaignKey campaign) (f64 (ga_ChargedCoins evt))
                          (FormatUint (ga_CreatorID evt)))
             | None => Ret (ROk tt)
             end or Some in
   try! _ := match ga_MatchID evt with
             | Some m =>
                 redis (HIncrBy (matchScoreKey m) (creator_field (ga_CreatorID evt))
                          (ga_MatchPoints evt))
             | None => Ret (ROk tt)
             end or Some in
   Ret None)%prog.

Definition ApplyAcceptedGift (event : Z) (evt : LiveGiftAcceptedV1)
    : prog (sum_eff SqlE RedisE) (option go_err) :=
  with_tx2 Some (
    let! ts := sql now in
    let! ins := sql (tx_exec (insert_dedupe lb_consumerName event ts)) in
    match ins with
    | RErr err =>
        if isDup err then
          try! _ := sql commit or Some in
          Ret None
        else Ret (Some err)
    | ROk _ =>
        try! _ := sql commit or Some in
        update_boards evt
    end)%prog.

(** ** The rebuild *)

(** SELECT viewer_id, creator_id, charged_coins, match_id, match_points_added FROM gift_orders
    WHERE live_session_id = ? AND status = 'ACCEPTED' *)
Definition select_session_gifts (sid : Z) : stmt (list GiftOrder) :=
  query (λ t, ROk (where_ (session_order sid) (gift_orders t))).

(** contrib[viewerID] += float64(charged) *)
Definition add_contrib (contrib : gmap Z Z) (o : GiftOrder) : gmap Z Z :=
  <[go_ViewerID o := f64 (default 0 (contrib !! go_ViewerID o) + f64 (go_ChargedCoins o))]> contrib.

(** matchScores[mID][creatorID] += int64(matchPoints), with the inner map made when it is not there *)
Definition add_score (scores : gmap Z (gmap Z Z)) (mID : Z) (o : GiftOrder) : gmap Z (gmap Z Z) :=
  let per := default ∅ (scores !! mID) in
  <[mID := <[go_CreatorID o :=
      int64 (default 0 (per !! go_CreatorID o) + go_MatchPointsAdded o)]> per]> scores.

(** The loop over the rows. *)
Fixpoint tally_rows (rows : list GiftOrder) (contrib : gmap Z Z) (scores : gmap Z (gmap Z Z))
    : res (gmap Z Z * gmap Z (gmap Z Z)) :=
  match rows with
  | [] => ROk (contrib, scores)
  | o :: rows' =>
      match scan_null_int64 (go_MatchID o) with
      | RErr err => RErr err
      | ROk matchID =>
          let contrib' := add_contrib contrib o in
          match matchID with
          | None => tally_rows rows' contrib' scores
          | Some m =>
              match lb_int64ToUint64 m "match_id" with
              | RErr err => RErr err
              | ROk mID => tally_rows rows' contrib' (add_score scores mID o)
              end
          end
      end
  end.

(** SELECT campaign_id FROM live_sessions WHERE live_session_id = ? *)
Definition select_session_campaign (sid : Z) : stmt (option Z) :=
  query (λ t, match live_sessions t !! sid with
              | Some s => scan_null_int64 (ls_CampaignID s)
              | None => RErr ErrNoRows
              end).

(** The accepted orders of the sessions of a campaign. *)
Definition campaign_order (t : Tables) (campaign : Z) (o : GiftOrder) : bool :=
  bool_decide (go_Status o = GiftOrdersStatusACCEPTED)
  && match live_sessions t !! go_LiveSessionID o with
     | Some s => bool_decide (ls_CampaignID s = Some campaign)
     | None => false
     end.

(** SELECT go.creator_id, SUM(go.charged_coins) FROM gift_orders go JOIN live_sessions ls ON ...
    WHERE go.status = 'ACCEPTED' AND ls.campaign_id = ? GROUP BY go.creator_id *)
Definition select_campaign_totals (campaign : Z) : stmt (list (Z * Z)) :=
  query (λ t, scan_rows pair
    (group_sum go_CreatorID go_ChargedCoins (where_ (campaign_order t campaign) (gift_orders t)))).

(** The fields of one match. *)
Definition match_fields (perCreator : gmap Z Z) : list (string * Z) :=
  map (λ x, (creator_field x.1, x.2)) (range_map perCreator).

Definition rebuild_match (x : Z * gmap Z Z) : prog (sum_eff SqlE RedisE) (option go_err) :=
  (let mk := matchScoreKey x.1 in
   try! _ := redis (Del mk) or Some in
   let fields := match_fields x.2 in
   try! _ := (if 0 <? Z.of_nat (length fields) then redis (HSet mk fields) else Ret (ROk tt)) or Some in
   Ret None)%prog.

Definition rebuild_campaign (campaign : Z) : prog (sum_eff SqlE RedisE) (option go_err) :=
  (match lb_int64ToUint64 campaign "campaign_id" with
   | RErr err => Ret (Some err)
   | ROk campaignIDU64 =>
       let campKey := campaignKey campaignIDU64 in
       try! _ := redis (Del campKey) or Some in
       try! rows := sql (db_exec (select_campaign_totals campaign)) or Some in
       let campaignZ := map (λ x, (FormatUint x.1, f64 x.2)) rows in
       try! _ := (if 0 <? Z.of_nat (length campaignZ) then redis (ZAdd campKey campaignZ)
                  else Ret (ROk tt)) or Some in
       Ret None
   end)%prog.

Definition RebuildLiveSession (sid : Z) : prog (sum_eff SqlE RedisE) (option go_err) :=
  (try! rows := sql (db_exec (select_session_gifts sid)) or Some in
   match tally_rows rows ∅ ∅ with
   | RErr err => Ret (Some err)
   | ROk (contrib, matchScores) =>
       let contribKey := contributorKey sid in
       try! _ := redis (Del contribKey) or Some in
       try! _ := (if 0 <? Z.of_nat (size contrib) then
                    redis (ZAdd contribKey (map (λ x, (FormatUint x.1, x.2)) (range_map contrib)))
                  else Ret (ROk tt)) or Some in
       let! r := for_each (range_map matchScores) rebuild_match in
       match r with
       | Some err => Ret (Some err)
       | None =>
           try! campaignID := sql (db_exec (select_session_campaign sid)) or Some in
           match campaignID with
           | Some campaign => rebuild_campaign campaign
           | None => Ret None
           end
       end
   end)%prog.
End leaderboard.
