(* ===== verification/Api.v ===== *)
(** * The HTTP API

    Models src/internal/app/api/server.go and src/internal/httpx/httpx.go: the handlers, the routes,
    the wrapper that numbers and counts requests, and the reads that prefer Redis. A handler is a
    program over the database and Redis that returns its response. net/http is taken at its
    interface: a request with its parsed path and query and its body ([None]: the body could not be
    read), and a response that is written as given; the mux is modelled on the paths it does not
    redirect. The latency histogram and the log line are left out. *)

From stdpp Require Import sorting.
From S2P Require Import Prelude GoInt GoStrings Sha256 Json JsonDecode JsonRoundtrip Schema Prog Sql Wp Events Ledger WellFormed Preserve Money Recharge Gift GiftSpec Invariants InternalEvents Decode ReadModels Settlement Points Redis Wp2 Consumers Leaderboard.

(** ** Requests and responses *)

Record Request := {
  r_Method : string; r_Path : string; r_Query : list (string * string); r_Body : option string;
  r_XRequestID : string (* r.Header.Get("X-Request-ID") *) }.

Record Response := { w_Status : Z; w_ContentType : string; w_Body : string }.

(** r.URL.Query().Get(key) *)
Definition query_get (r : Request) (key : string) : string :=
  match List.find (λ x, String.eqb x.1 key) (r_Query r) with Some x => x.2 | None => "" end.

(** json.NewEncoder(w).Encode(payload) ends the text with a newline. *)
Definition newline : string := String (char_of 10) EmptyString.

Definition WriteJSON (status : Z) (payload : json) : Response :=
  {| w_Status := status; w_ContentType := "application/json"; w_Body := marshal payload +:+ newline |}.

Record ErrorBody := { eb_Code : string; eb_Message : string }.

#[export] Instance ErrorBody_json : ToJson ErrorBody := λ e,
  JObj [("code", JStr (eb_Code e)); ("message", JStr (eb_Message e))].

Definition WriteError (status : Z) (code msg : string) : Response :=
  WriteJSON status (to_json {| eb_Code := code; eb_Message := msg |}).

Definition key_le {A} (x y : string * A) : Prop := String.leb x.1 y.1 = true.

#[export] Instance key_le_dec {A} (x y : string * A) : Decision (key_le x y).
Proof. unfold key_le. apply _. Defined.

(** A map[string]any: the encoder sorts the keys. *)
Definition json_map (l : list (string * json)) : json := JObj (merge_sort key_le l).

(** ** The bodies of the answers *)

#[export] Instance RechargeResponse_json : ToJson RechargeResponse := λ r,
  JObj [("tx_id", JNum (rs_TxID r)); ("viewer_id", JNum (rs_ViewerID r));
        ("coins_added", JNum (rs_CoinsAdded r)); ("new_balance", JNum (rs_NewBalance r));
        ("idempotency", JStr (rs_Idempotency r))].

#[export] Instance GiftResponse_json : ToJson GiftResponse := λ r,
  JObj [("gift_order_id", JNum (gs_GiftOrderID r)); ("accepted", JBool (gs_Accepted r));
        ("charged_coins", JNum (gs_ChargedCoins r)); ("match_points_added", JNum (gs_MatchPointsAdded r));
        ("diamond_reward", JNum (gs_DiamondReward r)); ("new_balance", JNum (gs_NewBalance r));
        ("idempotency", JStr (gs_Idempotency r))].

#[export] Instance ContributorSummary_json : ToJson ContributorSummary := λ c,
  JObj [("viewer_id", JNum (cs_ViewerID c)); ("coins", JNum (cs_Coins c))].

#[export] Instance CampaignRankRow_json : ToJson CampaignRankRow := λ c,
  JObj [("creator_id", JNum (cr_CreatorID c)); ("points", JNum (cr_Points c))].

#[export] Instance list_json {A} `{ToJson A} : ToJson (list A) := λ l, JArr (map to_json l).

(** GetSettlement appends to a slice that starts as nil: with no rows it is still nil, and the encoder
    writes null. The pages make their slices, so that theirs are empty arrays ([list_json]). *)
Definition nil_slice_json {A} `{ToJson A} (l : list A) : json :=
  match l with [] => JNull | _ => to_json l end.

#[export] Instance SettlementResponse_json : ToJson SettlementResponse := λ r,
  JObj [("live_session_id", JNum (st_LiveSessionID r)); ("gross_coin_spend", JNum (st_GrossCoinSpend r));
        ("accepted_gift_count", JNum (st_AcceptedGiftCount r));
        ("diamond_reward_total", JNum (st_DiamondRewardTotal r));
        ("top_contributors", nil_slice_json (st_TopContributors r));
        ("reconciliation_status", JStr (st_ReconciliationStatus r));
        ("wallet_gift_debit_total", JNum (st_WalletGiftDebitTotal r));
        ("gift_order_coin_total", JNum (st_GiftOrderCoinTotal r));
        ("mismatch_count", JNum (st_MismatchCount r));
        ("reconciliation_details_json", JStr (st_ReconciliationDetails r))].

(** ** Parsing *)

Definition parseLimit (raw : string) : Z :=
  if String.eqb (TrimSpace raw) "" then 20
  else
    match Atoi raw with
    | None => 20
    | Some n => if n <=? 0 then 20 else if 100 <? n then 100 else n
    end.

(** strings.Split(strings.Trim(r.URL.Path, "/"), "/") *)
Definition path_parts (r : Request) : list string := Split (Trim (r_Path r) "/"%char) "/"%char.

(** int64(z.Score): the value of an integral score that fits; what the conversion gives outside the
    range is up to the implementation. *)
Class FloatToInt := big_float : Z → Z.

Definition score_int64 `{FloatToInt} (score : Z) : Z :=
  if (- max_int64 - 1 <=? score) && (score <=? max_int64) then score else big_float score.

(** ZRevRangeWithScores(ctx, key, start, stop).Result() *)
Definition zrevrange (key : string) (start stop : Z) : prog (sum_eff SqlE RedisE) (res (list (string * Z))) :=
  other (EZRevRangeWithScores key start stop).

(** The loop over the members: those that are not ids are skipped. *)
Fixpoint read_members `{FloatToInt} {R} (mk : Z → Z → R) (zs : list (string * Z)) : list R :=
  match zs with
  | [] => []
  | (member, score) :: zs' =>
      match ParseUint member with
      | None => read_members mk zs'
      | Some id => mk id (score_int64 score) :: read_members mk zs'
      end
  end.

Section api.
Context `{MySQL} `{Unicode} `{ErrorText} `{FloatToInt}.

(** [s.redis != nil] *)
Variable redis_on : bool.

Abbreviation handler := (prog (sum_eff SqlE RedisE) Response).

Definition getLiveContributors (sid limit : Z) : prog (sum_eff SqlE RedisE) (res (list ContributorSummary)) :=
  (if redis_on then
     let! zs := zrevrange ("lb:contributors:" +:+ FormatUint sid) 0 (int64 (limit - 1)) in
     match zs with
     | ROk l => Ret (ROk (read_members Build_ContributorSummary l))
     | RErr _ => sql (GetLiveContributors sid limit)
     end
   else sql (GetLiveContributors sid limit))%prog.

Definition getCampaignLeaderboard (campaign limit : Z) : prog (sum_eff SqlE RedisE) (res (list CampaignRankRow)) :=
  (if redis_on then
     let! zs := zrevrange ("lb:campaign:" +:+ FormatUint campaign) 0 (int64 (limit - 1)) in
     match zs with
     | ROk l => Ret (ROk (read_members Build_CampaignRankRow l))
     | RErr _ => sql (GetCampaignLeaderboard campaign limit)
     end
   else sql (GetCampaignLeaderboard campaign limit))%prog.

(** ** Handlers *)

Definition method_not_allowed (msg : string) : Response := WriteError 405 "METHOD_NOT_ALLOWED" msg.
Definition bad_json : Response := WriteError 400 "BAD_JSON" "invalid JSON body".
Definition route_not_found : Response := WriteError 404 "NOT_FOUND" "route not found".
Definition internal_error (e : go_err) : Response := WriteError 500 "INTERNAL_ERROR" (error_text e).
Definition app_error (e : AppError) : Response := WriteError (HTTPStatus e) (Code e) (Message e).

(** The three-way result of a service call. *)
Definition write_outcome {A} `{ToJson A} (status : Z) (out : outcome A) : Response :=
  match out with
  | Err e => internal_error e
  | App e => app_error e
  | Ok resp => WriteJSON status (to_json resp)
  end.

Definition decode_request {A} `{FromJson A} (r : Request) : option A :=
  match r_Body r with Some body => DecodeBody body | None => None end.

Definition handleHealth (r : Request) : handler := Ret (WriteJSON 200 (json_map [("status", JStr "ok")])).

Definition handleRecharge (r : Request) : handler :=
  (if negb (String.eqb (r_Method r) "POST") then Ret (method_not_allowed "only POST is allowed")
   else
     match decode_request r with
     | None => Ret bad_json
     | Some req => let! out := sql (Recharge req) in Ret (write_outcome 201 out)
     end)%prog.

Definition handleGift (r : Request) : handler :=
  (if negb (String.eqb (r_Method r) "POST") then Ret (method_not_allowed "only POST is allowed")
   else
     match decode_request r with
     | None => Ret bad_json
     | Some req => let! out := sql (SendGift req) in Ret (write_outcome 201 out)
     end)%prog.

Definition handleLivesPrefix (r : Request) : handler :=
  (match path_parts r with
   | [p0; p1; p2; p3] =>
       if negb (String.eqb p0 "v1") || negb (String.eqb p1 "lives") then Ret route_not_found
       else
         match ParseUint p2 with
         | None => Ret (WriteError 400 "BAD_PATH" "invalid live session id")
         | Some liveSessionID =>
             if String.eqb (r_Method r) "POST" && String.eqb p3 "close" then
               let! appErr := sql (CloseLiveSession liveSessionID) in
               match appErr with
               | Some e => Ret (app_error e)
               | None => Ret (WriteJSON 202 (json_map
                   [("live_session_id", JNum liveSessionID); ("status", JStr "CLOSED")]))
               end
             else if String.eqb (r_Method r) "GET" && String.eqb p3 "contributors" then
               let limit := parseLimit (query_get r "limit") in
               try! rows := getLiveContributors liveSessionID limit or internal_error in
               Ret (WriteJSON 200 (json_map
                 [("live_session_id", JNum liveSessionID); ("contributors", to_json rows)]))
             else Ret route_not_found
         end
   | _ => Ret route_not_found
   end)%prog.

Definition handleCampaignPrefix (r : Request) : handler :=
  (if negb (String.eqb (r_Method r) "GET") then Ret (method_not_allowed "only GET is allowed")
   else
     match path_parts r with
     | [p0; p1; p2; p3] =>
         if negb (String.eqb p0 "v1") || negb (String.eqb p1 "campaigns")
            || negb (String.eqb p3 "leaderboard") then Ret route_not_found
         else
           match ParseUint p2 with
           | None => Ret (WriteError 400 "BAD_PATH" "invalid campaign id")
           | Some campaignID =>
               let limit := parseLimit (query_get r "limit") in
               try! rows := getCampaignLeaderboard campaignID limit or internal_error in
               Ret (WriteJSON 200 (json_map
                 [("campaign_id", JNum campaignID); ("leaderboard", to_json rows)]))
           end
     | _ => Ret route_not_found
     end)%prog.

Definition handleSettlementGet (r : Request) : handler :=
  (if negb (String.eqb (r_Method r) "GET") then Ret (method_not_allowed "only GET is allowed")
   else
     match path_parts r with
     | [p0; p1; p2] =>
         if negb (String.eqb p0 "v1") || negb (String.eqb p1 "settlements") then Ret route_not_found
         else
           match ParseUint p2 with
           | None => Ret (WriteError 400 "BAD_PATH" "invalid live session id")
           | Some liveSessionID =>
               let! out := sql (GetSettlement liveSessionID) in Ret (write_outcome 200 out)
           end
     | _ => Ret route_not_found
     end)%prog.

Definition handleInternalComments (r : Request) : handler :=
  (if negb (String.eqb (r_Method r) "POST") then Ret (method_not_allowed "only POST is allowed")
   else
     match decode_request r with
     | None => Ret bad_json
     | Some req =>
         let! appErr := sql (EnqueueCommentEvent req) in
         match appErr with
         | Some e => Ret (app_error e)
         | None => Ret (WriteJSON 202 (json_map [("queued", JNum 1)]))
         end
     end)%prog.

(** [None]: the loop over the minutes has not ended within [fuel] turns. The service reports its errors
    as application errors here, so the case of a plain error does not arise. *)
Definition handleInternalWatchMinutes (fuel : nat) (r : Request)
    : prog (sum_eff SqlE RedisE) (option Response) :=
  (if negb (String.eqb (r_Method r) "POST") then Ret (Some (method_not_allowed "only POST is allowed"))
   else
     match decode_request r with
     | None => Ret (Some bad_json)
     | Some req =>
         let! out := sql (EnqueueWatchMinuteEvents fuel req) in
         match out with
         | None => Ret None
         | Some (Ok queued) => Ret (Some (WriteJSON 202 (json_map [("queued", JNum queued)])))
         | Some (App e) => Ret (Some (app_error e))
         | Some (Err e) => Ret (Some (internal_error e))
         end
     end)%prog.
(** ** The server *)

(** The request counter, and the labels of the counted requests. *)
Record Server := {
  reqCounter : Z;
  apiRequestsTotal : list (string * string * string); (* route, method, status *)
  apiRejectsTotal : list (string * string)            (* route, status *) }.

Definition newRequestID (s : Server) : string * Server :=
  let v := uint64 (reqCounter s + 1) in
  ("req-" +:+ FormatUint v,
   {| reqCounter := v; apiRequestsTotal := apiRequestsTotal s; apiRejectsTotal := apiRejectsTotal s |}).

Definition count_request (route method : string) (status : Z) (s : Server) : Server :=
  {| reqCounter := reqCounter s;
     apiRequestsTotal := apiRequestsTotal s ++ [(route, method, FormatInt status)];
     apiRejectsTotal := if 400 <=? status then apiRejectsTotal s ++ [(route, FormatInt status)]
                        else apiRejectsTotal s |}.

(** The response with the X-Request-ID header it carries. *)
Record Answer := { a_RequestID : string; a_Response : Response }.

Definition wrap (route : string) (next : Request → prog (sum_eff SqlE RedisE) (option Response))
    (s : Server) (r : Request) : prog (sum_eff SqlE RedisE) (option (Answer * Server)) :=
  (let '(requestID, s1) :=
     if String.eqb (r_XRequestID r) "" then newRequestID s else (r_XRequestID r, s) in
   let! resp := next r in
   match resp with
   | None => Ret None
   | Some resp =>
       Ret (Some ({| a_RequestID := requestID; a_Response := resp |},
                  count_request route (r_Method r) (w_Status resp) s1))
   end)%prog.

(** A handler that ends. *)
Definition ends (h : Request → handler) (r : Request) : prog (sum_eff SqlE RedisE) (option Response) :=
  (let! resp := h r in Ret (Some resp))%prog.

(** mux.HandleFunc: a pattern, the name of its route and its handler. *)
Definition handlers (fuel : nat)
    : list (string * string * (Request → prog (sum_eff SqlE RedisE) (option Response))) :=
  [("/healthz", "healthz", ends handleHealth);
   ("/v1/wallets/recharges", "wallet_recharge", ends handleRecharge);
   ("/v1/gifts", "gift_send", ends handleGift);
   ("/v1/internal/comments", "internal_comments", ends handleInternalComments);
   ("/v1/internal/watch-minutes", "internal_watch_minutes", handleInternalWatchMinutes fuel);
   ("/v1/lives/", "lives_prefix", ends handleLivesPrefix);
   ("/v1/campaigns/", "campaigns_prefix", ends handleCampaignPrefix);
   ("/v1/settlements/", "settlement_get", ends handleSettlementGet)].

(** [strings.HasPrefix] *)
Fixpoint HasPrefix (s prefix : string) {struct prefix} : bool :=
  match prefix, s with
  | EmptyString, _ => true
  | String a prefix', String b s' => Ascii.eqb a b && HasPrefix s' prefix'
  | _, _ => false
  end.

(** A pattern that ends in a slash matches every path below it, any other one only itself. *)
Definition mux_match (pattern path : string) : bool :=
  match rev_string pattern EmptyString with
  | String a _ => if Ascii.eqb a "/"%char then HasPrefix path pattern else String.eqb pattern path
  | EmptyString => false
  end.

(** One request on a path of the program; no two patterns match the same path. [None]: a path that the
    mux answers itself or that belongs to the metrics page, or a handler that has not ended. *)
Definition serve (fuel : nat) (s : Server) (r : Request)
    : prog (sum_eff SqlE RedisE) (option (Answer * Server)) :=
  match List.find (λ h, mux_match h.1.1 (r_Path r)) (handlers fuel) with
  | Some (_, route, next) => wrap route next s r
  | None => Ret None
  end.
End api.
