(* ===== verification/Board.v ===== *)
(** * What the leaderboards hold

    Totals per key as finite maps, their form in Redis, and the tally of the rebuild: its maps are
    the totals of the rows it has read. *)

From S2P Require Import Prelude GoInt GoStrings Sha256 Json JsonDecode JsonRoundtrip Schema Prog Sql Wp Events Ledger WellFormed Preserve Money Recharge Gift GiftSpec Invariants InternalEvents Decode ReadModels Settlement Points Redis Wp2 Consumers Leaderboard.

(** ** Totals *)

Section totals.
Context {A : Type} (key val : A → Z).

Definition totals (l : list A) : gmap Z Z := list_to_map (group_sum key val l).

Lemma lookup_totals l k :
  totals l !! k
  = if existsb (λ x, key x =? k) l then Some (sum_of val (where_ (λ x, key x =? k) l)) else None.
Proof.
  unfold totals. destruct (existsb (λ x, key x =? k) l) eqn:E.
  - apply existsb_exists in E as (x & Hx & Hk). bool_to_prop. apply elem_of_list_to_map_1.
    + apply NoDup_ListNoDup. apply (group_sum_keys key val l).
    + apply list_elem_of_In, group_sum_In. eauto.
  - apply not_elem_of_list_to_map_1. intros Hin.
    apply list_elem_of_In, in_map_iff in Hin as ([k' s] & Hk & Hin). simpl in Hk. subst k'.
    apply group_sum_In in Hin as [(x & Hx & Hk) _]. rewrite existsb_false in E.
    specialize (E x Hx). bool_to_prop. done.
Qed.

Lemma totals_snoc l x :
  totals (l ++ [x]) = <[key x := default 0 (totals l !! key x) + val x]> (totals l).
Proof.
  apply map_eq. intros k. rewrite lookup_totals, existsb_app, where_app, sum_of_app. simpl.
  destruct (decide (k = key x)) as [->|Hne].
  - rewrite lookup_insert_eq, Z.eqb_refl, orb_true_r, lookup_totals. simpl. f_equal.
    destruct (existsb _ l) eqn:E; simpl; [lia|].
    rewrite (where_none _ l) by (by apply existsb_false). simpl. lia.
  - rewrite lookup_insert_ne, (proj2 (Z.eqb_neq (key x) k)), orb_false_r by done. simpl.
    rewrite lookup_totals. by rewrite Z.add_0_r.
Qed.

Lemma totals_le l k s : (∀ x, In x l → 0 ≤ val x) → totals l !! k = Some s → 0 ≤ s ≤ sum_of val l.
Proof.
  intros Hpos. rewrite lookup_totals. destruct (existsb _ _); [|done]. intros [= <-].
  assert (Hle : sum_of val (where_ (λ x, key x =? k) l) ≤ sum_of val l).
  { by apply sum_where_le. }
  split; [|done]. apply sum_of_nonneg. intros x Hx. apply where_In in Hx as [Hx _]. auto.
Qed.

Lemma totals_default l k :
  (∀ x, In x l → 0 ≤ val x) → 0 ≤ default 0 (totals l !! k) ≤ sum_of val l.
Proof.
  intros Hpos. destruct (totals l !! k) as [s|] eqn:E; simpl; [by eapply totals_le|].
  split; [done|]. by apply sum_of_nonneg.
Qed.
End totals.

(** ** Totals as Redis holds them *)

Definition ids_ok {A} (m : gmap Z A) : Prop := ∀ k, is_Some (m !! k) → is_uint64 k.

(** The map [m] with its keys written by [name]. *)
Definition board (name : Z → string) (m : gmap Z Z) : gmap string Z :=
  list_to_map (map (λ x, (name x.1, x.2)) (map_to_list m)).

(** Names that tell ids apart. *)
Definition names (name : Z → string) : Prop :=
  ∀ i j, is_uint64 i → is_uint64 j → name i = name j → i = j.

Section board.
Context (name : Z → string) (Hname : names name).

Lemma board_keys (m : gmap Z Z) (l : list (Z * Z)) :
  ids_ok m → l ≡ₚ map_to_list m → base.NoDup (map fst (map (λ x, (name x.1, x.2)) l)).
Proof.
  intros Hids Hl. rewrite map_map. simpl.
  assert (Hl' : ∀ x, x ∈ l → is_uint64 x.1).
  { intros [k v] Hx. rewrite Hl, elem_of_map_to_list in Hx. apply Hids. by eexists. }
  assert (Hnd : base.NoDup (map fst l)).
  { rewrite Hl. apply NoDup_fst_map_to_list. }
  clear Hl Hids. induction l as [|x l IH]; simpl in *; [constructor|].
  apply NoDup_cons in Hnd as [Hx Hnd]. apply NoDup_cons. split; [|apply IH; [set_solver|done]].
  intros Hin. apply Hx. apply list_elem_of_In, in_map_iff in Hin as (y & Hy & Hin).
  apply list_elem_of_In in Hin.
  apply Hname in Hy; [|apply Hl'; set_solver..]. rewrite <- Hy.
  apply list_elem_of_In, in_map. by apply list_elem_of_In.
Qed.

Lemma put_all_board m l :
  ids_ok m → l ≡ₚ map_to_list m →
  put_all (map (λ x, (name x.1, x.2)) l) ∅ = board name m.
Proof.
  intros Hids Hl. pose proof (board_keys m l Hids Hl) as Hnd.
  assert (Hput : ∀ (xs : list (string * Z)) (acc : gmap string Z), base.NoDup (map fst xs) →
    put_all xs acc = list_to_map xs ∪ acc).
  { clear. induction xs as [|[k v] xs IH]; intros acc Hnd; simpl; [by rewrite (left_id_L ∅ (∪))|].
    apply NoDup_cons in Hnd as [Hk Hnd]. unfold put_all in *. simpl. rewrite IH by done.
    rewrite <- insert_union_l, insert_union_r; [done|].
    by apply not_elem_of_list_to_map_1. }
  rewrite Hput by done. rewrite (right_id_L ∅ (∪)). unfold board. apply list_to_map_proper.
  - done.
  - by rewrite Hl.
Qed.

Lemma lookup_board m k : ids_ok m → is_uint64 k → board name m !! name k = m !! k.
Proof.
  intros Hids Hk. unfold board. destruct (m !! k) as [v|] eqn:E.
  - apply elem_of_list_to_map_1; [by apply (board_keys m)|].
    apply list_elem_of_In, in_map_iff. exists (k, v). split; [done|].
    by apply list_elem_of_In, elem_of_map_to_list.
  - apply not_elem_of_list_to_map_1. intros Hin. change (name k ∈ map fst (map (λ x, (name x.1, x.2)) (map_to_list m))) in Hin.
    rewrite map_map in Hin. simpl in Hin.
    apply list_elem_of_In, in_map_iff in Hin as ([k' v] & Hn & Hin).
    apply list_elem_of_In, elem_of_map_to_list in Hin. simpl in Hn.
    apply Hname in Hn; [|apply Hids; by eexists|done]. congruence.
Qed.

Lemma board_insert m k v :
  ids_ok m → is_uint64 k → board name (<[k := v]> m) = <[name k := v]> (board name m).
Proof.
  intros Hids Hk.
  assert (Hids' : ids_ok (<[k := v]> m)).
  { intros i. destruct (decide (i = k)) as [->|Hne]; [done|]. rewrite lookup_insert_ne by done. apply Hids. }
  apply map_eq. intros s. destruct (decide (s = name k)) as [->|Hne].
  - by rewrite lookup_board, !lookup_insert_eq.
  - rewrite lookup_insert_ne by done.
    assert (Hsame : ∀ (m : gmap Z Z), ids_ok m → ∀ x, board name m !! s = Some x ↔
      ∃ i, is_uint64 i ∧ name i = s ∧ m !! i = Some x).
    { clear -Hname. intros m Hids x. unfold board. rewrite <- elem_of_list_to_map.
      - rewrite list_elem_of_In, in_map_iff. split.
        + intros ([i y] & [= Hs ->] & Hin). apply list_elem_of_In, elem_of_map_to_list in Hin.
          exists i. split; [apply Hids; by eexists|done].
        + intros (i & _ & <- & Hi). exists (i, x). split; [done|].
          by apply list_elem_of_In, elem_of_map_to_list.
      - by apply (board_keys m). }
    apply option_eq. intros x. rewrite !Hsame by done. split; intros (i & Hi & <- & Hx).
    + rewrite lookup_insert_ne in Hx by congruence. eauto.
    + exists i. split; [done|]. split; [done|]. rewrite lookup_insert_ne by congruence. done.
Qed.
End board.

Lemma string_app_inj s t u : s +:+ t = s +:+ u → t = u.
Proof. induction s as [|a s IH]; simpl; [done|]. intros [= H]. auto. Qed.

Lemma names_FormatUint : names FormatUint.
Proof. intros i j Hi Hj. by apply FormatUint_inj. Qed.

Lemma string_app_inj_r s t u : s +:+ u = t +:+ u → s = t.
Proof.
  revert t. induction s as [|a s IH]; intros [|b t] Heq; [done|..].
  - apply (f_equal String.length) in Heq. rewrite !length_string_app in Heq. simpl in Heq. lia.
  - apply (f_equal String.length) in Heq. rewrite !length_string_app in Heq. simpl in Heq. lia.
  - injection Heq as -> Heq. f_equal. auto.
Qed.

Lemma names_creator_field : names creator_field.
Proof.
  intros i j Hi Hj Heq. unfold creator_field in Heq. apply string_app_inj, string_app_inj_r in Heq.
  by apply FormatUint_inj.
Qed.

(** ** The tally of the rebuild *)

Definition in_match (m : Z) (o : GiftOrder) : bool := bool_decide (go_MatchID o = Some m).

(** Points per match and creator. *)
Definition match_totals (l : list GiftOrder) : gmap Z (gmap Z Z) :=
  list_to_map (map (λ m, (m, totals go_CreatorID go_MatchPointsAdded (where_ (in_match m) l)))
    (remove_dups (omap go_MatchID l))).

Lemma lookup_match_totals l m :
  match_totals l !! m
  = if existsb (in_match m) l then Some (totals go_CreatorID go_MatchPointsAdded (where_ (in_match m) l))
    else None.
Proof.
  unfold match_totals.
  set (f := λ m, (m, totals go_CreatorID go_MatchPointsAdded (where_ (in_match m) l))).
  assert (Hfst : map fst (map f (remove_dups (omap go_MatchID l))) = remove_dups (omap go_MatchID l)).
  { rewrite map_map. apply map_id. }
  destruct (existsb (in_match m) l) eqn:E.
  - apply existsb_exists in E as (o & Ho & Hm). apply bool_decide_eq_true in Hm.
    apply elem_of_list_to_map_1.
    + change (base.NoDup (map fst (map f (remove_dups (omap go_MatchID l))))). rewrite Hfst.
      apply NoDup_remove_dups.
    + apply list_elem_of_In, in_map_iff. exists m. split; [done|].
      apply list_elem_of_In, elem_of_remove_dups, list_elem_of_omap. exists o.
      split; [by apply list_elem_of_In|done].
  - apply not_elem_of_list_to_map_1. intros Hin.
    change (m ∈ map fst (map f (remove_dups (omap go_MatchID l)))) in Hin. rewrite Hfst in Hin.
    apply elem_of_remove_dups, list_elem_of_omap in Hin as (o & Ho & Hm).
    rewrite existsb_false in E. specialize (E o ltac:(by apply list_elem_of_In)).
    by apply bool_decide_eq_false in E.
Qed.

Lemma match_totals_none l o : go_MatchID o = None → match_totals (l ++ [o]) = match_totals l.
Proof.
  intros Ho. apply map_eq. intros m. rewrite !lookup_match_totals, existsb_app, where_app. simpl.
  assert (in_match m o = false) as -> by (apply bool_decide_eq_false_2; congruence). simpl.
  by rewrite orb_false_r, app_nil_r.
Qed.

Lemma match_totals_some l o m :
  go_MatchID o = Some m → (∀ x, In x (l ++ [o]) → 0 ≤ go_MatchPointsAdded x) →
  sum_of go_MatchPointsAdded (l ++ [o]) ≤ max_int64 →
  add_score (match_totals l) m o = match_totals (l ++ [o]).
Proof.
  intros Ho Hpos Hmax. unfold add_score.
  assert (Hper : default ∅ (match_totals l !! m)
                 = totals go_CreatorID go_MatchPointsAdded (where_ (in_match m) l)).
  { rewrite lookup_match_totals. destruct (existsb (in_match m) l) eqn:E; simpl; [done|].
    by rewrite where_none by (by apply existsb_false). }
  rewrite Hper. rewrite int64_id.
  - apply map_eq. intros i. rewrite lookup_match_totals, existsb_app, where_app. simpl.
    destruct (decide (i = m)) as [->|Hne].
    + assert (in_match m o = true) as -> by (by apply bool_decide_eq_true_2).
      rewrite lookup_insert_eq, orb_true_r. f_equal. symmetry. apply totals_snoc.
    + assert (in_match i o = false) as -> by (apply bool_decide_eq_false_2; congruence).
      rewrite lookup_insert_ne by congruence. simpl. rewrite orb_false_r, app_nil_r. by rewrite lookup_match_totals.
  - rewrite sum_of_app in Hmax. simpl in Hmax.
    assert (Hp : ∀ x, In x l → 0 ≤ go_MatchPointsAdded x) by (intros; apply Hpos, in_or_app; by left).
    assert (0 ≤ go_MatchPointsAdded o) by (apply Hpos, in_or_app; right; by left).
    pose proof (totals_default go_CreatorID go_MatchPointsAdded (where_ (in_match m) l) (go_CreatorID o)
      ltac:(intros x Hx; apply where_In in Hx as [Hx _]; auto)) as Hd.
    assert (sum_of go_MatchPointsAdded (where_ (in_match m) l) ≤ sum_of go_MatchPointsAdded l).
    { by apply sum_where_le. }
    int_bounds. lia.
Qed.

(** The orders a rebuild can add up exactly. *)
Record countable (l : list GiftOrder) : Prop := {
  co_cols : ∀ o, In o l → 0 ≤ go_ChargedCoins o ∧ 0 ≤ go_MatchPointsAdded o
    ∧ match go_MatchID o with Some m => 0 ≤ m ≤ max_int64 | None => True end;
  co_ids : ∀ o, In o l → is_uint64 (go_ViewerID o) ∧ is_uint64 (go_CreatorID o);
  co_coins : sum_of go_ChargedCoins l ≤ f64_exact;
  co_points : sum_of go_MatchPointsAdded l ≤ max_int64 }.

Lemma countable_prefix l l' : countable (l ++ l') → countable l.
Proof.
  intros [Hc Hi Hs Hp]. rewrite !sum_of_app in *.
  assert (0 ≤ sum_of go_ChargedCoins l' ∧ 0 ≤ sum_of go_MatchPointsAdded l') as [H1 H2].
  { split; apply sum_of_nonneg; intros o Ho; apply Hc, in_or_app; by right. }
  split; [| |lia|lia]; intros o Ho; [apply Hc|apply Hi]; apply in_or_app; by left.
Qed.

Lemma add_contrib_totals l o :
  countable (l ++ [o]) →
  add_contrib (totals go_ViewerID go_ChargedCoins l) o = totals go_ViewerID go_ChargedCoins (l ++ [o]).
Proof.
  intros [Hc _ Hs _]. rewrite totals_snoc. unfold add_contrib. rewrite sum_of_app in Hs. simpl in Hs.
  assert (0 ≤ go_ChargedCoins o) by (apply Hc, in_or_app; right; by left).
  pose proof (totals_default go_ViewerID go_ChargedCoins l (go_ViewerID o)
    ltac:(intros x Hx; apply Hc, in_or_app; by left)) as Hd.
  rewrite (f64_id (go_ChargedCoins o)) by lia. rewrite f64_id by lia. done.
Qed.

Lemma tally_rows_ok rows : ∀ l,
  countable (l ++ rows) →
  tally_rows rows (totals go_ViewerID go_ChargedCoins l) (match_totals l)
  = ROk (totals go_ViewerID go_ChargedCoins (l ++ rows), match_totals (l ++ rows)).
Proof.
  induction rows as [|o rows IH]; intros l Hc; simpl; [by rewrite app_nil_r|].
  rewrite (cons_middle o) in *. rewrite app_assoc in *.
  pose proof (countable_prefix _ _ Hc) as Hpre. rewrite (add_contrib_totals l o) by done.
  destruct (co_cols _ Hpre o) as (_ & _ & Hm); [apply in_or_app; right; by left|].
  destruct (go_MatchID o) as [m|] eqn:Em; simpl.
  - unfold scan_int64. rewrite !(proj2 (Z.ltb_ge _ _)) by (int_bounds; lia). simpl.
    unfold lb_int64ToUint64. rewrite (proj2 (Z.ltb_ge m 0)), uint64_id by (int_bounds; lia).
    rewrite (match_totals_some l o m); [by apply IH|done| |apply Hpre].
    intros x Hx. by apply Hpre.
  - rewrite <- (match_totals_none l o) by done. by apply IH.
Qed.

Lemma totals_ids {A} (key val : A → Z) l :
  (∀ x, In x l → is_uint64 (key x)) → ids_ok (totals key val l).
Proof.
  intros Hk k. rewrite lookup_totals. destruct (existsb _ l) eqn:E; [|by intros [? ?]]. intros _.
  apply existsb_exists in E as (x & Hx & E). bool_to_prop. subst k. auto.
Qed.

Lemma group_sum_list {A} (key val : A → Z) l : group_sum key val l ≡ₚ map_to_list (totals key val l).
Proof.
  unfold totals. symmetry. apply map_to_list_to_map, NoDup_ListNoDup, (group_sum_keys key val l).
Qed.
