(* ===== verification/Rebuild.v ===== *)
(** * The boards after a rebuild

    What [RebuildLiveSession] does to the values of a Redis server that answers: a key that holds a
    board is absent when the board is empty. *)

From S2P Require Import Prelude GoInt GoStrings Sha256 Json JsonDecode JsonRoundtrip Schema Prog Sql Wp Events Ledger WellFormed Preserve Money Recharge Gift GiftSpec Invariants InternalEvents Decode ReadModels Settlement Points Redis Wp2 Consumers Leaderboard Board.

(** ** Boards as values *)

(** The value under a key: none for an empty board, as Redis keeps no empty sets. *)
Definition board_value (name : Z → string) (mk : gmap string Z → value) (m : gmap Z Z) : option value :=
  if decide (m = ∅) then None else Some (mk (board name m)).

(** The boards of one kind: [keyf i] holds the totals of the orders selected by [sel i]. *)
Definition family (name : Z → string) (mk : gmap string Z → value) (keyf : Z → string)
    (sel : Z → GiftOrder → bool) (kf vf : GiftOrder → Z) (os : list GiftOrder) (st : Store) : Prop :=
  ∀ i, is_uint64 i → st !! keyf i = board_value name mk (totals kf vf (where_ (sel i) os)).

Definition by_session (sid : Z) (o : GiftOrder) : bool := go_LiveSessionID o =? sid.

(** The orders of the sessions of a campaign, by [camp], the campaign of each session. *)
Definition by_campaign (camp : Z → option Z) (k : Z) (o : GiftOrder) : bool :=
  bool_decide (camp (go_LiveSessionID o) = Some k).

Definition contrib_board (os : list GiftOrder) (sid : Z) : option value :=
  board_value FormatUint ZSet (totals go_ViewerID go_ChargedCoins (where_ (by_session sid) os)).

Definition match_board (os : list GiftOrder) (m : Z) : option value :=
  board_value creator_field Hash (totals go_CreatorID go_MatchPointsAdded (where_ (in_match m) os)).

Definition campaign_board (camp : Z → option Z) (os : list GiftOrder) (k : Z) : option value :=
  board_value FormatUint ZSet (totals go_CreatorID go_ChargedCoins (where_ (by_campaign camp k) os)).

(** Every board of the accepted orders [os] is in the store. *)
Record boards (camp : Z → option Z) (os : list GiftOrder) (st : Store) : Prop := {
  bo_contrib : family FormatUint ZSet contributorKey by_session go_ViewerID go_ChargedCoins os st;
  bo_campaign : family FormatUint ZSet campaignKey (by_campaign camp) go_CreatorID go_ChargedCoins os st;
  bo_match : family creator_field Hash matchScoreKey in_match go_CreatorID go_MatchPointsAdded os st }.

Lemma key_inj prefix : names (λ i, prefix +:+ FormatUint i).
Proof. intros i j Hi Hj Heq. apply string_app_inj in Heq. by apply FormatUint_inj. Qed.

(** ** A key written from scratch *)

Section quiet.
Context {S : Type} `{RedisLaws S} (Hquiet : redis_quiet S).

Lemma wp2_redis F cmd (Q : res unit → Tables → Counters → option Tables → S → Prop) t c v s st :
  redis_effect cmd (content s) = Some st → (∀ s', content s' = st → Q (ROk tt) t c v s') →
  wp2 F (redis cmd) Q t c v s.
Proof.
  intros Hst HQ. apply wp2_other. destruct (quiet_write cmd s st Hquiet Hst) as [Hr Hc].
  cbv zeta. rewrite Hr. by apply HQ.
Qed.

(** The command that fills an absent key with the entries [l]. *)
Definition fills (cmd : command) (key : string) (l : list (string * Z)) (mk : gmap string Z → value) : Prop :=
  ∀ st, st !! key = None → redis_effect cmd st = Some (<[key := mk (put_all l ∅)]> st).

Lemma fills_zadd key l : fills (ZAdd key l) key l ZSet.
Proof. intros st Hk. simpl. unfold zset. by rewrite Hk. Qed.

Lemma fills_hset key l : fills (HSet key l) key l Hash.
Proof. intros st Hk. simpl. unfold hash. by rewrite Hk. Qed.

Lemma wp2_fill F cmd key l mk Q t c v s :
  fills cmd key l mk → content s !! key = None →
  (∀ s', content s' !! key = match l with [] => None | _ => Some (mk (put_all l ∅)) end →
     (∀ key', key' ≠ key → content s' !! key' = content s !! key') → Q (ROk tt) t c v s') →
  wp2 F (if 0 <? Z.of_nat (length l) then redis cmd else Ret (ROk tt)) Q t c v s.
Proof.
  intros Hcmd Hk HQ. destruct l as [|x l]; [by apply wp2_ret, HQ|].
  rewrite (proj2 (Z.ltb_lt _ _)) by (simpl; lia). eapply wp2_redis; [by apply Hcmd|].
  intros s' Hs'. apply HQ; rewrite Hs'.
  - by rewrite lookup_insert_eq.
  - intros key' Hne. by rewrite lookup_insert_ne.
Qed.

Lemma wp2_del F key Q t c v s :
  (∀ s', content s' !! key = None → (∀ key', key' ≠ key → content s' !! key' = content s !! key') →
     Q (ROk tt) t c v s') →
  wp2 F (redis (Del key)) Q t c v s.
Proof.
  intros HQ. eapply wp2_redis; [done|]. intros s' Hs'. apply HQ; rewrite Hs'.
  - apply lookup_delete_eq.
  - intros key' Hne. by rewrite lookup_delete_ne.
Qed.
End quiet.

(** The value those entries make. *)
Lemma filled (name : Z → string) (mk : gmap string Z → value) (m : gmap Z Z) (l : list (Z * Z)) :
  names name → ids_ok m → l ≡ₚ map_to_list m →
  match map (λ x, (name x.1, x.2)) l with
  | [] => None
  | _ => Some (mk (put_all (map (λ x, (name x.1, x.2)) l) ∅))
  end = board_value name mk m.
Proof.
  intros Hname Hids Hl. unfold board_value. rewrite (put_all_board name Hname m l) by done.
  destruct (decide (m = ∅)) as [->|Hne].
  - rewrite map_to_list_empty in Hl. by apply Permutation_nil_r in Hl as ->.
  - destruct l; [|done]. symmetry in Hl. apply Permutation_nil_r in Hl.
    by apply map_to_list_empty_iff in Hl.
Qed.

(** ** The rebuild *)

Lemma totals_empty {A} (key val : A → Z) l : totals key val l = ∅ ↔ l = [].
Proof.
  split; [|by intros ->]. intros He. destruct l as [|x l]; [done|]. exfalso.
  assert (Hx : totals key val (x :: l) !! key x = None) by (by rewrite He).
  rewrite lookup_totals in Hx. simpl in Hx. by rewrite Z.eqb_refl in Hx.
Qed.

Lemma totals_perm {A} (key val : A → Z) l l' : l ≡ₚ l' → totals key val l = totals key val l'.
Proof.
  intros Hl. apply map_eq. intros k. rewrite !lookup_totals.
  assert (existsb (λ x, key x =? k) l = existsb (λ x, key x =? k) l') as ->.
  { apply eq_true_iff_eq. rewrite !existsb_exists. by setoid_rewrite Hl. }
  destruct (existsb _ l'); [|done]. f_equal. by apply sum_of_perm, where_perm.
Qed.

Section rebuild.
Context `{MySQL} `{MapOrderLaws} {S : Type} `{RedisLaws S} (Hquiet : redis_quiet S).

(** The hashes of the matches, one after the other. *)
Lemma rebuild_matches_wp l : ∀ t c s (Q : option go_err → Tables → Counters → option Tables → S → Prop),
  base.NoDup l.*1 → (∀ x, x ∈ l → is_uint64 x.1 ∧ ids_ok x.2) →
  (∀ s', (∀ x, x ∈ l → content s' !! matchScoreKey x.1 = board_value creator_field Hash x.2) →
     (∀ key, (∀ x, x ∈ l → key ≠ matchScoreKey x.1) → content s' !! key = content s !! key) →
     Q None t c None s') →
  wp2 false (for_each l rebuild_match) Q t c None s.
Proof.
  induction l as [|[m per] l IH]; intros t c s Q Hnd Hids HQ; simpl.
  { apply wp2_ret, HQ; [by intros x Hx%elem_of_nil|done]. }
  apply NoDup_cons in Hnd as [Hm Hnd].
  destruct (Hids (m, per)) as [Hm64 Hper]; [by left|]. simpl in *.
  apply wp2_bind, wp2_try. apply (wp2_del Hquiet). intros s1 Hs1 Hs1'.
  apply wp2_try. apply (wp2_fill Hquiet) with (key := matchScoreKey m) (mk := Hash); [apply fills_hset|done|].
  intros s2 Hs2 Hs2'. apply wp2_ret. unfold match_fields in Hs2.
  rewrite (filled creator_field Hash per) in Hs2; [|apply names_creator_field|done|apply range_perm].
  apply IH; [done|intros x Hx; apply Hids; by right|].
  assert (Hne : ∀ x, x ∈ l → matchScoreKey x.1 ≠ matchScoreKey m).
  { intros x Hx Heq. apply key_inj in Heq; [|apply Hids; by right|done].
    apply Hm. rewrite <- Heq. by apply list_elem_of_fmap_2. }
  intros s3 Hs3 Hs3'. apply HQ.
  - intros x [->|Hx]%elem_of_cons; [|by apply Hs3]. simpl. rewrite Hs3'; [done|].
    intros x Hx Heq. by apply (Hne x Hx).
  - intros key Hkey. rewrite Hs3', Hs2', Hs1'; [done|..].
    + apply (Hkey (m, per)). by left.
    + apply (Hkey (m, per)). by left.
    + intros x Hx. apply Hkey. by right.
Qed.

(** The campaign of a session. *)
Definition campaign_of (t : Tables) (sid : Z) : option Z := live_sessions t !! sid ≫= ls_CampaignID.

(** The keys of a session's boards hold what the accepted orders of [t] add up to, and the others what
    they held. *)
Record rebuilt (t : Tables) (sid : Z) (st st' : Store) : Prop := {
  rb_contrib : st' !! contributorKey sid = contrib_board (accepted_orders t) sid;
  rb_match : ∀ m, existsb (in_match m) (where_ (by_session sid) (accepted_orders t)) = true →
    st' !! matchScoreKey m = match_board (where_ (by_session sid) (accepted_orders t)) m;
  rb_campaign : ∀ k, campaign_of t sid = Some k →
    st' !! campaignKey k = campaign_board (campaign_of t) (accepted_orders t) k;
  rb_frame : ∀ key, key ≠ contributorKey sid →
    (∀ m, existsb (in_match m) (where_ (by_session sid) (accepted_orders t)) = true → key ≠ matchScoreKey m) →
    (∀ k, campaign_of t sid = Some k → key ≠ campaignKey k) → st' !! key = st !! key }.

Lemma countable_where p l : countable l → countable (where_ p l).
Proof.
  intros [Hc Hi Hs Hp].
  split.
  - intros o Ho. apply Hc. by apply where_In in Ho as [Ho _].
  - intros o Ho. apply Hi. by apply where_In in Ho as [Ho _].
  - etrans; [apply sum_where_le|done]. intros o Ho. by apply Hc.
  - etrans; [apply sum_where_le|done]. intros o Ho. by apply Hc.
Qed.

Lemma accepted_session_rows t sid :
  where_ (session_order sid) (gift_orders t) = where_ (by_session sid) (accepted_orders t).
Proof.
  unfold accepted_orders. rewrite where_where. apply where_ext. intros o _.
  unfold session_order, by_session, is_accepted, accepted. apply andb_comm.
Qed.

Lemma campaign_rows t k :
  where_ (campaign_order t k) (gift_orders t)
  = where_ (by_campaign (campaign_of t) k) (accepted_orders t).
Proof.
  unfold accepted_orders. rewrite where_where. apply where_ext. intros o _.
  unfold campaign_order, by_campaign, is_accepted, accepted, campaign_of. f_equal.
  destruct (live_sessions t !! go_LiveSessionID o); [done|]. symmetry. by apply bool_decide_eq_false_2.
Qed.

Lemma scan_totals (l : list (Z * Z)) :
  (∀ x, x ∈ l → 0 ≤ x.2 ≤ max_int64) → scan_rows pair l = ROk l.
Proof.
  induction l as [|[k v] l IH]; intros Hl; simpl; [done|].
  specialize (Hl (k, v) ltac:(by left)) as Hv. simpl in Hv. unfold scan_int64.
  rewrite !(proj2 (Z.ltb_ge _ _)) by (int_bounds; lia). simpl.
  rewrite IH; [done|]. intros x Hx. apply Hl. by right.
Qed.

Lemma campaign_totals_scan l :
  countable l → let g := group_sum go_CreatorID go_ChargedCoins l in
  scan_rows pair g = ROk g ∧ map (λ x, (FormatUint x.1, f64 x.2)) g = map (λ x, (FormatUint x.1, x.2)) g.
Proof.
  intros Hl g.
  assert (Hg : ∀ x, x ∈ g → 0 ≤ x.2 ≤ f64_exact).
  { intros [k v] Hx. unfold g in Hx. rewrite (group_sum_list go_CreatorID go_ChargedCoins l) in Hx.
    apply elem_of_map_to_list in Hx. simpl.
    assert (0 ≤ v ≤ sum_of go_ChargedCoins l) as Hv.
    { apply (totals_le go_CreatorID go_ChargedCoins l k v); [|done]. intros o Ho. by apply Hl. }
    pose proof (co_coins _ Hl). lia. }
  split.
  - apply scan_totals. intros x Hx. specialize (Hg x Hx). unfold f64_exact in Hg. int_bounds. lia.
  - apply map_ext_in. intros x Hx. apply list_elem_of_In in Hx. rewrite f64_id; [done|].
    specialize (Hg x Hx). lia.
Qed.

Lemma rebuild_campaign_wp k t c s (Q : option go_err → Tables → Counters → option Tables → S → Prop) :
  0 ≤ k ≤ max_int64 → countable (accepted_orders t) →
  (∀ s', content s' !! campaignKey k = campaign_board (campaign_of t) (accepted_orders t) k →
     (∀ key, key ≠ campaignKey k → content s' !! key = content s !! key) → Q None t c None s') →
  wp2 false (rebuild_campaign k) Q t c None s.
Proof.
  intros Hk Hos HQ. unfold rebuild_campaign, lb_int64ToUint64.
  rewrite (proj2 (Z.ltb_ge k 0)), uint64_id by (int_bounds; lia).
  apply wp2_try. apply (wp2_del Hquiet). intros s1 Hs1 Hs1'.
  apply wp2_try, wp2_sql, wp_auto; [done|]. simpl. split; [done|]. rewrite campaign_rows.
  set (l := where_ (by_campaign (campaign_of t) k) (accepted_orders t)).
  assert (Hl : countable l) by (by apply countable_where).
  destruct (campaign_totals_scan l Hl) as [-> Hz]. rewrite Hz.
  apply wp2_try. apply (wp2_fill Hquiet) with (key := campaignKey k) (mk := ZSet);
    [apply fills_zadd|done|].
  intros s2 Hs2 Hs2'. apply wp2_ret. apply HQ.
  - rewrite Hs2, (filled FormatUint ZSet (totals go_CreatorID go_ChargedCoins l)); [done|..].
    + apply names_FormatUint.
    + apply totals_ids. intros o Ho. by apply Hl.
    + apply group_sum_list.
  - intros key Hkey. by rewrite Hs2', Hs1'.
Qed.

Lemma match_totals_keys l x :
  x ∈ map_to_list (match_totals l) ↔
  existsb (in_match x.1) l = true ∧ x.2 = totals go_CreatorID go_MatchPointsAdded (where_ (in_match x.1) l).
Proof.
  destruct x as [m per]. rewrite elem_of_map_to_list, lookup_match_totals. simpl.
  destruct (existsb (in_match m) l); split; [|intros [_ ->]| |intros []]; try done.
  by intros [= <-].
Qed.

(** The hashes of the matches of the rows [l]. *)
Lemma rebuild_scores_wp l t c s (Q : option go_err → Tables → Counters → option Tables → S → Prop) :
  countable l →
  (∀ s', (∀ m, existsb (in_match m) l = true → content s' !! matchScoreKey m = match_board l m) →
     (∀ key, (∀ m, existsb (in_match m) l = true → key ≠ matchScoreKey m) →
        content s' !! key = content s !! key) → Q None t c None s') →
  wp2 false (for_each (range_map (match_totals l)) rebuild_match) Q t c None s.
Proof.
  intros Hl HQ.
  assert (Hin : ∀ x, x ∈ range_map (match_totals l) ↔ existsb (in_match x.1) l = true
    ∧ x.2 = totals go_CreatorID go_MatchPointsAdded (where_ (in_match x.1) l)).
  { intros x. by rewrite (range_perm _ (match_totals l)), match_totals_keys. }
  apply rebuild_matches_wp.
  - rewrite (range_perm _ (match_totals l)). apply NoDup_fst_map_to_list.
  - intros x [Hm ->]%Hin. apply existsb_exists in Hm as (o & Ho & Hm). apply bool_decide_eq_true in Hm.
    split; [|apply totals_ids; intros o' Ho'; apply where_In in Ho' as [Ho' _]; by apply Hl].
    destruct (co_cols _ Hl o Ho) as (_ & _ & Hb). rewrite Hm in Hb. int_bounds. lia.
  - intros s' Hs Hs'. apply HQ.
    + intros m Hm. apply (Hs (m, totals go_CreatorID go_MatchPointsAdded (where_ (in_match m) l))).
      by apply Hin.
    + intros key Hkey. apply Hs'. intros x [Hm _]%Hin. by apply Hkey.
Qed.

Lemma RebuildLiveSession_wp sid ses t c s
    (Q : option go_err → Tables → Counters → option Tables → S → Prop) :
  live_sessions t !! sid = Some ses →
  match ls_CampaignID ses with Some k => 0 ≤ k ≤ max_int64 | None => True end →
  countable (accepted_orders t) →
  (∀ s', rebuilt t sid (content s) (content s') → Q None t c None s') →
  wp2 false (RebuildLiveSession sid) Q t c None s.
Proof.
  intros Hses Hcamp Hos HQ. unfold RebuildLiveSession.
  apply wp2_try, wp2_sql, wp_auto; [done|]. simpl. split; [done|]. rewrite accepted_session_rows.
  set (l := where_ (by_session sid) (accepted_orders t)).
  assert (Hl : countable l) by (by apply countable_where).
  pose proof (tally_rows_ok l [] Hl) as Ht. simpl in Ht.
  change (totals go_ViewerID go_ChargedCoins []) with (∅ : gmap Z Z) in Ht.
  change (match_totals []) with (∅ : gmap Z (gmap Z Z)) in Ht. rewrite Ht. clear Ht.
  set (contrib := totals go_ViewerID go_ChargedCoins l).
  apply wp2_try. apply (wp2_del Hquiet). intros s1 Hs1 Hs1'.
  assert (Hsize : size contrib = length (map (λ x : Z * Z, (FormatUint x.1, x.2)) (range_map contrib))).
  { rewrite length_map, range_perm. symmetry. apply length_map_to_list. }
  rewrite Hsize. apply wp2_try. apply (wp2_fill Hquiet) with (key := contributorKey sid) (mk := ZSet);
    [apply fills_zadd|done|].
  intros s2 Hs2 Hs2'.
  rewrite (filled FormatUint ZSet contrib) in Hs2;
    [|apply names_FormatUint|apply totals_ids; intros o Ho; by apply Hl|apply range_perm].
  apply wp2_bind. apply rebuild_scores_wp; [done|]. intros s3 Hmatch Hs3'.
  assert (Hother : ∀ key, key ≠ contributorKey sid →
    (∀ m, existsb (in_match m) l = true → key ≠ matchScoreKey m) → content s3 !! key = content s !! key).
  { intros key Hkey Hkeys. by rewrite Hs3', Hs2', Hs1'. }
  assert (Hcontrib : content s3 !! contributorKey sid = contrib_board (accepted_orders t) sid).
  { by rewrite Hs3'. }
  apply wp2_try, wp2_sql, wp_auto; [done|]. simpl. split; [done|]. rewrite Hses.
  assert (Hof : campaign_of t sid = ls_CampaignID ses) by (unfold campaign_of; by rewrite Hses).
  destruct (ls_CampaignID ses) as [k|]; simpl.
  - unfold scan_int64. rewrite !(proj2 (Z.ltb_ge _ _)) by (int_bounds; lia). simpl.
    apply rebuild_campaign_wp; [done|done|]. intros s4 Hs4 Hs4'. apply HQ. split.
    + by rewrite Hs4'.
    + intros m Hm. rewrite Hs4' by done. by apply Hmatch.
    + intros k' Hk'. rewrite Hof in Hk'. by injection Hk' as <-.
    + intros key Hc Hm Hk. rewrite Hs4' by (by apply Hk). by apply Hother.
  - apply wp2_ret, HQ. split; try done; [intros k Hk; congruence|]. intros key Hc Hm _. by apply Hother.
Qed.
End rebuild.
