(* ===== verification/BoardEvents.v ===== *)
(** * The boards after each event

    What [ApplyAcceptedGift] does to the boards of [Rebuild]: it adds the order of a new event and
    leaves them alone for a known one, so that any deliveries of the events of some orders, repeated
    at will, leave the boards of those orders. *)

From S2P Require Import Prelude GoInt GoStrings Sha256 Json JsonDecode JsonRoundtrip Schema Prog Sql Wp Events Ledger WellFormed Preserve Money Recharge Gift GiftSpec Invariants InternalEvents Decode ReadModels Settlement Points Redis Wp2 Consumers Leaderboard Board Rebuild.

(** ** One event *)

Section family.
Context (name : Z → string) (mk : gmap string Z → value) (keyf : Z → string)
  (sel : Z → GiftOrder → bool) (kf vf : GiftOrder → Z).
Context (Hname : names name) (Hkey : names keyf).

(** The totals after one more order, at the only key that changes. *)
Lemma family_put os o st i0 m :
  is_uint64 i0 → (∀ i, sel i o = true ↔ i = i0) →
  m = totals kf vf (where_ (sel i0) os ++ [o]) → family name mk keyf sel kf vf os st →
  family name mk keyf sel kf vf (os ++ [o]) (<[keyf i0 := mk (board name m)]> st).
Proof.
  intros Hi0 Hsel -> Hfam i Hi. rewrite where_app. simpl. destruct (sel i o) eqn:E.
  - apply Hsel in E as ->. rewrite lookup_insert_eq. unfold board_value. rewrite decide_False; [done|].
    rewrite totals_empty. by destruct (where_ _ os).
  - rewrite app_nil_r, lookup_insert_ne; [by apply Hfam|].
    intros Heq. apply Hkey in Heq; [|done..]. subst i. pose proof (proj2 (Hsel i0) eq_refl). congruence.
Qed.

(** An order that is on no board of this kind. *)
Lemma family_skip os o st :
  (∀ i, sel i o = false) → family name mk keyf sel kf vf os st →
  family name mk keyf sel kf vf (os ++ [o]) st.
Proof. intros Hsel Hfam i Hi. rewrite where_app. simpl. rewrite Hsel, app_nil_r. by apply Hfam. Qed.

(** The entries of the key before. *)
Lemma family_entries os st i entries :
  is_uint64 i → family name mk keyf sel kf vf os st →
  (∀ m, entries (Some (mk m)) = m) → entries None = ∅ →
  entries (st !! keyf i) = board name (totals kf vf (where_ (sel i) os)).
Proof.
  intros Hi Hfam Hsome Hnone. rewrite (Hfam i Hi). unfold board_value.
  destruct (decide (totals kf vf (where_ (sel i) os) = ∅)) as [E|E]; [|by rewrite Hsome].
  rewrite Hnone, E. done.
Qed.
End family.

Lemma family_frame name mk keyf sel kf vf os st st' :
  (∀ i, st' !! keyf i = st !! keyf i) → family name mk keyf sel kf vf os st →
  family name mk keyf sel kf vf os st'.
Proof. intros Hst Hfam i Hi. rewrite Hst. by apply Hfam. Qed.

Lemma totals_before (sel : Z → GiftOrder → bool) kf vf os o i0 max :
  (∀ x, In x (os ++ [o]) → is_uint64 (kf x) ∧ 0 ≤ vf x) → sum_of vf (os ++ [o]) ≤ max →
  let m := totals kf vf (where_ (sel i0) os) in
  ids_ok m ∧ is_uint64 (kf o) ∧ 0 ≤ vf o ∧ 0 ≤ default 0 (m !! kf o)
  ∧ default 0 (m !! kf o) + vf o ≤ max.
Proof.
  intros Hcols Hsum m.
  assert (Hos : ∀ x, In x os → is_uint64 (kf x) ∧ 0 ≤ vf x).
  { intros x Hx. apply Hcols, in_or_app. by left. }
  assert (Hl : ∀ x, In x (where_ (sel i0) os) → is_uint64 (kf x) ∧ 0 ≤ vf x).
  { intros x Hx. apply where_In in Hx as [Hx _]. auto. }
  destruct (Hcols o) as [Ho Hvo]; [apply in_or_app; right; by left|].
  pose proof (totals_default kf vf (where_ (sel i0) os) (kf o) ltac:(apply Hl)) as Hd. fold m in Hd.
  pose proof (sum_where_le vf (sel i0) os ltac:(apply Hos)) as Hw.
  rewrite sum_of_app in Hsum. simpl in Hsum.
  split; [apply totals_ids; apply Hl|]. split_and!; [done..|lia|lia].
Qed.

Lemma family_zincr keyf sel kf vf os o st i0 :
  names keyf → is_uint64 i0 → (∀ i, sel i o = true ↔ i = i0) →
  (∀ x, In x (os ++ [o]) → is_uint64 (kf x) ∧ 0 ≤ vf x) → sum_of vf (os ++ [o]) ≤ f64_exact →
  family FormatUint ZSet keyf sel kf vf os st →
  ∃ v, redis_effect (ZIncrBy (keyf i0) (f64 (vf o)) (FormatUint (kf o))) st = Some (<[keyf i0 := v]> st)
    ∧ family FormatUint ZSet keyf sel kf vf (os ++ [o]) (<[keyf i0 := v]> st).
Proof.
  intros Hkey Hi0 Hsel Hcols Hsum Hfam.
  destruct (totals_before sel kf vf os o i0 _ Hcols Hsum) as (Hids & Ho & Hvo & Hd & Hmax).
  pose proof (family_entries FormatUint ZSet keyf sel kf vf os st i0
    (λ v, match v with Some (ZSet m) => m | _ => ∅ end) Hi0 Hfam ltac:(done) ltac:(done)) as Hent.
  exists (ZSet (board FormatUint (totals kf vf (where_ (sel i0) os ++ [o])))).
  split; [|by apply family_put]. simpl. unfold zset.
  rewrite Hent, (lookup_board _ names_FormatUint) by done.
  rewrite (f64_id (vf o)), f64_id by lia. rewrite totals_snoc, (board_insert _ names_FormatUint) by done.
  rewrite (Hfam i0 Hi0). unfold board_value. by case_decide.
Qed.

Lemma family_hincr keyf sel kf vf os o st i0 :
  names keyf → is_uint64 i0 → (∀ i, sel i o = true ↔ i = i0) →
  (∀ x, In x (os ++ [o]) → is_uint64 (kf x) ∧ 0 ≤ vf x) → sum_of vf (os ++ [o]) ≤ max_int64 →
  family creator_field Hash keyf sel kf vf os st →
  ∃ v, redis_effect (HIncrBy (keyf i0) (creator_field (kf o)) (vf o)) st = Some (<[keyf i0 := v]> st)
    ∧ family creator_field Hash keyf sel kf vf (os ++ [o]) (<[keyf i0 := v]> st).
Proof.
  intros Hkey Hi0 Hsel Hcols Hsum Hfam.
  destruct (totals_before sel kf vf os o i0 _ Hcols Hsum) as (Hids & Ho & Hvo & Hd & Hmax).
  pose proof (family_entries creator_field Hash keyf sel kf vf os st i0
    (λ v, match v with Some (Hash m) => m | _ => ∅ end) Hi0 Hfam ltac:(done) ltac:(done)) as Hent.
  exists (Hash (board creator_field (totals kf vf (where_ (sel i0) os ++ [o])))).
  split; [|by apply family_put]. simpl. unfold hash.
  rewrite Hent, (lookup_board _ names_creator_field) by done.
  rewrite !(proj2 (Z.ltb_ge _ _)) by (int_bounds; lia). simpl.
  rewrite totals_snoc, (board_insert _ names_creator_field) by done.
  rewrite (Hfam i0 Hi0). unfold board_value. by case_decide.
Qed.

Section apply.
Context `{MySQLLaws} {S : Type} `{RedisLaws S}.

Definition lb_applied (t : Tables) (event : Z) : bool :=
  existsb (same_dedupe lb_consumerName event) (consumer_dedupe t).

Definition lb_mark (event ts : Z) : write :=
  set_consumer_dedupe (λ l, l ++
    [{| cd_ConsumerName := lb_consumerName; cd_EventID := event; cd_AppliedAt := ts |}]).

(** [evt] is the event of order [o]. *)
Record event_of (camp : Z → option Z) (o : GiftOrder) (evt : LiveGiftAcceptedV1) : Prop := {
  ev_viewer : ga_ViewerID evt = go_ViewerID o;
  ev_creator : ga_CreatorID evt = go_CreatorID o;
  ev_session : ga_LiveSessionID evt = go_LiveSessionID o;
  ev_campaign : ga_CampaignID evt = camp (go_LiveSessionID o);
  ev_match : ga_MatchID evt = go_MatchID o;
  ev_coins : ga_ChargedCoins evt = go_ChargedCoins o;
  ev_points : ga_MatchPoints evt = go_MatchPointsAdded o }.

(** The dedupe insert of the projector, whatever fails after it. *)
Lemma lb_dedupe_wp F event t c s (k : res unit → prog (sum_eff SqlE RedisE) (option go_err))
    (Q : option go_err → Tables → Counters → option Tables → S → Prop) :
  (F = true → Q (Some ErrConn) t c None s) →
  (F = true → ∀ v, wp2 F (k (RErr ErrConn)) (λ a t' c' _ s', Q a t' c' None s') t c (Some v) s) →
  (lb_applied t event = true →
   wp2 F (k (RErr (MySQLError 1062))) (λ a t' c' _ s', Q a t' c' None s') t c (Some t) s) →
  (lb_applied t event = false → ∀ ts,
   wp2 F (k (ROk tt)) (λ a t' c' _ s', Q a t' c' None s') t c (Some (lb_mark event ts t)) s) →
  wp2 F (with_tx2 Some (pbind (sql now) (λ ts,
    pbind (sql (tx_exec (insert_dedupe lb_consumerName event ts))) k))) Q t c None s.
Proof.
  intros Hf Hfail Hdup Hnew. apply wp2_with_tx; [done|].
  apply wp2_bind, wp2_sql, wp_now. intros ts. apply wp2_bind, wp2_sql, wp_modify.
  - intros HF. auto.
  - intros n. simpl. rewrite (varchar_ascii 64) by (done || simpl; lia). simpl.
    fold (lb_applied t event). destruct (lb_applied t event) eqn:E; [|done]. intros [= <-]. auto.
  - simpl. rewrite (varchar_ascii 64) by (done || simpl; lia). simpl.
    fold (lb_applied t event). destruct (lb_applied t event) eqn:E; [done|]. intros _. by apply Hnew.
Qed.

(** One more order whose board columns are in range. *)
Definition board_ids (camp : Z → option Z) (o : GiftOrder) : Prop :=
  is_uint64 (go_LiveSessionID o) ∧ match camp (go_LiveSessionID o) with Some k => is_uint64 k | None => True end.

(** One command on the boards of one kind, or none when the order has no board there. *)
Lemma family_step (Hquiet : redis_quiet S) name mk keyf sel kf vf os o (key0 : option Z)
    (cmd : Z → command) t c s (Q : res unit → Tables → Counters → option Tables → S → Prop) :
  (∀ i, sel i o = true ↔ key0 = Some i) →
  (∀ i, key0 = Some i → ∃ v, redis_effect (cmd i) (content s) = Some (<[keyf i := v]> (content s))
    ∧ family name mk keyf sel kf vf (os ++ [o]) (<[keyf i := v]> (content s))) →
  family name mk keyf sel kf vf os (content s) →
  (∀ s', family name mk keyf sel kf vf (os ++ [o]) (content s') →
    (∀ key, (∀ i, key ≠ keyf i) → content s' !! key = content s !! key) → Q (ROk tt) t c None s') →
  wp2 false (match key0 with Some i => redis (cmd i) | None => Ret (ROk tt) end) Q t c None s.
Proof.
  intros Hsel Hcmd Hfam HQ. destruct key0 as [i|].
  - destruct (Hcmd i eq_refl) as (v & E & Hfam'). apply (wp2_redis Hquiet) with (1 := E).
    intros s' Hs'. rewrite <- Hs' in Hfam'. apply HQ; [done|]. intros key Hkey.
    by rewrite Hs', lookup_insert_ne.
  - apply wp2_ret, HQ; [|done]. apply family_skip; [|done]. intros i.
    destruct (sel i o) eqn:E; [|done]. by apply Hsel in E.
Qed.

Lemma update_boards_wp (Hquiet : redis_quiet S) camp os o evt t c s
    (Q : option go_err → Tables → Counters → option Tables → S → Prop) :
  event_of camp o evt → countable (os ++ [o]) → board_ids camp o → boards camp os (content s) →
  (∀ s', boards camp (os ++ [o]) (content s') → Q None t c None s') →
  wp2 false (update_boards evt) Q t c None s.
Proof.
  intros [Hv Hcr Hses Hcamp Hm Hcoins Hpts] Hc [Hsid Hk] [Bc Bk Bm] HQ. unfold update_boards.
  rewrite Hv, Hcr, Hses, Hcamp, Hm, Hcoins, Hpts.
  assert (Hviewers : ∀ x, In x (os ++ [o]) → is_uint64 (go_ViewerID x) ∧ 0 ≤ go_ChargedCoins x).
  { intros x Hx. split; [apply (co_ids _ Hc x Hx)|apply (co_cols _ Hc x Hx)]. }
  assert (Hcreators : ∀ x, In x (os ++ [o]) → is_uint64 (go_CreatorID x) ∧ 0 ≤ go_ChargedCoins x).
  { intros x Hx. split; [apply (co_ids _ Hc x Hx)|apply (co_cols _ Hc x Hx)]. }
  assert (Hscores : ∀ x, In x (os ++ [o]) → is_uint64 (go_CreatorID x) ∧ 0 ≤ go_MatchPointsAdded x).
  { intros x Hx. split; [apply (co_ids _ Hc x Hx)|apply (co_cols _ Hc x Hx)]. }
  apply wp2_try.
  apply (family_step Hquiet FormatUint ZSet contributorKey by_session go_ViewerID go_ChargedCoins os o
    (Some (go_LiveSessionID o)) (λ i, ZIncrBy (contributorKey i) _ _)); [| |done|].
  { intros i. unfold by_session. rewrite Z.eqb_eq. split; congruence. }
  { intros i [= <-]. apply family_zincr; [apply key_inj|done| |done|apply Hc|done].
    intros i. unfold by_session. rewrite Z.eqb_eq. split; congruence. }
  intros s1 B1 Hs1. apply wp2_try.
  apply (family_step Hquiet FormatUint ZSet campaignKey (by_campaign camp) go_CreatorID go_ChargedCoins os o
    (camp (go_LiveSessionID o)) (λ i, ZIncrBy (campaignKey i) _ _)).
  { intros i. apply bool_decide_eq_true. }
  { intros i Hi. rewrite Hi in Hk. apply family_zincr; [apply key_inj|done| |done|apply Hc|].
    - intros j. unfold by_campaign. rewrite bool_decide_eq_true. split; congruence.
    - eapply family_frame; [|exact Bk]. intros j. by apply Hs1. }
  { eapply family_frame; [|exact Bk]. intros j. by apply Hs1. }
  intros s2 B2 Hs2. apply wp2_try.
  apply (family_step Hquiet creator_field Hash matchScoreKey in_match go_CreatorID go_MatchPointsAdded os o
    (go_MatchID o) (λ i, HIncrBy (matchScoreKey i) _ _)).
  { intros i. apply bool_decide_eq_true. }
  { intros i Hi. apply family_hincr; [apply key_inj| | |done|apply Hc|].
    - destruct (co_cols _ Hc o) as (_ & _ & Hb); [apply in_or_app; right; by left|].
      rewrite Hi in Hb. int_bounds. lia.
    - intros j. unfold in_match. rewrite bool_decide_eq_true. split; congruence.
    - eapply family_frame; [|exact Bm]. intros j. by rewrite Hs2, Hs1. }
  { eapply family_frame; [|exact Bm]. intros j. by rewrite Hs2, Hs1. }
  intros s3 B3 Hs3. apply wp2_ret, HQ. split; [..|done].
  - eapply family_frame; [|exact B1]. intros j. by rewrite Hs3, Hs2.
  - eapply family_frame; [|exact B2]. intros j. by rewrite Hs3.
Qed.

(** A new event adds its order to every board. *)
Lemma ApplyAcceptedGift_wp (Hquiet : redis_quiet S) camp os o event evt t c s
    (Q : option go_err → Tables → Counters → option Tables → S → Prop) :
  lb_applied t event = false → event_of camp o evt → countable (os ++ [o]) → board_ids camp o →
  boards camp os (content s) →
  (∀ ts s', boards camp (os ++ [o]) (content s') → Q None (lb_mark event ts t) c None s') →
  wp2 false (ApplyAcceptedGift event evt) Q t c None s.
Proof.
  intros Hnew Hevt Hc Hids Hb HQ. apply lb_dedupe_wp; [done|done|by rewrite Hnew|].
  intros _ ts. apply wp2_try, wp2_sql, wp_commit; [done|done|].
  apply (update_boards_wp Hquiet camp os o); [done..|]. intros s' Hs'. by apply HQ.
Qed.

(** A known event changes nothing. *)
Lemma ApplyAcceptedGift_dup event evt t c s
    (Q : option go_err → Tables → Counters → option Tables → S → Prop) :
  lb_applied t event = true → Q None t c None s →
  wp2 false (ApplyAcceptedGift event evt) Q t c None s.
Proof.
  intros Hdup HQ. apply lb_dedupe_wp; [done|done| |by rewrite Hdup].
  intros _. simpl. apply wp2_try, wp2_sql, wp_commit; [done|done|]. by apply wp2_ret.
Qed.
End apply.

(** ** Deliveries *)

Section deliveries.
Context `{MySQLLaws} {S : Type} `{RedisLaws S} (Hquiet : redis_quiet S).
Context (camp : Z → option Z) (eid : GiftOrder → Z) (os : list GiftOrder).

(** Events handed to the projector one after the other. *)
Definition apply_deliveries (xs : list (GiftOrder * LiveGiftAcceptedV1))
    : prog (sum_eff SqlE RedisE) (option go_err) :=
  for_each xs (λ x, ApplyAcceptedGift (eid x.1) x.2).

(** Deliveries of the events of [os]. *)
Definition delivers (xs : list (GiftOrder * LiveGiftAcceptedV1)) : Prop :=
  ∀ x, In x xs → In x.1 os ∧ event_of camp x.1 x.2.

(** Nothing but the dedupe table differs. *)
Definition same_but_dedupe (t t' : Tables) : Prop := t' = set_consumer_dedupe (λ _, consumer_dedupe t') t.

(** The boards hold the orders [done], whose events are the known ones. *)
Record progress (done : list GiftOrder) (t : Tables) (st : Store) : Prop := {
  pr_nodup : base.NoDup done;
  pr_sub : ∀ o, In o done → In o os;
  pr_known : ∀ o, In o os → lb_applied t (eid o) = true ↔ In o done;
  pr_boards : boards camp done st }.

Lemma countable_sub l l' : countable l → l' ⊆+ l → countable l'.
Proof.
  intros Hl Hsub. apply submseteq_Permutation in Hsub as [k Hk]. apply (countable_prefix _ k).
  destruct Hl as [Hc Hi Hs Hp]. split.
  - intros o Ho. apply Hc. by rewrite Hk.
  - intros o Ho. apply Hi. by rewrite Hk.
  - by rewrite <- (sum_of_perm _ _ _ Hk).
  - by rewrite <- (sum_of_perm _ _ _ Hk).
Qed.

Lemma lb_applied_mark t event ts x :
  lb_applied (lb_mark event ts t) x = lb_applied t x || (x =? event).
Proof.
  unfold lb_applied, lb_mark. simpl. rewrite existsb_app. simpl.
  unfold same_dedupe at 2. simpl. by rewrite coll_eq_refl, orb_false_r, Z.eqb_sym.
Qed.

Hypothesis Hinj : ∀ o o', In o os → In o' os → eid o = eid o' → o = o'.
Hypothesis Hcount : countable os.
Hypothesis Hids : ∀ o, In o os → board_ids camp o.

Lemma deliveries_wp xs : ∀ dn t c s,
  delivers xs → progress dn t (content s) →
  wp2 false (apply_deliveries xs) (λ r t' c' v s', r = None ∧ v = None ∧ same_but_dedupe t t'
    ∧ ∃ dn', progress dn' t' (content s') ∧ (∀ o, In o dn → In o dn') ∧ ∀ x, In x xs → In x.1 dn')
    t c None s.
Proof.
  unfold apply_deliveries. induction xs as [|[o evt] xs IH]; intros dn t c s Hxs Hp; simpl.
  { apply wp2_ret. split_and!; [done|done|by destruct t|]. exists dn. split_and!; [done|done|by intros x []]. }
  destruct (Hxs (o, evt) ltac:(by left)) as [Ho Hevt]. simpl in Ho, Hevt.
  assert (Hxs' : delivers xs) by (intros x Hx; apply Hxs; by right).
  pose proof Hp as [Hnd Hsub Hknown Hb]. apply wp2_bind.
  destruct (lb_applied t (eid o)) eqn:E.
  - apply ApplyAcceptedGift_dup; [done|]. eapply wp2_mono; [by apply (IH dn)|].
    intros r t' c' v s' (-> & -> & Hsame & dn' & Hp' & Hmono & Hall). split_and!; [done..|].
    exists dn'. split_and!; [done|done|]. intros x [<-|Hx]; [|auto]. apply Hmono. by apply Hknown.
  - assert (Hnew : ¬ In o dn) by (rewrite <- Hknown by done; congruence).
    assert (Hnd' : base.NoDup (dn ++ [o])).
    { apply NoDup_app. split_and!; [done| |by apply NoDup_singleton].
      intros x Hx Hx'. apply list_elem_of_singleton in Hx' as ->. by apply Hnew, list_elem_of_In. }
    apply (ApplyAcceptedGift_wp Hquiet camp dn o); [done|done| |by apply Hids|done|].
    { apply (countable_sub os); [done|]. apply NoDup_submseteq; [done|].
      intros x Hx%list_elem_of_In. apply list_elem_of_In. apply in_app_or in Hx as [Hx|[<-|[]]]; auto. }
    intros ts s1 Hb1. eapply wp2_mono; [apply (IH (dn ++ [o])); [done|]|].
    + split; [done| | |done].
      * intros x Hx. apply in_app_or in Hx as [Hx|[<-|[]]]; auto.
      * intros x Hx. rewrite lb_applied_mark, orb_true_iff, Z.eqb_eq, in_app_iff, Hknown by done.
        simpl. split; [intros [Hx'|Hx']|intros [Hx'|[->|[]]]]; [by left| |by left|by right].
        right. left. symmetry. by apply Hinj.
    + intros r t' c' v s' (-> & -> & Hsame & dn' & Hp' & Hmono & Hall). split_and!; [done..| |].
      * unfold same_but_dedupe in *. rewrite Hsame. done.
      * exists dn'. split_and!; [done|intros x Hx; apply Hmono, in_or_app; by left|].
        intros x [<-|Hx]; [|auto]. apply Hmono, in_or_app. right. by left.
Qed.
End deliveries.

(** ** Deliveries and the rebuild *)

(** Every match has its orders in one session. *)
Definition matches_in_session (os : list GiftOrder) : Prop :=
  ∀ o o', In o os → In o' os → go_MatchID o ≠ None → go_MatchID o = go_MatchID o' →
    go_LiveSessionID o = go_LiveSessionID o'.

Lemma board_perm (p : GiftOrder → bool) name mk kf vf os os' :
  os ≡ₚ os' → board_value name mk (totals kf vf (where_ p os)) = board_value name mk (totals kf vf (where_ p os')).
Proof. intros Hos. by rewrite (totals_perm kf vf _ _ (where_perm p _ _ Hos)). Qed.

Lemma match_board_session os sid m :
  matches_in_session os → existsb (in_match m) (where_ (by_session sid) os) = true →
  match_board (where_ (by_session sid) os) m = match_board os m.
Proof.
  intros Hone He. unfold match_board. rewrite where_where. do 2 f_equal. apply where_ext. intros o Ho.
  apply existsb_exists in He as (o' & Ho' & Hm'). apply where_In in Ho' as [Ho' Hs'].
  apply bool_decide_eq_true in Hm'. unfold by_session in *. bool_to_prop.
  destruct (in_match m o) eqn:Em; [|apply andb_false_r]. apply bool_decide_eq_true in Em.
  rewrite (Hone o o') by (done || congruence). by rewrite Hs', Z.eqb_refl.
Qed.

(** A rebuild writes what the boards of all accepted orders already hold. *)
Lemma rebuilt_same t sid os st st' :
  os ≡ₚ accepted_orders t → matches_in_session (accepted_orders t) → countable os →
  is_uint64 sid → (∀ k, campaign_of t sid = Some k → is_uint64 k) →
  boards (campaign_of t) os st → rebuilt t sid st st' → st' = st.
Proof.
  intros Hos Hone Hc Hsid Hk [Bc Bk Bm] [Rc Rm Rk Rf]. apply map_eq. intros key.
  destruct (decide (key = contributorKey sid)) as [->|Hn1].
  { rewrite Rc, (Bc sid Hsid). symmetry. by apply board_perm. }
  destruct (decide (Exists (λ o, matchScoreKey <$> go_MatchID o = Some key)
    (where_ (by_session sid) (accepted_orders t)))) as [He|Hn2].
  { apply Exists_exists in He as (o & Ho%list_elem_of_In & Hkey).
    apply fmap_Some in Hkey as (m & Em & ->).
    assert (Hex : existsb (in_match m) (where_ (by_session sid) (accepted_orders t)) = true).
    { apply existsb_exists. exists o. split; [done|]. by apply bool_decide_eq_true_2. }
    rewrite Rm, match_board_session by done. rewrite (Bm m); [symmetry; by apply board_perm|].
    apply where_In in Ho as [Ho _].
    destruct (co_cols _ Hc o) as (_ & _ & Hb); [by rewrite Hos|]. rewrite Em in Hb. int_bounds. lia. }
  assert (Hm : ∀ m, existsb (in_match m) (where_ (by_session sid) (accepted_orders t)) = true →
    key ≠ matchScoreKey m).
  { intros m He ->. apply Hn2. apply existsb_exists in He as (o & Ho & Hm). apply bool_decide_eq_true in Hm.
    apply Exists_exists. exists o. split; [by apply list_elem_of_In|]. by rewrite Hm. }
  destruct (campaign_of t sid) as [k|] eqn:Ek.
  - destruct (decide (key = campaignKey k)) as [->|Hn3].
    + rewrite (Rk k eq_refl), (Bk k (Hk k eq_refl)). symmetry. by apply board_perm.
    + apply Rf; [done|done|]. by intros k' [= <-].
  - by apply Rf.
Qed.

Lemma boards_perm camp os os' st : os ≡ₚ os' → boards camp os st → boards camp os' st.
Proof.
  intros Hos [Bc Bk Bm].
  split; intros i Hi; [rewrite (Bc i Hi)|rewrite (Bk i Hi)|rewrite (Bm i Hi)]; by apply board_perm.
Qed.
