(* ===== verification/Runs.v ===== *)
(** * Runs of the operations

    The refinements of the components, read on runs of one connection: with any environment, and
    with a quiet one. *)

From S2P Require Import Prelude GoInt GoStrings Sha256 Json Schema Prog Sql Wp Events Ledger WellFormed Preserve Money Recharge Gift GiftSpec Invariants InternalEvents ReadModels Settlement Reconcile System.

Lemma idle_view (t : Tables) d : (view t <$> tx d) = None → idle d.
Proof. unfold idle. by destruct (tx d). Qed.

Section runs.
Context `{MySQLLaws} `{Unicode} `{ErrorText}.

Lemma SendGift_run F (env : Env) d req :
  (F = false → quiet env) → idle d → wf (tables d) (counters d) → gift_typed req →
  let r := run (SendGift req) d in
  idle r.2 ∧ ∃ ts1 ts2 ts3 ts4,
    settles F (Err ErrConn) (tables d) (counters d)
      (gift_atomic (tables d) (counters d) req ts1 ts2 ts3 ts4) r.1 (tables r.2) (counters r.2).
Proof.
  intros Hq Hi Hwf Hty.
  destruct (wp_run F env _ _ d Hq Hi (SendGift_refines F _ _ req Hwf Hty)) as [Hv Hs].
  split; [by eapply idle_view|done].
Qed.

Lemma SendGift_wf (env : Env) d req :
  idle d → wf (tables d) (counters d) → gift_typed req →
  let r := run (SendGift req) d in idle r.2 ∧ wf (tables r.2) (counters r.2).
Proof.
  intros Hi Hwf Hty.
  destruct (SendGift_run true env d req ltac:(done) Hi Hwf Hty) as (Hi' & ts1 & ts2 & ts3 & ts4 & Hs).
  split; [done|]. eapply wf_settles; [done|by apply gift_atomic_wf|done].
Qed.

Lemma Recharge_run F (env : Env) d req :
  (F = false → quiet env) → idle d → wf (tables d) (counters d) → recharge_typed req →
  let r := run (Recharge req) d in
  idle r.2 ∧ ∃ ts1 ts2 ts3,
    settles F (Err ErrConn) (tables d) (counters d)
      (recharge_atomic (tables d) (counters d) req ts1 ts2 ts3) r.1 (tables r.2) (counters r.2).
Proof.
  intros Hq Hi Hwf Hty.
  destruct (wp_run F env _ _ d Hq Hi (Recharge_refines F _ _ req Hwf Hty)) as [Hv Hs].
  split; [by eapply idle_view|done].
Qed.

Lemma Recharge_wf (env : Env) d req :
  idle d → wf (tables d) (counters d) → recharge_typed req →
  let r := run (Recharge req) d in idle r.2 ∧ wf (tables r.2) (counters r.2).
Proof.
  intros Hi Hwf Hty.
  destruct (Recharge_run true env d req ltac:(done) Hi Hwf Hty) as (Hi' & ts1 & ts2 & ts3 & Hs).
  split; [done|]. eapply wf_settles; [done|by apply recharge_atomic_wf|done].
Qed.

Lemma Close_run F (env : Env) d sid :
  (F = false → quiet env) → idle d → is_uint64 sid →
  let r := run (CloseLiveSession sid) d in
  idle r.2 ∧ ∃ ts0 ts1 ts2,
    settles F (Some (errInternal ErrConn)) (tables d) (counters d)
      (close_atomic (tables d) (counters d) sid ts0 ts1 ts2) r.1 (tables r.2) (counters r.2).
Proof.
  intros Hq Hi Hid.
  destruct (wp_run F env _ _ d Hq Hi (CloseLiveSession_refines F _ _ sid Hid)) as [Hv Hs].
  split; [by eapply idle_view|done].
Qed.

Lemma Settle_run F (env : Env) d sid :
  (F = false → quiet env) → idle d →
  let r := run (GenerateSettlement sid) d in
  idle r.2 ∧ ∃ ts1 ts2,
    settles F (RErr ErrConn) (tables d) (counters d)
      (settle_atomic (tables d) (counters d) sid ts1 ts2) r.1 (tables r.2) (counters r.2).
Proof.
  intros Hq Hi.
  destruct (wp_run F env _ _ d Hq Hi (GenerateSettlement_refines F _ _ sid)) as [Hv Hs].
  split; [by eapply idle_view|done].
Qed.
End runs.

(** In a quiet environment an operation has exactly its effect. *)
Lemma settles_quiet {A} (failed : A) t c a x t' c' :
  settles false failed t c a x t' c' → x = a.1.1 ∧ t' = a.1.2 ∧ counters_le a.2 c'.
Proof. by intros [?|(? & _)]. Qed.

(** ** What a request leaves behind *)

Section stored.
Context `{MySQLLaws} `{Unicode}.

(** Once an order is stored, a later request with its key is answered from it. *)
Lemma gift_atomic_stored t c req o ts1 ts2 ts3 ts4 :
  gift_invalid req = None → stored_order t req = Some o →
  gift_atomic t c req ts1 ts2 ts3 ts4
  = (if bytesEqual (go_BodyHash o) (gift_hash req) then stored_response o
     else App errPayloadMismatch, t, c).
Proof. intros Hval Ho. unfold gift_atomic. by rewrite Hval, Ho. Qed.

Lemma stored_order_added t t' req o :
  stored_order t req = None → gift_orders t' = gift_orders t ++ [o] →
  go_ViewerID o = gq_ViewerID req → go_RequestID o = gq_RequestID req →
  stored_order t' req = Some o.
Proof.
  unfold stored_order. intros Hnew Ht Hv Hr. rewrite Ht, find_app, Hnew. simpl.
  unfold same_gift_order. by rewrite Hv, Hr, Z.eqb_refl, coll_eq_refl.
Qed.

(** The order an accepted or rejected request stored. *)
Lemma accept_stored t c req ch ts1 ts2 ts3 ts4 :
  stored_order t req = None →
  stored_order (accept_commit t c req ch ts1 ts2 ts3 ts4) req = Some (gift_order_row c req ch ts2).
Proof. intros Hnew. by eapply stored_order_added. Qed.

Lemma reject_stored t c req code status base ts1 ts2 :
  stored_order t req = None → gift_decide t req = DReject code status base →
  stored_order (reject_commit c req code base ts1 ts2) req
  = Some (with_order_id (rejected_order req code (gift_hash req) ts1) (next_gift_order_id c)).
Proof.
  intros Hnew Hd. eapply stored_order_added; [exact Hnew|..]; [|done|done].
  by apply gift_decide_reject in Hd as [->|[-> _]].
Qed.

(** The codes and statuses of the policy. *)
Lemma gift_decide_codes t req code status base :
  gift_decide t req = DReject code status base →
  In (code, status)
    [("LIVE_SESSION_NOT_FOUND", 404); ("LIVE_SESSION_CLOSED", 409); ("GIFT_NOT_FOUND", 404);
     ("CREATOR_NOT_ELIGIBLE", 403); ("MATCH_CLOSED", 409); ("INSUFFICIENT_BALANCE", 409)].
Proof.
  unfold gift_decide, charge_decision. intros Hd.
  repeat (case_match; simplify_eq; simpl; auto 10).
Qed.
End stored.

(** ** What the outcome says of the effect *)

Section effects.
Context `{MySQLLaws} `{Unicode}.

(** No money moved between two databases. *)
Definition same_money (t t' : Tables) : Prop :=
  wallet_transactions t' = wallet_transactions t ∧ wallet_entries t' = wallet_entries t
  ∧ recharge_requests t' = recharge_requests t ∧ ∀ u, balance_of t' u = balance_of t u.

Lemma same_money_refl t : same_money t t.
Proof. done. Qed.

Lemma create_wallet_same_money u t : same_money t (create_wallet u t).
Proof.
  split_and!; try done. intros v. unfold balance_of, create_wallet. simpl.
  destruct (wallet_accounts t !! u) eqn:E; [done|].
  destruct (decide (v = u)) as [->|Hne]; [by rewrite lookup_insert_eq, E|by rewrite lookup_insert_ne].
Qed.

Lemma reject_same_money t c req code status base ts1 ts2 :
  gift_decide t req = DReject code status base →
  same_money t (reject_commit c req code base ts1 ts2).
Proof.
  intros Hd. apply gift_decide_reject in Hd as [->|[-> _]]; [done|].
  apply (create_wallet_same_money (gq_ViewerID req)).
Qed.

(** The cases of a gift, by their outcome. *)
Lemma gift_atomic_created t c req ts1 ts2 ts3 ts4 resp :
  (gift_atomic t c req ts1 ts2 ts3 ts4).1.1 = Ok resp → gs_Idempotency resp = "created" →
  gift_invalid req = None ∧ stored_order t req = None ∧ accept_error t c req = None
  ∧ ∃ ch, gift_decide t req = DAccept ch ∧ resp = gift_created c ch
          ∧ gift_atomic t c req ts1 ts2 ts3 ts4
            = (Ok resp, accept_commit t c req ch ts1 ts2 ts3 ts4,
               bump_event_id (bump_event_id (bump_gift_order_id (bump_tx_id c)))).
Proof.
  unfold gift_atomic. intros Hout Hcr. destruct (gift_invalid req); [done|].
  destruct (stored_order t req) as [o|].
  { simpl in Hout. destruct (bytesEqual _ _); [|done]. unfold stored_response in Hout.
    by destruct (go_Status o); simplify_eq/=. }
  destruct (gift_decide t req); [done|by destruct (reject_error c req)|].
  destruct (accept_error t c req); [done|]. simpl in Hout. simplify_eq. eauto 10.
Qed.

Lemma gift_atomic_app t c req ts1 ts2 ts3 ts4 e :
  (gift_atomic t c req ts1 ts2 ts3 ts4).1.1 = App e →
  same_money t (gift_atomic t c req ts1 ts2 ts3 ts4).1.2.
Proof.
  unfold gift_atomic. intros Hout. destruct (gift_invalid req); [done|].
  destruct (stored_order t req); [done|]. destruct (gift_decide t req) eqn:Hd; [done|..].
  - destruct (reject_error c req); [done|]. by eapply reject_same_money.
  - by destruct (accept_error t c req).
Qed.

Lemma gift_atomic_err t c req ts1 ts2 ts3 ts4 e :
  (gift_atomic t c req ts1 ts2 ts3 ts4).1.1 = Err e →
  (gift_atomic t c req ts1 ts2 ts3 ts4).1.2 = t.
Proof.
  unfold gift_atomic. intros Hout. destruct (gift_invalid req); [done|].
  destruct (stored_order t req); [done|]. destruct (gift_decide t req); [done|..].
  - by destruct (reject_error c req).
  - by destruct (accept_error t c req).
Qed.

(** Either nothing was stored, or the request now has an order and running it again is a replay. *)
Lemma gift_atomic_once t c req ts1 ts2 ts3 ts4 c' ts1' ts2' ts3' ts4' :
  let t1 := (gift_atomic t c req ts1 ts2 ts3 ts4).1.2 in
  t1 = t ∨ (gift_atomic t1 c' req ts1' ts2' ts3' ts4').1.2 = t1.
Proof.
  cbv zeta. unfold gift_atomic at 1 3 4. destruct (gift_invalid req) eqn:Hval; [by left|].
  destruct (stored_order t req) eqn:Hnew; [by left|].
  destruct (gift_decide t req) eqn:Hd; [by left|..].
  - destruct (reject_error c req); [by left|]. right. simpl.
    erewrite gift_atomic_stored; [done|done|by eapply reject_stored].
  - destruct (accept_error t c req); [by left|]. right. simpl.
    erewrite gift_atomic_stored; [done|done|by apply accept_stored].
Qed.

(** The same answer, given again. *)
Definition replayed (resp : GiftResponse) : GiftResponse :=
  {| gs_GiftOrderID := gs_GiftOrderID resp; gs_Accepted := true;
     gs_ChargedCoins := gs_ChargedCoins resp; gs_MatchPointsAdded := gs_MatchPointsAdded resp;
     gs_DiamondReward := gs_DiamondReward resp; gs_NewBalance := gs_NewBalance resp;
     gs_Idempotency := "replayed" |}.

(** A successful answer, created or replayed, is kept in an order under its request. *)
Lemma gift_atomic_kept t c req ts1 ts2 ts3 ts4 resp :
  wf t c → (gift_atomic t c req ts1 ts2 ts3 ts4).1.1 = Ok resp →
  gift_invalid req = None ∧ ∃ o, stored_order (gift_atomic t c req ts1 ts2 ts3 ts4).1.2 req = Some o
    ∧ go_BodyHash o = gift_hash req ∧ stored_response o = Ok (replayed resp).
Proof.
  intros Hwf. unfold gift_atomic. destruct (gift_invalid req) eqn:Hval; [done|].
  destruct (stored_order t req) as [o|] eqn:Hnew.
  - simpl. destruct (bytesEqual _ _) eqn:Hb; [|done]. intros Ho. split; [done|]. exists o.
    split; [done|]. split; [by apply bytesEqual_spec|].
    unfold stored_response in *. by destruct (go_Status o); simplify_eq/=.
  - destruct (gift_decide t req) as [| |ch] eqn:Hd; [done|by destruct (reject_error c req)|].
    destruct (accept_error t c req); [done|]. intros [= <-]. split; [done|].
    eexists. split; [by apply accept_stored|]. split; [done|].
    destruct (acceptable_charge _ _ _ _ Hwf Hval Hd) as (_ & _ & _ & Hc & Hm & Hdi).
    unfold stored_response, replayed. simpl. by rewrite Hc, Hm, Hdi.
Qed.

(** A refusal has a status of the 4xx range. *)
Lemma gift_atomic_refusal t c req ts1 ts2 ts3 ts4 e :
  (gift_atomic t c req ts1 ts2 ts3 ts4).1.1 = App e → 400 ≤ HTTPStatus e < 500.
Proof.
  unfold gift_atomic. destruct (gift_invalid req) as [e'|] eqn:Hval.
  { intros [= <-]. unfold gift_invalid in Hval. repeat (case_match; simplify_eq); done. }
  destruct (stored_order t req) as [o|].
  { simpl. destruct (bytesEqual _ _); [|by intros [= <-]]. unfold stored_response.
    destruct (go_Status o); [done|]. intros [= <-]. unfold mapRejectCodeToAppError.
    repeat case_match; done. }
  destruct (gift_decide t req) as [|code status base|ch] eqn:Hd; [done| |by destruct (accept_error t c req)].
  destruct (reject_error c req); [done|]. intros [= <-]. simpl. apply gift_decide_codes in Hd.
  repeat destruct Hd as [[= <- <-]|Hd]; done.
Qed.

(** An order is found again in every later database. *)
Lemma stored_order_later t t' c' req o :
  wf t' c' → (∀ o, In o (gift_orders t) → In o (gift_orders t')) →
  stored_order t req = Some o → stored_order t' req = Some o.
Proof.
  intros Hwf Hkept Ho. apply List.find_some in Ho as [Hin Hsame].
  destruct (stored_order t' req) as [o'|] eqn:Ho'.
  - apply List.find_some in Ho' as [Hin' Hsame']. f_equal.
    apply (unique_key_inj gift_order_key (gift_orders t')); [apply (wf_order_uq _ _ Hwf)|done|auto|].
    unfold same_gift_order, coll_eq, gift_order_key in *. bool_to_prop. congruence.
  - by rewrite (List.find_none _ _ Ho' o (Hkept o Hin)) in Hsame.
Qed.
End effects.
