(* ===== verification/Lab.v ===== *)
(** * The lab database

    The seed of src/migrations/00002_seed.sql as tables, with one server that satisfies the
    documented behaviour the development relies on: an instance of every hypothesis, on which the
    theorems can be evaluated. *)

From stdpp Require Import sorting.
From S2P Require Import Prelude GoInt GoStrings Json JsonDecode JsonRoundtrip Schema Prog Sql Wp Events Ledger WellFormed Preserve Money Recharge Gift GiftSpec Invariants InternalEvents ReadModels Settlement Reconcile System Wp2 Relay.

(** ** A server *)

#[export] Instance lab_mysql : MySQL := {
  coll_key := ToLower;
  varchar_fits n s := Z.of_nat (String.length s) <=? n;
  json_store s := Some s;
  like := like_match }.

#[export] Instance lab_mysql_laws : MySQLLaws.
Proof.
  split.
  - done.
  - intros n s _ Hl. simpl. lia.
  - done.
  - intros j _. by exists (marshal j).
  - intros l doc Hl _ _ [= <-]. eexists. split; [by apply json_parse_flat|done].
Qed.

#[export] Instance lab_unicode : Unicode := { same_fold _ _ := false }.

#[export] Instance lab_errors : ErrorText := λ e,
  match e with
  | ErrNoRows => "sql: no rows in result set"
  | ErrText msg => msg
  | _ => "error"
  end.

(** No call fails; the clock counts the calls. *)
#[export] Instance lab_env : Env := {| clock n := Z.of_nat n; fault _ := FaultNone |}.

Lemma lab_quiet : quiet lab_env.
Proof. done. Qed.

(** ** The seed *)

Definition seed_user (id age : Z) (region : string) (ty : UsersAccountType) : Z * User :=
  (id, {| u_UserID := id; u_AgeYears := age; u_RegionCode := region;
          u_AccountStanding := UsersAccountStandingGOOD; u_CanGoLive := true;
          u_LiveGiftsEnabled := true; u_AccountType := ty |}).

Definition seed_gift (id name : string) (v : Z) : GiftCatalog :=
  {| gc_GiftID := id; gc_DisplayName := name; gc_CoinPrice := v; gc_MatchPoints := v;
     gc_DiamondReward := v; gc_Enabled := true |}.

Definition seed_wallet (id balance : Z) : Z * WalletAccount :=
  (id, {| wa_UserID := id; wa_Currency := WalletAccountsCurrencyCOIN; wa_AvailableBalance := balance |}).

Definition seed_session (id creator : Z) (campaign : option Z) : Z * LiveSession :=
  (id, {| ls_LiveSessionID := id; ls_CreatorID := creator; ls_CampaignID := campaign;
          ls_Status := LiveSessionsStatusOPEN; ls_StartedAt := 0; ls_ClosedAt := None |}).

Definition seed_match (id sid : Z) (mode : LiveMatchesMode) (gift : option string) : Z * LiveMatch :=
  (id, {| lm_MatchID := id; lm_LiveSessionID := sid; lm_Mode := mode; lm_SpecificGiftID := gift;
          lm_Status := LiveMatchesStatusOPEN |}).

Definition seed_tables : Tables := {|
  users := list_to_map [
    seed_user 1001 25 "US" UsersAccountTypeNORMAL; seed_user 1002 27 "US" UsersAccountTypeNORMAL;
    seed_user 2001 30 "US" UsersAccountTypeNORMAL; seed_user 2002 28 "US" UsersAccountTypeNORMAL;
    seed_user 3001 17 "US" UsersAccountTypeNORMAL; seed_user 3002 20 "KR" UsersAccountTypeNORMAL;
    seed_user 3003 19 "KR" UsersAccountTypeNORMAL; seed_user 4001 42 "US" UsersAccountTypeGOVERNMENT];
  live_sessions := list_to_map [seed_session 9001 1001 (Some 7001); seed_session 9002 1002 None];
  live_matches := list_to_map [
    seed_match 8001 9001 LiveMatchesModeALLGIFTS None;
    seed_match 8002 9002 LiveMatchesModeSPECIFICGIFT (Some "ROSE")];
  gift_catalog := [
    seed_gift "ROSE" "Rose" 1; seed_gift "HEART" "Heart" 5; seed_gift "GG" "GG" 10;
    seed_gift "DONUT" "Donut" 30; seed_gift "COFFEE" "Coffee" 50; seed_gift "CLOUD" "Cloud" 99;
    seed_gift "PERFUME" "Perfume" 199; seed_gift "RING" "Ring" 299;
    seed_gift "FIREWORK" "Firework" 399; seed_gift "DRUM" "Drum" 499;
    seed_gift "CASTLE" "Castle" 999; seed_gift "LION" "Lion" 1999];
  wallet_accounts := list_to_map [
    seed_wallet 1001 50000; seed_wallet 1002 50000; seed_wallet 2001 1000; seed_wallet 2002 1000];
  wallet_transactions := []; wallet_entries := []; recharge_requests := []; gift_orders := [];
  outbox_events := []; consumer_dedupe := []; fan_point_ledger := []; campaign_point_ledger := [];
  stream_settlements := ∅; reconciliation_results := ∅ |}.

Definition seed_counters : Counters :=
  {| next_tx_id := 1; next_gift_order_id := 1; next_event_id := 1 |}.

(** The balances the seed opens with. *)
Definition seed_opening (u : Z) : Z := balance_of seed_tables u.

Definition lab : Db :=
  {| tables := seed_tables; counters := seed_counters; tick := 0; tx := None |}.

Lemma lookup_list_to_map_In {A} (l : list (Z * A)) k x :
  (list_to_map l : gmap Z A) !! k = Some x → In (k, x) l.
Proof. intros Hl. apply list_elem_of_In. by apply elem_of_list_to_map_2. Qed.

Lemma seed_wf : wf seed_tables seed_counters.
Proof.
  split; try solve [simpl; done || lia | apply List.NoDup_nil].
  - intros u a Ha. apply lookup_list_to_map_In in Ha.
    repeat destruct Ha as [[= <- <-]|Ha]; done.
  - intros u a Ha. apply lookup_list_to_map_In in Ha.
    repeat destruct Ha as [[= <- <-]|Ha]; try done; simpl; int_bounds; lia.
  - intros g Hg. repeat destruct Hg as [<-|Hg]; try done; simpl; int_bounds; lia.
  - intros i s k Hs Hk. apply lookup_list_to_map_In in Hs.
    repeat destruct Hs as [[= <- <-]|Hs]; try done. simpl in Hk. simplify_eq. int_bounds. lia.
Qed.

Lemma seed_opening_range u : 0 ≤ seed_opening u ≤ 50000.
Proof.
  unfold seed_opening, balance_of. destruct (wallet_accounts seed_tables !! u) as [a|] eqn:Ea; [|lia].
  apply lookup_list_to_map_In in Ea. repeat destruct Ea as [[= <- <-]|Ea]; try done; simpl; lia.
Qed.

Lemma seed_ledger : ledger_ok seed_opening seed_tables.
Proof.
  split; simpl; try done; intros u Hu; change (user_total seed_tables u) with 0;
    pose proof (seed_opening_range u).
  - rewrite Z.add_0_r, int64_id by (int_bounds; lia). done.
  - intros _ _. lia.
Qed.

Lemma lab_ok : service_ok seed_opening lab.
Proof. split; [done|]. split; [apply seed_wf|apply seed_ledger]. Qed.

(** ** A broker and an order of the outbox *)

#[export] Instance lab_kafka : KafkaEnv := λ _, FaultNone.

#[export] Instance older_dec x y : Decision (older x y).
Proof. unfold older. apply _. Defined.
#[export] Instance older_total : Total older.
Proof. intros x y. unfold older. lia. Qed.
#[export] Instance older_trans : Transitive older.
Proof. intros x y z. unfold older. lia. Qed.

#[export] Instance lab_order : OutboxOrder := merge_sort older.

#[export] Instance lab_order_laws : OutboxOrderLaws.
Proof.
  split; intros l; [apply merge_sort_Permutation|apply StronglySorted_merge_sort; apply _].
Qed.

Definition lab_topic : Kafka := {| k_log := []; k_tick := 0 |}.

(** ** Requests *)

Definition lab_recharge : RechargeRequest :=
  {| rc_RequestID := "r-1"; rc_ViewerID := 2001; rc_Coins := 500; rc_PaymentRef := "pay-1" |}.

(** 2001 sends ten roses to 1001. *)
Definition lab_gift : GiftRequest :=
  {| gq_RequestID := "g-1"; gq_ViewerID := 2001; gq_CreatorID := 1001; gq_LiveSessionID := 9001;
     gq_MatchID := Some 8001; gq_GiftID := "ROSE"; gq_Quantity := 10; gq_SentAtMS := 1000 |}.

Lemma lab_recharge_typed : recharge_typed lab_recharge.
Proof. split; int_bounds; simpl; lia. Qed.

Lemma lab_gift_typed : gift_typed lab_gift.
Proof. unfold gift_typed. int_bounds. simpl. lia. Qed.

(** ** A reachable database *)

(** The lab after a recharge and a gift. *)
Definition lab_after : Db := (run (SendGift lab_gift) (run (Recharge lab_recharge) lab).2).2.

Lemma op_run (env : Env) `{MySQLLaws} `{Unicode} `{ErrorText} {A} (p : prog SqlE A) op d :
  op_prog op = pbind p (λ _, Ret tt) → op_typed op → service_step d (run p d).2.
Proof.
  intros Hp Hty. replace (run p d).2 with (run (op_prog op) d).2.
  - by apply service_op_step.
  - rewrite Hp, run_bind. done.
Qed.

Lemma lab_after_reachable : rtc service_step lab lab_after.
Proof.
  eapply rtc_l; [|eapply rtc_l; [|apply rtc_refl]].
  - apply (op_run lab_env (Recharge lab_recharge) (OpRecharge lab_recharge)); [done|].
    apply lab_recharge_typed.
  - apply (op_run lab_env (SendGift lab_gift) (OpSendGift lab_gift)); [done|apply lab_gift_typed].
Qed.
