(* ===== verification/Rankings.v ===== *)
(** * The leaderboards

    The properties of src/internal/projector/leaderboard/projector.go: what a rebuild leaves in Redis,
    that deliveries and a rebuild agree, and what a failure of Redis costs; with a Redis server on
    which they can be evaluated. *)

From stdpp Require Import sorting.
From S2P Require Import Prelude GoInt GoStrings Sha256 Json JsonDecode JsonRoundtrip Schema Prog Sql Wp Events Ledger WellFormed Preserve Money Recharge Gift GiftSpec Invariants InternalEvents Decode ReadModels Settlement Reconcile System Points Redis Wp2 Relay Consumers Leaderboard Board Rebuild BoardEvents Lab.

(** ** A Redis server *)

Definition lab_redis_handle : Handler RedisE Store := λ R e st,
  match e in RedisE R return R * Store with
  | EWrite c =>
      match redis_effect c st with
      | Some st' => (ROk tt, st')
      | None => (RErr (ErrText "WRONGTYPE"), st)
      end
  | EZRevRangeWithScores key start stop =>
      (ROk (take (Z.to_nat (stop + 1)) (merge_sort zrev (map_to_list (zset st key)))), st)
  end.

#[export] Instance lab_redis : Redis Store := { redis_handler := lab_redis_handle; content := id }.

#[export] Instance lab_redis_laws : RedisLaws Store.
Proof.
  split.
  - intros c st. unfold content, handle. simpl. unfold lab_redis_handle.
    unfold id. destruct (redis_effect c st); [by left|]. split; [|done]. by eexists.
  - intros key stop st Hstop. split; [done|]. right. eexists. split; [|done].
    split; [apply merge_sort_Permutation|apply StronglySorted_merge_sort; apply _].
Qed.

Lemma lab_redis_quiet : redis_quiet Store.
Proof.
  split.
  - intros c st [st' E]. unfold handle. simpl. unfold lab_redis_handle, content in *. simpl in *.
    unfold id in E. by rewrite E.
  - intros key start stop st. by eexists.
Qed.

#[export] Instance lab_map_order : MapOrder := λ A m, map_to_list m.

#[export] Instance lab_map_order_laws : MapOrderLaws.
Proof. intros A m. reflexivity. Qed.

(** ** The rebuild *)

Definition campaign_fits (ses : LiveSession) : Prop :=
  match ls_CampaignID ses with Some k => 0 ≤ k ≤ max_int64 | None => True end.

(** C35. A rebuild is exact. On a database and a Redis server that answer, whatever Redis held before,
    RebuildLiveSession succeeds, writes nothing to MySQL, and leaves in the contributor set of the
    session the coins of its accepted gifts per viewer, in the hash of each of its matches the points
    per creator, and in the set of its campaign the coins per creator over all sessions of the
    campaign; no other key changes. The totals are exact as long as they stay within 2^53. *)
Theorem rebuild_exact `{MySQL} `{MapOrderLaws} {S : Type} `{RedisLaws S} (env : Env) d (s : S) sid ses :
  quiet env → redis_quiet S → idle d → live_sessions (tables d) !! sid = Some ses →
  campaign_fits ses → countable (accepted_orders (tables d)) →
  let r := run (RebuildLiveSession sid) (d, s) in
  r.1 = None ∧ tables r.2.1 = tables d ∧ rebuilt (tables d) sid (content s) (content r.2.2).
Proof.
  intros Hq Hr Hi Hses Hk Hc r.
  apply (wp2_run false env (RebuildLiveSession sid)
    (λ r t' c' v s', r = None ∧ t' = tables d ∧ rebuilt (tables d) sid (content s) (content s')) d s
    (λ _, Hq) Hi).
  by apply (RebuildLiveSession_wp Hr sid ses).
Qed.

(** The store as it was before: a wrong kind of value, and another session's board. *)
Definition lab_store : Store :=
  {["lb:contributors:9001" := Hash {["stale" := 7]}; "lb:contributors:9002" := ZSet {["2002" := 3]}]}.

Lemma lab_after_countable : countable (accepted_orders (tables lab_after)).
Proof.
  assert (Hrows : map (λ o, (go_ViewerID o, go_CreatorID o, go_ChargedCoins o, go_MatchPointsAdded o, go_MatchID o))
    (accepted_orders (tables lab_after)) = [(2001, 1001, 10, 10, Some 8001)]) by (vm_compute; reflexivity).
  destruct (accepted_orders (tables lab_after)) as [|o [|o' l]]; try done. injection Hrows as Hv Hcr Hc Hp Hm.
  split; simpl.
  - intros x [<-|[]]. rewrite Hm. int_bounds. lia.
  - intros x [<-|[]]. int_bounds. lia.
  - unfold f64_exact. lia.
  - int_bounds. lia.
Qed.

Definition lab_session : LiveSession :=
  {| ls_LiveSessionID := 9001; ls_CreatorID := 1001; ls_CampaignID := Some 7001;
     ls_Status := LiveSessionsStatusOPEN; ls_StartedAt := 0; ls_ClosedAt := None |}.

Lemma rebuild_exact_witness :
  (run (RebuildLiveSession 9001) (lab_after, lab_store)).2.2
  = {["lb:contributors:9001" := ZSet {["2001" := 10]}; "match:score:8001" := Hash {["creator_1001_points" := 10]};
      "lb:campaign:7001" := ZSet {["1001" := 10]}; "lb:contributors:9002" := ZSet {["2002" := 3]}]}
  ∧ rebuilt (tables lab_after) 9001 (content lab_store)
      (content (run (RebuildLiveSession 9001) (lab_after, lab_store)).2.2).
Proof.
  split; [vm_compute; reflexivity|].
  assert (Hi : idle lab_after) by (vm_compute; reflexivity).
  assert (Hses : live_sessions (tables lab_after) !! 9001 = Some lab_session) by (vm_compute; reflexivity).
  assert (Hk : campaign_fits lab_session) by (unfold campaign_fits; simpl; int_bounds; lia).
  destruct (rebuild_exact lab_env lab_after lab_store 9001 lab_session lab_quiet lab_redis_quiet
    Hi Hses Hk lab_after_countable) as (_ & _ & Hr).
  exact Hr.
Defined.

(** ** Deliveries *)

(** C36. Deliveries and a rebuild give the same leaderboards. From an empty Redis, the events of all
    accepted gifts, delivered in any order and each at least once, leave exactly the boards that a
    rebuild of any session would write: the rebuild then changes no key. *)
Theorem deliveries_are_rebuild `{MySQLLaws} `{MapOrderLaws} {S : Type} `{RedisLaws S} (env : Env) d (s : S)
    (eid : GiftOrder → Z) xs sid ses :
  let t := tables d in let os := accepted_orders t in
  quiet env → redis_quiet S → idle d → content s = ∅ →
  (∀ o, In o os → lb_applied t (eid o) = false) → unique_key eid os →
  countable os → (∀ o, In o os → board_ids (campaign_of t) o) → matches_in_session os →
  delivers (campaign_of t) os xs → (∀ o, In o os → ∃ evt, In (o, evt) xs) →
  is_uint64 sid → live_sessions t !! sid = Some ses → campaign_fits ses →
  let r := run (apply_deliveries eid xs) (d, s) in
  let r' := run (RebuildLiveSession sid) r.2 in
  r.1 = None ∧ boards (campaign_of t) os (content r.2.2) ∧ r'.1 = None ∧ content r'.2.2 = content r.2.2.
Proof.
  intros t os Hq Hr Hi Hempty Hnone Huq Hc Hids Hone Hxs Hall Hsid Hses Hk r r'.
  assert (Hnd : base.NoDup os) by (apply NoDup_ListNoDup; by eapply NoDup_map_inv).
  assert (Hstart : progress (campaign_of t) eid os [] (tables d) (content s)).
  { split; [constructor|by intros o []|intros o Ho; by rewrite Hnone|]. rewrite Hempty.
    split; intros i Hi'; done. }
  pose proof (deliveries_wp Hr (campaign_of t) eid os (λ o o', unique_key_inj eid os o o' Huq) Hc Hids xs [] _
    (counters d) s Hxs Hstart) as Hw.
  pose proof (wp2_run false env _ _ d s (λ _, Hq) Hi Hw) as Hpost. cbv zeta in Hpost. fold r in Hpost.
  destruct r as [r1 [d1 s1]]. simpl in *. destruct Hpost as (-> & Hidle & Hsame & dn & Hp & _ & Hin).
  assert (Hperm : dn ≡ₚ os).
  { apply NoDup_Permutation; [apply Hp|done|]. intros o. rewrite !list_elem_of_In. split; [apply Hp|].
    intros Ho. destruct (Hall o Ho) as [evt Hevt]. by apply (Hin (o, evt)). }
  assert (Hb : boards (campaign_of t) os (content s1)) by (by eapply boards_perm, Hp).
  assert (Hid1 : idle d1) by (unfold idle; by destruct (tx d1)).
  assert (Ho1 : accepted_orders (tables d1) = os) by (by rewrite Hsame).
  assert (Hc1 : campaign_of (tables d1) = campaign_of t) by (by rewrite Hsame).
  pose proof (wp2_run false env (RebuildLiveSession sid)
    (λ r _ _ _ s', r = None ∧ rebuilt (tables d1) sid (content s1) (content s')) d1 s1 (λ _, Hq) Hid1) as Hre.
  destruct Hre as [Hr1 Hr2].
  { apply (RebuildLiveSession_wp Hr sid ses); [by rewrite Hsame|done|by rewrite Ho1|done]. }
  fold r' in Hr1, Hr2. split_and!; [done..|].
  apply (rebuilt_same (tables d1) sid os); rewrite ?Ho1, ?Hc1; try done.
  intros k. unfold campaign_of. fold t in Hses. rewrite Hses. simpl. intros Hk'.
  unfold campaign_fits in Hk. rewrite Hk' in Hk. int_bounds. lia.
Qed.

Definition lab_order_1 : GiftOrder :=
  {| go_GiftOrderID := 1; go_ViewerID := 2001; go_CreatorID := 1001; go_LiveSessionID := 9001;
     go_MatchID := Some 8001; go_GiftID := "ROSE"; go_Quantity := 10; go_ChargedCoins := 10;
     go_MatchPointsAdded := 10; go_DiamondReward := 10; go_PostBalance := Some 1490;
     go_Status := GiftOrdersStatusACCEPTED; go_RejectCode := None; go_RequestID := "g-1";
     go_BodyHash := match gift_orders (tables lab_after) with o :: _ => go_BodyHash o | [] => [] end;
     go_CreatedAt := match gift_orders (tables lab_after) with o :: _ => go_CreatedAt o | [] => 0 end |}.

Definition lab_event_1 : LiveGiftAcceptedV1 :=
  {| ga_EventType := giftAcceptedTopic; ga_GiftOrderID := 1; ga_ViewerID := 2001; ga_CreatorID := 1001;
     ga_LiveSessionID := 9001; ga_CampaignID := Some 7001; ga_MatchID := Some 8001; ga_GiftID := "ROSE";
     ga_Quantity := 10; ga_ChargedCoins := 10; ga_MatchPoints := 10; ga_DiamondReward := 10;
     ga_RequestID := "g-1" |}.

Lemma lab_accepted : accepted_orders (tables lab_after) = [lab_order_1].
Proof. vm_compute. reflexivity. Qed.

(** The event of the lab's gift, delivered twice. *)
Definition lab_deliveries : list (GiftOrder * LiveGiftAcceptedV1) :=
  [(lab_order_1, lab_event_1); (lab_order_1, lab_event_1)].

Lemma deliveries_are_rebuild_witness :
  let r := run (apply_deliveries go_GiftOrderID lab_deliveries) (lab_after, (∅ : Store)) in
  content (run (RebuildLiveSession 9001) r.2).2.2 = content r.2.2.
Proof.
  assert (Hi : idle lab_after) by (vm_compute; reflexivity).
  assert (Hses : live_sessions (tables lab_after) !! 9001 = Some lab_session) by (vm_compute; reflexivity).
  assert (Hk : campaign_fits lab_session) by (unfold campaign_fits; simpl; int_bounds; lia).
  assert (Hcamp : campaign_of (tables lab_after) 9001 = Some 7001) by (vm_compute; reflexivity).
  pose proof lab_after_countable as Hc.
  pose proof (deliveries_are_rebuild lab_env lab_after (∅ : Store) go_GiftOrderID lab_deliveries 9001
    lab_session) as Hth. cbv zeta in Hth. rewrite lab_accepted in *.
  assert (Hd : delivers (campaign_of (tables lab_after)) [lab_order_1] lab_deliveries).
  { intros x [<-|[<-|[]]]; (split; [by left|]); (split; try done); simpl; by rewrite Hcamp. }
  assert (Hnew : ∀ o, In o [lab_order_1] → lb_applied (tables lab_after) (go_GiftOrderID o) = false).
  { intros o [<-|[]]. vm_compute. reflexivity. }
  assert (Hids : ∀ o, In o [lab_order_1] → board_ids (campaign_of (tables lab_after)) o).
  { intros o [<-|[]]. unfold board_ids. change (go_LiveSessionID lab_order_1) with 9001.
    rewrite Hcamp. int_bounds. lia. }
  assert (Hone : matches_in_session [lab_order_1]) by (by intros o o' [<-|[]] [<-|[]]).
  assert (Hall : ∀ o, In o [lab_order_1] → ∃ evt, In (o, evt) lab_deliveries).
  { intros o [<-|[]]. exists lab_event_1. by left. }
  assert (Huq : unique_key go_GiftOrderID [lab_order_1]).
  { apply List.NoDup_cons; [by intros []|apply List.NoDup_nil]. }
  assert (Hsid : is_uint64 9001) by (int_bounds; lia).
  destruct (Hth lab_quiet lab_redis_quiet Hi eq_refl Hnew Huq Hc Hids Hone Hd Hall Hsid Hses Hk)
    as (_ & _ & _ & Hr).
  exact Hr.
Defined.

(** ** Failures of Redis *)

(** A known event never reaches Redis, whatever fails. *)
Lemma known_event_skips `{MySQLLaws} {S : Type} `{RedisLaws S} F event evt t c (s : S) :
  lb_applied t event = true →
  wp2 F (ApplyAcceptedGift event evt) (λ r t' c' v s', t' = t ∧ v = None ∧ s' = s ∧ (F = false → r = None))
    t c None s.
Proof.
  intros Hdup. apply lb_dedupe_wp.
  - intros ->. done.
  - intros -> v. by apply wp2_ret.
  - intros _. simpl. apply wp2_try, wp2_sql, wp_commit; [intros ->; done..|]. by apply wp2_ret.
  - by rewrite Hdup.
Qed.

(** C37. A gift whose write to Redis fails is lost to the leaderboards. The event is recorded as
    applied before Redis is written, so when the first command is refused the call returns the error
    with the event already marked; every later delivery of it, on any database connection, leaves
    Redis as it is, and is answered without error as soon as the database answers. *)
Theorem refused_update_lost `{MySQLLaws} {S : Type} `{RedisLaws S} (env : Env) d (s : S) event evt err :
  quiet env → idle d → lb_applied (tables d) event = false →
  (handle (EWrite (ZIncrBy (contributorKey (ga_LiveSessionID evt)) (f64 (ga_ChargedCoins evt))
     (FormatUint (ga_ViewerID evt)))) s).1 = RErr err →
  let r := run (ApplyAcceptedGift event evt) (d, s) in
  r.1 = Some err ∧ lb_applied (tables r.2.1) event = true
  ∧ ∀ (env' : Env) (d' : Db) (s' : S), idle d' → tables d' = tables r.2.1 →
      let r' := run (ApplyAcceptedGift event evt) (d', s') in
      r'.2.2 = s' ∧ (quiet env' → r'.1 = None).
Proof.
  intros Hq Hi Hnew Herr r.
  assert (Hpost : r.1 = Some err ∧ lb_applied (tables r.2.1) event = true).
  { apply (wp2_run false env (ApplyAcceptedGift event evt)
      (λ r t' _ _ _, r = Some err ∧ lb_applied t' event = true) d s (λ _, Hq) Hi).
    apply lb_dedupe_wp; [done|done|by rewrite Hnew|]. intros _ ts.
    apply wp2_try, wp2_sql, wp_commit; [done|done|].
    apply wp2_try, wp2_other. cbv zeta. rewrite Herr. split; [done|].
    by rewrite lb_applied_mark, Z.eqb_refl, orb_true_r. }
  destruct Hpost as [Hr Hknown]. split_and!; [done..|]. intros env' d' s' Hi' Ht r'.
  rewrite <- Ht in Hknown. split.
  - apply (wp2_run true env' (ApplyAcceptedGift event evt) (λ _ _ _ _ s1, s1 = s') d' s' ltac:(done) Hi').
    eapply wp2_mono; [by apply known_event_skips|]. intros a t' c' v s1 (_ & _ & -> & _). done.
  - intros Hq'. apply (wp2_run false env' (ApplyAcceptedGift event evt) (λ r _ _ _ _, r = None) d' s'
      (λ _, Hq') Hi').
    eapply wp2_mono; [by apply known_event_skips|]. intros a t' c' v s1 (_ & _ & _ & Ha). auto.
Qed.

(** A server whose first commands fail. *)
Record Flaky := { fl_down : nat; fl_store : Store }.

Definition flaky_handle : Handler RedisE Flaky := λ R e s,
  match fl_down s with
  | S n =>
      let s' := {| fl_down := n; fl_store := fl_store s |} in
      match e in RedisE R return R * Flaky with
      | EWrite _ => (RErr ErrConn, s')
      | EZRevRangeWithScores _ _ _ => (RErr ErrConn, s')
      end
  | O => let r := lab_redis_handle R e (fl_store s) in (r.1, {| fl_down := 0; fl_store := r.2 |})
  end.

#[export] Instance flaky_redis : Redis Flaky := { redis_handler := flaky_handle; content := fl_store }.

#[export] Instance flaky_redis_laws : RedisLaws Flaky.
Proof.
  split.
  - intros c [[|n] st]; unfold handle, content; simpl.
    + unfold lab_redis_handle. destruct (redis_effect c st); [by left|]. split; [|done]. by eexists.
    + destruct (redis_effect c st); [right|]; (split; [by eexists|by auto]).
  - intros key stop [[|n] st] Hstop; (split; [done|]); [|left; by eexists].
    exact (proj2 (redis_range (S := Store) key stop st Hstop)).
Qed.

Lemma refused_update_lost_witness :
  let flaky := {| fl_down := 1; fl_store := ∅ |} in
  let r := run (ApplyAcceptedGift 1 lab_event_1) (lab_after, flaky) in
  r.1 = Some ErrConn ∧ (run (ApplyAcceptedGift 1 lab_event_1) r.2).1 = None
  ∧ fl_store (run (ApplyAcceptedGift 1 lab_event_1) r.2).2.2 = ∅.
Proof.
  cbv zeta.
  assert (Hi : idle lab_after) by (vm_compute; reflexivity).
  assert (Hnew : lb_applied (tables lab_after) 1 = false) by (vm_compute; reflexivity).
  pose proof (refused_update_lost (S := Flaky) lab_env lab_after {| fl_down := 1; fl_store := ∅ |} 1
    lab_event_1 ErrConn lab_quiet Hi Hnew) as Hth.
  destruct (Hth eq_refl) as (Hr & _ & _).
  split_and!; [exact Hr|vm_compute; reflexivity|vm_compute; reflexivity].
Defined.
