(* ===== verification/ApiSpec.v ===== *)
(** * The API and the service

    What the handlers of [Api] do with the service: a decoded request has values of its Go types, one
    HTTP request is at most one service operation, and the ranking a client reads is that of the
    accepted gifts. *)

From stdpp Require Import sorting.
From S2P Require Import Prelude GoInt GoStrings Sha256 Json JsonDecode JsonRoundtrip Schema Prog Sql Wp Events Ledger WellFormed Preserve Money Recharge Gift GiftSpec Invariants InternalEvents Decode ReadModels Settlement Reconcile System Points Redis Wp2 Relay Consumers Leaderboard Board Rebuild BoardEvents Lab Rankings Api.

(** ** Decoded values have their Go types *)

Lemma parse_digits_range limit s : ∀ acc n,
  0 ≤ acc ≤ limit → parse_digits limit acc s = Some n → 0 ≤ n ≤ limit.
Proof.
  induction s as [|a s IH]; intros acc n Hacc; simpl; [by intros [= <-]|].
  destruct (in_range 0 9 (byte_of a - 48)) eqn:Ed; [|done]. destruct (_ <=? limit) eqn:El; [|done].
  unfold in_range in Ed. bool_to_prop. apply IH. lia.
Qed.

Lemma ParseUint_range s n : ParseUint s = Some n → is_uint64 n.
Proof.
  destruct s as [|a s]; [done|]. intros Hn. unfold ParseUint in Hn.
  apply parse_digits_range in Hn; int_bounds; lia.
Qed.

Lemma Atoi_range s n : Atoi s = Some n → is_int64 n.
Proof.
  destruct s as [|a s]; [done|]. unfold Atoi.
  destruct (Ascii.eqb a "-"%char); [|destruct (Ascii.eqb a "+"%char)].
  - destruct s; [done|]. intros Hn. apply fmap_Some in Hn as (m & Hm & ->).
    apply parse_digits_range in Hm; int_bounds; lia.
  - destruct s; [done|]. intros Hn. apply parse_digits_range in Hn; int_bounds; lia.
  - intros Hn. apply parse_digits_range in Hn; int_bounds; lia.
Qed.

(** The values a conversion gives. *)
Definition converts {X} (conv : jval → option (option X)) (P : X → Prop) : Prop :=
  ∀ v x, conv v = Some (Some x) → P x.

Lemma conv_uint_range limit : converts (conv_uint limit) (λ n, 0 ≤ n ≤ limit).
Proof.
  intros [| |lit| | |] n; simpl; try done. destruct (ParseUint lit) as [m|] eqn:E; [|done].
  destruct (limit <? m) eqn:El; [done|]. intros [= <-]. apply ParseUint_range in E. bool_to_prop.
  int_bounds. lia.
Qed.

Lemma conv_int64_range : converts conv_int64 is_int64.
Proof.
  intros [| |lit| | |] n; simpl; try done. destruct (Atoi lit) as [m|] eqn:E; [|done].
  intros [= <-]. by apply Atoi_range in E.
Qed.

Lemma conv_ptr_range : converts conv_ptr is_uint64_ptr.
Proof.
  intros [| |lit| | |] n; simpl; try done; [by intros [= <-]|].
  destruct (ParseUint lit) as [m|] eqn:E; [|done]. intros [= <-]. by apply ParseUint_range in E.
Qed.

Section typed.
Context `{Unicode} {A : Type} `{FromJson A} (P : A → Prop).

(** The assignment of each field keeps [P]. *)
Definition keeps_type (f : field A) : Prop := ∀ v a a', f_set f v a = Some a' → P a → P a'.

Lemma keeps_assign {X} name (conv : jval → option (option X)) (set : X → A → A) (T : X → Prop) :
  converts conv T → (∀ x a, T x → P a → P (set x a)) → keeps_type (field_of name (assign conv set)).
Proof.
  intros Hconv Hset v a a'. simpl. unfold assign. destruct (conv v) as [[x|]|] eqn:E; [|by intros [= <-]|done].
  intros [= <-]. apply Hset. by eapply Hconv.
Qed.

Lemma decode_typed (v : jval) (a : A) : P zero → Forall keeps_type fields → decode v = Some a → P a.
Proof.
  intros Hz Hf. destruct v as [| | | | |l]; simpl; try done; [by intros [= <-]|].
  generalize (zero : A) Hz. clear Hz. induction l as [|[k w] l IH]; intros z Hz; simpl; [by intros [= <-]|].
  destruct (decode_member fields k w z) as [z'|] eqn:E; [|done]. apply IH.
  unfold decode_member, lookup_field in E. rewrite Forall_forall in Hf.
  assert (Hset : ∀ f, In f fields → f_set f w z = Some z' → P z').
  { intros f Hin Heq. eapply Hf; [by apply list_elem_of_In|done|done]. }
  destruct (List.find (λ f, String.eqb (f_name f) k) fields) as [f|] eqn:E1.
  { apply List.find_some in E1 as [Hin _]. eauto. }
  destruct (List.find (λ f, EqualFold (f_name f) k) fields) as [f|] eqn:E2; [|congruence].
  apply List.find_some in E2 as [Hin _]. eauto.
Qed.
End typed.

(** The conversions that constrain nothing. *)
Lemma converts_any {X} (conv : jval → option (option X)) : converts conv (λ _, True).
Proof. done. Qed.

Definition comment_typed (q : InternalCommentRequest) : Prop :=
  is_uint64 (ic_ViewerID q) ∧ is_uint64 (ic_CreatorID q) ∧ is_uint64 (ic_LiveSessionID q).

Definition watch_typed (q : InternalWatchMinutesRequest) : Prop :=
  is_uint64 (iw_ViewerID q) ∧ is_uint64 (iw_CreatorID q) ∧ is_uint64 (iw_LiveSessionID q)
  ∧ is_uint16 (iw_Minutes q).

(** Each field of a struct in turn: the conversion gives its type, and the setter keeps the others. *)
Ltac solve_fields :=
  repeat (apply Forall_cons; split; [
    first
    [ apply (keeps_assign _ _ _ _ _ (conv_uint_range _))
    | apply (keeps_assign _ _ _ _ _ conv_ptr_range)
    | apply (keeps_assign _ _ _ _ _ conv_int64_range)
    | apply (keeps_assign _ _ _ _ _ (converts_any _)) ];
    intros ? [] ? ?;
    unfold recharge_typed, gift_typed, comment_typed, watch_typed,
      is_uint64, is_uint32, is_uint16 in *; simpl in *; tauto |]);
  apply Forall_nil; done.

Section requests.
Context `{Unicode}.

Lemma recharge_decoded v (q : RechargeRequest) : decode v = Some q → recharge_typed q.
Proof.
  apply decode_typed.
  - unfold recharge_typed. simpl. int_bounds. lia.
  - unfold fields, RechargeRequest_fields. solve_fields.
Qed.

Lemma gift_decoded v (q : GiftRequest) : decode v = Some q → gift_typed q ∧ is_int64 (gq_SentAtMS q).
Proof.
  apply (decode_typed (λ q, gift_typed q ∧ is_int64 (gq_SentAtMS q))).
  - unfold gift_typed. simpl. int_bounds. lia.
  - unfold fields, GiftRequest_fields. solve_fields.
Qed.

Lemma comment_decoded v (q : InternalCommentRequest) : decode v = Some q → comment_typed q.
Proof.
  apply decode_typed.
  - unfold comment_typed. simpl. int_bounds. lia.
  - unfold fields, InternalCommentRequest_fields. solve_fields.
Qed.

Lemma watch_decoded v (q : InternalWatchMinutesRequest) : decode v = Some q → watch_typed q.
Proof.
  apply decode_typed.
  - unfold watch_typed. simpl. int_bounds. lia.
  - unfold fields, InternalWatchMinutesRequest_fields. solve_fields.
Qed.
End requests.

(** ** One request, at most one operation *)

Section requests_steps.
Context `{MySQLLaws} `{Unicode} `{ErrorText} `{FloatToInt} {S : Type} `{RedisLaws S} (redis_on : bool).

(** A program that leaves the database alone or performs one service operation on it. *)
Definition one_op (env : Env) {A} (p : prog (sum_eff SqlE RedisE) A) : Prop :=
  ∀ (d : Db) (s : S), let d' := (run p (d, s)).2.1 in d' = d ∨ service_step d d'.

Lemma one_op_ret env {A} (a : A) : one_op env (Ret a).
Proof. intros d s. by left. Qed.

(** The operation, and an answer made from its result. *)
Lemma one_op_sql env {A B} op (p : prog SqlE A) (k : A → prog (sum_eff SqlE RedisE) B) :
  op_prog op = pbind p (λ _, Ret tt) → op_typed op → (∀ x, ∃ b, k x = Ret b) →
  one_op env (pbind (sql p) k).
Proof.
  intros Hop Hty Hk d s. right. rewrite run_bind, run_inl. cbv zeta. simpl.
  destruct (Hk (run p d).1) as [b ->]. simpl. by apply (op_run env p op).
Qed.

Lemma one_op_bind_ret env {A B} (p : prog (sum_eff SqlE RedisE) A) (k : A → prog (sum_eff SqlE RedisE) B) :
  one_op env p → (∀ x, ∃ b, k x = Ret b) → one_op env (pbind p k).
Proof.
  intros Hp Hk d s. rewrite run_bind. destruct (Hk (run p (d, s)).1) as [b ->]. apply (Hp d s).
Qed.

(** The read from Redis first. *)
Lemma one_op_redis env {A B} (e : RedisE A) (k : A → prog (sum_eff SqlE RedisE) B) :
  (∀ x, one_op env (k x)) → one_op env (pbind (other e) k).
Proof.
  intros Hk d s. rewrite run_bind. unfold other. rewrite run_perform. simpl.
  exact (Hk (handle e s).1 d (handle e s).2).
Qed.

Lemma one_op_plain env {A} op (p : prog SqlE A) :
  op_prog op = pbind p (λ _, Ret tt) → op_typed op → one_op env (sql p).
Proof. intros Hop Hty d s. right. rewrite run_inl. by apply (op_run env p op). Qed.

Lemma one_op_contributors env sid limit : is_uint64 sid → one_op env (getLiveContributors redis_on sid limit).
Proof.
  intros Hsid. unfold getLiveContributors. destruct redis_on.
  - apply one_op_redis. intros [l|e]; [apply one_op_ret|].
    by apply (one_op_plain env (OpContributors sid limit)).
  - by apply (one_op_plain env (OpContributors sid limit)).
Qed.

Lemma one_op_campaign env campaign limit :
  is_uint64 campaign → one_op env (getCampaignLeaderboard redis_on campaign limit).
Proof.
  intros Hk. unfold getCampaignLeaderboard. destruct redis_on.
  - apply one_op_redis. intros [l|e]; [apply one_op_ret|].
    by apply (one_op_plain env (OpCampaign campaign limit)).
  - by apply (one_op_plain env (OpCampaign campaign limit)).
Qed.

(** A decoded body. *)
Lemma decoded_body {A} `{FromJson A} r (q : A) (P : A → Prop) :
  (∀ v q, decode v = Some q → P q) → decode_request r = Some q → P q.
Proof.
  intros HP. unfold decode_request, DecodeBody. destruct (r_Body r) as [body|]; [|done].
  destruct (parse_first body) as [[v rest]|]; [|done]. apply HP.
Qed.

Ltac answers := let x := fresh in intros x; repeat case_match; by eexists.
Ltac plain := repeat case_match; try apply one_op_ret.

Lemma handleRecharge_op env r : one_op env (handleRecharge r).
Proof.
  unfold handleRecharge. plain. eapply (one_op_sql env (OpRecharge _)); [done| |answers].
  eapply (decoded_body r _ recharge_typed); [apply recharge_decoded|done].
Qed.

Lemma handleGift_op env r : one_op env (handleGift r).
Proof.
  unfold handleGift. plain. eapply (one_op_sql env (OpSendGift _)); [done| |answers].
  eapply (decoded_body r _ gift_typed); [|done]. intros v q Hq. by apply gift_decoded in Hq as [Hq _].
Qed.

Lemma handleInternalComments_op env r : one_op env (handleInternalComments r).
Proof.
  unfold handleInternalComments. plain. eapply (one_op_sql env (OpComment _)); [done| |answers].
  eapply (decoded_body r _ (λ q, is_uint64 (ic_LiveSessionID q))); [|done]. intros v q Hq.
  by apply comment_decoded in Hq as (_ & _ & Hq).
Qed.

Lemma handleInternalWatchMinutes_op env fuel r : one_op env (handleInternalWatchMinutes fuel r).
Proof.
  unfold handleInternalWatchMinutes. plain. eapply (one_op_sql env (OpWatchMinutes fuel _)); [done| |answers].
  eapply (decoded_body r _ (λ q, is_uint64 (iw_LiveSessionID q) ∧ is_uint16 (iw_Minutes q))); [|done].
  intros v q Hq. by apply watch_decoded in Hq as (_ & _ & Hq).
Qed.

Lemma handleLivesPrefix_op env r : one_op env (handleLivesPrefix redis_on r).
Proof.
  unfold handleLivesPrefix. plain; match goal with Hp : ParseUint _ = Some _ |- _ => apply ParseUint_range in Hp end.
  - by eapply (one_op_sql env (OpClose _)); [done| |answers].
  - apply one_op_bind_ret; [by apply one_op_contributors|answers].
Qed.

Lemma handleCampaignPrefix_op env r : one_op env (handleCampaignPrefix redis_on r).
Proof.
  unfold handleCampaignPrefix. plain. apply one_op_bind_ret; [|answers].
  apply one_op_campaign. by eapply ParseUint_range.
Qed.

Lemma handleSettlementGet_op env r : one_op env (handleSettlementGet r).
Proof.
  unfold handleSettlementGet. plain. eapply (one_op_sql env (OpGetSettlement _)); [done| |answers].
  by eapply ParseUint_range.
Qed.

Lemma ends_op env (h : Request → prog (sum_eff SqlE RedisE) Response) r : one_op env (h r) → one_op env (ends h r).
Proof. intros Hh. apply one_op_bind_ret; [done|]. by eexists. Qed.

Lemma serve_op env fuel srv r : one_op env (serve redis_on fuel srv r).
Proof.
  unfold serve. destruct (List.find _ _) as [[[pat route] next]|] eqn:E; [|apply one_op_ret].
  apply List.find_some in E as [Hin _]. unfold wrap.
  destruct (if String.eqb (r_XRequestID r) "" then _ else _) as [rid srv'].
  apply one_op_bind_ret; [|answers].
  repeat destruct Hin as [[= <- <- <-]|Hin]; try done; try apply ends_op.
  - apply one_op_ret.
  - apply handleRecharge_op.
  - apply handleGift_op.
  - apply handleInternalComments_op.
  - apply handleInternalWatchMinutes_op.
  - apply handleLivesPrefix_op.
  - apply handleCampaignPrefix_op.
  - apply handleSettlementGet_op.
Qed.
End requests_steps.

(** ** Paths and members *)

Lemma rev_string_app s t acc : rev_string (s +:+ t) acc = rev_string t (rev_string s acc).
Proof. revert acc. induction s as [|a s IH]; intros acc; simpl; [done|]. apply IH. Qed.

Lemma rev_string_acc s acc : rev_string s acc = rev_string s EmptyString +:+ acc.
Proof.
  revert acc. induction s as [|a s IH]; intros acc; simpl; [done|].
  rewrite IH, (IH (String a EmptyString)), <- string_app_assoc. done.
Qed.

Lemma rev_string_involutive s : rev_string (rev_string s EmptyString) EmptyString = s.
Proof.
  induction s as [|a s IH]; simpl; [done|].
  by rewrite (rev_string_acc s (String a EmptyString)), rev_string_app, IH.
Qed.

(** Text with no slash. *)
Fixpoint slashless (s : string) : bool :=
  match s with EmptyString => true | String a s' => negb (Ascii.eqb a "/"%char) && slashless s' end.

Lemma Split_cons s t : slashless s = true → Split (s +:+ String "/" t) "/"%char = s :: Split t "/"%char.
Proof.
  induction s as [|a s IH]; simpl; intros Hs; [done|]. apply andb_true_iff in Hs as [Ha Hs].
  apply negb_true_iff in Ha. by rewrite Ha, IH.
Qed.

Lemma dec_go_slashless fuel : ∀ n acc, 0 ≤ n → slashless acc = true → slashless (dec_go fuel n acc) = true.
Proof.
  induction fuel as [|fuel IH]; intros n acc Hn Hacc; simpl; [done|].
  assert (Hd : slashless (String (digit (n mod 10)) acc) = true).
  { simpl. rewrite Hacc, andb_true_r. apply negb_true_iff, Ascii.eqb_neq. intros Heq.
    apply (f_equal byte_of) in Heq. rewrite digit_byte in Heq by (apply Z.mod_pos_bound; lia).
    change (byte_of "/"%char) with 47 in Heq. pose proof (Z.mod_pos_bound n 10). lia. }
  destruct (n / 10 =? 0); [done|]. apply IH; [by apply Z.div_pos|done].
Qed.

Lemma lives_parts r i rest :
  is_uint64 i → r_Path r = "/v1/lives/" +:+ FormatUint i +:+ "/" +:+ rest →
  rest = "contributors" ∨ rest = "close" →
  path_parts r = ["v1"; "lives"; FormatUint i; rest].
Proof.
  intros Hi Hp Hrest. unfold path_parts, Trim. rewrite Hp.
  set (s := "v1/lives/" +:+ FormatUint i +:+ "/" +:+ rest).
  change (trim_left "/"%char ("/v1/lives/" +:+ FormatUint i +:+ "/" +:+ rest)) with s.
  assert (Hrev : trim_left "/"%char (rev_string s EmptyString) = rev_string s EmptyString).
  { unfold s. rewrite !rev_string_app. by destruct Hrest as [-> | ->]. }
  rewrite Hrev, rev_string_involutive. unfold s.
  change ("v1/lives/" +:+ FormatUint i +:+ "/" +:+ rest)
    with ("v1" +:+ String "/" ("lives" +:+ String "/" (FormatUint i +:+ String "/" rest))).
  rewrite !Split_cons; [by destruct Hrest as [-> | ->]|..|done|done].
  apply dec_go_slashless; [int_bounds; lia|done].
Qed.

Lemma parseLimit_range raw : 1 ≤ parseLimit raw ≤ 100.
Proof.
  unfold parseLimit. destruct (String.eqb _ _); [lia|]. destruct (Atoi raw) as [n|]; [|lia].
  destruct (n <=? 0) eqn:E; [lia|]. destruct (100 <? n) eqn:E'; bool_to_prop; lia.
Qed.

(** The members of a board are the ids it stands for. *)
Lemma read_members_board `{FloatToInt} {R} (mk : Z → Z → R) (l : list (Z * Z)) :
  (∀ x, In x l → is_uint64 x.1 ∧ 0 ≤ x.2 ≤ max_int64) →
  read_members mk (map (λ x, (FormatUint x.1, x.2)) l) = map (λ x, mk x.1 x.2) l.
Proof.
  induction l as [|[i n] l IH]; intros Hl; simpl; [done|].
  destruct (Hl (i, n)) as [Hi Hn]; [by left|]. simpl in Hi, Hn.
  rewrite ParseUint_FormatUint by done. unfold score_int64.
  rewrite !(proj2 (Z.leb_le _ _)) by (int_bounds; lia). simpl. rewrite IH; [done|].
  intros x Hx. apply Hl. by right.
Qed.

Lemma board_list (m : gmap Z Z) l :
  ids_ok m → zrev_list (board FormatUint m) l →
  ∃ k, l = map (λ x, (FormatUint x.1, x.2)) k ∧ k ≡ₚ map_to_list m ∧ StronglySorted (λ x y, y.2 ≤ x.2) k.
Proof.
  intros Hids [Hp Hs]. unfold board in Hp.
  rewrite map_to_list_to_map in Hp by (by apply (board_keys FormatUint names_FormatUint m)).
  apply Permutation_map_inv in Hp as (k & -> & Hk). exists k. split; [done|]. split; [done|].
  clear Hk Hids. induction k as [|x k IH]; [constructor|]. simpl in Hs. inversion Hs as [|? ? Hs' Hall]; subst.
  constructor; [auto|]. rewrite Forall_forall in Hall. apply Forall_forall. intros y Hy.
  destruct (Hall (FormatUint y.1, y.2)) as [Hlt|[Heq _]]; simpl in *; try lia.
  apply list_elem_of_fmap. by exists y.
Qed.
