(* ===== verification/Integrity.v ===== *)
(** * Revenue integrity: gifts and recharges

    The properties of [SendGift] and [Recharge] as the caller of the service sees them: statements
    about runs of the programs, for any clock and any pattern of connection failures unless the
    environment is said to be quiet. Each is followed by its instance on the lab database. *)

From S2P Require Import Prelude GoInt GoStrings Sha256 Json Schema Prog Sql Wp Events Ledger WellFormed Preserve Money Recharge Gift GiftSpec Invariants InternalEvents ReadModels Settlement Reconcile System Wp2 Relay Runs Lab.

(** C1. [SendGift] is atomic. Whatever the clock reads and whichever calls fail, a run from an idle
    connection on well-formed tables ends with no open transaction and has settled the atomic
    operation [gift_atomic]: either its exact effect and answer, or a connection error with none of
    the effect or all of it. *)
Theorem SendGift_atomic `{MySQLLaws} `{Unicode} (env : Env) d req :
  idle d → wf (tables d) (counters d) → gift_typed req →
  let r := run (SendGift req) d in
  idle r.2 ∧ ∃ ts1 ts2 ts3 ts4,
    settles true (Err ErrConn) (tables d) (counters d)
      (gift_atomic (tables d) (counters d) req ts1 ts2 ts3 ts4) r.1 (tables r.2) (counters r.2).
Proof. intros Hi Hwf Hty. by apply SendGift_run. Qed.

Lemma SendGift_atomic_witness : idle (run (SendGift lab_gift) lab).2.
Proof. apply SendGift_atomic; [reflexivity|apply seed_wf|apply lab_gift_typed]. Defined.

(** C2. [Recharge] is atomic, in the same sense, for [recharge_atomic]. *)
Theorem Recharge_atomic `{MySQLLaws} (env : Env) d req :
  idle d → wf (tables d) (counters d) → recharge_typed req →
  let r := run (Recharge req) d in
  idle r.2 ∧ ∃ ts1 ts2 ts3,
    settles true (Err ErrConn) (tables d) (counters d)
      (recharge_atomic (tables d) (counters d) req ts1 ts2 ts3) r.1 (tables r.2) (counters r.2).
Proof. intros Hi Hwf Hty. by apply Recharge_run. Qed.

Lemma Recharge_atomic_witness : idle (run (Recharge lab_recharge) lab).2.
Proof. apply Recharge_atomic; [reflexivity|apply seed_wf|apply lab_recharge_typed]. Defined.

(** The sum of all entries, split by transaction. *)
Lemma entries_by_tx `{MySQL} opening t c :
  wf t c → ledger_ok opening t → sum_of we_Amount (wallet_entries t) = 0.
Proof.
  intros Hwf Hl.
  rewrite <- (sum_split we_TxID we_Amount (map wt_TxID (wallet_transactions t)) (wallet_entries t)).
  - assert (Hz : ∀ k, In k (map wt_TxID (wallet_transactions t)) →
      sum_of we_Amount (where_ (λ x, we_TxID x =? k) (wallet_entries t)) = 0).
    { intros k Hk. apply in_map_iff in Hk as (r & <- & Hr).
      destruct (lo_posted _ _ Hl r Hr) as (_ & a & _ & Hp). unfold postings in Hp. rewrite Hp.
      simpl. lia. }
    revert Hz. induction (map wt_TxID (wallet_transactions t)) as [|k ks IH]; intros Hz; simpl; [done|].
    rewrite (Hz k) by (by left). rewrite IH; [done|]. intros k' Hk'. apply Hz. by right.
  - apply NoDup_ListNoDup, (wf_tx_pk _ _ Hwf).
  - intros e He. apply (wf_entry_fk _ _ Hwf), tx_missing_false in He as (r & Hr & <-). by apply in_map.
Qed.

(** C3. Double entry. In every database reachable from one that satisfies the invariant, by any
    sequence of service operations and failures, each wallet transaction has exactly two entries, on
    its user's account and on the counter account of its type, with opposite amounts; and all
    entries together sum to zero. *)
Theorem ledger_double_entry `{MySQLLaws} `{Unicode} `{ErrorText} opening d d' :
  service_ok opening d → rtc service_step d d' →
  (∀ r, In r (wallet_transactions (tables d')) → ∃ a,
     postings (tables d') (wt_TxID r)
     = [{| we_TxID := wt_TxID r; we_AccountCode := user_coins (wt_ActorUserID r); we_Amount := a |};
        {| we_TxID := wt_TxID r; we_AccountCode := counter_account (wt_TxType r); we_Amount := - a |}])
  ∧ sum_of we_Amount (wallet_entries (tables d')) = 0.
Proof.
  intros Hok Hr. destruct (reachable_ok opening d d' Hr Hok) as [_ [Hwf Hl]].
  split; [|by eapply entries_by_tx].
  intros r Hin. destruct (lo_posted _ _ Hl r Hin) as (_ & a & _ & Hp). by exists a.
Qed.

Lemma ledger_double_entry_witness : sum_of we_Amount (wallet_entries (tables lab_after)) = 0.
Proof. apply (ledger_double_entry seed_opening lab lab_after lab_ok lab_after_reachable). Defined.

(** C4. Balances. In every reachable database the balance of a user is the opening balance plus the
    postings of the user's account, in int64 arithmetic; and if what the user opened with and bought
    fits an int64, there is no wrap-around and the balance is not negative. *)
Theorem wallet_balance_is_ledger `{MySQLLaws} `{Unicode} `{ErrorText} opening d d' u :
  service_ok opening d → rtc service_step d d' → is_uint64 u →
  balance_of (tables d') u = int64 (opening u + user_total (tables d') u)
  ∧ (0 ≤ opening u → opening u + recharged (tables d') u ≤ max_int64 →
     balance_of (tables d') u = opening u + user_total (tables d') u ∧ 0 ≤ balance_of (tables d') u).
Proof.
  intros Hok Hr Hu. destruct (reachable_ok opening d d' Hr Hok) as [_ [Hwf Hl]].
  split; [by apply (lo_balance _ _ Hl)|]. intros. by apply balance_exact.
Qed.

Lemma wallet_balance_is_ledger_witness :
  balance_of (tables lab_after) 2001 = int64 (seed_opening 2001 + user_total (tables lab_after) 2001).
Proof.
  assert (Hu : is_uint64 2001) by (split; vm_compute; discriminate).
  exact (proj1 (wallet_balance_is_ledger seed_opening lab lab_after 2001 lab_ok lab_after_reachable Hu)).
Defined.

(** C5. Orders and debits match. In every reachable database each accepted gift order has exactly
    one GIFT_DEBIT transaction with its viewer and request id, which takes exactly the charged coins
    from the viewer's account; and each GIFT_DEBIT transaction belongs to exactly one order, an
    accepted one. *)
Theorem orders_match_debits `{MySQLLaws} `{Unicode} `{ErrorText} opening d d' :
  service_ok opening d → rtc service_step d d' →
  let t := tables d' in
  (∀ o, In o (gift_orders t) → accepted o →
     ∃ r, joined_txs t o = [r] ∧ debit_of o r
          ∧ postings t (wt_TxID r) = map (entry_row (wt_TxID r)) (posting_entries r (- go_ChargedCoins o)))
  ∧ (∀ r, In r (wallet_transactions t) → wt_TxType r = txTypeGiftDebit →
     ∃ o, In o (gift_orders t) ∧ accepted o ∧ debit_of o r
          ∧ ∀ o', In o' (gift_orders t) → debit_of o' r → o' = o).
Proof.
  intros Hok Hr. destruct (reachable_ok opening d d' Hr Hok) as [_ [Hwf Hl]]. split.
  - intros o Ho Hacc. destruct (lo_order _ _ Hl o Ho Hacc) as (r & Hin & Hd & _ & Hp).
    exists r. split; [by eapply joined_tx|done].
  - intros r Hin Hty. destruct (lo_debit _ _ Hl r Hin Hty) as (o & Ho & Hacc & Hd).
    exists o. split_and!; try done. intros o' Ho' Hd'.
    apply (unique_key_inj gift_order_key (gift_orders (tables d'))); try done.
    + apply (wf_order_uq _ _ Hwf).
    + destruct Hd as (_ & Hv & Hq), Hd' as (_ & Hv' & Hq'). unfold gift_order_key. congruence.
Qed.

Lemma orders_match_debits_witness :
  List.Forall (λ r, wt_TxType r = txTypeGiftDebit →
    ∃ o, In o (gift_orders (tables lab_after)) ∧ accepted o) (wallet_transactions (tables lab_after)).
Proof.
  apply List.Forall_forall. intros r Hr Hty.
  destruct (proj2 (orders_match_debits seed_opening lab lab_after lab_ok lab_after_reachable) r Hr Hty)
    as (o & Ho & Hacc & _). exists o. split; assumption.
Defined.

(** ** Idempotency *)

(** C6. An accepted gift is replayed. If a run answers with a created gift, whatever failed in it, the
    next run of the same request, without failures, answers with the same gift, marked as replayed,
    and changes nothing. *)
Theorem gift_replayed `{MySQLLaws} `{Unicode} (env1 env2 : Env) d req resp :
  idle d → wf (tables d) (counters d) → gift_typed req → quiet env2 →
  let r1 := run (H:=@sql_handler env1) (SendGift req) d in
  r1.1 = Ok resp → gs_Idempotency resp = "created" →
  let r2 := run (H:=@sql_handler env2) (SendGift req) r1.2 in
  r2.1 = Ok {| gs_GiftOrderID := gs_GiftOrderID resp; gs_Accepted := true;
               gs_ChargedCoins := gs_ChargedCoins resp;
               gs_MatchPointsAdded := gs_MatchPointsAdded resp;
               gs_DiamondReward := gs_DiamondReward resp; gs_NewBalance := gs_NewBalance resp;
               gs_Idempotency := "replayed" |}
  ∧ tables r2.2 = tables r1.2.
Proof.
  intros Hi Hwf Hty Hq r1 Hr1 Hcr r2.
  destruct (SendGift_wf env1 d req Hi Hwf Hty) as [_ Hwf1].
  destruct (SendGift_run true env1 d req ltac:(done) Hi Hwf Hty) as (Hi1 & ts1 & ts2 & ts3 & ts4 & Hs1).
  fold r1 in Hi1, Hs1. destruct Hs1 as [(Hout & Ht & _)|(_ & Hout & _)]; [|congruence].
  rewrite Hr1 in Hout. symmetry in Hout.
  destruct (gift_atomic_kept _ _ _ _ _ _ _ _ Hwf Hout) as (Hval & o & Ho & Hhash & Hkept).
  rewrite <- Ht in Ho.
  destruct (SendGift_run false env2 r1.2 req ltac:(done) Hi1 Hwf1 Hty) as (_ & u1 & u2 & u3 & u4 & Hs2).
  apply settles_quiet in Hs2 as (Hout2 & Ht2 & _). fold r2 in Hout2, Ht2.
  erewrite gift_atomic_stored in Hout2, Ht2 by done. simpl in Hout2, Ht2.
  rewrite Hhash, bytesEqual_refl, Hkept in Hout2. by rewrite Hout2, Ht2.
Qed.

Definition lab_gift_created : GiftResponse :=
  {| gs_GiftOrderID := 1; gs_Accepted := true; gs_ChargedCoins := 10; gs_MatchPointsAdded := 10;
     gs_DiamondReward := 10; gs_NewBalance := 990; gs_Idempotency := "created" |}.

Lemma lab_gift_run : (run (SendGift lab_gift) lab).1 = Ok lab_gift_created.
Proof. reflexivity. Qed.

Lemma gift_replayed_witness :
  (run (SendGift lab_gift) (run (SendGift lab_gift) lab).2).1
  = Ok {| gs_GiftOrderID := 1; gs_Accepted := true; gs_ChargedCoins := 10; gs_MatchPointsAdded := 10;
          gs_DiamondReward := 10; gs_NewBalance := 990; gs_Idempotency := "replayed" |}.
Proof.
  exact (proj1 (gift_replayed lab_env lab_env lab lab_gift lab_gift_created eq_refl seed_wf
                  lab_gift_typed lab_quiet lab_gift_run eq_refl)).
Defined.

(** C7. A rejection is replayed. If the policy rejected a request with a code and a status, the
    next run of the same request, without failures, answers with the same code and status, and
    changes nothing. *)
Theorem gift_rejection_replayed `{MySQLLaws} `{Unicode} (env1 env2 : Env) d req code status base :
  idle d → wf (tables d) (counters d) → gift_typed req → quiet env2 →
  gift_invalid req = None → stored_order (tables d) req = None →
  gift_decide (tables d) req = DReject code status base →
  let r1 := run (H:=@sql_handler env1) (SendGift req) d in
  r1.1 = App (gift_rejection code status) →
  let r2 := run (H:=@sql_handler env2) (SendGift req) r1.2 in
  r2.1 = App (mapRejectCodeToAppError code)
  ∧ HTTPStatus (mapRejectCodeToAppError code) = status ∧ Code (mapRejectCodeToAppError code) = code
  ∧ tables r2.2 = tables r1.2.
Proof.
  intros Hi Hwf Hty Hq Hval Hnew Hd r1 Hr1 r2.
  destruct (SendGift_wf env1 d req Hi Hwf Hty) as [Hi1 Hwf1].
  destruct (SendGift_run true env1 d req ltac:(done) Hi Hwf Hty) as (_ & ts1 & ts2 & ts3 & ts4 & Hs1).
  fold r1 in Hi1, Hwf1, Hs1. destruct Hs1 as [(Hout & Ht & _)|(_ & Hout & _)]; [|congruence].
  unfold gift_atomic in Hout, Ht. rewrite Hval, Hnew, Hd in Hout, Ht.
  destruct (reject_error (counters d) req); [simpl in Hout; congruence|]. simpl in Ht.
  destruct (SendGift_run false env2 r1.2 req ltac:(done) Hi1 Hwf1 Hty) as (_ & u1 & u2 & u3 & u4 & Hs2).
  apply settles_quiet in Hs2 as (Hout2 & Ht2 & _). fold r2 in Hout2, Ht2.
  erewrite gift_atomic_stored in Hout2, Ht2
    by (done || (rewrite Ht; by eapply reject_stored)).
  rewrite Hout2, Ht2. simpl. rewrite bytesEqual_refl. unfold stored_response. simpl.
  apply gift_decide_codes in Hd. split; [done|].
  repeat destruct Hd as [[= <- <-]|Hd]; done.
Qed.

(** 3001 is 17 years old. *)
Definition lab_minor_gift : GiftRequest :=
  {| gq_RequestID := "g-2"; gq_ViewerID := 2001; gq_CreatorID := 3001; gq_LiveSessionID := 9001;
     gq_MatchID := None; gq_GiftID := "ROSE"; gq_Quantity := 1; gq_SentAtMS := 1000 |}.

Lemma lab_minor_gift_typed : gift_typed lab_minor_gift.
Proof. unfold gift_typed. int_bounds. simpl. lia. Qed.

Lemma gift_rejection_replayed_witness :
  (run (SendGift lab_minor_gift) (run (SendGift lab_minor_gift) lab).2).1
  = App {| HTTPStatus := 403; Code := "CREATOR_NOT_ELIGIBLE"; Message := "creator is not eligible" |}.
Proof.
  exact (proj1 (gift_rejection_replayed lab_env lab_env lab lab_minor_gift "CREATOR_NOT_ELIGIBLE" 403
    seed_tables eq_refl seed_wf lab_minor_gift_typed lab_quiet eq_refl eq_refl eq_refl eq_refl)).
Defined.

(** Any number of runs of one request, each with its own environment. *)
Definition retries `{MySQL} `{Unicode} (req : GiftRequest) (envs : list Env) (d : Db) : Db :=
  foldl (λ d env, (run (H:=@sql_handler env) (SendGift req) d).2) d envs.

Lemma retries_once `{MySQLLaws} `{Unicode} req envs : ∀ d,
  idle d → wf (tables d) (counters d) → gift_typed req →
  idle (retries req envs d) ∧ wf (tables (retries req envs d)) (counters (retries req envs d))
  ∧ (tables (retries req envs d) = tables d
     ∨ ∃ c ts1 ts2 ts3 ts4,
         tables (retries req envs d) = (gift_atomic (tables d) c req ts1 ts2 ts3 ts4).1.2).
Proof.
  induction envs as [|env envs IH] using rev_ind; intros d Hi Hwf Hty; [by auto|].
  unfold retries in *. rewrite foldl_app. simpl.
  destruct (IH d Hi Hwf Hty) as (Hi1 & Hwf1 & Hcase).
  set (d1 := foldl _ d envs) in *.
  destruct (SendGift_wf env d1 req Hi1 Hwf1 Hty) as [Hi2 Hwf2].
  destruct (SendGift_run true env d1 req ltac:(done) Hi1 Hwf1 Hty) as (_ & u1 & u2 & u3 & u4 & Hs).
  split_and!; [done|done|].
  assert (Ht : tables (run (SendGift req) d1).2 = tables d1
    ∨ tables (run (SendGift req) d1).2 = (gift_atomic (tables d1) (counters d1) req u1 u2 u3 u4).1.2).
  { destruct Hs as [(_ & -> & _)|(_ & _ & [[-> _]|[-> _]])]; auto. }
  destruct Ht as [->| ->]; [done|].
  destruct Hcase as [->|(c & ts1 & ts2 & ts3 & ts4 & Hd1)]; [right; eauto 10|].
  destruct (gift_atomic_once (tables d) c req ts1 ts2 ts3 ts4 (counters d1) u1 u2 u3 u4) as [Hn|Hn].
  - rewrite Hd1, Hn. right. eauto 10.
  - rewrite Hd1, Hn. right. eauto 10.
Qed.

(** C8. Retries charge once. However often a request is sent again, with calls failing and answers
    getting lost in any pattern, the tables end as if it had not been sent or had been sent exactly
    once. *)
Theorem gift_retries_charge_once `{MySQLLaws} `{Unicode} (envs : list Env) d req :
  idle d → wf (tables d) (counters d) → gift_typed req →
  let t' := tables (retries req envs d) in
  t' = tables d
  ∨ ∃ c ts1 ts2 ts3 ts4, t' = (gift_atomic (tables d) c req ts1 ts2 ts3 ts4).1.2.
Proof. intros Hi Hwf Hty. by apply retries_once. Qed.

Lemma gift_retries_charge_once_witness :
  let t' := tables (retries lab_gift [lab_env; lab_env] lab) in
  t' = tables lab
  ∨ ∃ c ts1 ts2 ts3 ts4, t' = (gift_atomic (tables lab) c lab_gift ts1 ts2 ts3 ts4).1.2.
Proof.
  exact (gift_retries_charge_once [lab_env; lab_env] lab lab_gift eq_refl seed_wf lab_gift_typed).
Defined.

(** ** Policy and effect *)

Lemma accept_balance `{MySQL} `{Unicode} t c req ch ts1 ts2 ts3 ts4 u :
  balance_of (accept_commit t c req ch ts1 ts2 ts3 ts4) u
  = if u =? gq_ViewerID req then ch_Balance ch - ch_Charged ch else balance_of t u.
Proof. rewrite accept_commit_eq. apply (money_balance (gift_tx_row c req ts1)). Qed.

(** C9. A gift is accepted exactly when the policy allows it. For a valid request with no stored
    order, run without failures: it is accepted if and only if the session is open, the gift is in
    the catalogue and enabled, the creator is eligible, the match (if named) is an open match of the
    session, the viewer exists and can pay, the totals fit a uint32 ([acceptable]) and the database
    can store the rows; and then the viewer pays exactly price times quantity, no other balance
    changes, and the answer carries the totals. *)
Theorem gift_accepted_iff `{MySQLLaws} `{Unicode} (env : Env) d req :
  quiet env → idle d → wf (tables d) (counters d) → gift_typed req →
  gift_invalid req = None → stored_order (tables d) req = None →
  let t := tables d in
  let r := run (SendGift req) d in
  ((∃ resp, r.1 = Ok resp) ↔ ∃ ch, acceptable t req ch ∧ accept_error t (counters d) req = None)
  ∧ ∀ resp, r.1 = Ok resp → ∃ ch, acceptable t req ch ∧ resp = gift_created (counters d) ch
      ∧ ∀ u, balance_of (tables r.2) u
             = if u =? gq_ViewerID req then balance_of t u - ch_Charged ch else balance_of t u.
Proof.
  intros Hq Hi Hwf Hty Hval Hnew t r.
  destruct (SendGift_run false env d req ltac:(done) Hi Hwf Hty) as (_ & ts1 & ts2 & ts3 & ts4 & Hs).
  apply settles_quiet in Hs as (Hout & Ht & _). fold r t in Hout, Ht. fold t in Hnew, Hwf.
  unfold gift_atomic in Hout, Ht. rewrite Hval, Hnew in Hout, Ht.
  destruct (gift_decide t req) as [e|code status base|ch] eqn:Hd.
  - split; [|intros resp Hr; simpl in Hout; congruence].
    split; [intros [resp Hr]; simpl in Hout; congruence|].
    intros (ch & Hch & _). apply gift_decide_accept in Hch. congruence.
  - assert (Hno : ∀ resp, r.1 ≠ Ok resp).
    { intros resp. rewrite Hout. by destruct (reject_error (counters d) req). }
    split; [|intros resp Hr; by destruct (Hno resp)]. split; [intros [resp Hr]; by destruct (Hno resp)|].
    intros (ch & Hch & _). apply gift_decide_accept in Hch. congruence.
  - destruct (acceptable_charge _ _ _ _ Hwf Hval Hd) as (_ & Hbal & _).
    apply gift_decide_accept in Hd as Hch.
    destruct (accept_error t (counters d) req) eqn:He; simpl in Hout, Ht.
    + split; [|intros resp Hr; congruence].
      split; [intros [resp Hr]; congruence|by intros (ch' & _ & ?)].
    + split; [split; eauto|]. intros resp Hr. exists ch. split_and!; [done|congruence|].
      intros u. rewrite Ht, accept_balance. destruct (u =? _) eqn:Eu; bool_to_prop; [|done].
      subst u. by rewrite Hbal.
Qed.

Lemma gift_accepted_iff_witness : ∃ ch, acceptable seed_tables lab_gift ch
    ∧ accept_error seed_tables seed_counters lab_gift = None.
Proof.
  exact (proj1 (proj1 (gift_accepted_iff lab_env lab lab_gift lab_quiet eq_refl seed_wf
    lab_gift_typed eq_refl eq_refl)) (ex_intro _ lab_gift_created lab_gift_run)).
Defined.

(** C10. A refusal moves no money. Whenever [SendGift] answers with an application error (invalid
    request, payload mismatch, rejection), whatever calls failed, every balance, transaction, entry
    and recharge is as before. *)
Theorem gift_refusal_moves_no_money `{MySQLLaws} `{Unicode} (env : Env) d req e :
  idle d → wf (tables d) (counters d) → gift_typed req →
  (run (SendGift req) d).1 = App e → same_money (tables d) (tables (run (SendGift req) d).2).
Proof.
  intros Hi Hwf Hty Hout.
  destruct (SendGift_run true env d req ltac:(done) Hi Hwf Hty) as (_ & ts1 & ts2 & ts3 & ts4 & Hs).
  destruct Hs as [(Ha & -> & _)|(_ & Ha & _)]; [|congruence].
  rewrite Hout in Ha. by eapply gift_atomic_app.
Qed.

Lemma gift_refusal_moves_no_money_witness :
  same_money seed_tables (tables (run (SendGift lab_minor_gift) lab).2).
Proof.
  exact (gift_refusal_moves_no_money lab_env lab lab_minor_gift
    (gift_rejection "CREATOR_NOT_ELIGIBLE" 403) eq_refl seed_wf lab_minor_gift_typed eq_refl).
Defined.

(** C11. An error leaves the tables as they were. Without connection failures, a run of [SendGift]
    that returns an error (a constraint of the schema, a total that does not fit, an exhausted
    counter) has changed no table. *)
Theorem gift_error_changes_nothing `{MySQLLaws} `{Unicode} (env : Env) d req e :
  quiet env → idle d → wf (tables d) (counters d) → gift_typed req →
  (run (SendGift req) d).1 = Err e → tables (run (SendGift req) d).2 = tables d.
Proof.
  intros Hq Hi Hwf Hty Hout.
  destruct (SendGift_run false env d req ltac:(done) Hi Hwf Hty) as (_ & ts1 & ts2 & ts3 & ts4 & Hs).
  apply settles_quiet in Hs as (Ha & -> & _). rewrite Hout in Ha. by eapply gift_atomic_err.
Qed.

(** 5001 is not a user; the foreign key of wallet_accounts refuses the wallet. *)
Definition lab_stranger_gift : GiftRequest :=
  {| gq_RequestID := "g-3"; gq_ViewerID := 5001; gq_CreatorID := 1001; gq_LiveSessionID := 9001;
     gq_MatchID := None; gq_GiftID := "ROSE"; gq_Quantity := 1; gq_SentAtMS := 1000 |}.

Lemma gift_error_changes_nothing_witness :
  tables (run (SendGift lab_stranger_gift) lab).2 = seed_tables.
Proof.
  assert (Hty : gift_typed lab_stranger_gift) by (unfold gift_typed; int_bounds; simpl; lia).
  exact (gift_error_changes_nothing lab_env lab lab_stranger_gift (MySQLError ER_NO_REFERENCED_ROW)
    lab_quiet eq_refl seed_wf Hty eq_refl).
Defined.

Lemma EqualFold_KR `{Unicode} : EqualFold "KR" "KR" = true.
Proof. reflexivity. Qed.

Lemma creator_eligible_facts `{Unicode} u :
  creator_eligible u = true →
  u_AccountStanding u = UsersAccountStandingGOOD ∧ u_CanGoLive u = true
  ∧ u_LiveGiftsEnabled u = true ∧ u_AccountType u = UsersAccountTypeNORMAL ∧ 18 ≤ u_AgeYears u
  ∧ (u_RegionCode u = "KR" → 19 ≤ u_AgeYears u).
Proof.
  unfold creator_eligible. intros He.
  destruct (negb _ || _ || _) eqn:E1; [done|].
  destruct (negb (String.eqb (enum_text (u_AccountType u)) "NORMAL")) eqn:E2; [done|]. bool_to_prop.
  assert (u_AccountStanding u = UsersAccountStandingGOOD) by (by destruct (u_AccountStanding u)).
  assert (u_AccountType u = UsersAccountTypeNORMAL) by (by destruct (u_AccountType u)).
  destruct (EqualFold (u_RegionCode u) "KR") eqn:Ek; cbv iota in He; bool_to_prop;
    split_and!; try done; try lia.
    intros Hk. by rewrite Hk, EqualFold_KR in Ek.
Qed.

(** C12. Only eligible creators receive gifts. If any run answers with a created gift, its creator
    is a user in good standing who can go live and has gifts enabled, has a NORMAL account, is at
    least 18, and at least 19 in region KR; and the viewer is someone else. *)
Theorem gift_creator_eligible `{MySQLLaws} `{Unicode} (env : Env) d req resp :
  idle d → wf (tables d) (counters d) → gift_typed req →
  (run (SendGift req) d).1 = Ok resp → gs_Idempotency resp = "created" →
  gq_CreatorID req ≠ gq_ViewerID req ∧
  ∃ u, users (tables d) !! gq_CreatorID req = Some u
    ∧ u_AccountStanding u = UsersAccountStandingGOOD ∧ u_CanGoLive u = true
    ∧ u_LiveGiftsEnabled u = true ∧ u_AccountType u = UsersAccountTypeNORMAL ∧ 18 ≤ u_AgeYears u
    ∧ (u_RegionCode u = "KR" → 19 ≤ u_AgeYears u).
Proof.
  intros Hi Hwf Hty Hout Hcr.
  destruct (SendGift_run true env d req ltac:(done) Hi Hwf Hty) as (_ & ts1 & ts2 & ts3 & ts4 & Hs).
  destruct Hs as [(Ha & _)|(_ & Ha & _)]; [|congruence]. rewrite Hout in Ha. symmetry in Ha.
  destruct (gift_atomic_created _ _ _ _ _ _ _ _ Ha Hcr) as (Hval & _ & _ & ch & Hd & _).
  apply gift_decide_accept in Hd as (s & g & m & _ & _ & _ & _ & Hok & _).
  split.
  - unfold gift_invalid in Hval. repeat (case_match; simplify_eq). bool_to_prop. congruence.
  - unfold creator_ok in Hok. destruct (users (tables d) !! _) as [u|]; [|done].
    exists u. split; [done|]. by apply creator_eligible_facts.
Qed.

Lemma gift_creator_eligible_witness : gq_CreatorID lab_gift ≠ gq_ViewerID lab_gift.
Proof.
  exact (proj1 (gift_creator_eligible lab_env lab lab_gift lab_gift_created eq_refl seed_wf
    lab_gift_typed lab_gift_run eq_refl)).
Defined.

(** C13. One request id, one payload. A run of [SendGift] whose viewer and request id have a stored
    order with another body hash answers 409 IDEMPOTENCY_PAYLOAD_MISMATCH and changes nothing. *)
Theorem gift_payload_mismatch `{MySQLLaws} `{Unicode} (env : Env) d req o :
  quiet env → idle d → wf (tables d) (counters d) → gift_typed req → gift_invalid req = None →
  stored_order (tables d) req = Some o → go_BodyHash o ≠ gift_hash req →
  (run (SendGift req) d).1 = App errPayloadMismatch ∧ tables (run (SendGift req) d).2 = tables d.
Proof.
  intros Hq Hi Hwf Hty Hval Ho Hne.
  destruct (SendGift_run false env d req ltac:(done) Hi Hwf Hty) as (_ & ts1 & ts2 & ts3 & ts4 & Hs).
  apply settles_quiet in Hs as (Hout & Ht & _).
  erewrite gift_atomic_stored in Hout, Ht by done. rewrite Hout, Ht. split; [|done]. simpl.
  destruct (bytesEqual _ _) eqn:E; [|done]. by apply bytesEqual_spec in E.
Qed.

(** An order of 2001 under the request id of [lab_gift], with another hash. *)
Definition lab_old_order : GiftOrder :=
  with_order_id (rejected_order lab_gift "MATCH_CLOSED" [] 0) 1.

Definition lab_old : Db :=
  {| tables := set_gift_orders (λ _, [lab_old_order]) seed_tables;
     counters := {| next_tx_id := 1; next_gift_order_id := 2; next_event_id := 1 |};
     tick := 0; tx := None |}.

Lemma lab_old_wf : wf (tables lab_old) (counters lab_old).
Proof.
  apply (wf_add_order lab_old_order seed_tables seed_counters); [apply seed_wf|done|by intros y []|].
  unfold lab_old_order. simpl. int_bounds. lia.
Qed.

Lemma short_hash (o : GiftOrder) (req : GiftRequest) : go_BodyHash o = [] → go_BodyHash o ≠ gift_hash req.
Proof.
  intros -> Heq. apply (f_equal length) in Heq.
  assert (Hl : length (gift_hash req) = 32%nat) by apply Sum256_length. by rewrite <- Heq in Hl.
Qed.

Lemma gift_payload_mismatch_witness : (run (SendGift lab_gift) lab_old).1 = App errPayloadMismatch.
Proof.
  exact (proj1 (gift_payload_mismatch lab_env lab_old lab_gift lab_old_order lab_quiet eq_refl
    lab_old_wf lab_gift_typed eq_refl eq_refl
    (short_hash lab_old_order lab_gift eq_refl))).
Defined.

(** ** Recharges *)

(** What a created recharge did. *)
Lemma recharge_atomic_created `{MySQL} t c req ts1 ts2 ts3 resp :
  (recharge_atomic t c req ts1 ts2 ts3).1.1 = Ok resp → rs_Idempotency resp = "created" →
  recharge_invalid req = None
  ∧ List.find (same_recharge (rc_ViewerID req) (rc_RequestID req)) (recharge_requests t) = None
  ∧ recharge_error t c req = None
  ∧ resp = recharge_created t c req
  ∧ (recharge_atomic t c req ts1 ts2 ts3).1.2 = recharge_commit t c req ts1 ts2 ts3.
Proof.
  unfold recharge_atomic. intros Hout Hcr. destruct (recharge_invalid req); [done|].
  destruct (List.find _ _) as [q|].
  { destruct (bytesEqual _ _); simplify_eq/=. }
  destruct (recharge_error t c req); simplify_eq/=. done.
Qed.

(** C14. A recharge credits exactly what was bought. If any run answers with a created recharge,
    the balance of the viewer has grown by the coins of the request, in int64 arithmetic, no other
    balance has changed, and the coins are between 1 and 100000. *)
Theorem recharge_credits `{MySQLLaws} (env : Env) d req resp :
  idle d → wf (tables d) (counters d) → recharge_typed req →
  (run (Recharge req) d).1 = Ok resp → rs_Idempotency resp = "created" →
  1 ≤ rc_Coins req ≤ 100000
  ∧ rs_NewBalance resp = int64 (balance_of (tables d) (rc_ViewerID req) + rc_Coins req)
  ∧ ∀ u, balance_of (tables (run (Recharge req) d).2) u
         = if u =? rc_ViewerID req then rs_NewBalance resp else balance_of (tables d) u.
Proof.
  intros Hi Hwf Hty Hout Hcr.
  destruct (Recharge_run true env d req ltac:(done) Hi Hwf Hty) as (_ & ts1 & ts2 & ts3 & Hs).
  destruct Hs as [(Ha & -> & _)|(_ & Ha & _)]; [|congruence]. rewrite Hout in Ha. symmetry in Ha.
  destruct (recharge_atomic_created _ _ _ _ _ _ _ Ha Hcr) as (Hval & Hnew & Herr & -> & ->).
  split; [by apply recharge_coins|]. split; [done|]. intros u.
  rewrite recharge_commit_eq by done.
  apply (money_balance (recharge_tx_row (counters d) req ts1)).
Qed.

Definition lab_recharged : RechargeResponse :=
  {| rs_TxID := 1; rs_ViewerID := 2001; rs_CoinsAdded := 500; rs_NewBalance := 1500;
     rs_Idempotency := "created" |}.

Lemma lab_recharge_run : (run (Recharge lab_recharge) lab).1 = Ok lab_recharged.
Proof. reflexivity. Qed.

Lemma recharge_credits_witness : 1 ≤ rc_Coins lab_recharge ≤ 100000.
Proof.
  exact (proj1 (recharge_credits lab_env lab lab_recharge lab_recharged eq_refl seed_wf
    lab_recharge_typed lab_recharge_run eq_refl)).
Defined.

(** C15. A recharge is replayed. If a run answers with a created recharge, whatever failed in
    it, the next run of the same request, without failures, answers with the same transaction, coins
    and balance, marked as replayed, and changes nothing. *)
Theorem recharge_replayed `{MySQLLaws} (env1 env2 : Env) d req resp :
  idle d → wf (tables d) (counters d) → recharge_typed req → quiet env2 →
  let r1 := run (H:=@sql_handler env1) (Recharge req) d in
  r1.1 = Ok resp → rs_Idempotency resp = "created" →
  let r2 := run (H:=@sql_handler env2) (Recharge req) r1.2 in
  r2.1 = Ok {| rs_TxID := rs_TxID resp; rs_ViewerID := rs_ViewerID resp;
               rs_CoinsAdded := rs_CoinsAdded resp; rs_NewBalance := rs_NewBalance resp;
               rs_Idempotency := "replayed" |}
  ∧ tables r2.2 = tables r1.2.
Proof.
  intros Hi Hwf Hty Hq r1 Hr1 Hcr r2.
  destruct (Recharge_wf env1 d req Hi Hwf Hty) as [Hi1 Hwf1]. fold r1 in Hi1, Hwf1.
  destruct (Recharge_run true env1 d req ltac:(done) Hi Hwf Hty) as (_ & ts1 & ts2 & ts3 & Hs1).
  fold r1 in Hs1. destruct Hs1 as [(Hout & Ht & _)|(_ & Hout & _)]; [|congruence].
  rewrite Hr1 in Hout. symmetry in Hout.
  destruct (recharge_atomic_created _ _ _ _ _ _ _ Hout Hcr) as (Hval & Hnew & Herr & -> & Hcom).
  rewrite Hcom in Ht.
  destruct (Recharge_run false env2 r1.2 req ltac:(done) Hi1 Hwf1 Hty) as (_ & u1 & u2 & u3 & Hs2).
  apply settles_quiet in Hs2 as (Hout2 & Ht2 & _). fold r2 in Hout2, Ht2.
  assert (Hst : List.find (same_recharge (rc_ViewerID req) (rc_RequestID req))
            (recharge_requests (tables r1.2)) = Some (recharge_row (tables d) (counters d) req ts2)).
  { rewrite Ht. simpl. rewrite find_app, Hnew. simpl. unfold same_recharge.
    by rewrite Z.eqb_refl, coll_eq_refl. }
  unfold recharge_atomic in Hout2, Ht2. rewrite Hval, Hst in Hout2, Ht2. cbn [recharge_row rq_BodyHash] in Hout2, Ht2.
  rewrite bytesEqual_refl in Hout2, Ht2. by rewrite Hout2, Ht2.
Qed.

Lemma recharge_replayed_witness :
  (run (Recharge lab_recharge) (run (Recharge lab_recharge) lab).2).1
  = Ok {| rs_TxID := 1; rs_ViewerID := 2001; rs_CoinsAdded := 500; rs_NewBalance := 1500;
          rs_Idempotency := "replayed" |}.
Proof.
  exact (proj1 (recharge_replayed lab_env lab_env lab lab_recharge lab_recharged eq_refl seed_wf
    lab_recharge_typed lab_quiet lab_recharge_run eq_refl)).
Defined.

(** C16. One rejection is replayed with another text. Of the rejections of the policy, exactly
    CREATOR_NOT_ELIGIBLE is answered with one message when it is made and with another when it is
    replayed; for every other code the replay repeats the original answer. *)
Theorem replay_message_differs `{MySQL} `{Unicode} t req code status base :
  gift_decide t req = DReject code status base →
  (mapRejectCodeToAppError code ≠ gift_rejection code status ↔ code = "CREATOR_NOT_ELIGIBLE").
Proof.
  intros Hd. apply gift_decide_codes in Hd.
  repeat destruct Hd as [[= <- <-]|Hd]; try done;
    (split; [intros Hne; by destruct Hne|done]).
Qed.

Lemma replay_message_differs_witness :
  mapRejectCodeToAppError "CREATOR_NOT_ELIGIBLE" ≠ gift_rejection "CREATOR_NOT_ELIGIBLE" 403.
Proof.
  exact (proj2 (replay_message_differs seed_tables lab_minor_gift "CREATOR_NOT_ELIGIBLE" 403
    seed_tables eq_refl) eq_refl).
Defined.
