(* ===== verification/Sessions.v ===== *)
(** * Sessions: closing, settlement, rankings, activity

    The properties of the operations on live sessions (src/internal/service/settlement.go,
    read_models.go and internal_events.go) and of the outbox they feed, on runs of the programs. *)

From stdpp Require Import sorting.
From S2P Require Import Prelude GoInt GoStrings Sha256 Json Schema Prog Sql Wp Events Ledger WellFormed Preserve Money Recharge Gift GiftSpec Invariants InternalEvents ReadModels Settlement Reconcile System Wp2 Relay Runs Lab.

(** ** Settlement *)

(** The answer read back from the rows just written; no clock reading is part of it. *)
Lemma get_settlement_commit `{MySQL} t sid gross count diamonds debit ts1 ts2 :
  let details := marshal (settlement_details debit gross) in
  get_settlement (settle_commit t sid (gross, count, diamonds, debit) ts1 ts2) sid
  = match scan_rows Build_ContributorSummary (take 20 (contributor_ranking t sid)) with
    | RErr e => Err e
    | ROk top =>
        Ok {| st_LiveSessionID := sid; st_GrossCoinSpend := gross; st_AcceptedGiftCount := count;
              st_DiamondRewardTotal := diamonds; st_TopContributors := top;
              st_ReconciliationStatus := if negb (debit =? gross) then "FAIL" else "PASS";
              st_WalletGiftDebitTotal := debit; st_GiftOrderCoinTotal := gross;
              st_MismatchCount := if negb (debit =? gross) then 1 else 0;
              st_ReconciliationDetails := default details (json_store details) |}
    end.
Proof.
  intros details. set (t' := settle_commit _ _ _ _ _).
  assert (Hrows : settlement_rows t' sid = Some
    ({| ss_LiveSessionID := sid; ss_GrossCoinSpend := gross; ss_AcceptedGiftCount := count;
        ss_DiamondRewardTotal := diamonds; ss_GeneratedAt := ts1 |},
     {| rr_LiveSessionID := sid; rr_Status := rr_Status (reconcile sid debit gross ts2);
        rr_WalletGiftDebitTotal := debit; rr_GiftOrderCoinTotal := gross;
        rr_MismatchCount := rr_MismatchCount (reconcile sid debit gross ts2);
        rr_DetailsJson := default (rr_DetailsJson (reconcile sid debit gross ts2))
                            (json_store (rr_DetailsJson (reconcile sid debit gross ts2)));
        rr_GeneratedAt := ts2 |})).
  { unfold settlement_rows, t'. simpl. by rewrite !lookup_insert_eq. }
  unfold get_settlement. rewrite Hrows.
  change (contributor_ranking t' sid) with (contributor_ranking t sid).
  unfold reconcile, details. by destruct (scan_rows _ _), (negb (debit =? gross)).
Qed.

(** What a settlement reports when its totals agree. *)
Lemma settle_atomic_pass `{MySQLLaws} opening t c sid s ts1 ts2 :
  wf t c → ledger_ok opening t → live_sessions t !! sid = Some s →
  let '(gross, count, diamonds) := session_totals t sid in
  gross ≤ max_int64 → diamonds ≤ max_int64 →
  ∃ resp, (settle_atomic t c sid ts1 ts2).1.1 = ROk resp
    ∧ st_ReconciliationStatus resp = "PASS" ∧ st_MismatchCount resp = 0
    ∧ st_GrossCoinSpend resp = gross ∧ st_AcceptedGiftCount resp = count
    ∧ st_DiamondRewardTotal resp = diamonds
    ∧ st_WalletGiftDebitTotal resp = gross ∧ st_GiftOrderCoinTotal resp = gross
    ∧ st_TopContributors resp
      = map (λ x, Build_ContributorSummary x.1 x.2) (take 20 (contributor_ranking t sid)).
Proof.
  intros Hwf Hl Hs. pose proof (settle_totals_ok opening t c Hwf Hl sid s Hs) as Htot.
  destruct (session_totals t sid) as [[gross count] diamonds] eqn:E. intros Hg Hd.
  specialize (Htot Hg Hd). unfold settle_atomic. rewrite Htot. cbn [fst snd].
  injection E as Egross _ _. rewrite get_settlement_commit.
  rewrite (contributors_scanned opening t Hl sid 20) by (by rewrite Egross).
  eexists. split; [done|]. simpl. by rewrite Z.eqb_refl.
Qed.

(** C17. Reconciliation passes. In every database reachable from one that satisfies the invariant,
    for every session whose totals fit an int64, [GenerateSettlement] run without failures succeeds
    and reports PASS with no mismatch: the wallet debits joined to the accepted orders sum to
    exactly what the orders charged. *)
Theorem reconciliation_passes `{MySQLLaws} `{Unicode} `{ErrorText} (env : Env) opening d d' sid s :
  service_ok opening d → rtc service_step d d' → quiet env →
  live_sessions (tables d') !! sid = Some s →
  (session_totals (tables d') sid).1.1 ≤ max_int64 → (session_totals (tables d') sid).2 ≤ max_int64 →
  ∃ resp, (run (GenerateSettlement sid) d').1 = ROk resp
    ∧ st_ReconciliationStatus resp = "PASS" ∧ st_MismatchCount resp = 0
    ∧ st_GrossCoinSpend resp = (session_totals (tables d') sid).1.1
    ∧ st_WalletGiftDebitTotal resp = st_GrossCoinSpend resp.
Proof.
  intros Hok Hr Hq Hs Hg Hd. destruct (reachable_ok opening d d' Hr Hok) as [Hi [Hwf Hl]].
  destruct (Settle_run false env d' sid ltac:(done) Hi) as (_ & ts1 & ts2 & Hset).
  apply settles_quiet in Hset as (Hout & _ & _).
  pose proof (settle_atomic_pass opening _ (counters d') sid s ts1 ts2 Hwf Hl Hs) as Hpass.
  destruct (session_totals (tables d') sid) as [[gross count] diamonds]. simpl in *.
  destruct (Hpass Hg Hd) as (resp & Hresp & Hst & Hmm & Hgr & _ & _ & Hdb & _).
  exists resp. rewrite Hout, Hresp. split_and!; congruence.
Qed.

(** After a recharge and a gift of ten coins. *)
Lemma reconciliation_passes_witness :
  ∃ resp, (run (GenerateSettlement 9001) lab_after).1 = ROk resp
    ∧ st_ReconciliationStatus resp = "PASS" ∧ st_GrossCoinSpend resp = 10.
Proof.
  destruct (reconciliation_passes lab_env seed_opening lab lab_after 9001
    (seed_session 9001 1001 (Some 7001)).2 lab_ok lab_after_reachable lab_quiet eq_refl
    ltac:(vm_compute; discriminate) ltac:(vm_compute; discriminate)) as (resp & Hr & Hp & _ & Hg & _).
  exists resp. split; [assumption|]. split; [assumption|]. rewrite Hg. reflexivity.
Defined.

(** C18. Settlement is repeatable. Once [GenerateSettlement] has answered, generating the settlement
    again right after, without failures and whatever the clock reads, gives the same answer. *)
Theorem settlement_repeatable `{MySQLLaws} `{ErrorText} (env1 env2 : Env) d sid resp :
  idle d → quiet env2 →
  let r1 := run (H:=@sql_handler env1) (GenerateSettlement sid) d in
  r1.1 = ROk resp →
  (run (H:=@sql_handler env2) (GenerateSettlement sid) r1.2).1 = ROk resp.
Proof.
  intros Hi Hq r1 Hr1.
  destruct (Settle_run true env1 d sid ltac:(done) Hi) as (Hi1 & ts1 & ts2 & Hs1). fold r1 in Hi1, Hs1.
  destruct Hs1 as [(Hout & Ht & _)|(_ & Hout & _)]; [|congruence].
  destruct (Settle_run false env2 r1.2 sid ltac:(done) Hi1) as (_ & u1 & u2 & Hs2).
  apply settles_quiet in Hs2 as (-> & _ & _). rewrite Hr1 in Hout. symmetry in Hout.
  rewrite Ht. unfold settle_atomic in *.
  destruct (settle_totals (tables d) sid) as [totals|e] eqn:Et; [|done]. cbn [fst snd] in *.
  assert (Hsame : settle_totals (settle_commit (tables d) sid totals ts1 ts2) sid = ROk totals).
  { by destruct totals as [[[gross count] diamonds] debit]. }
  rewrite Hsame. cbn [fst snd]. rewrite <- Hout. f_equal.
  destruct totals as [[[gross count] diamonds] debit]. by rewrite !get_settlement_commit.
Qed.

Definition lab_settlement : SettlementResponse :=
  {| st_LiveSessionID := 9001; st_GrossCoinSpend := 0; st_AcceptedGiftCount := 0;
     st_DiamondRewardTotal := 0; st_TopContributors := []; st_ReconciliationStatus := "PASS";
     st_WalletGiftDebitTotal := 0; st_GiftOrderCoinTotal := 0; st_MismatchCount := 0;
     st_ReconciliationDetails := marshal (settlement_details 0 0) |}.

Lemma settlement_repeatable_witness :
  (run (GenerateSettlement 9001) (run (GenerateSettlement 9001) lab).2).1 = ROk lab_settlement.
Proof.
  exact (settlement_repeatable lab_env lab_env lab 9001 lab_settlement eq_refl lab_quiet eq_refl).
Defined.

(** ** Rankings *)

(** C19. The contributors are the top of the ranking. For a database that satisfies the invariant
    and a session whose accepted gifts sum to at most an int64, [GetLiveContributors] run without
    failures succeeds, changes no table and answers with exactly the first rows of the full ranking:
    as many as the limit asks for when it is between 1 and 100, and 20 otherwise. The full ranking
    has one row for each viewer with an accepted gift in the session, and no other row; the row has
    the sum of what those gifts charged; and the rows are in decreasing order of coins, those with
    equal coins in increasing order of viewer. *)
Theorem contributors_are_top `{MySQLLaws} (env : Env) opening d sid limit :
  quiet env → idle d → db_ok opening (tables d) (counters d) →
  let rows := where_ (λ o, (go_LiveSessionID o =? sid)
                           && bool_decide (go_Status o = GiftOrdersStatusACCEPTED)) (gift_orders (tables d)) in
  let n := if decide (1 ≤ limit ≤ 100) then limit else 20 in
  sum_of go_ChargedCoins rows ≤ max_int64 →
  let r := run (GetLiveContributors sid limit) d in
  tables r.2 = tables d ∧
  ∃ out full, r.1 = ROk out
    ∧ map (λ x, (cs_ViewerID x, cs_Coins x)) out = take (Z.to_nat n) full
    ∧ (∀ viewer coins, In (viewer, coins) full ↔
         (∃ o, In o rows ∧ go_ViewerID o = viewer)
         ∧ coins = sum_of go_ChargedCoins (where_ (λ o, go_ViewerID o =? viewer) rows))
    ∧ StronglySorted (λ x y, y.2 < x.2 ∨ (y.2 = x.2 ∧ x.1 < y.1)) full.
Proof.
  intros Hq Hi [Hwf Hl] rows n Hmax r.
  set (full := contributor_ranking (tables d) sid).
  assert (Hn : effective_limit limit = n).
  { unfold n, effective_limit. destruct (_ || _) eqn:E; case_decide; bool_to_prop; lia. }
  assert (Hr : tables r.2 = tables d
    ∧ r.1 = ROk (map (λ x, Build_ContributorSummary x.1 x.2) (take (Z.to_nat n) full))).
  { apply (wp_run false env _ (λ out t' _ _, t' = tables d ∧ out = _) d); [done|done|].
    rewrite <- Hn. apply wp_read; [done|]. split; [done|]. by apply (contributors_scanned opening). }
  destruct Hr as [Ht Hr]. split; [done|]. eexists _, full. split; [exact Hr|]. split_and!.
  - rewrite map_map. simpl. rewrite <- (map_id (take _ full)) at 2. apply map_ext. by intros [].
  - intros viewer coins. apply ranking_In.
  - apply ranking_strict.
Qed.

(** Two more viewers give in the session of the lab: 2002 thirty coins, 1002 ten, like 2001. *)
Definition lab_gift_of (request : string) (viewer : Z) (gift : string) : GiftRequest :=
  {| gq_RequestID := request; gq_ViewerID := viewer; gq_CreatorID := 1001; gq_LiveSessionID := 9001;
     gq_MatchID := None; gq_GiftID := gift; gq_Quantity := 1; gq_SentAtMS := 2000 |}.

Definition lab_three : Db :=
  (run (SendGift (lab_gift_of "g-12" 1002 "GG")) (run (SendGift (lab_gift_of "g-11" 2002 "DONUT")) lab_after).2).2.

Lemma lab_three_reachable : rtc service_step lab lab_three.
Proof.
  etrans; [apply lab_after_reachable|].
  eapply rtc_l; [|apply rtc_once]; (eapply (op_run lab_env _ (OpSendGift _)); [reflexivity|]);
    unfold op_typed, gift_typed; int_bounds; simpl; lia.
Qed.

(** The first two of the three: the third has as many coins as the second and a larger id. *)
Lemma contributors_are_top_witness :
  ∃ full, (run (GetLiveContributors 9001 2) lab_three).1
          = ROk [Build_ContributorSummary 2002 30; Build_ContributorSummary 1002 10]
    ∧ take 2 full = [(2002, 30); (1002, 10)] ∧ In (2001, 10) full.
Proof.
  destruct (reachable_ok seed_opening lab lab_three lab_three_reachable lab_ok) as [Hi Hok].
  destruct (contributors_are_top lab_env seed_opening lab_three 9001 2 lab_quiet Hi Hok
    ltac:(vm_compute; discriminate)) as (_ & out & full & Hr & Htake & Hin & _).
  assert (Hrun : (run (GetLiveContributors 9001 2) lab_three).1
    = ROk [Build_ContributorSummary 2002 30; Build_ContributorSummary 1002 10]) by (vm_compute; reflexivity).
  exists full. split; [exact Hrun|]. rewrite Hrun in Hr. injection Hr as <-. split; [symmetry; exact Htake|].
  apply Hin. split; [|vm_compute; reflexivity].
  assert (Hex : existsb (λ o, go_ViewerID o =? 2001) (where_ (λ o, (go_LiveSessionID o =? 9001)
    && bool_decide (go_Status o = GiftOrdersStatusACCEPTED)) (gift_orders (tables lab_three))) = true)
    by (vm_compute; reflexivity).
  apply existsb_exists in Hex as (o & Ho & Heq). exists o. split; [exact Ho|]. apply Z.eqb_eq. exact Heq.
Defined.

(** ** Closing *)

(** C20. A session closes once. If any run of [CloseLiveSession] answers with success, the session
    was open and is now closed, the only other change is one close event at the end of the outbox,
    and every later attempt that is not cut off answers 409 LIVE_SESSION_CLOSED and changes
    nothing. *)
Theorem session_closes_once `{MySQLLaws} `{ErrorText} (env1 env2 : Env) d sid :
  idle d → is_uint64 sid → quiet env2 →
  let r1 := run (H:=@sql_handler env1) (CloseLiveSession sid) d in
  r1.1 = None →
  (∃ s ts e, live_sessions (tables d) !! sid = Some s ∧ ls_Status s = LiveSessionsStatusOPEN
     ∧ live_sessions (tables r1.2) = <[sid := close_session ts s]> (live_sessions (tables d))
     ∧ outbox_events (tables r1.2) = outbox_events (tables d) ++ [e] ∧ ob_Topic e = sessionClosedTopic
     ∧ same_money (tables d) (tables r1.2) ∧ gift_orders (tables r1.2) = gift_orders (tables d))
  ∧ let r2 := run (H:=@sql_handler env2) (CloseLiveSession sid) r1.2 in
    r2.1 = Some errSessionClosed ∧ tables r2.2 = tables r1.2.
Proof.
  intros Hi Hid Hq r1 Hr1.
  destruct (Close_run true env1 d sid ltac:(done) Hi Hid) as (Hi1 & ms & ts1 & ts2 & Hs1).
  fold r1 in Hi1, Hs1. destruct Hs1 as [(Hout & Ht & _)|(_ & Hout & _)]; [|congruence].
  rewrite Hr1 in Hout. unfold close_atomic in Hout, Ht.
  destruct (sid =? 0) eqn:E0; [done|].
  destruct (live_sessions (tables d) !! sid) as [s|] eqn:Es; [|done].
  destruct (ls_Status s) eqn:Est; [|done]. destruct (max_uint64 <? _); [done|]. simpl in Ht.
  assert (Hls : live_sessions (tables r1.2) = <[sid := close_session ts1 s]> (live_sessions (tables d))).
  { rewrite Ht. simpl. apply map_eq. intros i. destruct (decide (i = sid)) as [->|Hne].
    - by rewrite lookup_alter_eq, lookup_insert_eq, Es.
    - by rewrite lookup_alter_ne, lookup_insert_ne. }
  split.
  - eexists s, ts1, _. split_and!; [done|done|done|by rewrite Ht|done|by rewrite Ht|by rewrite Ht].
  - intros r2. destruct (Close_run false env2 r1.2 sid ltac:(done) Hi1 Hid) as (_ & u & u1 & u2 & Hs2).
    apply settles_quiet in Hs2 as (Hout2 & Ht2 & _). fold r2 in Hout2, Ht2. rewrite Hout2, Ht2. unfold close_atomic.
    by rewrite E0, Hls, lookup_insert_eq.
Qed.

Lemma session_closes_once_witness :
  (run (CloseLiveSession 9001) (run (CloseLiveSession 9001) lab).2).1 = Some errSessionClosed.
Proof.
  assert (Hid : is_uint64 9001) by (split; vm_compute; discriminate).
  exact (proj1 (proj2 (session_closes_once lab_env lab_env lab 9001 eq_refl Hid lab_quiet eq_refl))).
Defined.

(** C21. A closed session takes no money. On tables where the session of the request is closed, no
    run of [SendGift], with any failures, moves any money; and a valid new request, run without
    failures, is answered 409 LIVE_SESSION_CLOSED or with an error of the database. *)
Theorem closed_session_takes_no_money `{MySQLLaws} `{Unicode} (env : Env) d req s :
  idle d → wf (tables d) (counters d) → gift_typed req →
  live_sessions (tables d) !! gq_LiveSessionID req = Some s → ls_Status s = LiveSessionsStatusCLOSED →
  let r := run (SendGift req) d in
  same_money (tables d) (tables r.2)
  ∧ (quiet env → gift_invalid req = None → stored_order (tables d) req = None →
     r.1 = App (gift_rejection "LIVE_SESSION_CLOSED" 409) ∨ ∃ e, r.1 = Err e).
Proof.
  intros Hi Hwf Hty Hs Hcl r.
  assert (Hdec : gift_decide (tables d) req = DFail ErrScan
    ∨ gift_decide (tables d) req = DReject "LIVE_SESSION_CLOSED" 409 (tables d)).
  { unfold gift_decide. rewrite Hs, Hcl. unfold scan_null_int64, scan_int64.
    repeat (case_match; simplify_eq); auto. }
  split.
  - destruct (SendGift_run true env d req ltac:(done) Hi Hwf Hty) as (_ & ts1 & ts2 & ts3 & ts4 & Hset).
    assert (Ht : tables r.2 = tables d
      ∨ tables r.2 = (gift_atomic (tables d) (counters d) req ts1 ts2 ts3 ts4).1.2).
    { unfold r. destruct Hset as [(_ & -> & _)|(_ & _ & [[-> _]|[-> _]])]; auto. }
    destruct Ht as [->| ->]; [done|]. unfold gift_atomic. destruct (gift_invalid req); [done|].
    destruct (stored_order (tables d) req); [done|].
    destruct Hdec as [->| ->]; [done|]. by destruct (reject_error (counters d) req).
  - intros Hq Hval Hnew.
    destruct (SendGift_run false env d req ltac:(done) Hi Hwf Hty) as (_ & ts1 & ts2 & ts3 & ts4 & Hset).
    apply settles_quiet in Hset as (Hout & _). fold r in Hout. unfold gift_atomic in Hout.
    rewrite Hval, Hnew in Hout. destruct Hdec as [Hd|Hd]; rewrite Hd in Hout; simpl in Hout; [eauto|].
    destruct (reject_error (counters d) req); simpl in Hout; eauto.
Qed.

(** The lab with session 9001 closed. *)
Definition lab_closed : Db := (run (CloseLiveSession 9001) lab).2.

Lemma lab_closed_wf : wf (tables lab_closed) (counters lab_closed).
Proof.
  assert (Hstep : service_step lab lab_closed).
  { apply (op_run lab_env (CloseLiveSession 9001) (OpClose 9001)); [done|].
    split; vm_compute; discriminate. }
  by destruct (service_step_ok seed_opening lab lab_closed Hstep lab_ok) as [_ [Hwf _]].
Qed.

Lemma closed_session_takes_no_money_witness :
  same_money (tables lab_closed) (tables (run (SendGift lab_gift) lab_closed).2).
Proof.
  exact (proj1 (closed_session_takes_no_money lab_env lab_closed lab_gift
    (close_session 2 (seed_session 9001 1001 (Some 7001)).2) eq_refl lab_closed_wf lab_gift_typed
    eq_refl eq_refl)).
Defined.

(** ** The outbox *)

(** C22. Nothing happens without its event. In every reachable database each wallet transaction has
    an event in the outbox with its id, type, user, request and amount, and each gift order has one
    with its fields, of the accepted or of the rejected topic. *)
Theorem outbox_complete `{MySQLLaws} `{Unicode} `{ErrorText} opening d d' :
  service_ok opening d → rtc service_step d d' →
  let t := tables d' in
  (∀ r, In r (wallet_transactions t) → ∃ e a balance,
     In e (outbox_events t) ∧ ob_Topic e = walletTopic
     ∧ postings t (wt_TxID r) = map (entry_row (wt_TxID r)) (posting_entries r a)
     ∧ json_store (marshal (to_json
         {| ev_TxID := wt_TxID r; ev_TxType := enum_text (wt_TxType r);
            ev_ActorUserID := wt_ActorUserID r; ev_RequestID := wt_RequestID r;
            ev_DeltaCoins := a; ev_BalanceAfter := balance |})) = Some (ob_PayloadJson e))
  ∧ ∀ o, In o (gift_orders t) → order_announced t o.
Proof.
  intros Hok Hr. destruct (reachable_ok opening d d' Hr Hok) as [_ [_ Hl]]. split.
  - intros r Hin. destruct (lo_tx_event _ _ Hl r Hin) as (e & a & b & He & [_ Hp] & Ht & Hd).
    exists e, a, b. done.
  - apply (lo_order_event _ _ Hl).
Qed.

Lemma outbox_complete_witness :
  List.Forall (order_announced (tables lab_after)) (gift_orders (tables lab_after)).
Proof.
  apply List.Forall_forall.
  exact (proj2 (outbox_complete seed_opening lab lab_after lab_ok lab_after_reachable)).
Defined.

(** ** Watch minutes *)

(** C23. One event per minute. For fewer than 65535 minutes, [EnqueueWatchMinuteEvents] run without
    failures on a well-formed database whose event counter is not exhausted ends within one
    iteration per minute and the final test, answers with the number of minutes, and appends exactly
    that many unpublished events, in order, with consecutive ids and the numbered payloads. *)
Theorem watch_minutes_exact `{MySQLLaws} `{ErrorText} (env : Env) d req fuel :
  quiet env → idle d → is_uint64 (iw_LiveSessionID req) → watch_invalid req = false →
  0 ≤ iw_Minutes req < max_uint16 → (Z.to_nat (iw_Minutes req) < fuel)%nat →
  next_event_id (counters d) + iw_Minutes req - 1 ≤ max_uint64 →
  let r := run (EnqueueWatchMinuteEvents fuel req) d in
  r.1 = Some (Ok (iw_Minutes req))
  ∧ ∃ evs, tables r.2 = set_outbox_events (λ l, l ++ evs) (tables d)
      ∧ Z.of_nat (length evs) = iw_Minutes req
      ∧ ∀ k e, evs !! k = Some e →
          ob_EventID e = next_event_id (counters d) + Z.of_nat k ∧ ob_Topic e = watchTopic
          ∧ ob_EventKey e = FormatUint (iw_LiveSessionID req) ∧ ob_PublishedAt e = None
          ∧ json_store (marshal (to_json (watch_payload req (1 + Z.of_nat k))))
            = Some (ob_PayloadJson e).
Proof.
  intros Hq Hi Hid Hval Hm Hfuel Hmax r.
  destruct (wp_run false env _ _ d ltac:(done) Hi
    (EnqueueWatchMinuteEvents_refines false fuel (tables d) (counters d) req Hid Hm Hfuel))
    as (_ & o & tss & Hout & Hlen & Hs). fold r in Hout, Hs.
  apply settles_quiet in Hs as (Ho & Ht & _). unfold watch_atomic in Ho, Ht.
  rewrite Hval, (proj2 (Z.ltb_ge _ _) Hmax) in Ho, Ht.
  destruct (add_minutes_outbox req tss 1 (tables d) (counters d)) as (evs & Hevs & Hl & Hrows).
  destruct (add_minutes req 1 tss (tables d) (counters d)) as [t' c']. simpl in *. subst t' o.
  split; [done|]. exists evs. split_and!; [done|lia|done].
Qed.

Definition lab_watch : InternalWatchMinutesRequest :=
  {| iw_EventID := "w"; iw_ViewerID := 2001; iw_CreatorID := 1001; iw_LiveSessionID := 9001;
     iw_Minutes := 3 |}.

Lemma watch_minutes_exact_witness : (run (EnqueueWatchMinuteEvents 4 lab_watch) lab).1 = Some (Ok 3).
Proof.
  assert (Hid : is_uint64 (iw_LiveSessionID lab_watch)) by (split; vm_compute; discriminate).
  assert (Hm : 0 ≤ iw_Minutes lab_watch < max_uint16) by (split; [vm_compute; discriminate|reflexivity]).
  assert (Hf : (Z.to_nat (iw_Minutes lab_watch) < 4)%nat) by (vm_compute; repeat constructor).
  assert (Hx : next_event_id (counters lab) + iw_Minutes lab_watch - 1 ≤ max_uint64)
    by (vm_compute; discriminate).
  exact (proj1 (watch_minutes_exact lab_env lab lab_watch 4 lab_quiet eq_refl Hid eq_refl Hm Hf Hx)).
Defined.

(** The loop at the largest count, as long as the event counter lasts: it is still running. *)
Lemma watch_loop_runs `{MySQLLaws} `{ErrorText} req t fuel : ∀ i d v,
  iw_Minutes req = max_uint16 → is_uint16 i → is_uint64 (iw_LiveSessionID req) →
  next_event_id d + Z.of_nat fuel ≤ max_uint64 →
  wp false (watch_loop fuel req i) (λ a t' _ _, a = None ∧ t' = t) t d (Some v).
Proof.
  induction fuel as [|fuel IH]; intros i d v Hm Hi Hid Hmax; simpl; [by apply wp_ret|].
  rewrite (proj2 (Z.leb_le _ _)) by (int_bounds; lia).
  apply wp_try, wp_ret, wp_bind, wp_now. intros ts. apply wp_try, wp_insert_auto; [done|lia|..].
  - intros n _ Hn. by rewrite outbox_accepts in Hn by (done || simpl; lia).
  - intros _ _. apply IH; [done| |done|simpl; lia]. int_bounds.
    pose proof (Z.mod_pos_bound (i + 1) (65535 + 1)). lia.
Qed.

(** C24. 65535 minutes never end. For a request of 65535 minutes, which passes validation, the
    uint16 loop counter wraps to 0 before it can exceed the bound: run without failures, the
    operation is still in its loop after any number of iterations the event counter allows, with
    nothing committed. *)
Theorem watch_minutes_never_end `{MySQLLaws} `{ErrorText} (env : Env) d req fuel :
  quiet env → idle d → is_uint64 (iw_LiveSessionID req) → watch_invalid req = false →
  iw_Minutes req = max_uint16 → next_event_id (counters d) + Z.of_nat fuel ≤ max_uint64 →
  let r := run (EnqueueWatchMinuteEvents fuel req) d in r.1 = None ∧ tables r.2 = tables d.
Proof.
  intros Hq Hi Hid Hval Hm Hmax.
  apply (wp_run false env _ (λ a t' _ _, a = None ∧ t' = tables d) d); [done|done|].
  unfold EnqueueWatchMinuteEvents. rewrite Hval. apply wp_with_tx; [done|].
  by apply watch_loop_runs.
Qed.

Definition lab_watch_max : InternalWatchMinutesRequest :=
  {| iw_EventID := "w"; iw_ViewerID := 2001; iw_CreatorID := 1001; iw_LiveSessionID := 9001;
     iw_Minutes := 65535 |}.

Lemma watch_minutes_never_end_witness :
  (run (EnqueueWatchMinuteEvents (Z.to_nat 70000) lab_watch_max) lab).1 = None.
Proof.
  assert (Hid : is_uint64 (iw_LiveSessionID lab_watch_max)) by (split; vm_compute; discriminate).
  assert (Hx : next_event_id (counters lab) + Z.of_nat (Z.to_nat 70000) ≤ max_uint64)
    by (rewrite Z2Nat.id; vm_compute; discriminate).
  exact (proj1 (watch_minutes_never_end lab_env lab lab_watch_max (Z.to_nat 70000) lab_quiet eq_refl Hid eq_refl
    eq_refl Hx)).
Defined.
