(* ===== verification/Pipeline.v ===== *)
(** * The event pipeline

    The service with the relay next to it, and the projectors behind it, as transition systems: the
    facts that hold along every sequence of steps. *)

From S2P Require Import Prelude GoInt GoStrings Sha256 Json Schema Prog Sql Wp Events Ledger WellFormed Preserve Money Recharge Gift GiftSpec Invariants InternalEvents ReadModels Settlement Reconcile System Points Wp2 Relay Announce Runs.

(** ** The outbox only grows *)

(** New rows at the end of the outbox, none of them published; its old rows and the tables of the
    projectors untouched; orders and campaigns kept. *)
Record outbox_grows (t t' : Tables) : Prop := {
  og_outbox : ∃ evs, outbox_events t' = outbox_events t ++ evs ∧ ∀ e, In e evs → unpublished e = true;
  og_dedupe : consumer_dedupe t' = consumer_dedupe t;
  og_points : fan_point_ledger t' = fan_point_ledger t;
  og_later : later t t' }.

#[export] Instance outbox_grows_preorder : PreOrder outbox_grows.
Proof.
  split.
  - intros t. split; [|done..]. exists []. by rewrite app_nil_r.
  - intros t1 t2 t3 [(e1 & H1 & U1) D1 P1 L1] [(e2 & H2 & U2) D2 P2 L2].
    split; [|congruence|congruence|by etrans]. exists (e1 ++ e2). rewrite H2, H1, app_assoc.
    split; [done|]. intros e He. apply in_app_or in He as [He|He]; auto.
Qed.

Lemma outbox_grows_same t t' :
  outbox_events t' = outbox_events t → consumer_dedupe t' = consumer_dedupe t →
  fan_point_ledger t' = fan_point_ledger t → later t t' → outbox_grows t t'.
Proof. intros Ht Hd Hp. split; [|done..]. exists []. by rewrite app_nil_r. Qed.

Lemma outbox_grows_add `{MySQL} topic key payload ts id t :
  outbox_grows t (add_outbox topic key payload ts id t).
Proof.
  split; [|done..|by apply later_same]. eexists [_]. split; [done|]. by intros e [<-|[]].
Qed.

(** A change of other tables and one new event. *)
Lemma outbox_grows_event `{MySQL} topic key payload ts id t0 t :
  outbox_events t = outbox_events t0 → consumer_dedupe t = consumer_dedupe t0 →
  fan_point_ledger t = fan_point_ledger t0 → later t0 t →
  outbox_grows t0 (add_outbox topic key payload ts id t).
Proof. intros. etrans; [by apply outbox_grows_same|apply outbox_grows_add]. Qed.

Lemma settles_grows F {A} (failed : A) t c a x t' c' :
  outbox_grows t a.1.2 → settles F failed t c a x t' c' → outbox_grows t t'.
Proof. by intros Ha [(_ & -> & _)|(_ & _ & [[-> _]|[-> _]])]. Qed.

Section service.
Context `{MySQLLaws} `{Unicode} `{ErrorText}.

Lemma recharge_grows t c req ts1 ts2 ts3 :
  outbox_grows t (recharge_atomic t c req ts1 ts2 ts3).1.2.
Proof.
  unfold recharge_atomic. repeat case_match; try done. apply outbox_grows_event; try done.
  by apply later_same.
Qed.

Lemma gift_grows t c req ts1 ts2 ts3 ts4 :
  outbox_grows t (gift_atomic t c req ts1 ts2 ts3 ts4).1.2.
Proof.
  unfold gift_atomic. destruct (gift_invalid req); [done|]. destruct (stored_order t req); [done|].
  destruct (gift_decide t req) eqn:Hd; [done|..].
  - destruct (reject_error c req); [done|].
    apply gift_decide_reject in Hd as [->|[-> _]]; apply outbox_grows_event; try done;
      by eapply later_append.
  - destruct (accept_error t c req); [done|]. simpl. unfold accept_commit, accept_events.
    etrans; [|apply outbox_grows_add]. apply outbox_grows_event; try done. by eapply later_append.
Qed.

Lemma close_grows t c sid ts0 ts1 ts2 : outbox_grows t (close_atomic t c sid ts0 ts1 ts2).1.2.
Proof.
  unfold close_atomic. repeat case_match; try done. apply outbox_grows_event; try done.
  apply later_close.
Qed.

Lemma settle_grows t c sid ts1 ts2 : outbox_grows t (settle_atomic t c sid ts1 ts2).1.2.
Proof.
  unfold settle_atomic. destruct (settle_totals t sid) as [[[[? ?] ?] ?]|]; [|done].
  apply outbox_grows_same; try done. by apply later_same.
Qed.

Lemma watch_loop_grows F fuel req t : ∀ i d v,
  outbox_grows t v → wp F (watch_loop fuel req i) (λ _ t' _ _, outbox_grows t t') t d (Some v).
Proof.
  induction fuel as [|fuel IH]; intros i d v Hv; simpl; [by apply wp_ret|].
  destruct (i <=? iw_Minutes req).
  - apply wp_try, wp_ret, wp_bind, wp_now. intros ts. apply wp_try, wp_insert_auto; try done.
    intros _ _. apply IH. etrans; [exact Hv|]. apply outbox_grows_add.
  - apply wp_try, wp_commit; try done. by apply wp_ret.
Qed.

Lemma op_grows F op t c :
  op_typed op → wf t c → wp F (op_prog op) (λ _ t' _ _, outbox_grows t t') t c None.
Proof.
  intros Hty Hwf. destruct op; simpl; apply wp_bind.
  - eapply wp_mono; [by apply Recharge_refines|].
    intros out t' c' v (_ & ts1 & ts2 & ts3 & Hs). apply wp_ret.
    eapply settles_grows; [apply recharge_grows|done].
  - eapply wp_mono; [by apply SendGift_refines|].
    intros out t' c' v (_ & ts1 & ts2 & ts3 & ts4 & Hs). apply wp_ret.
    eapply settles_grows; [apply gift_grows|done].
  - eapply wp_mono; [by apply EnqueueCommentEvent_refines|].
    intros out t' c' v (_ & ts & Hs). apply wp_ret. eapply settles_grows; [|done].
    unfold comment_atomic. repeat case_match; try done. apply outbox_grows_add.
  - unfold EnqueueWatchMinuteEvents. destruct (watch_invalid req).
    { by do 2 apply wp_ret. }
    apply wp_with_tx; [intros; by apply wp_ret|].
    eapply wp_mono; [by apply (watch_loop_grows F fuel req t 1)|]. intros. by apply wp_ret.
  - eapply wp_mono; [by apply CloseLiveSession_refines|].
    intros out t' c' v (_ & ts0 & ts1 & ts2 & Hs). apply wp_ret.
    eapply settles_grows; [apply close_grows|done].
  - eapply wp_mono; [by apply GenerateSettlement_refines|].
    intros out t' c' v (_ & ts1 & ts2 & Hs). apply wp_ret.
    eapply settles_grows; [apply settle_grows|done].
  - eapply wp_mono; [apply GetSettlement_wp|]. intros out t' c' v (-> & _). by apply wp_ret.
  - apply wp_read; intros; by apply wp_ret.
  - apply wp_read; intros; by apply wp_ret.
Qed.

Lemma service_step_grows opening d d' :
  service_step d d' → service_ok opening d → outbox_grows (tables d) (tables d').
Proof.
  intros [env op d0 Hty] [Hi Hok].
  apply (wp_run true env (op_prog op) (λ _ t' _ _, outbox_grows (tables d0) t') d0); [done|done|].
  by apply op_grows; [|apply Hok].
Qed.

(** ** The service and the relay *)

Context `{OutboxOrderLaws}.

Inductive pipeline_step : Db * Kafka → Db * Kafka → Prop :=
| pipeline_service d d' k : service_step d d' → pipeline_step (d, k) (d', k)
| pipeline_relay (env : Env) (kenv : KafkaEnv) batch d k :
    pipeline_step (d, k) (run (RunOnce batch) (d, k)).2.

Definition pipeline_ok (opening : Z → Z) (s : Db * Kafka) : Prop :=
  service_ok opening s.1 ∧ delivered (tables s.1) s.2 ∧ genuine (tables s.1) s.2.

Lemma grows_delivered t t' k : outbox_grows t t' → delivered t k → delivered t' k.
Proof.
  intros [(evs & Ht & Hu) _ _ _] Hd e He Hp. rewrite Ht in He.
  apply in_app_or in He as [He|He]; [by apply Hd|]. apply Hu in He. congruence.
Qed.

Lemma grows_genuine t t' k : outbox_grows t t' → genuine t k → genuine t' k.
Proof.
  intros [(evs & Ht & _) _ _ _] Hg m Hm. destruct (Hg m Hm) as (e & He & <-). exists e.
  rewrite Ht. auto using in_or_app.
Qed.

(** Marking rows keeps the invariants. *)
Lemma mark_rows_ok opening ts ids t c : db_ok opening t c → db_ok opening (mark_rows ts ids t) c.
Proof.
  intros [Hwf Hl]. split.
  - destruct Hwf. split; try done.
    + intros e He. apply mark_rows_In in He as (x & Hx & ->). apply wf_event_id in Hx.
      by destruct (existsb _ _).
    + unfold unique_key. simpl. rewrite map_map. erewrite map_ext; [exact wf_event_pk|].
      intros e. by destruct (existsb _ _).
  - apply (ledger_frame opening t); try done. intros e He.
    eexists. split; [apply mark_rows_In; by exists e|]. by destruct (existsb _ _).
Qed.

Lemma pipeline_step_ok opening s s' :
  pipeline_step s s' → pipeline_ok opening s → pipeline_ok opening s'.
Proof.
  intros [d d' k Hstep|env kenv batch d k] ([Hi Hok] & Hd & Hg); cbn [fst snd] in *.
  - assert (Hgrow : outbox_grows (tables d) (tables d')) by (by eapply service_step_grows).
    split; [by eapply service_step_ok|]. split; [by eapply grows_delivered|by eapply grows_genuine].
  - pose proof (wp2_run true env (RunOnce batch) _ d k ltac:(done) Hi
                  (RunOnce_wp true batch (tables d) (counters d) k)) as Hpost.
    cbv zeta in Hpost. destruct (run (RunOnce batch) (d, k)) as [out [d' k']]. cbn [fst snd] in *.
    split; [split; simpl|split; [eapply relay_delivered|eapply relay_genuine]; try done].
    + eapply idle_view, (proj1 Hpost).
    + destruct Hpost as (_ & -> & [(ts & -> & _)|(_ & _ & -> & _)]); [by apply mark_rows_ok|done].
    + apply (wf_event_pk _ _ (proj1 Hok)).
Qed.

Lemma pipeline_reachable_ok opening s s' :
  rtc pipeline_step s s' → pipeline_ok opening s → pipeline_ok opening s'.
Proof. induction 1; eauto using pipeline_step_ok. Qed.
End service.
