(* ===== verification/ApiClaims.v ===== *)
(** * The API

    The properties of the HTTP API (src/internal/app/api/server.go): the requests a client can make
    keep the ledger, the contributors page shows the ranking of the leaderboard, and a gift that was
    answered is answered the same way for good. *)

From stdpp Require Import sorting.
From S2P Require Import Prelude GoInt GoStrings Sha256 Json JsonDecode JsonRoundtrip Schema Prog Sql Wp Events Ledger WellFormed Preserve Money Recharge Gift GiftSpec Invariants InternalEvents Decode ReadModels Settlement Reconcile System Points Redis Wp2 Relay Consumers Leaderboard Board Rebuild BoardEvents Announce Runs Lab Rankings Api ApiSpec Pipeline.

(** ** Requests and the ledger *)

Section steps.
Context `{MySQLLaws} `{Unicode} `{ErrorText} `{FloatToInt} {S : Type} `{RedisLaws S}.

(** One HTTP request, with any failures of the database, and any state of Redis and of the server. *)
Inductive api_step : Db → Db → Prop :=
| api_request (env : Env) (redis_on : bool) (fuel : nat) (srv : Server) (s : S) (r : Request) (d : Db) :
    api_step d (run (serve redis_on fuel srv r) (d, s)).2.1.

Lemma api_service d d' : rtc api_step d d' → rtc service_step d d'.
Proof.
  induction 1 as [d|d1 d2 d3 Hstep _ IH]; [done|]. destruct Hstep as [env on fuel srv s r d].
  destruct (serve_op on env fuel srv r d s) as [Hsame|Hstep]; [by rewrite Hsame in IH|].
  by eapply rtc_l.
Qed.
End steps.

(** C38. Every client keeps the books. Whatever HTTP requests arrive, with any method, path and body,
    and whatever fails on the way, each one performs at most one operation of the service with
    arguments of their Go types; so the database stays well formed and its ledger balanced. *)
Theorem requests_keep_ledger `{MySQLLaws} `{Unicode} `{ErrorText} `{FloatToInt} {S : Type} `{RedisLaws S}
    opening d d' :
  service_ok opening d → rtc (api_step (S := S)) d d' → rtc service_step d d' ∧ service_ok opening d'.
Proof.
  intros Hok Hsteps. apply api_service in Hsteps. split; [done|]. by eapply reachable_ok.
Qed.

#[export] Instance lab_float : FloatToInt := λ _, - max_int64 - 1.

Definition lab_post (path body : string) : Request :=
  {| r_Method := "POST"; r_Path := path; r_Query := []; r_Body := Some body; r_XRequestID := "" |}.

Definition lab_server : Server := {| reqCounter := 0; apiRequestsTotal := []; apiRejectsTotal := [] |}.

(** The gift of the lab as an HTTP request. *)
Definition lab_gift_post : Request := lab_post "/v1/gifts" (marshal (to_json lab_gift)).

Lemma requests_keep_ledger_witness :
  let r := run (serve true 10 lab_server lab_gift_post) (lab, (∅ : Store)) in
  service_ok seed_opening r.2.1
  ∧ match r.1 with
    | Some (a, s) => w_Status (a_Response a) = 201 ∧ a_RequestID a = "req-1" ∧ reqCounter s = 1
    | None => False
    end.
Proof.
  cbv zeta. split; [|vm_compute; done].
  apply (requests_keep_ledger (S := Store) seed_opening lab); [apply lab_ok|].
  apply rtc_once, (api_request lab_env).
Defined.

(** ** The contributors page *)

(** A range of a board, read as rows. *)
Lemma ranked_read `{FloatToInt} {S : Type} `{RedisLaws S} {R} (mk : Z → Z → R) (s : S) key m limit :
  redis_quiet S → ids_ok m → (∀ k v, m !! k = Some v → 0 ≤ v ≤ max_int64) →
  zset (content s) key = board FormatUint m → 1 ≤ limit →
  ∃ zs s' l, handle (EZRevRangeWithScores key 0 (limit - 1)) s = (ROk zs, s') ∧ content s' = content s
    ∧ l ≡ₚ map_to_list m ∧ StronglySorted (λ x y, y.2 ≤ x.2) l
    ∧ read_members mk zs = map (λ x, mk x.1 x.2) (take (Z.to_nat limit) l).
Proof.
  intros [_ Hq] Hids Hval Hz Hlim.
  destruct (redis_range key (limit - 1) s) as [Hkeep Hres]; [lia|].
  destruct (Hq key 0 (limit - 1) s) as [l0 Hl0].
  destruct (handle (EZRevRangeWithScores key 0 (limit - 1)) s) as [res s']. simpl in *. subst res.
  destruct Hres as [[err He]|(l1 & Hl1 & [= ->])]; [done|]. rewrite Hz in Hl1.
  apply board_list in Hl1 as (l & -> & Hp & Hs); [|done].
  replace (limit - 1 + 1) with limit by lia.
  exists (take (Z.to_nat limit) (map (λ x, (FormatUint x.1, x.2)) l)), s', l. split_and!; [done..|].
  rewrite firstn_map. apply read_members_board. intros [k v] Hx.
  apply list_elem_of_In, elem_of_take in Hx as (i & Hx & _). apply list_elem_of_lookup_2 in Hx.
  rewrite Hp, elem_of_map_to_list in Hx. split; [apply Hids; by eexists|]. by apply (Hval k).
Qed.

(** The page as the server makes it from the range. *)
Lemma serve_contributors `{MySQL} `{Unicode} `{ErrorText} `{FloatToInt} {S : Type} `{Redis S}
    (env : Env) d (s s' : S) sid fuel srv r zs :
  is_uint64 sid → r_Method r = "GET" →
  r_Path r = "/v1/lives/" +:+ FormatUint sid +:+ "/" +:+ "contributors" →
  handle (EZRevRangeWithScores (contributorKey sid) 0 (parseLimit (query_get r "limit") - 1)) s = (ROk zs, s') →
  ∃ ans srv', run (serve true fuel srv r) (d, s) = (Some (ans, srv'), (d, s'))
    ∧ a_Response ans = WriteJSON 200 (json_map
        [("live_session_id", JNum sid); ("contributors", to_json (read_members Build_ContributorSummary zs))]).
Proof.
  intros Hsid Hget Hpath Hzs. pose proof (parseLimit_range (query_get r "limit")) as Hlim.
  assert (Hparts := lives_parts r sid "contributors" Hsid Hpath (or_introl eq_refl)).
  assert (Hh : run (handleLivesPrefix true r) (d, s) = (WriteJSON 200 (json_map
    [("live_session_id", JNum sid); ("contributors", to_json (read_members Build_ContributorSummary zs))]),
    (d, s'))).
  { unfold handleLivesPrefix. rewrite Hparts, Hget, ParseUint_FormatUint by done.
    cbn [negb orb andb String.eqb Ascii.eqb Bool.eqb]. unfold try_, getLiveContributors. rewrite !run_bind. unfold zrevrange, other. rewrite run_perform.
    rewrite int64_id by (int_bounds; lia).
    change ("lb:contributors:" +:+ FormatUint sid) with (contributorKey sid).
    unfold handle, sum_handler. cbn [fst snd]. rewrite Hzs. done. }
  assert (Hfind : List.find (λ h, mux_match h.1.1 (r_Path r)) (handlers true fuel)
                  = Some ("/v1/lives/", "lives_prefix", ends (handleLivesPrefix true))).
  { rewrite Hpath. reflexivity. }
  unfold serve. rewrite Hfind. unfold wrap.
  destruct (if String.eqb (r_XRequestID r) "" then _ else _) as [rid srv1].
  rewrite run_bind. unfold ends. rewrite run_bind, Hh. simpl. eauto.
Qed.

(** C39. The contributors page is the leaderboard. When the contributor set of a session in Redis holds
    the totals of the orders [os], as after a rebuild or after the deliveries, a GET on
    /v1/lives/ID/contributors is answered 200 with the first viewers of the session by coins, with
    their exact totals and in falling order, at most as many as the limit, which is between 1 and
    100; neither the database nor Redis is changed. *)
Theorem contributors_page `{MySQLLaws} `{Unicode} `{ErrorText} `{FloatToInt} {S : Type} `{RedisLaws S}
    (env : Env) d (s : S) os sid fuel srv r :
  redis_quiet S → is_uint64 sid → countable os → content s !! contributorKey sid = contrib_board os sid →
  r_Method r = "GET" → r_Path r = "/v1/lives/" +:+ FormatUint sid +:+ "/" +:+ "contributors" →
  let limit := parseLimit (query_get r "limit") in
  let out := run (serve true fuel srv r) (d, s) in
  1 ≤ limit ≤ 100 ∧ out.2.1 = d ∧ content out.2.2 = content s ∧ ∃ l ans srv',
    out.1 = Some (ans, srv')
    ∧ l ≡ₚ map_to_list (totals go_ViewerID go_ChargedCoins (where_ (by_session sid) os))
    ∧ StronglySorted (λ x y, y.2 ≤ x.2) l
    ∧ a_Response ans = WriteJSON 200 (json_map
        [("live_session_id", JNum sid);
         ("contributors", to_json (map (λ x, Build_ContributorSummary x.1 x.2) (take (Z.to_nat limit) l)))]).
Proof.
  intros Hq Hsid Hc Hboard Hget Hpath limit out. pose proof (parseLimit_range (query_get r "limit")) as Hlim.
  fold limit in Hlim. split; [done|].
  set (m := totals go_ViewerID go_ChargedCoins (where_ (by_session sid) os)) in *.
  assert (Hz : zset (content s) (contributorKey sid) = board FormatUint m).
  { unfold zset. rewrite Hboard. unfold contrib_board, board_value. fold m.
    destruct (decide (m = ∅)) as [-> |]; done. }
  assert (Hcs : countable (where_ (by_session sid) os)) by (by apply countable_where).
  destruct (ranked_read Build_ContributorSummary s (contributorKey sid) m limit)
    as (zs & s' & l & Hrd & Hkeep & Hp & Hs & Hrows); [done|..|done|lia|].
  { apply totals_ids. intros o Ho. by apply Hcs. }
  { intros k v Hv. apply totals_le in Hv; [|intros o Ho; by apply Hcs].
    pose proof (co_coins _ Hcs). unfold f64_exact in *. int_bounds. lia. }
  destruct (serve_contributors env d s s' sid fuel srv r zs) as (ans & srv' & Hrun & Hresp); [done..|].
  unfold out. rewrite Hrun. split_and!; [done..|]. exists l, ans, srv'. split_and!; [done..|].
  by rewrite Hresp, Hrows.
Qed.

(** The boards of the lab, and a client that asks for them. *)
Definition lab_boards : Store := (run (RebuildLiveSession 9001) (lab_after, lab_store)).2.2.

Definition lab_page : Request :=
  {| r_Method := "GET"; r_Path := "/v1/lives/9001/contributors"; r_Query := [("limit", "3")];
     r_Body := None; r_XRequestID := "abc" |}.

Lemma contributors_page_witness :
  let out := run (serve true 0 lab_server lab_page) (lab_after, lab_boards) in
  out.2.1 = lab_after
  ∧ match out.1 with
    | Some (a, _) => w_Body (a_Response a)
        = marshal (JObj [("contributors", JArr [JObj [("viewer_id", JNum 2001); ("coins", JNum 10)]]);
                         ("live_session_id", JNum 9001)]) +:+ newline
    | None => False
    end.
Proof.
  cbv zeta. split; [|vm_compute; reflexivity].
  assert (Hb : content lab_boards !! contributorKey 9001 = contrib_board (accepted_orders (tables lab_after)) 9001)
    by (vm_compute; reflexivity).
  assert (Hsid : is_uint64 9001) by (int_bounds; lia).
  pose proof (contributors_page (S := Store) lab_env lab_after lab_boards (accepted_orders (tables lab_after))
    9001 0 lab_server lab_page lab_redis_quiet Hsid lab_after_countable Hb eq_refl eq_refl) as Hth.
  destruct Hth as (_ & Hd & _). exact Hd.
Defined.

(** ** Gifts over HTTP *)

Section gift_posts.
Context `{MySQLLaws} `{Unicode} `{ErrorText} `{FloatToInt} {S : Type} `{RedisLaws S}.

(** One HTTP request to the server [srv], with what the environment decides. *)
Definition serve_run (env : Env) (redis_on : bool) (fuel : nat) (srv : Server) (r : Request) (d : Db) (s : S)
    : option (Answer * Server) * (Db * S) :=
  run (serve redis_on fuel srv r) (d, s).

(** A POST of the gift [req] to /v1/gifts, whatever the spelling of its body and its headers. *)
Definition gift_post (req : GiftRequest) (r : Request) : Prop :=
  r_Method r = "POST" ∧ r_Path r = "/v1/gifts" ∧ decode_request r = Some req.

Lemma gift_post_typed req r : gift_post req r → gift_typed req.
Proof.
  intros (_ & _ & Hd). eapply (decoded_body r req gift_typed); [|done].
  intros v q Hq. by apply gift_decoded in Hq as [Hq _].
Qed.

(** The server hands the gift to the service and its outcome to the client. *)
Lemma serve_gift env on fuel srv r d s req :
  gift_post req r → ∃ ans srv',
    serve_run env on fuel srv r d s = (Some (ans, srv'), ((run (SendGift req) d).2, s))
    ∧ a_Response ans = write_outcome 201 (run (SendGift req) d).1.
Proof.
  intros (Hpost & Hpath & Hdec). unfold serve_run, serve. rewrite Hpath. simpl List.find. cbv iota.
  unfold wrap. destruct (if String.eqb (r_XRequestID r) "" then _ else _) as [rid srv1].
  unfold ends, handleGift. rewrite Hpost, Hdec. simpl negb. cbv iota.
  rewrite !run_bind, run_inl. simpl. eauto.
Qed.

(** Orders are kept along any traffic. *)
Lemma api_orders_kept opening d d' :
  service_ok opening d → rtc (api_step (S := S)) d d' →
  service_ok opening d' ∧ ∀ o, In o (gift_orders (tables d)) → In o (gift_orders (tables d')).
Proof.
  intros Hok Hsteps. apply api_service in Hsteps. revert Hok.
  induction Hsteps as [d|d1 d2 d3 Hstep Hsteps IH]; intros Hok; [done|].
  assert (Hok2 : service_ok opening d2) by (eapply reachable_ok; [by apply rtc_once|done]).
  destruct (IH Hok2) as [Hok3 Hkept]. split; [done|]. intros o Ho. apply Hkept.
  by apply (later_orders _ _ (og_later _ _ (service_step_grows opening d1 d2 Hstep Hok))).
Qed.

(** What an answer 201 means: the service succeeded, and keeps the answer. *)
Lemma gift_answered opening env on fuel srv r d s req ans srv' :
  service_ok opening d → gift_post req r →
  let out := serve_run env on fuel srv r d s in
  out.1 = Some (ans, srv') → w_Status (a_Response ans) = 201 →
  gift_invalid req = None ∧ ∃ resp o, a_Response ans = WriteJSON 201 (to_json resp)
    ∧ stored_order (tables out.2.1) req = Some o
    ∧ go_BodyHash o = gift_hash req ∧ stored_response o = Ok (replayed resp).
Proof.
  intros [Hi [Hwf _]] Hr out Hans Hst. unfold out in *.
  destruct (serve_gift env on fuel srv r d s req Hr) as (ans0 & srv0 & Hrun & Hresp).
  rewrite Hrun in *. simplify_eq/=. rewrite Hresp in *.
  destruct (SendGift_run true env d req ltac:(done) Hi Hwf (gift_post_typed req r Hr))
    as (_ & ts1 & ts2 & ts3 & ts4 & [(Hout & Ht & _)|(_ & Hout & _)]); [|by rewrite Hout in Hst].
  symmetry in Hout. destruct (run (SendGift req) d).1 as [resp|e|e] eqn:E; [| |done].
  - destruct (gift_atomic_kept _ _ _ _ _ _ _ _ Hwf Hout) as (Hval & o & Ho & Hk).
    split; [done|]. exists resp, o. by rewrite Ht.
  - apply gift_atomic_refusal in Hout. simpl in Hst. lia.
Qed.
End gift_posts.

(** C40. A gift that was answered stays answered. If the server has answered a POST of a gift with 201,
    whatever failed during it, then after any further HTTP traffic with any failures, a POST of the
    same gift (however its body is spelled) that runs without failures is answered 201 with the same
    order, totals and balance, marked as replayed, and changes no table: the viewer is never charged
    again. *)
Theorem gift_post_answered_again `{MySQLLaws} `{Unicode} `{ErrorText} `{FloatToInt} {S : Type} `{RedisLaws S}
    opening env1 env2 on1 on2 fuel1 fuel2 srv1 srv2 r1 r2 d d' (s1 s2 : S) req ans1 srv1' :
  service_ok opening d → gift_post req r1 → gift_post req r2 →
  let out1 := serve_run env1 on1 fuel1 srv1 r1 d s1 in
  out1.1 = Some (ans1, srv1') → w_Status (a_Response ans1) = 201 →
  rtc (api_step (S := S)) out1.2.1 d' → quiet env2 →
  let out2 := serve_run env2 on2 fuel2 srv2 r2 d' s2 in
  ∃ resp ans2 srv2', a_Response ans1 = WriteJSON 201 (to_json resp)
    ∧ out2.1 = Some (ans2, srv2')
    ∧ a_Response ans2 = WriteJSON 201 (to_json
        {| gs_GiftOrderID := gs_GiftOrderID resp; gs_Accepted := true;
           gs_ChargedCoins := gs_ChargedCoins resp;
           gs_MatchPointsAdded := gs_MatchPointsAdded resp;
           gs_DiamondReward := gs_DiamondReward resp; gs_NewBalance := gs_NewBalance resp;
           gs_Idempotency := "replayed" |})
    ∧ tables out2.2.1 = tables d'.
Proof.
  intros Hok Hr1 Hr2 out1 Hans Hst Hsteps Hq out2.
  destruct (gift_answered opening env1 on1 fuel1 srv1 r1 d s1 req ans1 srv1' Hok Hr1 Hans Hst)
    as (Hval & resp & o & Hresp & Ho & Hhash & Hkept). fold out1 in Ho.
  assert (Hok1 : service_ok opening out1.2.1).
  { apply (api_orders_kept opening d); [done|]. apply rtc_once, (api_request env1). }
  destruct (api_orders_kept opening _ _ Hok1 Hsteps) as [[Hi2 [Hwf2 _]] Horders].
  apply (stored_order_later _ (tables d') (counters d')) in Ho; [|done..].
  destruct (serve_gift env2 on2 fuel2 srv2 r2 d' s2 req Hr2) as (ans2 & srv2' & Hrun & Hresp2).
  destruct (SendGift_run false env2 d' req ltac:(done) Hi2 Hwf2 (gift_post_typed req r2 Hr2))
    as (_ & ts1 & ts2 & ts3 & ts4 & Hs). apply settles_quiet in Hs as (Hout & Ht & _).
  erewrite gift_atomic_stored in Hout, Ht by done. simpl in Hout, Ht.
  rewrite Hhash, bytesEqual_refl, Hkept in Hout.
  exists resp, ans2, srv2'. unfold out2. rewrite Hrun, Hresp2, Hout. by split_and!.
Qed.

(** The same gift with its members in another order, a newline at the end, and an X-Request-ID. *)
Definition lab_gift_respelled : Request :=
  {| r_Method := "POST"; r_Path := "/v1/gifts"; r_Query := [];
     r_Body := Some (marshal (JObj (rev
       [("request_id", JStr "g-1"); ("viewer_id", JNum 2001); ("creator_id", JNum 1001);
        ("live_session_id", JNum 9001); ("match_id", JNum 8001); ("gift_id", JStr "ROSE");
        ("quantity", JNum 10); ("sent_at_ms", JNum 1000)])) +:+ newline);
     r_XRequestID := "retry" |}.

(** The gift, then a recharge by the same viewer, then the gift again. *)
Definition lab_first := serve_run (S := Store) lab_env true 0 lab_server lab_gift_post lab ∅.
Definition lab_between :=
  serve_run (S := Store) lab_env true 0 lab_server
    (lab_post "/v1/wallets/recharges" (marshal (to_json lab_recharge))) lab_first.2.1 ∅.

Lemma gift_post_answered_again_witness :
  let out := serve_run (S := Store) lab_env true 0 lab_server lab_gift_respelled lab_between.2.1 ∅ in
  tables out.2.1 = tables lab_between.2.1
  ∧ match out.1 with
    | Some (a, _) => a_Response a = WriteJSON 201 (to_json
        {| gs_GiftOrderID := 1; gs_Accepted := true; gs_ChargedCoins := 10; gs_MatchPointsAdded := 10;
           gs_DiamondReward := 10; gs_NewBalance := 990; gs_Idempotency := "replayed" |})
    | None => False
    end.
Proof.
  cbv zeta. split; [|vm_compute; reflexivity].
  assert (Hr1 : gift_post lab_gift lab_gift_post) by (repeat split; vm_compute; reflexivity).
  assert (Hr2 : gift_post lab_gift lab_gift_respelled) by (repeat split; vm_compute; reflexivity).
  assert (Hfirst : ∃ ans srv, lab_first.1 = Some (ans, srv) ∧ w_Status (a_Response ans) = 201)
    by (vm_compute; eauto).
  destruct Hfirst as (ans & srv & Hans & Hst).
  assert (Htraffic : rtc (api_step (S := Store)) lab_first.2.1 lab_between.2.1)
    by apply rtc_once, (api_request lab_env).
  unfold lab_first in Hans, Htraffic.
  destruct (gift_post_answered_again (S := Store) seed_opening lab_env lab_env true true 0 0 lab_server
    lab_server lab_gift_post lab_gift_respelled lab lab_between.2.1 ∅ ∅ lab_gift ans srv lab_ok Hr1 Hr2 Hans Hst
    Htraffic lab_quiet) as (resp & ans2 & srv2 & _ & _ & _ & Hsame).
  exact Hsame.
Defined.
