(* ===== verification/Workers.v ===== *)
(** * The binaries

    The configuration (src/internal/config/config.go) and what the main functions of src/cmd run: the
    polling loop of the outbox relay, the one-shot modes of the leaderboard projector and of the
    settlement worker, and the claims of the leaderboard consumer. Flags are arguments; connecting,
    signals, timers, metrics and logging are left out. *)

From S2P Require Import Prelude GoInt GoStrings Sha256 Json JsonDecode JsonRoundtrip Schema Prog Sql Wp Events Ledger WellFormed Preserve Money Recharge Gift GiftSpec Invariants InternalEvents Decode ReadModels Settlement Reconcile System Points Redis Wp2 Relay Announce Consumers Leaderboard Runs Pipeline.

(** ** Configuration *)

(** The environment as [os.Getenv] reads it: a variable that is not set reads as the empty text. *)
Definition Environ : Type := string → string.

Definition getEnv (env : Environ) (key def : string) : string :=
  let v := env key in if negb (String.eqb v "") then v else def.

Record Config := {
  HTTPAddr : string; MySQLDSN : string; KafkaBrokers : list string; RedisAddr : string;
  AllowedGiftRegion : gset string }.

Definition Load (env : Environ) : Config :=
  {| HTTPAddr := getEnv env "HTTP_ADDR" ":8080";
     MySQLDSN := getEnv env "MYSQL_DSN"
       "root:root@tcp(localhost:3306)/live_revenue?parseTime=true&multiStatements=true";
     RedisAddr := getEnv env "REDIS_ADDR" "localhost:6379";
     KafkaBrokers := [getEnv env "KAFKA_BROKER" "localhost:9092"];
     AllowedGiftRegion := list_to_set ["US"; "KR"; "JP"; "GB"; "DE"; "FR"] |}.

(** A setting is never empty. *)
Lemma getEnv_nonempty env key def : def ≠ "" → getEnv env key def ≠ "".
Proof. intros Hd. unfold getEnv. destruct (String.eqb_spec (env key) ""); simpl; done. Qed.

Lemma Load_nonempty env :
  HTTPAddr (Load env) ≠ "" ∧ MySQLDSN (Load env) ≠ "" ∧ RedisAddr (Load env) ≠ ""
  ∧ ∀ b, b ∈ KafkaBrokers (Load env) → b ≠ "".
Proof.
  split_and!; try (by apply getEnv_nonempty). intros b ->%list_elem_of_singleton. by apply getEnv_nonempty.
Qed.

(** ** The relay *)

Section relay_main.
Context `{OutboxOrder}.

(** [n] ticks of the timer: an error is logged and the loop goes on. The context of the process is
    never cancelled. *)
Fixpoint relay_ticks (batch : Z) (n : nat) : prog (sum_eff SqlE KafkaE) unit :=
  (match n with
   | O => Ret tt
   | S n' => RunOnce batch ;;; relay_ticks batch n'
   end)%prog.

(** The main function, stopped by a signal after [n] ticks; [Some]: the fatal error of a single run. *)
Definition relay_main (once : bool) (batch : Z) (n : nat) : prog (sum_eff SqlE KafkaE) (option go_err) :=
  (let b := New_batch batch in
   if once then
     let! r := RunOnce b in
     Ret (match r with RErr err => Some err | ROk _ => None end)
   else relay_ticks b n ;;; Ret None)%prog.
End relay_main.

(** The relay process takes steps of the pipeline only. *)
Section relay_steps.
Context `{MySQLLaws} `{Unicode} `{ErrorText} `{OutboxOrder}.

Lemma relay_ticks_steps (env : Env) (kenv : KafkaEnv) batch n : ∀ s,
  rtc pipeline_step s (run (relay_ticks batch n) s).2.
Proof.
  induction n as [|n IH]; intros [d k]; simpl; [done|]. rewrite run_bind.
  eapply rtc_l; [apply (pipeline_relay env kenv batch)|]. apply IH.
Qed.

Lemma relay_main_steps (env : Env) (kenv : KafkaEnv) once batch n s :
  rtc pipeline_step s (run (relay_main once batch n) s).2.
Proof.
  unfold relay_main. destruct once; rewrite run_bind; simpl; [|apply relay_ticks_steps].
  destruct s as [d k]. apply rtc_once. apply (pipeline_relay env kenv).
Qed.
End relay_steps.

(** ** The leaderboard projector *)

Section leaderboard_main.
Context `{MySQL} `{Unicode} `{MapOrder}.

Definition lb_MarkMessage (m : ConsumerMessage) (metadata : string)
    : prog (sum_eff (sum_eff SqlE RedisE) MarkE) unit := perform (EffR (EMark m metadata)).

Definition leaderboard_message (msg : ConsumerMessage)
    : prog (sum_eff (sum_eff SqlE RedisE) MarkE) (option go_err) :=
  (let eventID := extractEventID (cm_Headers msg) in
   if eventID =? 0 then lb_MarkMessage msg "missing_event_id" ;;; Ret None
   else
     match Unmarshal (cm_Value msg) with
     | None => lb_MarkMessage msg "bad_payload" ;;; Ret None
     | Some evt =>
         let! r := inl_prog (ApplyAcceptedGift eventID evt) in
         match r with
         | Some err => Ret (Some err)
         | None => lb_MarkMessage msg "applied" ;;; Ret None
         end
     end)%prog.

Definition leaderboard_ConsumeClaim (msgs : list ConsumerMessage)
    : prog (sum_eff (sum_eff SqlE RedisE) MarkE) (option go_err) :=
  for_each msgs leaderboard_message.

(** The mode with -rebuild-live-session; [None]: the flag is not given and the process consumes. *)
Definition leaderboard_main (rebuildLiveSession : Z)
    : option (prog (sum_eff SqlE RedisE) (option go_err)) :=
  if negb (rebuildLiveSession =? 0) then Some (RebuildLiveSession rebuildLiveSession) else None.
End leaderboard_main.

(** The messages a claim marks are its first ones, and it marks all of them unless it reports an
    error. *)
Lemma leaderboard_claim_marks `{MySQL} `{Unicode} {S : Type} `{Redis S} (env : Env) msgs :
  ∀ (s : Db * S) (marks : Marks),
  let r := run (leaderboard_ConsumeClaim msgs) (s, marks) in
  ∃ pre suf, msgs = pre ++ suf ∧ map fst r.2.2 = map fst marks ++ pre ∧ (r.1 = None ↔ suf = []).
Proof.
  unfold leaderboard_ConsumeClaim. induction msgs as [|msg msgs IH]; intros s marks; simpl.
  { exists [], []. split_and!; [done|by rewrite app_nil_r|done..]. }
  rewrite run_bind.
  assert (Hmsg : let r := run (leaderboard_message msg) (s, marks) in
    r.1 ≠ None ∧ r.2.2 = marks ∨ r.1 = None ∧ map fst r.2.2 = map fst marks ++ [msg]).
  { unfold leaderboard_message, lb_MarkMessage.
    destruct (extractEventID (cm_Headers msg) =? 0).
    { rewrite run_bind, run_perform. right. simpl. by rewrite map_app. }
    destruct (Unmarshal (cm_Value msg)) as [evt|].
    - rewrite run_bind, run_inl. cbn [fst snd]. destruct (run (ApplyAcceptedGift (extractEventID (cm_Headers msg)) evt) s) as [[err|] s1];
        cbn [fst snd].
      + by left.
      + right. rewrite run_bind, run_perform. simpl. by rewrite map_app.
    - rewrite run_bind, run_perform. right. simpl. by rewrite map_app. }
  destruct (run (leaderboard_message msg) (s, marks)) as [[err|] [s1 marks1]]; simpl in *.
  - destruct Hmsg as [[_ ->]|[? _]]; [|done]. exists [], (msg :: msgs). split_and!; [done|by rewrite app_nil_r|done..].
  - destruct Hmsg as [[? _]|[_ Hm]]; [done|].
    destruct (IH s1 marks1) as (pre & suf & -> & Hpre & Hiff). exists (msg :: pre), suf.
    split; [done|]. split; [by rewrite Hpre, Hm, <- app_assoc|done].
Qed.

(** ** The settlement worker *)

(** The mode with -live-session-id. *)
Definition settlement_main `{MySQL} `{ErrorText} (liveSessionID : Z)
    : option (prog SqlE (res SettlementResponse)) :=
  if negb (liveSessionID =? 0) then Some (GenerateSettlement liveSessionID) else None.
