(* ===== verification/Projection.v ===== *)
(** * The whole pipeline, down to the points

    The service, the relay and the consumers of the points projector and the settlement worker
    (src/cmd) as one transition system: a claim may contain any messages Kafka has, in any order and
    any number of times. The gift points and the accepted gifts correspond along every sequence of
    steps. *)

From S2P Require Import Prelude GoInt GoStrings Sha256 Json JsonDecode JsonRoundtrip Schema Prog Sql Wp Events Ledger WellFormed Preserve Money Recharge Gift GiftSpec Invariants InternalEvents Decode ReadModels Settlement Reconcile System Points Wp2 Relay Announce Consumers Runs Pipeline.

(** ** Loops that keep an invariant *)

Lemma wp2_for_each {E S} `{Handler E S} F {X Err} (I : Tables → Counters → Prop) (xs : list X)
    (body : X → prog (sum_eff SqlE E) (option Err)) : ∀ t c s,
  (∀ x, In x xs → ∀ t c s, I t c →
     wp2 F (body x) (λ _ t' c' v' _, v' = None ∧ I t' c') t c None s) →
  I t c → wp2 F (for_each xs body) (λ _ t' c' v' _, v' = None ∧ I t' c') t c None s.
Proof.
  induction xs as [|x xs IH]; intros t c s Hbody Ht; simpl; [by apply wp2_ret|].
  apply wp2_bind. eapply wp2_mono; [apply (Hbody x); [by left|done]|].
  intros [e|] t' c' v' s' [-> HI]; [by apply wp2_ret|]. apply IH; [|done].
  intros y Hy. apply Hbody. by right.
Qed.

Section projection.
Context `{MySQLLaws} `{Unicode} `{ErrorText}.

(** ** The tables the projector leaves alone *)

Record same_service (t t' : Tables) : Prop := {
  sv_users : users t' = users t; sv_sessions : live_sessions t' = live_sessions t;
  sv_catalog : gift_catalog t' = gift_catalog t; sv_accounts : wallet_accounts t' = wallet_accounts t;
  sv_tx : wallet_transactions t' = wallet_transactions t;
  sv_entries : wallet_entries t' = wallet_entries t;
  sv_recharges : recharge_requests t' = recharge_requests t;
  sv_orders : gift_orders t' = gift_orders t; sv_outbox : outbox_events t' = outbox_events t }.

Lemma same_service_ok opening t t' c : same_service t t' → db_ok opening t c → db_ok opening t' c.
Proof.
  intros [] [Hwf Hl]. split.
  - apply (wf_frame t); try done. rewrite sv_sessions0. apply (wf_campaign _ _ Hwf).
  - apply (ledger_frame opening t); try done. by apply outbox_kept_same.
Qed.

Lemma same_service_announced t t' : same_service t t' → announced t → announced t'.
Proof.
  intros [] Ha. apply (announced_frame t); [done|by apply keeps_same|..].
  - unfold gift_rows. by rewrite sv_outbox0.
  - rewrite sv_outbox0. apply Ha.
Qed.

Lemma same_service_announces t t' e o : same_service t t' → announces t e o → announces t' e o.
Proof. intros []. apply announces_keeps. by apply keeps_same. Qed.

(** ** Gift points and accepted gifts *)

Definition is_gift (p : FanPointLedger) : bool := bool_decide (fp_Reason p = FanPointLedgerReasonGIFT).

(** The points rows that come from gifts. *)
Definition gift_points (t : Tables) : list FanPointLedger := where_ is_gift (fan_point_ledger t).

(** The points of row [p] are those of order [o]. *)
Definition points_of (p : FanPointLedger) (o : GiftOrder) : Prop :=
  fp_ViewerID p = go_ViewerID o ∧ fp_CreatorID p = go_CreatorID o
  ∧ fp_LiveSessionID p = go_LiveSessionID o ∧ fp_Points p = go_ChargedCoins o.

(** Row [p] was made from the announcement of order [o]. *)
Definition projected (t : Tables) (p : FanPointLedger) (o : GiftOrder) : Prop :=
  ∃ e, In e (gift_rows t) ∧ ob_EventID e = fp_EventID p ∧ announces t e o ∧ points_of p o.

Record points_ok (t : Tables) : Prop := {
  po_row : ∀ p, In p (gift_points t) → ∃ o, projected t p o;
  po_pk : unique_key fp_EventID (fan_point_ledger t);
  po_applied : ∀ e, In e (gift_rows t) → already_applied t (ob_EventID e) = true →
    ∃ p, In p (gift_points t) ∧ fp_EventID p = ob_EventID e;
  po_known : ∀ x, already_applied t x = true → ∃ e, In e (outbox_events t) ∧ ob_EventID e = x }.

Lemma already_applied_app t event ts x :
  already_applied (mark_applied event ts t) x = already_applied t x || (x =? event).
Proof.
  unfold already_applied, mark_applied. simpl. rewrite existsb_app. simpl.
  unfold same_dedupe at 2. simpl. by rewrite coll_eq_refl, orb_false_r, Z.eqb_sym.
Qed.

Lemma already_applied_gift t event evt ts x :
  already_applied (gift_points_commit t event evt ts) x = already_applied t x || (x =? event).
Proof.
  rewrite <- (already_applied_app t _ ts). unfold gift_points_commit. by destruct (ga_CampaignID evt).
Qed.

Lemma fan_violation_new p t :
  fan_point_violation p t = None → ∀ q, In q (fan_point_ledger t) → fp_EventID q ≠ fp_EventID p.
Proof.
  unfold fan_point_violation. simpl. repeat case_match; try done. intros _ q Hq.
  match goal with H : existsb _ _ = false |- _ => rewrite existsb_false in H; specialize (H q Hq) end.
  by bool_to_prop.
Qed.

(** A gift is projected from its announcement. *)
Lemma points_ok_gift t e evt ts :
  announced t → points_ok t → In e (gift_rows t) → Unmarshal (ob_PayloadJson e) = Some evt →
  gift_points_error t (ob_EventID e) evt = None →
  points_ok (gift_points_commit t (ob_EventID e) evt ts).
Proof.
  intros Ha [Hrow Hpk Happ Hknown] He Hevt Herr.
  set (t' := gift_points_commit t (ob_EventID e) evt ts). set (p := gift_point (ob_EventID e) evt).
  assert (Hsame : same_service t t').
  { unfold t', gift_points_commit. by destruct (ga_CampaignID evt). }
  assert (Hfan : fan_point_ledger t' = fan_point_ledger t ++ [p]).
  { unfold t', gift_points_commit. by destruct (ga_CampaignID evt). }
  assert (Hded : ∀ x, already_applied t' x = already_applied t x || (x =? ob_EventID e)).
  { intros x. apply already_applied_gift. }
  assert (Hrows : gift_rows t' = gift_rows t) by (unfold gift_rows; by rewrite (sv_outbox _ _ Hsame)).
  assert (Hpts : gift_points t' = gift_points t ++ [p]).
  { unfold gift_points. rewrite Hfan, where_app. done. }
  split.
  - intros q Hq. rewrite Hpts in Hq. apply in_app_or in Hq as [Hq|[<-|[]]].
    + destruct (Hrow q Hq) as (o & e' & He' & Hid & Hann & Hof). exists o, e'. rewrite Hrows.
      split_and!; try done; [by eapply same_service_announces|apply Hof..].
    + destruct (an_order _ Ha e He) as [o Ho]. exists o, e. rewrite Hrows.
      destruct (announces_decodes _ _ _ Ho) as (s & _ & Hdec). rewrite Hdec in Hevt.
      injection Hevt as <-.
      split_and!; try done. by eapply same_service_announces.
  - rewrite Hfan. apply unique_key_app; [done|]. apply fan_violation_new.
    unfold gift_points_error in Herr. by case_match.
  - intros e' He' Hx. rewrite Hrows in He'. rewrite Hded in Hx. rewrite Hpts.
    apply orb_true_iff in Hx as [Hx|Hx].
    + destruct (Happ e' He' Hx) as (q & Hq & Hid). exists q. split; [apply in_or_app; by left|done].
    + bool_to_prop. exists p. split; [apply in_or_app; right; by left|done].
  - intros x Hx. rewrite (sv_outbox _ _ Hsame). rewrite Hded in Hx.
    apply orb_true_iff in Hx as [Hx|Hx]; [auto|]. bool_to_prop. exists e.
    by apply where_In in He as [He _].
Qed.

(** Other activity leaves the gift points alone. *)
Lemma points_ok_other t t' e ps :
  unique_key ob_EventID (outbox_events t) → points_ok t → In e (outbox_events t) →
  gift_topic e = false → same_service t t' → fan_point_ledger t' = fan_point_ledger t ++ ps →
  (∀ p, In p ps → is_gift p = false) → unique_key fp_EventID (fan_point_ledger t') →
  (∀ x, already_applied t' x = already_applied t x || (x =? ob_EventID e)) → points_ok t'.
Proof.
  intros Huq [Hrow _ Happ Hknown] He Htopic Hsame Hfan Hps Hpk Hded.
  assert (Hrows : gift_rows t' = gift_rows t) by (unfold gift_rows; by rewrite (sv_outbox _ _ Hsame)).
  assert (Hpts : gift_points t' = gift_points t).
  { unfold gift_points. rewrite Hfan, where_app, (where_none _ ps) by done. apply app_nil_r. }
  split; [|done| |].
  - intros q Hq. rewrite Hpts in Hq. destruct (Hrow q Hq) as (o & e' & He' & Hid & Hann & Hof).
    exists o, e'. rewrite Hrows. split_and!; try done; [by eapply same_service_announces|apply Hof..].
  - intros e' He' Hx. rewrite Hrows in He'. rewrite Hpts. apply Happ; [done|].
    rewrite Hded in Hx. apply orb_true_iff in Hx as [Hx|Hx]; [done|]. bool_to_prop.
    apply where_In in He' as [He' Ht'].
    rewrite (unique_key_inj _ _ _ _ Huq He' He Hx) in Ht'. congruence.
  - intros x Hx. rewrite (sv_outbox _ _ Hsame). rewrite Hded in Hx.
    apply orb_true_iff in Hx as [Hx|Hx]; [auto|]. bool_to_prop. by exists e.
Qed.

Lemma points_ok_capped t c e viewer creator sid reason cap ts :
  unique_key ob_EventID (outbox_events t) → points_ok t → In e (outbox_events t) →
  gift_topic e = false → reason ≠ FanPointLedgerReasonGIFT →
  points_ok (apply_capped_atomic t c (ob_EventID e) viewer creator sid reason cap ts).1.2.
Proof.
  intros Huq Hok He Htopic Hreason. unfold apply_capped_atomic.
  set (p := activity_point (ob_EventID e) viewer creator sid reason).
  destruct (already_applied t (ob_EventID e)); [done|].
  destruct (max_int64 <? _); [done|]. destruct (cap <=? _).
  - apply (points_ok_other t _ e []); try done.
    + by rewrite app_nil_r.
    + apply Hok.
    + intros x. apply already_applied_app.
  - destruct (fan_point_violation p t) eqn:Hv; [done|].
    apply (points_ok_other t _ e [p]); try done.
    + intros q [<-|[]]. by apply bool_decide_eq_false.
    + simpl. apply unique_key_app; [apply Hok|]. by apply fan_violation_new.
    + intros x. apply (already_applied_app t _ ts).
Qed.

(** ** Consumers *)

(** A message as a consumer gets it. *)
Definition copy_of (m : ProducerMessage) (msg : ConsumerMessage) : Prop :=
  cm_Topic msg = m_Topic m ∧ cm_Value msg = m_Value m ∧ cm_Headers msg = m_Headers m.

(** A message that was made from a row of the outbox. *)
Definition from_outbox (t : Tables) (msg : ConsumerMessage) : Prop :=
  ∃ e, In e (outbox_events t) ∧ copy_of (message_of e) msg.

(** What the consumers keep, besides the rows of the outbox. *)
Definition system_tables_ok (opening : Z → Z) (evs : list OutboxEvent) (t : Tables) (c : Counters)
    : Prop :=
  db_ok opening t c ∧ announced t ∧ points_ok t ∧ outbox_events t = evs.

Lemma header_event_id t c e :
  wf t c → announced t → In e (outbox_events t) →
  extractEventID (m_Headers (message_of e)) = ob_EventID e.
Proof.
  intros Hwf Ha He. assert (Hid : is_uint64 (ob_EventID e)).
  { pose proof (wf_event_id _ _ Hwf e He). pose proof (an_event_id _ Ha e He). int_bounds. lia. }
  simpl. rewrite formatUint_eq by done. simpl. by rewrite ParseUint_FormatUint.
Qed.

Lemma settles_tables_ok opening evs F {A} (failed : A) t c t1 x r t' c' :
  system_tables_ok opening evs t c → same_service t t1 → points_ok t1 →
  settles F failed t c (r, t1, c) x t' c' → system_tables_ok opening evs t' c'.
Proof.
  intros (Hdb & Ha & Hp & Hob) Hsame Hp1 Hs.
  assert (Hdb1 := same_service_ok opening _ _ c Hsame Hdb).
  assert (Ha1 := same_service_announced _ _ Hsame Ha).
  assert (Hob1 : outbox_events t1 = evs) by (rewrite (sv_outbox _ _ Hsame); done).
  assert (Hc : ∀ u c', db_ok opening u c → counters_le c c' → db_ok opening u c').
  { intros u c0 [Hw Hl] Hle. split; [by eapply wf_counters|done]. }
  destruct Hs as [(_ & -> & Hle)|(_ & _ & [[-> Hle]|[-> Hle]])]; simpl in Hle;
    (split_and!; [by eapply Hc|done..]).
Qed.

Lemma apply_payload_ok F {A} `{FromJson A} opening evs msg (apply : A → prog SqlE (option go_err)) t c s :
  system_tables_ok opening evs t c →
  (∀ evt, Unmarshal (cm_Value msg) = Some evt →
     wp F (apply evt) (λ _ t' c' v, v = None ∧ system_tables_ok opening evs t' c') t c None) →
  wp2 F (apply_payload msg apply) (λ _ t' c' v _, v = None ∧ system_tables_ok opening evs t' c')
    t c None s.
Proof.
  intros Hok Happly. unfold apply_payload.
  destruct (Unmarshal (cm_Value msg)) as [evt|] eqn:E; [|by apply wp2_bind, wp2_other, wp2_ret].
  apply wp2_bind, wp2_sql. eapply wp_mono; [apply (Happly evt eq_refl)|].
  intros [err|] t' c' v [-> Hok']; [by apply wp2_ret|]. by apply wp2_bind, wp2_other, wp2_ret.
Qed.

Lemma capped_ok F opening evs t c e viewer creator sid reason cap :
  system_tables_ok opening evs t c → In e (outbox_events t) → gift_topic e = false →
  reason ≠ FanPointLedgerReasonGIFT →
  wp F (applyCapped (ob_EventID e) viewer creator sid reason cap)
    (λ _ t' c' v, v = None ∧ system_tables_ok opening evs t' c') t c None.
Proof.
  intros Hok He Htopic Hreason. eapply wp_mono; [apply applyCapped_refines|].
  intros out t' c' v (-> & ts & Hs). split; [done|]. pose proof Hok as (Hdb & Ha & Hp & Hob).
  assert (Hpk : unique_key ob_EventID (outbox_events t)) by apply (wf_event_pk _ _ (proj1 Hdb)).
  pose proof (points_ok_capped t c e viewer creator sid reason cap ts Hpk Hp He Htopic Hreason) as Hp1.
  destruct (apply_capped_atomic _ _ _ _ _ _ _ _ _) as [[r t1] c1] eqn:Ea. simpl in Hp1.
  assert (same_service t t1 ∧ c1 = c) as [Hsame ->].
  { unfold apply_capped_atomic in Ea. by repeat case_match; simplify_eq. }
  exact (settles_tables_ok _ _ _ _ _ _ _ _ _ _ _ Hok Hsame Hp1 Hs).
Qed.

Lemma gift_ok F opening evs t c e evt :
  system_tables_ok opening evs t c → In e (gift_rows t) → Unmarshal (ob_PayloadJson e) = Some evt →
  wp F (ApplyGift (ob_EventID e) evt)
    (λ _ t' c' v, v = None ∧ system_tables_ok opening evs t' c') t c None.
Proof.
  intros Hok He Hevt. eapply wp_mono; [apply ApplyGift_refines|].
  intros out t' c' v (-> & ts & Hs). split; [done|].
  assert (Hsame : same_service t (gift_points_commit t (ob_EventID e) evt ts)).
  { unfold gift_points_commit. by destruct (ga_CampaignID evt). }
  assert (Hid : same_service t t) by done.
  pose proof Hok as (_ & Ha & Hp & _). unfold apply_gift_atomic in Hs.
  destruct (already_applied t (ob_EventID e)); [exact (settles_tables_ok _ _ _ _ _ _ _ _ _ _ _ Hok Hid Hp Hs)|].
  destruct (gift_points_error t (ob_EventID e) evt) eqn:Herr;
    [exact (settles_tables_ok _ _ _ _ _ _ _ _ _ _ _ Hok Hid Hp Hs)|].
  refine (settles_tables_ok _ _ _ _ _ _ _ _ _ _ _ Hok Hsame _ Hs). by apply points_ok_gift.
Qed.

(** One message of a claim. *)
Lemma points_message_ok F opening evs msg t c s :
  system_tables_ok opening evs t c → from_outbox t msg →
  wp2 F (points_message msg) (λ _ t' c' v _, v = None ∧ system_tables_ok opening evs t' c') t c None s.
Proof.
  intros Hok (e & He & Ht & Hv & Hh). unfold points_message. rewrite Ht, Hh.
  rewrite (header_event_id t c e) by (done || apply Hok).
  destruct (ob_EventID e =? 0); [by apply wp2_bind, wp2_other, wp2_ret|].
  change (m_Topic (message_of e)) with (ob_Topic e).
  destruct (String.eqb (ob_Topic e) "live.gift.accepted.v1") eqn:E1.
  { apply apply_payload_ok; [done|]. rewrite Hv. intros evt Hevt. apply gift_ok; [done| |done].
    apply where_In. auto. }
  assert (Hother : gift_topic e = false) by done.
  destruct (String.eqb (ob_Topic e) "live.comment.created.v1").
  { apply apply_payload_ok; [done|]. intros evt _. by apply capped_ok. }
  destruct (String.eqb (ob_Topic e) "live.watch.minute.v1").
  { apply apply_payload_ok; [done|]. intros evt _. by apply capped_ok. }
  by apply wp2_bind, wp2_other, wp2_ret.
Qed.

Lemma points_claim_ok F opening msgs t c s :
  system_tables_ok opening (outbox_events t) t c → Forall (from_outbox t) msgs →
  wp2 F (points_ConsumeClaim msgs)
    (λ _ t' c' v _, v = None ∧ system_tables_ok opening (outbox_events t) t' c') t c None s.
Proof.
  intros Hok Hmsgs. apply wp2_for_each; [|done]. intros msg Hin t1 c1 s1 Hok1.
  apply points_message_ok; [done|]. rewrite Forall_forall in Hmsgs.
  destruct (Hmsgs msg ltac:(by apply list_elem_of_In)) as (e & He & Hc). exists e.
  by rewrite (proj2 (proj2 (proj2 Hok1))).
Qed.

(** *** The settlement worker *)

Lemma settlement_message_ok F opening evs msg t c s :
  system_tables_ok opening evs t c →
  wp2 F (settlement_message msg)
    (λ _ t' c' v _, v = None ∧ system_tables_ok opening evs t' c') t c None s.
Proof.
  intros Hok. unfold settlement_message.
  destruct (Unmarshal (cm_Value msg)) as [evt|]; [|by apply wp2_bind, wp2_other, wp2_ret].
  apply wp2_bind, wp2_sql. eapply wp_mono; [apply GenerateSettlement_refines|].
  intros out t' c' v (-> & ts1 & ts2 & Hs).
  assert (Hok' : system_tables_ok opening evs t' c').
  { unfold settle_atomic in Hs. pose proof Hok as (_ & _ & Hp & _).
    destruct (settle_totals t _) as [[[[? ?] ?] ?]|].
    - refine (settles_tables_ok _ _ _ _ _ _ _ _ _ _ _ Hok _ _ Hs); [done|].
      by destruct Hp.
    - by refine (settles_tables_ok _ _ _ _ _ _ _ _ _ _ _ Hok _ _ Hs). }
  destruct out; [by apply wp2_bind, wp2_other, wp2_ret|by apply wp2_ret].
Qed.

(** ** The system *)

Context `{OutboxOrderLaws}.

Definition from_kafka (k : Kafka) (msg : ConsumerMessage) : Prop :=
  ∃ m, In m (k_log k) ∧ copy_of m msg.

Inductive system_step : Db * Kafka → Db * Kafka → Prop :=
| system_pipeline s s' : pipeline_step s s' → system_step s s'
| system_points (env : Env) msgs d k :
    Forall (from_kafka k) msgs →
    system_step (d, k) ((run (points_ConsumeClaim msgs) (d, [])).2.1, k)
| system_settlement (env : Env) msgs d k :
    Forall (from_kafka k) msgs →
    system_step (d, k) ((run (settlement_ConsumeClaim msgs) (d, [])).2.1, k).

Definition system_ok (opening : Z → Z) (s : Db * Kafka) : Prop :=
  pipeline_ok opening s ∧ announced (tables s.1) ∧ points_ok (tables s.1).

(** The points are as good after the outbox has grown. *)
Lemma points_ok_grows t t' :
  unique_key ob_EventID (outbox_events t') → outbox_grows t t' → points_ok t → points_ok t'.
Proof.
  intros Huq [(evs & Hout & _) Hded Hfan Hl] [Hrow Hpk Happ Hknown].
  assert (Hann := λ e o, announces_later t t' e o Hl).
  assert (Hrows : gift_rows t' = gift_rows t ++ where_ gift_topic evs).
  { unfold gift_rows. by rewrite Hout, where_app. }
  assert (Hap : ∀ x, already_applied t' x = already_applied t x).
  { intros x. unfold already_applied. by rewrite Hded. }
  assert (Hpts : gift_points t' = gift_points t) by (unfold gift_points; by rewrite Hfan).
  split; rewrite ?Hpts, ?Hfan; [|done|..].
  - intros p Hp. destruct (Hrow p Hp) as (o & e & He & Hid & Ha & Hof). exists o, e.
    rewrite Hrows. split_and!; [apply in_or_app; by left|done|by apply Hann|done].
  - intros e He Hx. rewrite Hap in Hx. rewrite Hrows in He. apply in_app_or in He as [He|He]; [auto|].
    destruct (Hknown _ Hx) as (e' & He' & Hid). exfalso.
    apply where_In in He as [He _]. rewrite Hout in Huq. unfold unique_key in Huq.
    rewrite map_app in Huq. apply NoDup_ListNoDup, NoDup_app in Huq as (_ & Hdis & _).
    apply (Hdis (ob_EventID e)); apply list_elem_of_In; [rewrite <- Hid|]; by apply in_map.
  - intros x Hx. rewrite Hap in Hx. destruct (Hknown x Hx) as (e & He & Hid). exists e.
    rewrite Hout. auto using in_or_app.
Qed.

(** Marking rows as published changes nothing of this. *)
Lemma gift_rows_mark ts ids t :
  gift_rows (mark_rows ts ids t)
  = map (λ e, if existsb (Z.eqb (ob_EventID e)) ids then mark ts e else e) (gift_rows t).
Proof.
  unfold gift_rows, mark_rows. simpl. induction (outbox_events t) as [|e l IH]; simpl; [done|].
  assert (Hg : gift_topic (if existsb (Z.eqb (ob_EventID e)) ids then mark ts e else e) = gift_topic e)
    by (by destruct (existsb _ _)).
  rewrite Hg. destruct (gift_topic e); simpl; by rewrite IH.
Qed.

Lemma mark_rows_announced ts ids t : announced t → announced (mark_rows ts ids t).
Proof.
  intros [Ho Hu Hall Hid].
  set (f := λ e, if existsb (Z.eqb (ob_EventID e)) ids then mark ts e else e).
  assert (Hf : ∀ e, ob_PayloadJson (f e) = ob_PayloadJson e ∧ ob_Topic (f e) = ob_Topic e
                    ∧ ob_EventID (f e) = ob_EventID e).
  { intros e. unfold f. by destruct (existsb _ _). }
  assert (Hann : ∀ e o, announces t e o → announces (mark_rows ts ids t) (f e) o).
  { intros e o (Hi & Hacc & s & Hs & Hty & Hc1 & Hc2). destruct (Hf e) as (Hp & Ht & _).
    split_and!; [done|done|]. exists s. split_and!; [done..|].
    unfold carries. by rewrite Hp, Ht. }
  split; rewrite ?gift_rows_mark; fold f.
  - intros e He. apply in_map_iff in He as (x & <- & Hx). destruct (Ho x Hx) as [o Hao]. eauto.
  - unfold unique_key. rewrite map_map. erewrite map_ext; [exact Hu|]. intros e. simpl.
    unfold announced_id. by rewrite (proj1 (Hf e)).
  - intros o Hin Hacc. destruct (Hall o Hin Hacc) as (e & He & Hao). exists (f e).
    split; [by apply in_map|auto].
  - intros e He. apply mark_rows_In in He as (x & Hx & ->). apply Hid in Hx.
    by destruct (existsb _ _).
Qed.

Lemma mark_rows_points ts ids t : points_ok t → points_ok (mark_rows ts ids t).
Proof.
  intros [Hrow Hpk Happ Hknown].
  set (f := λ e, if existsb (Z.eqb (ob_EventID e)) ids then mark ts e else e).
  assert (Hf : ∀ e, ob_PayloadJson (f e) = ob_PayloadJson e ∧ ob_Topic (f e) = ob_Topic e
                    ∧ ob_EventID (f e) = ob_EventID e).
  { intros e. unfold f. by destruct (existsb _ _). }
  split; [|done|..].
  - intros p Hp. destruct (Hrow p Hp) as (o & e & He & Hid & (Hi & Hacc & s & Hs & Hty & Hc1 & Hc2) & Hof).
    exists o, (f e). rewrite gift_rows_mark. fold f. destruct (Hf e) as (Hpl & Ht & Hi').
    split; [by apply in_map|]. split; [congruence|]. split; [|done]. split; [done|]. split; [done|].
    exists s. split_and!; [done..|]. unfold carries. by rewrite Hpl, Ht.
  - intros e He Hx. rewrite gift_rows_mark in He. fold f in He.
    apply in_map_iff in He as (x & <- & Hin). destruct (Hf x) as (_ & _ & Hid). rewrite Hid in *.
    by apply Happ.
  - intros x Hx. destruct (Hknown x Hx) as (e & He & Hid). exists (f e).
    split; [apply mark_rows_In; by exists e|]. by rewrite (proj2 (proj2 (Hf e))).
Qed.

Lemma pipeline_step_system opening s s' :
  pipeline_step s s' → system_ok opening s → system_ok opening s'.
Proof.
  intros Hstep (Hpipe & Ha & Hp). pose proof (pipeline_step_ok opening s s' Hstep Hpipe) as Hpipe'.
  split; [done|]. destruct Hpipe as [Hsv _], Hpipe' as [[_ Hok'] _].
  destruct Hstep as [d d' k Hstep|env kenv batch d k]; cbn [fst snd] in *.
  - assert (Ha' : announced (tables d')) by (by eapply service_step_announced).
    split; [done|]. eapply points_ok_grows; [apply (wf_event_pk _ _ (proj1 Hok'))| |done].
    by eapply service_step_grows.
  - pose proof (wp2_run true env (RunOnce batch) _ d k ltac:(done) (proj1 Hsv)
                  (RunOnce_wp true batch (tables d) (counters d) k)) as Hpost.
    cbv zeta in Hpost. destruct (run (RunOnce batch) (d, k)) as [out [d' k']]. cbn [fst snd] in *.
    destruct Hpost as (_ & _ & [(ts & -> & _)|(_ & _ & -> & _)]); [|done].
    split; [by apply mark_rows_announced|by apply mark_rows_points].
Qed.

Lemma from_kafka_outbox t k msg : genuine t k → from_kafka k msg → from_outbox t msg.
Proof. intros Hg (m & Hm & Hc). destruct (Hg m Hm) as (e & He & <-). by exists e. Qed.

(** A claim keeps the system in order. *)
Lemma claim_system opening (env : Env) (p : prog (sum_eff SqlE MarkE) (option go_err)) d k :
  system_ok opening (d, k) →
  wp2 true p (λ _ t' c' v _, v = None
                ∧ system_tables_ok opening (outbox_events (tables d)) t' c')
    (tables d) (counters d) None [] →
  system_ok opening ((run p (d, [])).2.1, k).
Proof.
  intros ([[Hi Hdb] [Hd Hg]] & Ha & Hp) Hwp. cbn [fst snd] in *.
  pose proof (wp2_run true env p _ d [] ltac:(done) Hi Hwp) as Hpost. cbv zeta in Hpost.
  destruct (run p (d, [])) as [out [d' s']]. cbn [fst snd] in *.
  destruct Hpost as (Hv & Hdb' & Ha' & Hp' & Hob).
  split; [|done]. split; [split; [by eapply idle_view|done]|].
  unfold delivered, genuine in *. cbn [fst snd]. by rewrite Hob.
Qed.

Lemma system_step_ok opening s s' :
  system_step s s' → system_ok opening s → system_ok opening s'.
Proof.
  intros [s1 s2 Hstep|env msgs d k Hm|env msgs d k Hm] Hok.
  - by eapply pipeline_step_system.
  - apply claim_system; [done|]. destruct Hok as ([[Hi Hdb] [Hd Hg]] & Ha & Hp). cbn [fst snd] in *.
    apply points_claim_ok; [done|]. eapply Forall_impl; [exact Hm|]. intros msg. by apply from_kafka_outbox.
  - apply claim_system; [done|]. destruct Hok as ([[Hi Hdb] [Hd Hg]] & Ha & Hp). cbn [fst snd] in *.
    apply wp2_for_each; [|done]. intros. by apply settlement_message_ok.
Qed.

Lemma system_reachable_ok opening s s' :
  rtc system_step s s' → system_ok opening s → system_ok opening s'.
Proof. induction 1; eauto using system_step_ok. Qed.

(** ** The correspondence *)

Lemma forall_exists_list {A B} (R : A → B → Prop) (l : list A) :
  (∀ x, In x l → ∃ y, R x y) → ∃ ys, Forall2 R l ys.
Proof.
  induction l as [|x l IH]; intros Hl; [by exists []|].
  destruct (Hl x) as [y Hy]; [by left|]. destruct IH as [ys Hys]; [intros z Hz; apply Hl; by right|].
  exists (y :: ys). by constructor.
Qed.

(** Different rows of points come from different orders. *)
Lemma projected_inj t p1 p2 o1 o2 :
  announced t → projected t p1 o1 → projected t p2 o2 → go_GiftOrderID o1 = go_GiftOrderID o2 →
  fp_EventID p1 = fp_EventID p2.
Proof.
  intros Ha (e1 & He1 & <- & Hn1 & _) (e2 & He2 & <- & Hn2 & _) Hid.
  apply announces_id in Hn1, Hn2.
  by rewrite (unique_key_inj _ _ e1 e2 (an_once _ Ha) He1 He2) by congruence.
Qed.

Lemma projected_nodup t ps os :
  announced t → unique_key fp_EventID ps → Forall2 (projected t) ps os →
  unique_key go_GiftOrderID os.
Proof.
  intros Ha Huq Hall. unfold unique_key in *.
  induction Hall as [|p o ps os Hpo Hall IH]; simpl in *; [constructor|].
  inversion Huq as [|? ? Hn Hd]; subst. constructor; [|by apply IH].
  intros Hin. apply Hn. apply in_map_iff in Hin as (o' & Hid & Ho').
  apply list_elem_of_In, list_elem_of_lookup in Ho' as [i Hi].
  destruct (Forall2_lookup_r _ _ _ _ _ Hall Hi) as (p' & Hp' & Hpo').
  apply in_map_iff. exists p'. split; [by eapply projected_inj|].
  apply list_elem_of_In. by eapply list_elem_of_lookup_2.
Qed.

Lemma unique_key_where_sub {A K} (k : A → K) (f : A → bool) l : unique_key k l → unique_key k (where_ f l).
Proof.
  unfold unique_key, where_. induction l as [|x l IH]; intros Hl; simpl; [done|].
  inversion Hl as [|? ? Hn Hd]; subst. destruct (f x); [|auto]. simpl. constructor; [|auto].
  intros Hin. apply Hn. apply in_map_iff in Hin as (y & Hy & Hin). apply List.filter_In in Hin as [Hin _].
  rewrite <- Hy. by apply in_map.
Qed.

(** Every announcement has been consumed. *)
Definition caught_up (t : Tables) : Prop :=
  ∀ e, In e (gift_rows t) → already_applied t (ob_EventID e) = true.

Lemma points_correspond opening t c :
  db_ok opening t c → announced t → points_ok t →
  ∃ os, Forall2 points_of (gift_points t) os ∧ unique_key go_GiftOrderID os
    ∧ (∀ o, In o os → In o (accepted_orders t))
    ∧ (caught_up t → os ≡ₚ accepted_orders t).
Proof.
  intros [Hwf _] Ha Hp. destruct (forall_exists_list _ _ (po_row _ Hp)) as [os Hos].
  assert (Hnd : unique_key go_GiftOrderID os).
  { eapply projected_nodup; [done| |exact Hos]. by apply unique_key_where_sub, Hp. }
  assert (Hsub : ∀ o, In o os → In o (accepted_orders t)).
  { intros o Ho. apply list_elem_of_In, list_elem_of_lookup in Ho as [i Hi].
    destruct (Forall2_lookup_r _ _ _ _ _ Hos Hi) as (p & _ & e & _ & _ & (Hin & Hacc & _) & _).
    apply where_In. split; [done|]. by apply bool_decide_eq_true. }
  exists os. split_and!; [|done|done|].
  - eapply Forall2_impl; [exact Hos|]. by intros p o (e & _ & _ & _ & Hof).
  - intros Hcaught. apply NoDup_Permutation.
    + apply NoDup_ListNoDup. by eapply NoDup_map_inv.
    + apply NoDup_ListNoDup. eapply NoDup_map_inv. apply unique_key_where_sub, (wf_order_pk _ _ Hwf).
    + intros o. rewrite !list_elem_of_In. split; [apply Hsub|]. intros Ho.
      apply where_In in Ho as [Hin Hacc]. apply bool_decide_eq_true in Hacc.
      destruct (an_all _ Ha o Hin Hacc) as (e & He & Hao).
      destruct (po_applied _ Hp e He (Hcaught e He)) as (p & Hpin & Hpid).
      apply list_elem_of_In, list_elem_of_lookup in Hpin as [i Hi].
      destruct (Forall2_lookup_l _ _ _ _ _ Hos Hi) as (o' & Ho' & e' & He' & Hid' & Hao' & _).
      assert (e' = e) as ->.
      { apply (unique_key_inj ob_EventID (outbox_events t)); [apply (wf_event_pk _ _ Hwf)|..|congruence];
          [by apply where_In in He' as [? _]|by apply where_In in He as [? _]]. }
      pose proof (announces_id _ _ _ Hao) as E1. rewrite (announces_id _ _ _ Hao') in E1.
      injection E1 as E1. apply list_elem_of_In.
      rewrite <- (unique_key_inj _ _ o' o (wf_order_pk _ _ Hwf) (proj1 Hao') Hin E1).
      by eapply list_elem_of_lookup_2.
Qed.
End projection.
