(* ===== verification/Delivery.v ===== *)
(** * Delivery: the relay and the points projector

    The properties of the path of an event: outbox to Kafka (src/internal/outbox/relay.go) and Kafka
    to the point ledgers (src/internal/projector/points/projector.go), on runs of the programs. *)

From S2P Require Import Prelude GoInt GoStrings Sha256 Json Schema Prog Sql Wp Events Ledger WellFormed Preserve Money Recharge Gift GiftSpec Invariants InternalEvents ReadModels Settlement Reconcile System Points Wp2 Relay Runs Consumers Pipeline Lab.

(** ** The relay *)

(** C25. No event is lost and none is made up. Along every sequence of service operations and relay
    runs, with any batch sizes and any failures of the database and of Kafka, each outbox row that
    is marked published has its message in Kafka, and each message in Kafka is that of an outbox
    row. *)
Theorem relay_never_loses `{MySQLLaws} `{Unicode} `{ErrorText} `{OutboxOrderLaws} opening s s' :
  pipeline_ok opening s → rtc pipeline_step s s' →
  delivered (tables s'.1) s'.2 ∧ genuine (tables s'.1) s'.2.
Proof. intros Hok Hr. apply (pipeline_reachable_ok opening s s' Hr Hok). Qed.

Lemma lab_pipeline_ok : pipeline_ok seed_opening (lab, lab_topic).
Proof. split; [apply lab_ok|]. split; [by intros e []|by intros m []]. Qed.

(** After a recharge, a gift and a relay run. *)
Definition lab_relayed : Db * Kafka := (run (RunOnce 200) (lab_after, lab_topic)).2.

Lemma lab_relayed_reachable : rtc pipeline_step (lab, lab_topic) lab_relayed.
Proof.
  assert (Hs : ∀ d d', rtc service_step d d' → rtc pipeline_step (d, lab_topic) (d', lab_topic)).
  { induction 1; [done|]. eapply rtc_l; [by apply pipeline_service|done]. }
  etrans; [apply Hs, lab_after_reachable|]. apply rtc_once, pipeline_relay.
Qed.

Lemma relay_never_loses_witness : delivered (tables lab_relayed.1) lab_relayed.2.
Proof.
  exact (proj1 (relay_never_loses seed_opening (lab, lab_topic) lab_relayed lab_pipeline_ok
    lab_relayed_reachable)).
Defined.

(** C26. A relay run is all or nothing in the database. Whatever fails, a run leaves no open
    transaction and either has sent the whole batch, in order, and marked exactly its rows
    published (and it answers with the size of the batch unless a failure hides it), or it answers
    with an error, has marked nothing, and has sent a prefix of the batch. *)
Theorem relay_run_outcome `{OutboxOrderLaws} (env : Env) (kenv : KafkaEnv) d k batch :
  idle d →
  let rows := relay_batch batch (tables d) in
  let r := run (RunOnce batch) (d, k) in
  idle r.2.1 ∧ counters r.2.1 = counters d ∧
  ((∃ ts, tables r.2.1 = mark_rows ts (map ob_EventID rows) (tables d)
      ∧ k_log r.2.2 = k_log k ++ map message_of rows
      ∧ (r.1 = ROk (Z.of_nat (length rows)) ∨ r.1 = RErr ErrConn))
   ∨ r.1 = RErr ErrConn ∧ tables r.2.1 = tables d
     ∧ ∃ pre suf, rows = pre ++ suf ∧ k_log r.2.2 = k_log k ++ map message_of pre).
Proof.
  intros Hi rows r.
  pose proof (wp2_run true env (RunOnce batch) _ d k ltac:(done) Hi
                (RunOnce_wp true batch (tables d) (counters d) k)) as Hpost.
  cbv zeta in Hpost. fold r in Hpost. destruct Hpost as (Hv & Hc & Hcase).
  split; [by eapply idle_view|]. split; [done|]. fold rows in Hcase.
  destruct Hcase as [(ts & Ht & Hl & [Hout|[_ Hout]])|(_ & Hout & Ht & Hpre)]; eauto 10.
Qed.

Lemma relay_run_outcome_witness : idle lab_relayed.1.
Proof. exact (proj1 (relay_run_outcome lab_env lab_kafka lab_after lab_topic 200 eq_refl)). Defined.

(** Relay runs one after the other, with nothing else going on and no failures. *)
Fixpoint relay_runs `{OutboxOrder} (envs : list (Env * KafkaEnv)) (batch : Z) (s : Db * Kafka)
    : Db * Kafka :=
  match envs with
  | [] => s
  | (env, kenv) :: envs' =>
      relay_runs envs' batch
        (run (H:=@sum_handler _ _ _ _ (@sql_handler env) (@kafka_handler kenv)) (RunOnce batch) s).2
  end.

Lemma mark_rows_unique ts ids t :
  unique_key ob_EventID (outbox_events t) → unique_key ob_EventID (outbox_events (mark_rows ts ids t)).
Proof.
  intros Huq. unfold unique_key. simpl. rewrite map_map. erewrite map_ext; [exact Huq|].
  intros e. by destruct (existsb _ _).
Qed.

(** C27. The relay drains the outbox. [n] runs without failures, with a batch of at least one row,
    take [n] batches off the backlog; so as many runs as there are batches publish every row. *)
Theorem relay_drains `{OutboxOrderLaws} envs batch d k :
  List.Forall (λ x : Env * KafkaEnv, quiet x.1 ∧ kafka_quiet x.2) envs → idle d → 1 ≤ batch →
  unique_key ob_EventID (outbox_events (tables d)) →
  backlog (tables (relay_runs envs batch (d, k)).1)
  = Z.max 0 (backlog (tables d) - Z.of_nat (length envs) * batch).
Proof.
  intros Henvs Hi Hb. revert d k Hi. induction Henvs as [|[env kenv] envs [Hq Hk] _ IH];
    intros d k Hi Huq; simpl length.
  { simpl. unfold backlog, count_where. lia. }
  cbn [relay_runs].
  pose proof (wp2_run false env (RunOnce batch) _ d k ltac:(done) Hi
                (RunOnce_wp (kenv:=kenv) false batch (tables d) (counters d) k)) as Hpost.
  cbv zeta in Hpost.
  destruct (run (RunOnce batch) (d, k)) as [out [d' k']]. cbn [fst snd] in *.
  assert (Hno : ¬ may_fail (kenv:=kenv) false) by (intros [?|Hn]; [done|by apply Hn]).
  destruct Hpost as (Hv & _ & [(ts & Ht & _ & _)|(Hf & _)]); [|by destruct Hno].
  rewrite IH; [|by eapply idle_view|rewrite Ht; by apply mark_rows_unique].
  rewrite Ht. destruct (relay_backlog ts batch (tables d) Huq) as [-> _]; [lia|].
  rewrite Nat2Z.inj_succ. nia.
Qed.

Lemma relay_drains_witness :
  backlog (tables (relay_runs [(lab_env, lab_kafka)] 200 (lab_after, lab_topic)).1) = 0.
Proof.
  assert (Hq : List.Forall (λ x : Env * KafkaEnv, quiet x.1 ∧ kafka_quiet x.2) [(lab_env, lab_kafka)])
    by (repeat constructor).
  assert (Huq : unique_key ob_EventID (outbox_events (tables lab_after))).
  { destruct (reachable_ok seed_opening lab lab_after lab_after_reachable lab_ok) as [_ [Hwf _]].
    apply (wf_event_pk _ _ Hwf). }
  rewrite (relay_drains [(lab_env, lab_kafka)] 200 lab_after lab_topic Hq eq_refl
             ltac:(vm_compute; discriminate) Huq).
  vm_compute. reflexivity.
Defined.

(** C28. The event id survives the trip. The header that the relay formats by hand is read back by
    the projectors as the event id of the row, for every id of the column. *)
Theorem event_id_roundtrip (e : OutboxEvent) :
  is_uint64 (ob_EventID e) → extractEventID (m_Headers (message_of e)) = ob_EventID e.
Proof.
  intros He. simpl. rewrite formatUint_eq by done. simpl. by rewrite ParseUint_FormatUint.
Qed.

Lemma event_id_roundtrip_witness :
  extractEventID (m_Headers (message_of
    {| ob_EventID := 18446744073709551615; ob_Topic := ""; ob_EventKey := ""; ob_PayloadJson := "";
       ob_PublishedAt := None; ob_CreatedAt := 0 |})) = 18446744073709551615.
Proof. apply event_id_roundtrip. split; vm_compute; discriminate. Defined.

(** ** The points projector *)

Section projector.
Context `{MySQLLaws}.

(** One delivery of an event, with its id. *)
Inductive projector_op :=
| PGift (event : Z) (evt : LiveGiftAcceptedV1)
| PComment (event : Z) (evt : LiveCommentCreatedV1)
| PWatch (event : Z) (evt : LiveWatchMinuteV1).

Definition projector_prog (op : projector_op) : prog SqlE (option go_err) :=
  match op with
  | PGift event evt => ApplyGift event evt
  | PComment event evt => ApplyComment event evt
  | PWatch event evt => ApplyWatchMinute event evt
  end.

Definition projector_event (op : projector_op) : Z :=
  match op with PGift event _ | PComment event _ | PWatch event _ => event end.

Definition projector_atomic (op : projector_op) (t : Tables) (c : Counters) (ts : Z)
    : atomic (option go_err) :=
  match op with
  | PGift event evt => apply_gift_atomic t c event evt ts
  | PComment event evt =>
      apply_capped_atomic t c event (lc_ViewerID evt) (lc_CreatorID evt) (lc_LiveSessionID evt)
        FanPointLedgerReasonCOMMENT comment_cap ts
  | PWatch event evt =>
      apply_capped_atomic t c event (lw_ViewerID evt) (lw_CreatorID evt) (lw_LiveSessionID evt)
        FanPointLedgerReasonWATCHMINUTE watch_cap ts
  end.

Inductive projector_step : Db → Db → Prop :=
| projector_op_step (env : Env) op d : projector_step d (run (projector_prog op) d).2.

Lemma projector_run F (env : Env) op d :
  (F = false → quiet env) → idle d →
  let r := run (projector_prog op) d in
  idle r.2 ∧ ∃ ts, settles F (Some ErrConn) (tables d) (counters d)
    (projector_atomic op (tables d) (counters d) ts) r.1 (tables r.2) (counters r.2).
Proof.
  intros Hq Hi.
  assert (Hwp : wp F (projector_prog op)
    (points_post F (tables d) (counters d) (projector_atomic op (tables d) (counters d)))
    (tables d) (counters d) None).
  { destruct op; [apply ApplyGift_refines|apply applyCapped_refines..]. }
  destruct (wp_run F env _ _ d Hq Hi Hwp) as [Hv Hs]. split; [by eapply idle_view|done].
Qed.

(** An event that was applied stays applied, and is not applied again. *)
Lemma atomic_applied op t c ts event :
  already_applied t event = true →
  already_applied (projector_atomic op t c ts).1.2 event = true.
Proof.
  intros Ha.
  assert (Hmark : ∀ ev, already_applied (mark_applied ev ts t) event = true).
  { intros ev. unfold already_applied in *. simpl. by rewrite existsb_app, Ha. }
  destruct op; simpl; unfold apply_gift_atomic, apply_capped_atomic, gift_points_commit;
    repeat case_match; done || apply Hmark.
Qed.

Lemma atomic_marks op t c ts :
  (projector_atomic op t c ts).1.1 = None →
  already_applied (projector_atomic op t c ts).1.2 (projector_event op) = true.
Proof.
  assert (Hmark : ∀ ev, already_applied (mark_applied ev ts t) ev = true).
  { intros ev. unfold already_applied. simpl. rewrite existsb_app. simpl. unfold same_dedupe.
    by rewrite coll_eq_refl, Z.eqb_refl, orb_true_r. }
  intros Ho. destruct op; simpl in *; unfold apply_gift_atomic, apply_capped_atomic, gift_points_commit in *;
    repeat case_match; done || apply Hmark.
Qed.

Lemma atomic_again op t c ts :
  already_applied t (projector_event op) = true → projector_atomic op t c ts = (None, t, c).
Proof.
  intros Ha. destruct op; simpl in *; unfold apply_gift_atomic, apply_capped_atomic; by rewrite Ha.
Qed.

Lemma steps_applied d d' event :
  rtc projector_step d d' → idle d → already_applied (tables d) event = true →
  idle d' ∧ already_applied (tables d') event = true.
Proof.
  induction 1 as [|d d1 d2 [env op d0] _ IH]; [done|]. intros Hi Ha.
  destruct (projector_run true env op d0 ltac:(done) Hi) as (Hi' & ts & Hs).
  apply IH; [done|].
  destruct Hs as [(_ & -> & _)|(_ & _ & [[-> _]|[-> _]])]; auto using atomic_applied.
Qed.
End projector.

(** C29. An event counts once. Once a projector call for an event has answered with success, every
    later delivery of an event with the same id, after any other deliveries with any failures,
    succeeds when it is not cut off and changes nothing. *)
Theorem points_applied_once `{MySQLLaws} (env1 env2 : Env) d d' op op' :
  idle d → quiet env2 → projector_event op' = projector_event op →
  let r1 := run (H:=@sql_handler env1) (projector_prog op) d in
  r1.1 = None → rtc projector_step r1.2 d' →
  let r2 := run (H:=@sql_handler env2) (projector_prog op') d' in
  r2.1 = None ∧ tables r2.2 = tables d'.
Proof.
  intros Hi Hq Hev r1 Hr1 Hsteps r2.
  destruct (projector_run true env1 op d ltac:(done) Hi) as (Hi1 & ts & Hs). fold r1 in Hi1, Hs.
  destruct Hs as [(Hout & Ht & _)|(_ & Hout & _)]; [|congruence].
  rewrite Hr1 in Hout. symmetry in Hout. apply atomic_marks in Hout. rewrite <- Ht in Hout.
  destruct (steps_applied _ _ _ Hsteps Hi1 Hout) as [Hi' Ha].
  destruct (projector_run false env2 op' d' ltac:(done) Hi') as (_ & ts' & Hs').
  apply settles_quiet in Hs' as (Hout' & Ht' & _). fold r2 in Hout', Ht'.
  rewrite atomic_again in Hout', Ht' by (by rewrite Hev). done.
Qed.

Definition lab_comment : LiveCommentCreatedV1 :=
  {| lc_EventID := "c-1"; lc_ViewerID := 2001; lc_CreatorID := 1001; lc_LiveSessionID := 9001 |}.

Lemma points_applied_once_witness :
  let d1 := (run (ApplyComment 1 lab_comment) lab).2 in
  tables (run (ApplyComment 1 lab_comment) d1).2 = tables d1.
Proof.
  exact (proj2 (points_applied_once lab_env lab_env lab _ (PComment 1 lab_comment)
    (PComment 1 lab_comment) eq_refl lab_quiet eq_refl eq_refl (rtc_refl _ _))).
Defined.

(** Comments and watch minutes stay within their caps. *)
Definition capped (t : Tables) : Prop :=
  ∀ viewer sid, activity_count t viewer sid FanPointLedgerReasonCOMMENT ≤ comment_cap
    ∧ activity_count t viewer sid FanPointLedgerReasonWATCHMINUTE ≤ watch_cap.

Lemma activity_count_add t v s reason p t' :
  fan_point_ledger t' = fan_point_ledger t ++ [p] →
  activity_count t' v s reason
  = activity_count t v s reason + (if same_activity v s reason p then 1 else 0).
Proof.
  intros Ht. unfold activity_count, count_where. rewrite Ht, where_app, length_app. simpl.
  destruct (same_activity v s reason p); simpl; lia.
Qed.

Lemma capped_add t t' p :
  capped t → fan_point_ledger t' = fan_point_ledger t ++ [p] →
  match fp_Reason p with
  | FanPointLedgerReasonGIFT => True
  | FanPointLedgerReasonCOMMENT =>
      activity_count t (fp_ViewerID p) (fp_LiveSessionID p) FanPointLedgerReasonCOMMENT < comment_cap
  | FanPointLedgerReasonWATCHMINUTE =>
      activity_count t (fp_ViewerID p) (fp_LiveSessionID p) FanPointLedgerReasonWATCHMINUTE < watch_cap
  end → capped t'.
Proof.
  intros Hc Ht Hp v s. specialize (Hc v s). rewrite !(activity_count_add t v s _ p t' Ht).
  unfold same_activity at 1 2.
  destruct (fp_ViewerID p =? v) eqn:Ev; simpl; [|lia]. destruct (fp_LiveSessionID p =? s) eqn:Es; simpl; [|lia].
  bool_to_prop. subst v s. destruct (fp_Reason p); simpl; lia.
Qed.

Lemma atomic_capped `{MySQL} op t c ts : capped t → capped (projector_atomic op t c ts).1.2.
Proof.
  intros Hc. destruct op; simpl; unfold apply_gift_atomic, apply_capped_atomic.
  - destruct (already_applied t event); [done|]. destruct (gift_points_error t event evt); [done|].
    unfold gift_points_commit. simpl.
    destruct (ga_CampaignID evt); by eapply (capped_add t _ (gift_point event evt)).
  - repeat (case_match; [done|]). bool_to_prop. eapply capped_add; [done|done|].
    simpl. lia.
  - repeat (case_match; [done|]). bool_to_prop. eapply capped_add; [done|done|].
    simpl. lia.
Qed.

(** C30. Activity points are capped. Along every sequence of deliveries to the points projector,
    with any failures, no viewer gets points for more than 20 comments and 60 watch minutes in one
    session. *)
Theorem points_capped `{MySQLLaws} d d' :
  idle d → capped (tables d) → rtc projector_step d d' → capped (tables d').
Proof.
  intros Hi Hc Hsteps. revert Hi Hc. induction Hsteps as [|d d1 d2 [env op d0] _ IH]; [done|].
  intros Hi Hc. destruct (projector_run true env op d0 ltac:(done) Hi) as (Hi' & ts & Hs).
  apply IH; [done|].
  destruct Hs as [(_ & -> & _)|(_ & _ & [[-> _]|[-> _]])]; auto using atomic_capped.
Qed.

Lemma points_capped_witness : capped (tables (run (ApplyComment 1 lab_comment) lab).2).
Proof.
  assert (Hc : capped (tables lab)) by (intros v s; split; vm_compute; discriminate).
  assert (Hstep : projector_step lab (run (ApplyComment 1 lab_comment) lab).2)
    by apply (projector_op_step lab_env (PComment 1 lab_comment)).
  exact (points_capped lab _ eq_refl Hc (rtc_once _ _ Hstep)).
Defined.

(** C31. A large gift never gets its points. The points column is a signed INT, while an accepted
    gift may charge any uint32: a delivery of a gift that charged more than 2147483647 coins fails
    with error 1264 in every database that has not applied the event, and leaves it unapplied, so
    that the next delivery fails in the same way. *)
Theorem large_gift_points_stuck `{MySQLLaws} (env : Env) d event evt :
  quiet env → idle d → already_applied (tables d) event = false → max_int32 < ga_ChargedCoins evt →
  let r := run (ApplyGift event evt) d in
  r.1 = Some (MySQLError ER_OUT_OF_RANGE) ∧ tables r.2 = tables d.
Proof.
  intros Hq Hi Ha Hmax r.
  destruct (projector_run false env (PGift event evt) d ltac:(done) Hi) as (_ & ts & Hs).
  apply settles_quiet in Hs as (Hout & Ht & _). simpl in Hout, Ht. fold r in Hout, Ht.
  unfold apply_gift_atomic, gift_points_error, fan_point_violation in Hout, Ht.
  assert (Hr : int_out_of_range (fp_Points (gift_point event evt)) = true).
  { unfold int_out_of_range. simpl. apply orb_true_iff. right. by apply Z.ltb_lt. }
  by rewrite Ha, Hr in Hout, Ht.
Qed.

Definition lab_large_gift : LiveGiftAcceptedV1 :=
  {| ga_EventType := giftAcceptedTopic; ga_GiftOrderID := 1; ga_ViewerID := 2001;
     ga_CreatorID := 1001; ga_LiveSessionID := 9001; ga_CampaignID := None; ga_MatchID := None;
     ga_GiftID := "LION"; ga_Quantity := 99; ga_ChargedCoins := 2147483648; ga_MatchPoints := 0;
     ga_DiamondReward := 0; ga_RequestID := "g-9" |}.

Lemma large_gift_points_stuck_witness :
  (run (ApplyGift 1 lab_large_gift) lab).1 = Some (MySQLError ER_OUT_OF_RANGE).
Proof.
  exact (proj1 (large_gift_points_stuck lab_env lab 1 lab_large_gift lab_quiet eq_refl eq_refl
    ltac:(vm_compute; reflexivity))).
Defined.
