(* ===== verification/EndToEnd.v ===== *)
(** * From the gift to the points

    The properties of the whole path of an accepted gift: its document through the JSON column and
    the decoder of the consumer, the claims of the points projector (src/cmd/points-projector/main.go),
    and the points it leaves, for any interleaving of service operations, relay runs and claims. *)

From S2P Require Import Prelude GoInt GoStrings Sha256 Json JsonDecode JsonRoundtrip Schema Prog Sql Wp Events Ledger WellFormed Preserve Money Recharge Gift GiftSpec Invariants InternalEvents Decode ReadModels Settlement Reconcile System Points Wp2 Relay Announce Consumers Runs Pipeline Projection Lab.

(** ** Documents *)

(** C32. The event the consumer decodes is the event the service wrote. For every accepted-gift event
    with values of its Go types, whatever document the JSON column holds for the text that
    MarshalJSONString gives, json.Unmarshal reads from it the same numbers and the same texts, with
    invalid UTF-8 bytes replaced. *)
Theorem gift_event_roundtrip `{MySQLLaws} `{Unicode} (e : LiveGiftAcceptedV1) text doc :
  gift_event_typed e → MarshalJSONString e = ROk text → json_store text = Some doc →
  Unmarshal doc = Some (clean_gift_event e).
Proof. intros Hty [= <-] Hdoc. by apply gift_event_decodes. Qed.

Definition lab_gift_event : LiveGiftAcceptedV1 :=
  {| ga_EventType := giftAcceptedTopic; ga_GiftOrderID := 18446744073709551615; ga_ViewerID := 2001;
     ga_CreatorID := 1001; ga_LiveSessionID := 9001; ga_CampaignID := Some 7001; ga_MatchID := None;
     ga_GiftID := "R<S>\E"; ga_Quantity := 99; ga_ChargedCoins := 4294967295; ga_MatchPoints := 0;
     ga_DiamondReward := 5; ga_RequestID := "g-1" |}.

Lemma gift_event_roundtrip_witness :
  Unmarshal (marshal (to_json lab_gift_event)) = Some (clean_gift_event lab_gift_event).
Proof.
  apply (gift_event_roundtrip lab_gift_event (marshal (to_json lab_gift_event)));
    [|reflexivity|reflexivity].
  unfold gift_event_typed. int_bounds. simpl. lia.
Defined.

(** ** Claims *)

(** A message the points projector has work for. *)
Definition usable `{Unicode} (msg : ConsumerMessage) : bool :=
  negb (extractEventID (cm_Headers msg) =? 0) &&
  (if String.eqb (cm_Topic msg) "live.gift.accepted.v1" then
     bool_decide (is_Some (Unmarshal (cm_Value msg) : option LiveGiftAcceptedV1))
   else if String.eqb (cm_Topic msg) "live.comment.created.v1" then
     bool_decide (is_Some (Unmarshal (cm_Value msg) : option LiveCommentCreatedV1))
   else if String.eqb (cm_Topic msg) "live.watch.minute.v1" then
     bool_decide (is_Some (Unmarshal (cm_Value msg) : option LiveWatchMinuteV1))
   else false).

Section claims.
Context `{MySQLLaws} `{Unicode}.

Definition applied_in (t : Tables) (msg : ConsumerMessage) : Prop :=
  usable msg = true → already_applied t (extractEventID (cm_Headers msg)) = true.

(** What one message of a claim does: it stops the loop unmarked, or it is marked and applied. *)
Definition message_post (t : Tables) (s : Marks) (msg : ConsumerMessage)
    (out : option go_err) (t' : Tables) (c' : Counters) (v : option Tables) (s' : Marks) : Prop :=
  v = None ∧ (∀ x, already_applied t x = true → already_applied t' x = true)
  ∧ (out ≠ None ∧ s' = s
     ∨ out = None ∧ map fst s' = map fst s ++ [msg] ∧ applied_in t' msg).

Lemma settles_applied F (event : Z) t c (a : Z → atomic (option go_err)) ts out t' c' :
  (∀ x, already_applied t x = true → already_applied (a ts).1.2 x = true) →
  ((a ts).1.1 = None → already_applied (a ts).1.2 event = true) →
  settles F (Some ErrConn) t c (a ts) out t' c' →
  (∀ x, already_applied t x = true → already_applied t' x = true)
  ∧ (out = None → already_applied t' event = true).
Proof.
  intros Hmono Hmark [(-> & -> & _)|(_ & -> & [[-> _]|[-> _]])]; auto; (split; [auto|done]).
Qed.

Lemma gift_applied F event evt t c :
  wp F (ApplyGift event evt) (λ out t' c' v, v = None
    ∧ (∀ x, already_applied t x = true → already_applied t' x = true)
    ∧ (out = None → already_applied t' event = true)) t c None.
Proof.
  eapply wp_mono; [apply ApplyGift_refines|]. intros out t' c' v (-> & ts & Hs). split; [done|].
  apply (settles_applied F event t c (apply_gift_atomic t c event evt) ts out t' c'); [..|done];
    unfold apply_gift_atomic; destruct (already_applied t event) eqn:E; simpl; try done;
    (destruct (gift_points_error t event evt); simpl; [done|]).
  - intros x Hx. by rewrite already_applied_gift, Hx.
  - intros _. by rewrite already_applied_gift, Z.eqb_refl, orb_true_r.
Qed.

Lemma capped_applied F event viewer creator sid reason cap t c :
  wp F (applyCapped event viewer creator sid reason cap) (λ out t' c' v, v = None
    ∧ (∀ x, already_applied t x = true → already_applied t' x = true)
    ∧ (out = None → already_applied t' event = true)) t c None.
Proof.
  eapply wp_mono; [apply applyCapped_refines|]. intros out t' c' v (-> & ts & Hs). split; [done|].
  assert (Hadd : ∀ t1 x, consumer_dedupe t1 = consumer_dedupe (mark_applied event ts t) →
    already_applied t1 x = already_applied t x || (x =? event)).
  { intros t1 x Ht1. rewrite <- (already_applied_app t _ ts). unfold already_applied. by rewrite Ht1. }
  apply (settles_applied F event t c
    (λ ts, apply_capped_atomic t c event viewer creator sid reason cap ts) ts out t' c'); [..|done];
    unfold apply_capped_atomic; destruct (already_applied t event) eqn:E; simpl; try done;
    destruct (max_int64 <? _); simpl; try done; destruct (cap <=? _); simpl;
    try (destruct (fan_point_violation _ _); simpl; [done|]).
  1, 2: intros x Hx; by rewrite Hadd, Hx.
  all: intros _; by rewrite Hadd, Z.eqb_refl, orb_true_r.
Qed.

Lemma mark_post F t c s msg md :
  usable msg = false →
  wp2 F (MarkMessage msg md ;;; Ret None)%prog (message_post t s msg) t c None s.
Proof.
  intros Hu. apply wp2_bind, wp2_other, wp2_ret. split; [done|]. split; [done|]. right.
  split; [done|]. split; [simpl; by rewrite map_app|]. intros. congruence.
Qed.

Lemma payload_post F {A} `{FromJson A} t c s msg (apply : A → prog SqlE (option go_err)) :
  ((Unmarshal (cm_Value msg) : option A) = None → usable msg = false) →
  (∀ evt, wp F (apply evt) (λ out t' c' v, v = None
     ∧ (∀ x, already_applied t x = true → already_applied t' x = true)
     ∧ (out = None → already_applied t' (extractEventID (cm_Headers msg)) = true)) t c None) →
  wp2 F (apply_payload msg apply) (message_post t s msg) t c None s.
Proof.
  intros Hu Happly. unfold apply_payload.
  destruct (Unmarshal (cm_Value msg)) as [evt|] eqn:E; [|by apply mark_post, Hu].
  apply wp2_bind, wp2_sql. eapply wp_mono; [apply Happly|].
  intros [err|] t' c' v (-> & Hmono & Hmark); [apply wp2_ret|apply wp2_bind, wp2_other, wp2_ret];
    (split; [done|]); (split; [done|]); [by left|right].
  split; [done|]. split; [simpl; by rewrite map_app|]. intros _. auto.
Qed.

Lemma points_message_post F msg t c s :
  wp2 F (points_message msg) (message_post t s msg) t c None s.
Proof.
  unfold points_message.
  destruct (extractEventID (cm_Headers msg) =? 0) eqn:E0.
  { apply mark_post. unfold usable. by rewrite E0. }
  destruct (String.eqb (cm_Topic msg) "live.gift.accepted.v1") eqn:E1.
  { apply payload_post; [|intros; apply gift_applied].
    intros Hn. unfold usable. by rewrite E0, E1, Hn. }
  destruct (String.eqb (cm_Topic msg) "live.comment.created.v1") eqn:E2.
  { apply payload_post; [|intros; apply capped_applied].
    intros Hn. unfold usable. by rewrite E0, E1, E2, Hn. }
  destruct (String.eqb (cm_Topic msg) "live.watch.minute.v1") eqn:E3.
  { apply payload_post; [|intros; apply capped_applied].
    intros Hn. unfold usable. by rewrite E0, E1, E2, E3, Hn. }
  apply mark_post. unfold usable. by rewrite E0, E1, E2, E3.
Qed.

Lemma points_claim_post F msgs : ∀ t c s,
  wp2 F (points_ConsumeClaim msgs) (λ out t' c' v s', v = None
    ∧ (∀ x, already_applied t x = true → already_applied t' x = true)
    ∧ ∃ pre suf, msgs = pre ++ suf ∧ map fst s' = map fst s ++ pre ∧ (out = None ↔ suf = [])
        ∧ ∀ msg, In msg pre → applied_in t' msg) t c None s.
Proof.
  unfold points_ConsumeClaim. induction msgs as [|msg msgs IH]; intros t c s; simpl.
  { apply wp2_ret. split; [done|]. split; [done|]. exists [], []. split_and!; [done|by rewrite app_nil_r|done|by intros m []]. }
  apply wp2_bind. eapply wp2_mono; [apply points_message_post|].
  intros out t1 c1 v1 s1 (-> & Hmono & [[Hout ->]|(-> & Hs & Happ)]).
  - destruct out; [|done]. apply wp2_ret. split; [done|]. split; [done|].
    exists [], (msg :: msgs). rewrite app_nil_r. split_and!; [done|done|done|by intros m []].
  - eapply wp2_mono; [apply IH|].
    intros out t2 c2 v2 s2 (-> & Hmono2 & pre & suf & -> & Hs2 & Hiff & Happ2).
    split; [done|]. split; [auto|]. exists (msg :: pre), suf.
    split; [done|]. split; [by rewrite Hs2, Hs, <- app_assoc|]. split; [done|].
    intros m [<-|Hm]; [|auto]. intros Hu. auto.
Qed.
End claims.

(** C33. No message is skipped. Whatever fails during a claim of the points projector, the messages
    it marks are the claim's first ones, in order and once each; it returns without error exactly
    when it has marked all of them; and each marked message that it can use has been applied. *)
Theorem claim_marks_applied `{MySQLLaws} `{Unicode} (env : Env) d msgs :
  idle d →
  let r := run (points_ConsumeClaim msgs) (d, []) in
  ∃ pre suf, msgs = pre ++ suf ∧ map fst r.2.2 = pre ∧ (r.1 = None ↔ suf = [])
    ∧ ∀ msg, In msg pre → usable msg = true →
        already_applied (tables r.2.1) (extractEventID (cm_Headers msg)) = true.
Proof.
  intros Hi r.
  pose proof (wp2_run true env (points_ConsumeClaim msgs) _ d [] ltac:(done) Hi
                (points_claim_post true msgs (tables d) (counters d) [])) as Hpost.
  cbv zeta in Hpost. fold r in Hpost. destruct Hpost as (_ & _ & pre & suf & Hm & Hs & Hiff & Happ).
  by exists pre, suf.
Qed.

(** After a recharge, a gift and a relay run, the messages of the lab as a consumer gets them. *)
Definition lab_topic_after : Kafka := (run (RunOnce 200) (lab_after, lab_topic)).2.2.

Definition lab_db_after : Db := (run (RunOnce 200) (lab_after, lab_topic)).2.1.

Definition consumer_message (m : ProducerMessage) : ConsumerMessage :=
  {| cm_Topic := m_Topic m; cm_Value := m_Value m; cm_Headers := m_Headers m; cm_Offset := 0 |}.

Definition lab_claim : list ConsumerMessage := map consumer_message (k_log lab_topic_after).

Lemma claim_marks_applied_witness :
  map fst (run (points_ConsumeClaim lab_claim) (lab_db_after, [])).2.2 = lab_claim
  ∧ existsb usable lab_claim = true.
Proof.
  split; [|vm_compute; reflexivity].
  destruct (claim_marks_applied lab_env lab_db_after lab_claim eq_refl) as (pre & suf & Hm & Hp & Hiff & _).
  rewrite Hp, Hm, (proj1 Hiff); [by rewrite app_nil_r|vm_compute; reflexivity].
Defined.

(** ** Points and coins *)

Definition by_viewer_session (u sid : Z) (p : FanPointLedger) : bool :=
  (fp_ViewerID p =? u) && (fp_LiveSessionID p =? sid).

(** The gift points of a viewer in a session. *)
Definition gift_points_total (t : Tables) (u sid : Z) : Z :=
  sum_of fp_Points (where_ (by_viewer_session u sid) (gift_points t)).

Definition order_by_viewer_session (u sid : Z) (o : GiftOrder) : bool :=
  (go_ViewerID o =? u) && (go_LiveSessionID o =? sid).

(** The coins of the accepted gifts of a viewer in a session. *)
Definition coins_spent (t : Tables) (u sid : Z) : Z :=
  sum_of go_ChargedCoins (where_ (order_by_viewer_session u sid) (accepted_orders t)).

Lemma points_of_total u sid ps os :
  Forall2 points_of ps os →
  sum_of fp_Points (where_ (by_viewer_session u sid) ps)
  = sum_of go_ChargedCoins (where_ (order_by_viewer_session u sid) os).
Proof.
  induction 1 as [|p o ps os (Hv & _ & Hs & Hp) _ IH]; simpl; [done|].
  unfold by_viewer_session at 1, order_by_viewer_session at 1. rewrite Hv, Hs.
  destruct (_ && _); simpl; lia.
Qed.

(** A database and a topic with which the pipeline starts: nothing sent, announced or projected. *)
Definition fresh (s : Db * Kafka) : Prop :=
  gift_orders (tables s.1) = [] ∧ outbox_events (tables s.1) = [] ∧ consumer_dedupe (tables s.1) = []
  ∧ fan_point_ledger (tables s.1) = [] ∧ k_log s.2 = [].

Lemma fresh_ok `{MySQLLaws} `{Unicode} opening s :
  service_ok opening s.1 → fresh s → system_ok opening s.
Proof.
  intros Hok (Ho & Hob & Hd & Hf & Hk). split; [split; [done|]|].
  - unfold delivered, genuine. rewrite Hob, Hk. split; [by intros e []|by intros m []].
  - split; split; unfold gift_rows, gift_points, already_applied; rewrite ?Ho, ?Hob, ?Hd, ?Hf;
      try (by intros ? []); try done; apply List.NoDup_nil.
Qed.

(** C34. Points are coins. From a database with no gifts yet, along every sequence of service
    operations, relay runs and consumer claims of any messages Kafka has, in any order and repeated
    at will, with any failures: the gift points of each viewer in each session never exceed the
    coins of the viewer's accepted gifts there, each row of gift points has an accepted order of the
    same viewer, creator, session and coins, no two rows share one, and once every announcement has
    been consumed the rows are exactly the accepted orders and the totals are equal. *)
Theorem points_match_gifts `{MySQLLaws} `{Unicode} `{ErrorText} `{OutboxOrderLaws} opening s s' :
  service_ok opening s.1 → fresh s → rtc system_step s s' →
  let t := tables s'.1 in
  (∀ u sid, gift_points_total t u sid ≤ coins_spent t u sid)
  ∧ (caught_up t → ∀ u sid, gift_points_total t u sid = coins_spent t u sid)
  ∧ ∃ os, Forall2 points_of (gift_points t) os ∧ unique_key go_GiftOrderID os
      ∧ (∀ o, In o os → In o (accepted_orders t)) ∧ (caught_up t → os ≡ₚ accepted_orders t).
Proof.
  intros Hok Hfresh Hsteps t.
  destruct (system_reachable_ok opening s s' Hsteps (fresh_ok _ _ Hok Hfresh)) as ([[_ Hdb] _] & Ha & Hp).
  destruct (points_correspond opening _ _ Hdb Ha Hp) as (os & Hall & Hnd & Hsub & Heq).
  split_and!; [| |by exists os].
  - intros u sid. unfold gift_points_total, coins_spent. rewrite (points_of_total u sid _ os) by done.
    assert (Hmul : os ⊆+ accepted_orders t).
    { apply NoDup_submseteq; [apply NoDup_ListNoDup; by eapply NoDup_map_inv|].
      intros o. rewrite !list_elem_of_In. apply Hsub. }
    apply submseteq_Permutation in Hmul as [k Hk].
    rewrite (sum_of_perm _ _ _ (where_perm (order_by_viewer_session u sid) _ _ Hk)), where_app, sum_of_app.
    assert (0 ≤ sum_of go_ChargedCoins (where_ (order_by_viewer_session u sid) k)); [|lia].
    apply sum_of_nonneg. intros o Ho. apply where_In in Ho as [Ho _].
    assert (In o (accepted_orders t)) as Hin.
    { apply list_elem_of_In. rewrite Hk. apply elem_of_app. right. by apply list_elem_of_In. }
    apply where_In in Hin as [Hin _]. destruct (wf_order_cols _ _ (proj1 Hdb) o Hin) as [Hc _].
    int_bounds. lia.
  - intros Hc u sid. unfold gift_points_total, coins_spent. rewrite (points_of_total u sid _ os) by done.
    apply sum_of_perm, where_perm. auto.
Qed.

(** The lab after the claim, consumed twice. *)
Definition lab_consumed : Db :=
  (run (points_ConsumeClaim lab_claim) ((run (points_ConsumeClaim lab_claim) (lab_db_after, [])).2.1, [])).2.1.

Lemma claim_from_kafka k : Forall (from_kafka k) (map consumer_message (k_log k)).
Proof. apply List.Forall_forall. intros msg Hin. apply in_map_iff in Hin as (m & <- & Hm). by exists m. Qed.

Lemma lab_consumed_reachable : rtc system_step (lab, lab_topic) (lab_consumed, lab_topic_after).
Proof.
  assert (Hs : ∀ d d', rtc service_step d d' → rtc system_step (d, lab_topic) (d', lab_topic)).
  { induction 1; [done|]. eapply rtc_l; [by apply system_pipeline, pipeline_service|done]. }
  assert (Hr : system_step (lab_after, lab_topic) (lab_db_after, lab_topic_after)).
  { unfold lab_db_after, lab_topic_after. rewrite <- surjective_pairing.
    apply system_pipeline, (pipeline_relay lab_env lab_kafka 200). }
  etrans; [apply Hs, lab_after_reachable|]. eapply rtc_l; [exact Hr|].
  eapply rtc_l; [apply (system_points lab_env lab_claim), claim_from_kafka|].
  apply rtc_once, (system_points lab_env lab_claim), claim_from_kafka.
Qed.

Lemma lab_caught_up : caught_up (tables lab_consumed).
Proof.
  assert (Hall : forallb (λ e, already_applied (tables lab_consumed) (ob_EventID e))
                   (gift_rows (tables lab_consumed)) = true) by (vm_compute; reflexivity).
  intros e He. exact (proj1 (forallb_forall _ _) Hall e He).
Qed.

Lemma points_match_gifts_witness :
  gift_points_total (tables lab_consumed) 2001 9001 = coins_spent (tables lab_consumed) 2001 9001
  ∧ 0 < coins_spent (tables lab_consumed) 2001 9001.
Proof.
  split; [|vm_compute; reflexivity].
  assert (Hfresh : fresh (lab, lab_topic)) by done.
  pose proof (points_match_gifts seed_opening (lab, lab_topic) (lab_consumed, lab_topic_after)
    lab_ok Hfresh lab_consumed_reachable) as Hmatch.
  cbn [fst] in Hmatch. destruct Hmatch as (_ & Heq & _). exact (Heq lab_caught_up 2001 9001).
Defined.
